(* ===== verification/_CoqProject ===== *)
-Q . S2P
Prelude.v
HtpTypes.v
HtString.v
MsgParser.v
MsgParserFacts.v
MsgParserTrace.v
MsgParserTyped.v
MsgParserSpec.v
MsgParserFraming.v
MsgParserRoundtrip.v
MsgParserResponse.v
Triples.v
MsgParserReplay.v
MsgParserSnap.v
Kvs.v
SslUtils.v
Query.v
Callbacks.v
Numtoa.v
Uri.v
Request.v
ReqParse.v
Reply.v
ReqFacts.v
ReqEnd.v
ReplyFacts.v
ReplyEnd.v
Conn.v
ConnFacts.v
Serve.v
ConnInv.v
ConnSafe.v
ConnLife.v
Accept.v
Client.v
Log.v
Listen.v
TlsInit.v
H2.v
H2Inv.v
H2Safe.v
H2Facts.v
H2Serve.v
H2Trip.v
Tls.v
Sched.v
EvThread.v
EvStages.v
EvRing.v
EvInv.v
EvStep.v
EvTurns.v
EvPool.v
EvChoose.v
