(* ===== verification/Prelude.v ===== *)
(** * libevhtp: a verification development

    libevhtp is an HTTP server and client library on top of libevent.  Bytes
    arrive in a bufferevent; the connection's read callback gives them to the
    HTTP/1.x parser; the parser calls the hooks of [request_psets], which build
    a request object and run the application's hooks and, at the end of the
    message, its callback; the application replies through evhtp_send_reply and
    its chunked variants, which append to the bufferevent's output; when the
    output has been written the write callback recycles the request and makes
    the parser ready for the next, or closes the connection.

    ** The files

    - Prelude.v: bytes, machine words, flag words, the state monad [M], and the
      lemmas and tactics about them.
    - HtpTypes.v, HtString.v: include/evhtp/parser.h (enumerations, hook table);
      the interface of the external htstring library.
    - MsgParser.v: msgparser.c, one definition per function.
      MsgParserFacts.v (bounds, termination, errors), MsgParserTrace.v (order of
      the hooks), MsgParserTyped.v (the members keep their C types),
      MsgParserSpec.v (numbers, methods, line cutting), MsgParserFraming.v
      (where a body ends), MsgParserRoundtrip.v and MsgParserResponse.v (whole
      requests and responses), MsgParserReplay.v, MsgParserSnap.v (the parser
      under any hooks).  Triples.v: pre- and postconditions of computations.
    - SslUtils.v: sslutils.c, what a server may tell of a client's certificate.
      TlsInit.v: evhtp_ssl_init.  Tls.v: the callbacks of the handshake (protocol,
      virtual host, its end) and of the session cache.  OpenSSL is a parameter of
      each.
    - Kvs.v, Query.v, Callbacks.v, Uri.v: the parts of evhtp.c that keep header
      and query lists, parse query strings and percent-encoding, hold hooks,
      path callbacks and virtual hosts, and split request targets.  Numtoa.v:
      numtoa.c.
    - Request.v, ReqParse.v: requests, connections, the store they live in, the
      hook runners, creation and recycling; the functions of [request_psets].
      ReqFacts.v, ReqEnd.v: their theorems.
    - Reply.v: htp__create_reply_, evhtp_send_reply*, chunked replies.
      ReplyFacts.v, ReplyEnd.v: what is written, and what a client reads.
    - Conn.v: connections: accepting, the callbacks of the bufferevent, pausing,
      resuming, giving away, freeing; [deliver], the event loop.  ConnInv.v
      states when a connection is in order and the rules to show that a
      computation keeps it so, ConnSafe.v goes through the parser's hooks, the
      replies and the callbacks; ConnFacts.v, Serve.v, ConnLife.v and Accept.v
      hold the theorems.  Client.v: the requests of a client.
    - Log.v: log.c, formats of log lines and the line for a request.
    - Listen.v: binding, socket options and listening, over the calls to the
      system that are made (the class [Sockets]).
    - H2.v: the HTTP/2 half of evhtp.c, with nghttp2's session as a parameter
      (the class [Nghttp2]); a connection's HTTP/2 members are [h2_state].
      H2Inv.v states the invariant of a server's connection and the rules to
      show that a computation keeps it, H2Safe.v goes through all callbacks and
      events; H2Facts.v is about what is sent and received,
      H2Serve.v and H2Trip.v about a whole request.
    - Sched.v: threads as programs of atomic actions, and their interleavings.
      EvThread.v: thread.c, mpsc-queue.h and spsc_queue.h, one action for every
      access to a word that threads share.  EvStages.v turns the program of a
      thread into an explicit automaton; EvRing.v is about the ring of cached
      commands; EvInv.v states the invariant of a pool, EvStep.v and EvTurns.v
      show that every step keeps it, EvPool.v draws the consequences.
      EvChoose.v: which worker evthr_pool_defer chooses.

    ** How the state corresponds

    A computation of the library over the parser and the store is a function in
    the monad [M] of Prelude.v; the state is the pair of the [htparser] and the
    [world] of Request.v, which holds the one connection, the requests (by
    address), the caches of reusable requests and the [evhtp_t]s (by identity,
    shared between virtual hosts).  The members of C structures are fields of
    the same name, where necessary with a prefix for the structure ([c_] for
    evhtp_connection, [r_] for evhtp_request, [d_] for the defaults).  A C
    string is a list of byte values, an integer of w bits a [Z] that is
    reduced where it is assigned, a flag word a [Z] with [has], [flag_on] and
    [flag_off].  Allocations ask [mem] (a function of their number) or an
    argument whether they succeed.  Undefined behaviour (a NULL or freed pointer
    that is followed) sets [w_ub].  The application is a parameter ([App]): its
    functions may change anything in the store.

    A bufferevent is two byte lists, the directions it is enabled for and its
    callbacks; [deliver] states what the event loop makes of an event.  This is
    what the code relies on of libevent: a callback runs when its direction is
    enabled, reading stops before the end of the input is reported, the write
    callback runs when all of the output has been written.

    ** The theorems

    - End to end: [keepalive_served] composes all of the parts, from the bytes of
      a client's requests to the responses a client's parser reads;
      [request_delivered] (bytes to callback), [reply_delivered],
      [chunked_reply_delivered] (callback to client), [made_request_delivered]
      (client to server) are its stages.
    - Life of objects: [connection_events_safe] (whatever bytes and events come,
      nothing undefined happens on a server's connection), [accept_opens],
      [freed_connection_quiet], [recycled_request_fresh].
    - The parser: [request_roundtrip], [framing_decision] (what RFC 9112 section
      6.3 says of the body of a message, and where the parser departs from it),
      [hook_protocol], [run_terminates], [parse_head_incremental], numbers and
      methods, errors.
    - The containers and parsers of evhtp.c against reference definitions:
      header lookup, query strings, percent-decoding, glob matching, callbacks,
      virtual hosts, paths.
    - HTTP/2: [h2_events_safe] (whatever nghttp2 reports and in whatever order
      things happen, nothing undefined happens and no body is read from a
      recycled request),
      [h2_request_delivered] (frames to callback), [client_request_served]
      (client to server, for the requests this library's clients make),
      [streamed_reply_delivered] (the body of a streamed reply arrives complete,
      against the specification [queue_run]), [hop_by_hop_correct] (which header
      fields are not sent).  The session obeys [Nghttp2Laws]; [toy_nghttp2] is an
      instance.
    - TLS: [handshake_protocol] (HTTP/2 is spoken exactly when it was agreed on,
      from a state with the invariant of [h2_events_safe]), [sni_vhost_chosen],
      [ssl_init_outcome]; [xheaders_report] and [cert_header_roundtrip] (the
      fields about a client's certificate).
    - Log lines: [log_line].  Sockets: [bind_socket_outcome].
    - The threads: [deferred_fifo] (the commands entered for a worker are run
      once each, in order, and only memory that is there is used),
      [no_lost_wakeup] (the threads come to rest only when all is done),
      [pool_round_robin].  They hold of every interleaving, for any number of
      workers and callers, and are proved thread by thread: [env] of EvInv.v is
      what the others may do in the meantime.
    - Behaviour that is probably not meant: [cache_race] (two workers behind the
      cache of the thread that made the pool), [pipelined_request_waits],
      [second_pause_lost], [failed_request_is_cached], [multipart_reply_desync],
      [collapse_headers_correct], [literal_percent_at_end].

    ** Fuel

    The loops that are not structural take fuel: the run and head loops of the
    parser ([run_fuel], enough by [run_terminates]), the digit loop of
    Numtoa.v (enough by [u64toa_roundtrip]) and the glob matcher.  All other
    recursion is on the data.

    ** Not modelled

    - nghttp2, which is not part of the repository: what it makes of the bytes
      of an HTTP/2 connection is a list of callbacks that comes with an event.
      The files about HTTP/1 connections are about those only: an operation with
      a branch for HTTP/2 has a definition in Conn.v or Reply.v and one in H2.v.
    - OpenSSL: its answers are a parameter.  The records of TLS are not
      distinguished from plain bytes: a connection has the flags that say whether
      it uses TLS.  evhtp_ssl_use_threads and its locks, which only OpenSSL before
      1.1 asks for.
    - The functions of evhtp.c that allocate and release an evhtp_t or hand its
      threads out (evhtp_new, evhtp_free, evhtp_use_threads), and those that only
      set a member.
    - parser.c: the previous parser, which the build no longer compiles.
    - Of thread.c: the memory orders (every access is sequentially consistent),
      evthr_pool_new, _start and _free, which loop over the functions modelled,
      and the condition variable of evthr_pool_defer_all_sync.  The callbacks of
      commands are the lists of evthr_defer calls they make.  evthr_stop is
      modelled but is not one of the calls of the systems in EvPool.v.
    - The reference-counting and bounded-queue headers that no compiled file
      uses, the examples and the tests. *)

From stdpp Require Export base list numbers option strings.
From Stdlib Require Export ZArith Lia.

#[global] Open Scope Z_scope.

(** ** Bytes and characters

    A C [char] buffer is a [list Z] whose elements are unsigned byte values.
    Character and string literals of the source are written ["x"%c] and
    [bytes "..."]. *)

Declare Scope char_scope.
Delimit Scope char_scope with c.

Definition char_of_bytes (l : list Byte.byte) : option Z :=
  match l with b :: nil => Some (Z.of_N (Byte.to_N b)) | _ => None end.
Definition char_to_bytes (_ : Z) : option (list Byte.byte) := None.
String Notation Z char_of_bytes char_to_bytes : char_scope.

(** The bytes of a string literal, without its terminating NUL. *)
Definition bytes (s : string) : list Z :=
  map (fun a => Z.of_N (Ascii.N_of_ascii a)) (String.list_ascii_of_string s).

Definition SP : Z := 32.
Definition HTAB : Z := 9.
Definition CR : Z := 13.
Definition LF : Z := 10.
Definition DQUOTE : Z := 34.

Definition is_byte (z : Z) : Prop := 0 <= z < 256.

(** ** Machine words *)

Definition u8 (z : Z) : Z := z mod 2 ^ 8.
Definition u32 (z : Z) : Z := z mod 2 ^ 32.
Definition u64 (z : Z) : Z := z mod 2 ^ 64.
Definition UINT64_MAX : Z := 2 ^ 64 - 1.

(** ** Flag words: [f & m], [f |= m] and [f &= ~m] *)

Definition has (f m : Z) : bool := negb (Z.land f m =? 0).
Definition flag_on (f m : Z) : Z := Z.lor f m.
Definition flag_off (f m : Z) : Z := Z.ldiff f m.

(** ** <ctype.h> in the C locale and <strings.h> *)

Definition isdigit (c : Z) : bool := ("0"%c <=? c) && (c <=? "9"%c).
Definition isblank (c : Z) : bool := (c =? SP) || (c =? HTAB).
Definition tolower (c : Z) : Z :=
  if ("A"%c <=? c) && (c <=? "Z"%c) then c + 32 else c.
Definition lower (s : list Z) : list Z := map tolower s.
Definition bytes_eqb (s t : list Z) : bool := bool_decide (s = t).
(** [strcasecmp(s, t) == 0] / [strncasecmp] on two whole strings. *)
Definition casecmp_eqb (s t : list Z) : bool := bool_decide (lower s = lower t).

(** [memchr]: the offset of the first [c], if any. *)
Fixpoint memchr (c : Z) (s : list Z) : option nat :=
  match s with
  | [] => None
  | x :: s' => if x =? c then Some O else S <$> memchr c s'
  end.

(** The bytes after the last [c], if there is one. *)
Fixpoint after_last (c : Z) (s : list Z) : option (list Z) :=
  match s with
  | [] => None
  | x :: s' => match after_last c s' with
               | Some t => Some t
               | None => if x =? c then Some s' else None
               end
  end.

(** Removing leading / trailing blanks (SP and HTAB). *)
Fixpoint ltrim (s : list Z) : list Z :=
  match s with x :: s' => if isblank x then ltrim s' else s | [] => [] end.
Definition rtrim (s : list Z) : list Z := reverse (ltrim (reverse s)).
Definition trim (s : list Z) : list Z := rtrim (ltrim s).

(** ** State monad *)

Declare Scope htp_scope.
Delimit Scope htp_scope with htp.

Definition M (S A : Type) : Type := S -> A * S.
Definition ret {S A} (a : A) : M S A := fun s => (a, s).
Definition bind {S A B} (m : M S A) (k : A -> M S B) : M S B :=
  fun s => let '(a, s') := m s in k a s'.
Definition gets {S A} (f : S -> A) : M S A := fun s => (f s, s).
Definition modify {S} (f : S -> S) : M S unit := fun s => (tt, f s).
Definition when {S} (b : bool) (m : M S unit) : M S unit :=
  if b then m else ret tt.
(** C's short-circuit [&&] and [||] on effectful operands. *)
Definition andM {S} (m k : M S bool) : M S bool :=
  bind m (fun b => if b then k else ret false).
Definition orM {S} (m k : M S bool) : M S bool :=
  bind m (fun b => if b then ret true else k).

Notation "x <- m ;; k" := (bind m (fun x => k))
  (at level 100, m at next level, right associativity) : htp_scope.
Notation "m ;; k" := (bind m (fun _ => k))
  (at level 100, right associativity) : htp_scope.
Notation "m &&> k" := (andM m k) (at level 55, right associativity) : htp_scope.
Notation "m ||> k" := (orM m k) (at level 56, right associativity) : htp_scope.
#[global] Open Scope htp_scope.

#[global] Arguments bytes : simpl never.
#[global] Arguments has : simpl never.
#[global] Arguments flag_on : simpl never.
#[global] Arguments flag_off : simpl never.
#[global] Arguments u8 : simpl never.
#[global] Arguments u32 : simpl never.
#[global] Arguments u64 : simpl never.

(** ** Record update: [r <| f := v |>]

    A record type names its fields once, as [eta_fields]; the setter of each
    field is found by abstracting that field in the eta-expansion. *)

Class EtaFields (R : Type) := eta_fields : R -> R.
Class FieldSetter {R T} (f : R -> T) := set_field : (T -> T) -> R -> R.
#[global] Arguments set_field {R T} f {_} _ _ /.

Ltac derive_setter :=
  match goal with
  | |- @FieldSetter ?R ?T ?f =>
      let eta := constr:(@eta_fields R _) in
      let body := eval hnf in eta in
      match eval pattern f in body with
      | ?g _ =>
          let t := eval cbv beta in
            (fun (upd : T -> T) (r : R) => g (fun r' => upd (f r')) r) in
          exact t
      end
  end.
#[global] Hint Extern 1 (FieldSetter _) => derive_setter : typeclass_instances.

Notation "r <| f := v |>" := (set_field f (fun _ => v) r)
  (at level 1, left associativity, f at level 99, v at level 99) : htp_scope.

(** ** Lemmas on strings *)

Lemma ltrim_none s : Forall (fun x => isblank x = false) s -> ltrim s = s.
Proof. destruct 1 as [|x s Hx _]; [done|]. cbn. by rewrite Hx. Qed.


(** ** Lemmas on flag words *)

Section Flags.
Implicit Types f m : Z.

Lemma has_on_eq f m : m <> 0 -> has (flag_on f m) m = true.
Proof.
  intros Hm. unfold has, flag_on.
  rewrite Z.land_lor_distr_l, Z.land_diag.
  destruct (Z.eqb_spec (Z.lor (Z.land f m) m) 0) as [H|]; [|done].
  apply Z.lor_eq_0_iff in H. lia.
Qed.

Lemma has_on_ne f m m' : Z.land m m' = 0 -> has (flag_on f m) m' = has f m'.
Proof.
  intros Hm. unfold has, flag_on. by rewrite Z.land_lor_distr_l, Hm, Z.lor_0_r.
Qed.

Lemma has_off_eq f m : has (flag_off f m) m = false.
Proof.
  unfold has, flag_off. replace (Z.land (Z.ldiff f m) m) with 0; [done|].
  apply Z.bits_inj'. intros i Hi.
  rewrite Z.land_spec, Z.ldiff_spec, Z.bits_0.
  by destruct (Z.testbit f i), (Z.testbit m i).
Qed.

Lemma has_off_ne f m m' : Z.land m m' = 0 -> has (flag_off f m) m' = has f m'.
Proof.
  intros Hm. unfold has, flag_off. f_equal. f_equal.
  apply Z.bits_inj'. intros i Hi.
  assert (Z.testbit (Z.land m m') i = false) as Hb by (by rewrite Hm, Z.bits_0).
  rewrite Z.land_spec in Hb.
  rewrite !Z.land_spec, Z.ldiff_spec.
  destruct (Z.testbit f i), (Z.testbit m i), (Z.testbit m' i); done.
Qed.

Lemma has_mask_eq f m : has (Z.land f m) m = has f m.
Proof. unfold has. by rewrite <- Z.land_assoc, Z.land_diag. Qed.

Lemma has_mask_ne f m m' : Z.land m m' = 0 -> has (Z.land f m) m' = false.
Proof. intros Hm. unfold has. by rewrite <- Z.land_assoc, Hm, Z.land_0_r. Qed.

Lemma has_zero m : has 0 m = false.
Proof. done. Qed.
End Flags.

Create Rewrite HintDb flags.
#[export] Hint Rewrite has_on_eq has_on_ne has_off_eq has_off_ne has_mask_eq
  has_mask_ne has_zero using (first [reflexivity | discriminate]) : flags.

(** ** Hoare triples for the state monad *)

Definition hoare {S A} (P : S -> Prop) (m : M S A) (Q : A -> S -> Prop) : Prop :=
  forall s, P s -> Q (fst (m s)) (snd (m s)).

Section Hoare.
Context {S : Type}.
Implicit Types P : S -> Prop.

Lemma hoare_ret {A} P (a : A) (Q : A -> S -> Prop) :
  (forall s, P s -> Q a s) -> hoare P (ret a) Q.
Proof. intros H s Hs. by apply H. Qed.

Lemma hoare_bind {A B} P (m : M S A) (k : A -> M S B) R Q :
  hoare P m R -> (forall a, hoare (R a) (k a) Q) -> hoare P (bind m k) Q.
Proof.
  intros Hm Hk s Hs. unfold bind. specialize (Hm s Hs).
  destruct (m s) as [a s'] eqn:E. cbn in Hm. exact (Hk a s' Hm).
Qed.

(** Reading the state: the continuation is verified for each state read. *)
Lemma hoare_gets {A B} P (f : S -> A) (k : A -> M S B) Q :
  (forall a, hoare (fun s => P s /\ f s = a) (k a) Q) -> hoare P (bind (gets f) k) Q.
Proof. intros H s Hs. by apply (H (f s)). Qed.

Lemma hoare_modify {B} P (f : S -> S) (k : unit -> M S B) P' Q :
  (forall s, P s -> P' (f s)) -> hoare P' (k tt) Q ->
  hoare P (bind (modify f) k) Q.
Proof. intros Hf Hk s Hs. exact (Hk _ (Hf s Hs)). Qed.

Lemma hoare_conseq {A} P P' (m : M S A) Q Q' :
  hoare P' m Q' -> (forall s, P s -> P' s) -> (forall a s, Q' a s -> Q a s) ->
  hoare P m Q.
Proof. intros Hm HP HQ s Hs. apply HQ, Hm, HP, Hs. Qed.

(** The value returned, whatever the state. *)
Lemma hoare_bind_any {A B} P (m : M S A) (k : A -> M S B) Q :
  (forall a, hoare (fun _ => True) (k a) Q) -> hoare P (bind m k) Q.
Proof. intros Hk. by apply (hoare_bind _ _ _ (fun _ _ => True)). Qed.

Lemma hoare_andM P (m k : M S bool) (R : bool -> S -> Prop) Q :
  hoare P m R -> hoare (R true) k Q ->
  (forall s, R false s -> Q false s) -> hoare P (andM m k) Q.
Proof.
  intros Hm Hk Hf. apply (hoare_bind _ _ _ R); [done|].
  intros [|]; [done|]. intros s Hs. exact (Hf s Hs).
Qed.

Lemma hoare_when P b (m : M S unit) (Q : unit -> S -> Prop) :
  (b = true -> hoare P m Q) -> (b = false -> forall s, P s -> Q tt s) ->
  hoare P (when b m) Q.
Proof. destruct b; intros H1 H2; [by apply H1|]. intros s Hs. by apply H2. Qed.

End Hoare.

(** Walks through a computation when only the returned value matters. *)
Ltac hoare_value :=
  repeat first
    [ apply hoare_ret; intros
    | apply hoare_bind_any; intros
    | progress (case_match; subst) ].

(** ** Lemmas on [memchr] *)

Lemma memchr_lt c s i : memchr c s = Some i -> (i < length s)%nat.
Proof.
  revert i. induction s as [|x s IH]; intros i; cbn; [done|].
  destruct (x =? c); [intros [= <-]; lia|].
  destruct (memchr c s) as [j|]; cbn; [|done].
  intros [= <-]. specialize (IH j eq_refl). lia.
Qed.

Lemma memchr_app_some c s t i : memchr c s = Some i -> memchr c (s ++ t) = Some i.
Proof.
  revert i. induction s as [|x s IH]; intros i; cbn; [done|].
  destruct (x =? c); [done|].
  destruct (memchr c s) as [j|]; cbn; [|done].
  intros [= <-]. by rewrite (IH j).
Qed.

Lemma memchr_none c s : memchr c s = None <-> Forall (fun x => x <> c) s.
Proof.
  induction s as [|x s IH]; cbn; [done|].
  rewrite Forall_cons. destruct (Z.eqb_spec x c); [naive_solver|].
  destruct (memchr c s); cbn; naive_solver.
Qed.

Lemma memchr_app_none c s t :
  Forall (fun x => x <> c) s ->
  memchr c (s ++ t) = (fun i => (length s + i)%nat) <$> memchr c t.
Proof.
  induction 1 as [|x s Hx _ IH]; cbn; [by destruct (memchr c t)|].
  destruct (Z.eqb_spec x c); [done|]. rewrite IH.
  by destruct (memchr c t).
Qed.

(** Right-nests the appends of both sides. *)
Ltac app_norm := repeat first [rewrite <- app_assoc | rewrite <- app_comm_cons | rewrite app_nil_l].

Lemma if_same {A} (b : bool) (x : A) : (if b then x else x) = x.
Proof. by destruct b. Qed.
