(* ===== verification/HtpTypes.v ===== *)
(** * parser.h: the data types both HTTP/1.x parsers share

    The enumerations of include/evhtp/parser.h, the hook table
    ([htparse_hooks]) and the calling convention of a hook.  The hook table is
    polymorphic in the parser structure [P] (parser.c and msgparser.c each
    define their own [struct htparser]) and in the state [W] of whoever
    installed the hooks (the [userdata] world). *)

From S2P Require Import Prelude.

Inductive htp_type := htp_type_request | htp_type_response.

Inductive htp_scheme :=
| htp_scheme_none | htp_scheme_ftp | htp_scheme_http | htp_scheme_https
| htp_scheme_nfs | htp_scheme_unknown.

Inductive htp_method :=
| htp_method_UNKNOWN | htp_method_GET | htp_method_HEAD | htp_method_POST
| htp_method_PUT | htp_method_DELETE | htp_method_MKCOL | htp_method_COPY
| htp_method_MOVE | htp_method_OPTIONS | htp_method_PROPFIND
| htp_method_PROPPATCH | htp_method_LOCK | htp_method_UNLOCK
| htp_method_TRACE | htp_method_CONNECT | htp_method_PATCH.

(** The enumerator's integer value, in declaration order. *)
Definition htp_method_index (m : htp_method) : nat :=
  match m with
  | htp_method_UNKNOWN => 0 | htp_method_GET => 1 | htp_method_HEAD => 2
  | htp_method_POST => 3 | htp_method_PUT => 4 | htp_method_DELETE => 5
  | htp_method_MKCOL => 6 | htp_method_COPY => 7 | htp_method_MOVE => 8
  | htp_method_OPTIONS => 9 | htp_method_PROPFIND => 10
  | htp_method_PROPPATCH => 11 | htp_method_LOCK => 12
  | htp_method_UNLOCK => 13 | htp_method_TRACE => 14
  | htp_method_CONNECT => 15 | htp_method_PATCH => 16
  end%nat.
Definition htp_method_LAST : nat := 17%nat.

Inductive htpparse_error :=
| htparse_error_none | htparse_error_too_big | htparse_error_inval_method
| htparse_error_inval_reqline | htparse_error_inval_schema
| htparse_error_inval_proto | htparse_error_inval_ver
| htparse_error_inval_hdr | htparse_error_inval_chunk_sz
| htparse_error_inval_chunk | htparse_error_inval_state
| htparse_error_user | htparse_error_status | htparse_error_generic.

Definition htpparse_error_index (e : htpparse_error) : nat :=
  match e with
  | htparse_error_none => 0 | htparse_error_too_big => 1
  | htparse_error_inval_method => 2 | htparse_error_inval_reqline => 3
  | htparse_error_inval_schema => 4 | htparse_error_inval_proto => 5
  | htparse_error_inval_ver => 6 | htparse_error_inval_hdr => 7
  | htparse_error_inval_chunk_sz => 8 | htparse_error_inval_chunk => 9
  | htparse_error_inval_state => 10 | htparse_error_user => 11
  | htparse_error_status => 12 | htparse_error_generic => 13
  end%nat.

#[export] Instance htp_type_eq_dec : EqDecision htp_type.
Proof. solve_decision. Defined.
#[export] Instance htp_scheme_eq_dec : EqDecision htp_scheme.
Proof. solve_decision. Defined.
#[export] Instance htp_method_eq_dec : EqDecision htp_method.
Proof. solve_decision. Defined.
#[export] Instance htpparse_error_eq_dec : EqDecision htpparse_error.
Proof. solve_decision. Defined.

(** The fields of [struct htparse_hooks]: the points where a parser calls
    back.  [h_*] avoids clashes with the parser's own field names. *)
Inductive hook_name :=
| on_msg_begin | h_method | h_scheme | h_host | h_port | h_path | h_args
| h_uri | on_hdrs_begin | h_hdr_key | h_hdr_val | h_hostname
| on_hdrs_complete | on_new_chunk | on_chunk_complete | on_chunks_complete
| h_body | on_msg_complete.

#[export] Instance hook_name_eq_dec : EqDecision hook_name.
Proof. solve_decision. Defined.

(** A hook may change the parser (through its public interface) and the
    caller's world; it returns C's [int], where 0 means success.  A plain
    [htparse_hook] takes no data: it is called with [[]]. *)
Definition htparse_hook (P W : Type) : Type := list Z -> P * W -> Z * (P * W).

(** The hook table: [None] is a NULL member. *)
Definition htparse_hooks (P W : Type) : Type :=
  hook_name -> option (htparse_hook P W).

(** An observed hook call. *)
Definition event : Type := hook_name * list Z.

(** [logged hs] calls [hs] and appends every call made to a log: the means by
    which theorems speak about the calls a parser makes to arbitrary hooks. *)
Definition logged {P W} (hs : htparse_hooks P W) :
    htparse_hooks P (list event * W) :=
  fun n => Some (fun d '(p, (log, w)) =>
    match hs n with
    | Some f => let '(r, (p', w')) := f d (p, w) in
                (r, (p', (log ++ [(n, d)], w')))
    | None => (0, (p, (log ++ [(n, d)], w)))
    end).

(** Hooks that accept everything and have no effect. *)
Definition null_hooks {P} : htparse_hooks P unit := fun _ => None.
