(* ===== verification/HtString.v ===== *)
(** * The interface of the htstring library

    msgparser.c is built on the external htstring library (tokenizer.h,
    parsed_uri.h, htstring.h only forward to it), whose code is not part of
    this repository.  [HtStringLib] lists the functions msgparser.c calls; the
    parser is a function of it, and theorems that need more than its type
    name the documented behaviour they use in [HtStringLaws].  [ref_lib] is a
    small concrete instance, for executing the parser on sample messages. *)

From S2P Require Import Prelude.

Class HtStringLib := {
  (** [htstring_equalsi]: equality of two strings, ignoring ASCII case *)
  htstring_equalsi : list Z -> list Z -> bool;
  (** the [name] of each element [ht_element_iter_next] yields, in order *)
  ht_elements : list Z -> list (list Z);
  (** [parse_uri_view target is_connect] and the accessors of its result *)
  parsed_uri : Type;
  parse_uri_view : list Z -> bool -> parsed_uri;
  parsed_uri_has_error : parsed_uri -> bool;
  parsed_uri_is_authority_form : parsed_uri -> bool;
  parsed_uri_has_port : parsed_uri -> bool;
  parsed_uri_has_query : parsed_uri -> bool;
  parsed_uri_get_scheme : list Z -> parsed_uri -> list Z;
  parsed_uri_get_host : list Z -> parsed_uri -> list Z;
  parsed_uri_get_host_port : list Z -> parsed_uri -> list Z;
  parsed_uri_get_path : list Z -> parsed_uri -> list Z;
  parsed_uri_get_query : list Z -> parsed_uri -> list Z
}.

Class HtStringLaws (lib : HtStringLib) : Prop := {
  equalsi_spec : forall s t,
    htstring_equalsi s t = bool_decide (lower s = lower t);
  (** a list whose only element is a token without separators *)
  elements_token : forall s,
    s <> [] ->
    Forall (fun c => c <> ","%c /\ c <> ";"%c /\ c <> "="%c /\ c <> SP /\
                     c <> HTAB /\ c <> DQUOTE) s ->
    ht_elements s = [s]
}.

(** ** A concrete instance *)

(** The bytes before the first [c], and those after it if there is one. *)
Fixpoint split_at (c : Z) (s : list Z) : list Z * option (list Z) :=
  match s with
  | [] => ([], None)
  | x :: s' => if x =? c then ([], Some s')
               else let '(a, b) := split_at c s' in (x :: a, b)
  end.

Definition element_name (s : list Z) : list Z :=
  trim (fst (split_at "="%c (fst (split_at ";"%c s)))).

Fixpoint ref_elements (fuel : nat) (s : list Z) : list (list Z) :=
  match fuel with
  | O => []
  | S fuel =>
      let '(a, b) := split_at ","%c s in
      let rest := match b with Some s' => ref_elements fuel s' | None => [] end in
      match element_name a with [] => rest | n => n :: rest end
  end.

Record ref_uri := mk_ref_uri {
  ru_error : bool; ru_authority : bool; ru_scheme : list Z;
  ru_host_port : list Z; ru_path : list Z; ru_query : option (list Z) }.

Definition ref_parse_uri (t : list Z) (connect : bool) : ref_uri :=
  if connect then mk_ref_uri false true [] t [] None
  else
    let '(scheme, rest) := split_at ":"%c t in
    match rest with
    | Some (s1 :: s2 :: r) =>
        if (s1 =? "/"%c) && (s2 =? "/"%c) then
          let '(main, q) := split_at "?"%c r in
          let '(auth, path) := split_at "/"%c main in
          mk_ref_uri false false scheme auth
            (match path with Some p' => "/"%c :: p' | None => [] end) q
        else mk_ref_uri true false [] [] [] None
    | _ => mk_ref_uri true false [] [] [] None
    end.

#[export] Instance ref_lib : HtStringLib := {
  htstring_equalsi := casecmp_eqb;
  ht_elements s := ref_elements (S (length s)) s;
  parsed_uri := ref_uri;
  parse_uri_view := ref_parse_uri;
  parsed_uri_has_error := ru_error;
  parsed_uri_is_authority_form := ru_authority;
  parsed_uri_has_port u := bool_decide (is_Some (snd (split_at ":"%c (ru_host_port u))));
  parsed_uri_has_query u := bool_decide (is_Some (ru_query u));
  parsed_uri_get_scheme _ := ru_scheme;
  parsed_uri_get_host _ u := fst (split_at ":"%c (ru_host_port u));
  parsed_uri_get_host_port _ := ru_host_port;
  parsed_uri_get_path _ := ru_path;
  parsed_uri_get_query _ u := default [] (ru_query u)
}.

Lemma split_at_none c s :
  Forall (fun x => x <> c) s -> split_at c s = (s, None).
Proof.
  induction 1 as [|x s Hx _ IH]; [done|]. cbn.
  destruct (Z.eqb_spec x c); [done|]. by rewrite IH.
Qed.

#[export] Instance ref_laws : HtStringLaws ref_lib.
Proof.
  split; [done|]. intros s Hne Hs.
  change (ref_elements (S (length s)) s = [s]). cbn [ref_elements].
  assert (forall P : Z -> Prop,
    (forall c, c <> ","%c /\ c <> ";"%c /\ c <> "="%c /\ c <> SP /\
               c <> HTAB /\ c <> DQUOTE -> P c) -> Forall P s) as Hall.
  { intros P HP. eapply Forall_impl; [exact Hs|]. exact HP. }
  rewrite (split_at_none ","%c) by (apply Hall; tauto). unfold element_name.
  rewrite (split_at_none ";"%c) by (apply Hall; tauto). cbn [fst].
  rewrite (split_at_none "="%c) by (apply Hall; tauto). cbn [fst].
  assert (Forall (fun x => isblank x = false) s) as Hb.
  { apply Hall. unfold isblank. intros c Hc.
    destruct (Z.eqb_spec c SP), (Z.eqb_spec c HTAB); tauto. }
  unfold trim, rtrim. rewrite (ltrim_none s) by done.
  rewrite (ltrim_none (reverse s)) by (by apply Forall_reverse).
  rewrite reverse_involutive. by destruct s.
Qed.
