(* ===== verification/MsgParser.v ===== *)
(** * msgparser.c: the HTTP/1.x message parser the library is built with

    [htparser] is [struct htparser] of msgparser.c, one definition per C
    function, in source order.  A function that changes the parser or calls a
    hook is a computation in the state [St W], the parser and the world of the
    hooks.  Buffers are [list Z]; a pointer that walks the caller's buffer is
    the suffix it points at.  The run loop and the head loop take fuel and
    return [None] when it runs out; [htparser_run] supplies [run_fuel], which
    MsgParserFacts proves to be enough. *)

From S2P Require Import Prelude HtpTypes HtString.

Inductive state_t :=
| S_START | S_HEAD_LINE | S_HEADERS | S_BODY | S_TRAILERS | S_COMPLETE | S_ERROR.
Inductive body_t := B_NONE | B_LENGTH | B_CHUNKED | B_IDENTITY.
Inductive chunk_t := C_SIZE | C_DATA | C_DATA_END.

#[export] Instance state_t_eq_dec : EqDecision state_t.
Proof. solve_decision. Defined.
#[export] Instance body_t_eq_dec : EqDecision body_t.
Proof. solve_decision. Defined.
#[export] Instance chunk_t_eq_dec : EqDecision chunk_t.
Proof. solve_decision. Defined.

Definition F_HAVE_HOST       : Z := Z.shiftl 1 0.
Definition F_HAVE_CL         : Z := Z.shiftl 1 1.
Definition F_HAVE_TE         : Z := Z.shiftl 1 2.
Definition F_CHUNKED         : Z := Z.shiftl 1 3.
Definition F_TE_BAD          : Z := Z.shiftl 1 4.
Definition F_TE_UNKNOWN      : Z := Z.shiftl 1 5.
Definition F_HAVE_CT         : Z := Z.shiftl 1 6.
Definition F_MULTIPART       : Z := Z.shiftl 1 7.
Definition F_CONN_KEEP_ALIVE : Z := Z.shiftl 1 8.
Definition F_CONN_CLOSE      : Z := Z.shiftl 1 9.
Definition F_SKIP_BODY       : Z := Z.shiftl 1 10.
Definition F_PAUSED          : Z := Z.shiftl 1 11.

Record htp_http1config := {
  max_line_length : Z;
  max_header_count : Z;
  max_empty_line_count : Z;
  allow_folding : bool
}.

Definition default_config : htp_http1config := {|
  max_line_length := 8192;
  max_header_count := 100;
  max_empty_line_count := 10;
  allow_folding := false
|}.

Record htparser := {
  config : option htp_http1config;
  userdata : Z;
  type : htp_type;
  state : state_t;
  error : htpparse_error;
  body : body_t;
  chunk : chunk_t;
  method : htp_method;
  scheme : htp_scheme;
  status : Z;
  major : Z;
  minor : Z;
  flags : Z;
  content_len : Z;
  orig_content_len : Z;
  header_count : Z;
  empty_lines : Z;
  bytes_read : Z;
  total_bytes_read : Z
}.

#[export] Instance eta_htparser : EtaFields htparser := fun p =>
  Build_htparser (config p) (userdata p) (type p) (state p) (error p) (body p)
    (chunk p) (method p) (scheme p) (status p) (major p) (minor p) (flags p)
    (content_len p) (orig_content_len p) (header_count p) (empty_lines p)
    (bytes_read p) (total_bytes_read p).

(** [*p->config]: the pointer is set by [htparser_new_] and never cleared. *)
Definition cfg (p : htparser) : htp_http1config := default default_config (config p).

Definition flag (p : htparser) (m : Z) : bool := has (flags p) m.
Definition set_flag (m : Z) (p : htparser) : htparser :=
  p <| flags := flag_on (flags p) m |>.
Definition clear_flag (m : Z) (p : htparser) : htparser :=
  p <| flags := flag_off (flags p) m |>.

Definition St (W : Type) : Type := htparser * W.
Definition hook_table (W : Type) : Type := option (htparse_hooks htparser W).

Definition getp {W A} (f : htparser -> A) : M (St W) A := fun s => (f s.1, s).
Definition updp {W} (f : htparser -> htparser) : M (St W) unit :=
  fun s => (tt, (f s.1, s.2)).

(** ** Strings of the string tables *)

Definition method_strmap : list string :=
  [ "UNKNOWN"; "GET";      "HEAD";      "POST";  "PUT";    "DELETE";
    "MKCOL";   "COPY";     "MOVE";      "OPTIONS"; "PROPFIND"; "PROPATCH";
    "LOCK";    "UNLOCK";   "TRACE";     "CONNECT"; "PATCH" ]%string.

Definition errstr_map : list string :=
  [ "htparse_error_none"; "htparse_error_too_big";
    "htparse_error_invalid_method"; "htparse_error_invalid_requestline";
    "htparse_error_invalid_schema"; "htparse_error_invalid_protocol";
    "htparse_error_invalid_version"; "htparse_error_invalid_header";
    "htparse_error_invalid_chunk_size"; "htparse_error_invalid_chunk";
    "htparse_error_invalid_state"; "htparse_error_user";
    "htparse_error_status"; "htparse_error_unknown" ]%string.

(** ** Hooks *)

Definition fail {W} (e : htpparse_error) : M (St W) bool :=
  updp (fun p => p <| error := e |> <| state := S_ERROR |>) ;; ret false.

(** The macros [HOOK] ([d = []]) and [DHOOK]. *)
Definition HOOK {W} (hooks : hook_table W) (n : hook_name) (d : list Z) :
    M (St W) bool := fun s =>
  match hooks with
  | None => (true, s)
  | Some hs =>
      match hs n with
      | None => (true, s)
      | Some f => let '(r, s') := f d s in
                  if r =? 0 then (true, s') else fail htparse_error_user s'
      end
  end.

(** ** Lines *)

Inductive line_result :=
| line_ok (line : list Z) (used : nat)   (** 1 *)
| line_more                              (** 0 *)
| line_too_long.                         (** -1 *)

Definition take_line (p : htparser) (data : list Z) : line_result :=
  let max := max_line_length (cfg p) in
  match memchr LF data with
  | None => if (negb (max =? 0)) && (max <? Z.of_nat (length data))
            then line_too_long else line_more
  | Some nl =>
      let n := if (0 <? nl)%nat && (nth (nl - 1) data 0 =? CR)
               then (nl - 1)%nat else nl in
      if (negb (max =? 0)) && (max <? Z.of_nat n) then line_too_long
      else line_ok (take n data) (nl + 1)
  end.

(** ** Small helpers *)

Definition methods : list (string * htp_method) :=
  [ ("GET",      htp_method_GET);      ("PUT",      htp_method_PUT);
    ("POST",     htp_method_POST);     ("HEAD",     htp_method_HEAD);
    ("COPY",     htp_method_COPY);     ("MOVE",     htp_method_MOVE);
    ("LOCK",     htp_method_LOCK);     ("PATCH",    htp_method_PATCH);
    ("TRACE",    htp_method_TRACE);    ("MKCOL",    htp_method_MKCOL);
    ("DELETE",   htp_method_DELETE);   ("UNLOCK",   htp_method_UNLOCK);
    ("OPTIONS",  htp_method_OPTIONS);  ("CONNECT",  htp_method_CONNECT);
    ("PROPFIND", htp_method_PROPFIND); ("PROPPATCH", htp_method_PROPPATCH)
  ]%string.

Fixpoint method_lookup (tbl : list (string * htp_method)) (m : list Z) : htp_method :=
  match tbl with
  | [] => htp_method_UNKNOWN
  | (name, meth) :: tbl' =>
      if bytes_eqb (bytes name) m then meth else method_lookup tbl' m
  end.
Definition method_from (m : list Z) : htp_method := method_lookup methods m.

Fixpoint skip_spaces (s : list Z) : list Z :=
  match s with c :: s' => if c =? SP then skip_spaces s' else s | [] => [] end.

(** The token and the cursor after it. *)
Definition next_token (cur : list Z) : list Z * list Z :=
  let s := skip_spaces cur in
  let t := default (length s) (memchr SP s) in
  (take t s, skip_spaces (drop t s)).

Definition parse_version {W} (v : list Z) : M (St W) bool :=
  match v with
  | [h; t1; t2; pp; sl; d1; dot; d2] =>
      if bytes_eqb [h; t1; t2; pp; sl] (bytes "HTTP/") && isdigit d1 &&
         (dot =? "."%c) && isdigit d2 && negb (d1 =? "0"%c)
      then updp (fun p => p <| major := d1 - "0"%c |> <| minor := d2 - "0"%c |>) ;;
           ret true
      else ret false
  | _ => ret false
  end.

Fixpoint parse_u64_loop (s : list Z) (v : Z) : option Z :=
  match s with
  | [] => Some v
  | c :: s' =>
      let d := u32 (c - "0"%c) in
      if (9 <? d) || ((UINT64_MAX - d) / 10 <? v) then None
      else parse_u64_loop s' (u64 (v * 10 + d))
  end.
Definition parse_u64 (s : list Z) : option Z :=
  match s with [] => None | _ => parse_u64_loop s 0 end.

Definition hexval (c : Z) : Z :=
  if ("0"%c <=? c) && (c <=? "9"%c) then c - "0"%c
  else let c := Z.lor c 32 in
       if ("a"%c <=? c) && (c <=? "f"%c) then c - "a"%c + 10 else -1.

(** The digits of a chunk-size, their number, and what follows them. *)
Fixpoint chunk_digits (s : list Z) (n : nat) (v : Z) : option (Z * nat * list Z) :=
  match s with
  | [] => Some (v, n, [])
  | c :: s' =>
      if 0 <=? hexval c then
        if (n =? 15)%nat then None
        else chunk_digits s' (S n) (Z.lor (u64 (Z.shiftl v 4)) (hexval c))
      else Some (v, n, s)
  end.

Fixpoint chunk_ext_ok (s : list Z) : bool :=
  match s with
  | [] => true
  | c :: s' =>
      if c =? ";"%c then true
      else if negb (c =? SP) && negb (c =? HTAB) then false
      else chunk_ext_ok s'
  end.

Definition parse_chunk_size (s : list Z) : option Z :=
  match chunk_digits s 0 0 with
  | None => None
  | Some (v, n, rest) =>
      if (n =? 0)%nat then None
      else if chunk_ext_ok rest then Some v else None
  end.

(** ** Request line and status line *)

Section Lines.
Context `{lib : HtStringLib} {W : Type}.
Implicit Types (hooks : hook_table W).

Definition scheme_from (s : list Z) : htp_scheme :=
  if htstring_equalsi s (bytes "http") then htp_scheme_http
  else if htstring_equalsi s (bytes "https") then htp_scheme_https
  else if htstring_equalsi s (bytes "ftp") then htp_scheme_ftp
  else if htstring_equalsi s (bytes "nfs") then htp_scheme_nfs
  else htp_scheme_unknown.

Definition emit_host_port hooks (base : list Z) (u : parsed_uri) : M (St W) bool :=
  HOOK hooks h_host (parsed_uri_get_host base u) &&>
  if parsed_uri_has_port u then
    match after_last ":"%c (parsed_uri_get_host_port base u) with
    | Some port => HOOK hooks h_port port
    | None => ret true
    end
  else ret true.

(** Called with a non-empty target [t]. *)
Definition emit_target hooks (t : list Z) : M (St W) bool :=
  if nth 0 t 0 =? "/"%c then
    let q := memchr "?"%c t in
    let n := default (length t) q in
    updp (fun p => p <| scheme := htp_scheme_none |>) ;;
    HOOK hooks h_path (take n t) &&>
    match q with
    | Some q => HOOK hooks h_args (drop (q + 1) t)
    | None => ret true
    end &&>
    HOOK hooks h_uri t
  else if (length t =? 1)%nat && (nth 0 t 0 =? "*"%c) then
    updp (fun p => p <| scheme := htp_scheme_none |>) ;;
    HOOK hooks h_path (take 1 t) &&> HOOK hooks h_uri t
  else
    meth <- getp method ;;
    let u := parse_uri_view t (bool_decide (meth = htp_method_CONNECT)) in
    if parsed_uri_has_error u then fail htparse_error_inval_reqline
    else if parsed_uri_is_authority_form u then
      updp (fun p => p <| scheme := htp_scheme_none |>) ;;
      emit_host_port hooks t u &&>
      HOOK hooks h_path (bytes "/") &&>
      HOOK hooks h_uri t
    else
      let sch := parsed_uri_get_scheme t u in
      updp (fun p => p <| scheme := scheme_from sch |>) ;;
      if bool_decide (scheme_from sch = htp_scheme_unknown)
      then fail htparse_error_inval_schema
      else
        let path := parsed_uri_get_path t u in
        HOOK hooks h_scheme sch &&>
        emit_host_port hooks t u &&>
        HOOK hooks h_path (match path with [] => bytes "/" | _ => path end) &&>
        (if parsed_uri_has_query u
         then HOOK hooks h_args (parsed_uri_get_query t u) else ret true) &&>
        HOOK hooks h_uri t.

Definition parse_request_line hooks (line : list Z) : M (St W) bool :=
  let '(meth, line) := next_token line in
  let '(target, line) := next_token line in
  let '(ver, line) := next_token line in
  updp (fun p => p <| method := method_from meth |>) ;;
  if bool_decide (method_from meth = htp_method_UNKNOWN)
  then fail htparse_error_inval_method
  else if (length target =? 0)%nat || negb (length line =? 0)%nat
  then fail htparse_error_inval_reqline
  else
    ok <- parse_version ver ;;
    if negb ok then fail htparse_error_inval_ver
    else HOOK hooks h_method meth &&> emit_target hooks target.

Definition parse_status_line (line : list Z) : M (St W) bool :=
  ok <- (if (length line <? 12)%nat then ret false
         else parse_version (take 8 line)) ;;
  if negb ok then fail htparse_error_inval_ver
  else
    let s := fun i => nth i line 0 in
    if negb (s 8%nat =? SP) || negb (isdigit (s 9%nat)) ||
       negb (isdigit (s 10%nat)) || negb (isdigit (s 11%nat)) ||
       ((12 <? length line)%nat && negb (s 12%nat =? SP))
    then fail htparse_error_status
    else
      let st := (s 9%nat - "0"%c) * 100 + (s 10%nat - "0"%c) * 10 +
                (s 11%nat - "0"%c) in
      updp (fun p => p <| status := st |>) ;;
      if st <? 100 then fail htparse_error_status else ret true.

(** ** Header fields *)

Definition is_known_coding (c : list Z) : bool :=
  htstring_equalsi c (bytes "gzip") || htstring_equalsi c (bytes "deflate") ||
  htstring_equalsi c (bytes "compress") || htstring_equalsi c (bytes "x-gzip").

(** One round of the loop of [note_transfer_encoding]. *)
Definition note_coding (p : htparser) (el : list Z) : htparser :=
  if htstring_equalsi el (bytes "chunked") then
    let p := if flag p F_CHUNKED then set_flag F_TE_BAD p else p in
    set_flag F_CHUNKED p
  else
    let p := if flag p F_CHUNKED then set_flag F_TE_BAD p else p in
    if is_known_coding el then p else set_flag F_TE_UNKNOWN p.

Definition note_transfer_encoding (v : list Z) (p : htparser) : htparser :=
  foldl note_coding (set_flag F_HAVE_TE p) (ht_elements v).

Definition note_connection_token (p : htparser) (el : list Z) : htparser :=
  if htstring_equalsi el (bytes "close") then set_flag F_CONN_CLOSE p
  else if htstring_equalsi el (bytes "keep-alive")
  then set_flag F_CONN_KEEP_ALIVE p else p.

Definition note_connection (v : list Z) (p : htparser) : htparser :=
  foldl note_connection_token p (ht_elements v).

Fixpoint note_content_length_loop (els : list (list Z)) (any : bool) : M (St W) bool :=
  match els with
  | [] => ret any ||> fail htparse_error_inval_hdr
  | el :: els' =>
      match parse_u64 el with
      | None => fail htparse_error_inval_hdr
      | Some n =>
          p <- gets fst ;;
          if flag p F_HAVE_CL && negb (n =? orig_content_len p)
          then fail htparse_error_inval_hdr
          else updp (fun p => set_flag F_HAVE_CL (p <| orig_content_len := n |>)) ;;
               note_content_length_loop els' true
      end
  end.
Definition note_content_length (v : list Z) : M (St W) bool :=
  note_content_length_loop (ht_elements v) false.

(** The [switch (name.len)] of [parse_header], for a header that is not a
    trailer. *)
Definition note_header hooks (name value : list Z) : M (St W) bool :=
  p <- gets fst ;;
  match length name with
  | 4%nat =>
      if negb (flag p F_HAVE_HOST) && htstring_equalsi name (bytes "Host") then
        updp (set_flag F_HAVE_HOST) ;; HOOK hooks h_hostname value
      else ret true
  | 10%nat =>
      if htstring_equalsi name (bytes "Connection")
      then updp (note_connection value) ;; ret true else ret true
  | 12%nat =>
      if negb (flag p F_HAVE_CT) && htstring_equalsi name (bytes "Content-Type") then
        updp (set_flag F_HAVE_CT) ;;
        if (9 <=? length value)%nat &&
           htstring_equalsi (take 9 value) (bytes "multipart")
        then updp (set_flag F_MULTIPART) ;; ret true else ret true
      else ret true
  | 14%nat =>
      if htstring_equalsi name (bytes "Content-Length")
      then note_content_length value else ret true
  | 17%nat =>
      if htstring_equalsi name (bytes "Transfer-Encoding")
      then updp (note_transfer_encoding value) ;; ret true else ret true
  | _ => ret true
  end.

(** Called with a non-empty line. *)
Definition parse_header hooks (line : list Z) (trailer : bool) : M (St W) bool :=
  match memchr ":"%c line with
  | None => fail htparse_error_inval_hdr
  | Some colon =>
      if isblank (nth 0 line 0) || (colon =? 0)%nat ||
         isblank (nth (colon - 1) line 0)
      then fail htparse_error_inval_hdr
      else
        let name := take colon line in
        let value := trim (drop (colon + 1) line) in
        HOOK hooks h_hdr_key name &&>
        (if trailer then ret true else note_header hooks name value) &&>
        HOOK hooks h_hdr_val value
  end.

(** ** Framing *)

Definition framing : M (St W) bool :=
  p <- gets fst ;;
  let response := bool_decide (type p = htp_type_response) in
  ok <- (if flag p F_SKIP_BODY then
           updp (fun p => p <| body := B_NONE |>) ;; ret true
         else if response && ((status p <? 200) || (status p =? 204) || (status p =? 304))
         then updp (fun p => p <| body := B_NONE |>) ;; ret true
         else if flag p F_HAVE_TE then
           if flag p F_TE_BAD then fail htparse_error_inval_hdr
           else if negb response &&
                   (negb (flag p F_CHUNKED) || flag p F_TE_UNKNOWN || flag p F_HAVE_CL)
           then fail htparse_error_inval_hdr
           else updp (fun p => p <| body := if flag p F_CHUNKED then B_CHUNKED
                                            else B_IDENTITY |>) ;; ret true
         else if flag p F_HAVE_CL then
           updp (fun p => p <| body := if orig_content_len p =? 0 then B_NONE
                                       else B_LENGTH |>) ;; ret true
         else if response && (major p * 10 + minor p <? 11) &&
                 negb (flag p F_CONN_KEEP_ALIVE)
         then updp (fun p => p <| body := B_IDENTITY |>) ;; ret true
         else updp (fun p => p <| body := B_NONE |>) ;; ret true) ;;
  if negb ok then ret false
  else
    updp (fun p => p <| content_len :=
                        if bool_decide (body p = B_LENGTH) then orig_content_len p else 0 |>
                     <| chunk := C_SIZE |>) ;;
    ret true.

(** ** Bodies: one step; returns the bytes consumed *)

(** [B_LENGTH] and [B_IDENTITY]. *)
Definition parse_body_raw hooks (data : list Z) : M (St W) nat :=
  p <- gets fst ;;
  let len := length data in
  let n := if bool_decide (body p = B_LENGTH) && (content_len p <? Z.of_nat len)
           then Z.to_nat (content_len p) else len in
  ok <- (if (n =? 0)%nat then ret true else HOOK hooks h_body (take n data)) ;;
  if negb ok then ret n
  else
    p <- gets fst ;;
    if bool_decide (body p = B_LENGTH) then
      updp (fun p => p <| content_len := u64 (content_len p - Z.of_nat n) |>) ;;
      p <- gets fst ;;
      when (content_len p =? 0) (updp (fun p => p <| state := S_COMPLETE |>)) ;;
      ret n
    else ret n.

(** [B_CHUNKED]: case [C_SIZE]. *)
Definition chunk_size_step hooks (data : list Z) : M (St W) nat :=
  p <- gets fst ;;
  match take_line p data with
  | line_more => ret 0%nat
  | line_too_long => fail htparse_error_too_big ;; ret 0%nat
  | line_ok line off =>
      match parse_chunk_size line with
      | None => fail htparse_error_inval_chunk_sz ;; ret off
      | Some size =>
          if size =? 0 then
            updp (fun p => p <| state := S_TRAILERS |> <| header_count := 0 |>) ;;
            HOOK hooks on_chunks_complete [] ;; ret off
          else
            updp (fun p => p <| orig_content_len := size |>
                             <| content_len := size |> <| chunk := C_DATA |>) ;;
            HOOK hooks on_new_chunk [] ;; ret off
      end
  end.

(** [B_CHUNKED]: case [C_DATA]. *)
Definition chunk_data_step hooks (data : list Z) : M (St W) nat :=
  p <- gets fst ;;
  let len := length data in
  let n := if content_len p <? Z.of_nat len then Z.to_nat (content_len p) else len in
  ok <- HOOK hooks h_body (take n data) ;;
  if negb ok then ret n
  else
    updp (fun p => p <| content_len := u64 (content_len p - Z.of_nat n) |>) ;;
    p <- gets fst ;;
    when (content_len p =? 0) (updp (fun p => p <| chunk := C_DATA_END |>)) ;;
    ret n.

(** [B_CHUNKED]: case [C_DATA_END]. *)
Definition chunk_end_step hooks (data : list Z) : M (St W) nat :=
  p <- gets fst ;;
  match take_line p data with
  | line_more =>
      if (length data <? 2)%nat then ret 0%nat
      else fail htparse_error_inval_chunk ;; ret 0%nat
  | line_too_long => fail htparse_error_inval_chunk ;; ret 0%nat
  | line_ok line off =>
      if negb (length line =? 0)%nat
      then fail htparse_error_inval_chunk ;; ret 0%nat
      else updp (fun p => p <| chunk := C_SIZE |>) ;;
           HOOK hooks on_chunk_complete [] ;; ret off
  end.

Definition parse_body_chunked hooks (data : list Z) : M (St W) nat :=
  p <- gets fst ;;
  match chunk p with
  | C_SIZE => chunk_size_step hooks data
  | C_DATA => chunk_data_step hooks data
  | C_DATA_END => chunk_end_step hooks data
  end.

Definition parse_body hooks (data : list Z) : M (St W) nat :=
  p <- gets fst ;;
  match body p with
  | B_LENGTH | B_IDENTITY => parse_body_raw hooks data
  | B_CHUNKED => parse_body_chunked hooks data
  | B_NONE => updp (fun p => p <| state := S_COMPLETE |>) ;; ret 0%nat
  end.

(** ** The run loop *)

Definition message_reset (p : htparser) : htparser :=
  p <| state := S_START |> <| error := htparse_error_none |>
    <| body := B_NONE |> <| chunk := C_SIZE |>
    <| method := htp_method_UNKNOWN |> <| scheme := htp_scheme_none |>
    <| status := 0 |> <| major := 0 |> <| minor := 0 |>
    <| flags := Z.land (flags p) F_PAUSED |>
    <| content_len := 0 |> <| orig_content_len := 0 |>
    <| header_count := 0 |> <| empty_lines := 0 |>.

Definition in_head (s : state_t) : bool :=
  match s with S_HEAD_LINE | S_HEADERS | S_TRAILERS => true | _ => false end.

(** The head line. *)
Definition start_line hooks (line : list Z) : M (St W) unit :=
  p <- gets fst ;;
  ok <- (if bool_decide (type p = htp_type_request)
         then parse_request_line hooks line else parse_status_line line) ;;
  when ok (updp (fun p => p <| state := S_HEADERS |>) ;;
           HOOK hooks on_hdrs_begin [] ;; ret tt).

(** The empty line that ends the head. *)
Definition head_end hooks : M (St W) unit :=
  ok <- framing ;;
  when ok
    (updp (fun p => p <| state := if bool_decide (body p = B_NONE)
                                  then S_COMPLETE else S_BODY |>) ;;
     ok <- HOOK hooks on_hdrs_complete [] ;;
     p <- gets fst ;;
     when (ok && flag p F_SKIP_BODY)
       (updp (fun p => p <| body := B_NONE |> <| state := S_COMPLETE |>))).

(** The handling of one complete line by [parse_head]. *)
Definition head_line hooks (line : list Z) : M (St W) unit :=
  p <- gets fst ;;
  let max_headers := max_header_count (cfg p) in
  let trailers := bool_decide (state p = S_TRAILERS) in
  if bool_decide (state p = S_HEAD_LINE) then start_line hooks line
  else if (length line =? 0)%nat then
    if trailers then updp (fun p => p <| state := S_COMPLETE |>) else head_end hooks
  else if negb (max_headers =? 0) && (max_headers <=? header_count p)
  then fail htparse_error_too_big ;; ret tt
  else
    updp (fun p => p <| header_count := u64 (header_count p + 1) |>) ;;
    parse_header hooks line trailers ;; ret tt.

(** [None]: out of fuel. *)
Fixpoint parse_head_loop (fuel : nat) hooks (data : list Z) (off : nat)
    (s : St W) : option (nat * St W) :=
  match fuel with
  | O => None
  | S fuel =>
      let p := s.1 in
      if in_head (state p) && negb (flag p F_PAUSED) then
        match take_line p (drop off data) with
        | line_more => Some (off, s)
        | line_too_long => Some (off, (fail htparse_error_too_big s).2)
        | line_ok line used =>
            let '(_, s') := head_line hooks line s in
            parse_head_loop fuel hooks data (off + used) s'
        end
      else Some (off, s)
  end.
Definition parse_head hooks (data : list Z) (s : St W) : option (nat * St W) :=
  parse_head_loop (S (length data)) hooks data 0 s.

(** The loop skipping empty lines in [S_START]: how far it got, and whether
    it gave up ([goto out] after [too_big]). *)
Fixpoint skip_empty (data : list Z) (off : nat) : M (St W) (nat * bool) :=
  match data with
  | c :: data' =>
      if (c =? CR) || (c =? LF) then
        p <- gets fst ;;
        let max := max_empty_line_count (cfg p) in
        if (c =? LF) && negb (max =? 0) then
          updp (fun p => p <| empty_lines := u64 (empty_lines p + 1) |>) ;;
          p <- gets fst ;;
          if max <=? empty_lines p
          then fail htparse_error_too_big ;; ret (S off, true)
          else skip_empty data' (S off)
        else skip_empty data' (S off)
      else ret (off, false)
  | [] => ret (off, false)
  end.

(** One iteration of the loop of [htparser_run]: whether it goes round again,
    the offset, and the state.  [None] only if [parse_head] runs out of fuel. *)
Definition run_step hooks (data : list Z) (off : nat) (s : St W) :
    option (bool * nat * St W) :=
  let p := s.1 in
  (** the end of the switch: [off += n], out if more data is needed *)
  let advance n s' :=
    let more := in_head (state s'.1) || bool_decide (state s'.1 = S_BODY) in
    Some (negb ((n =? 0)%nat && more), (off + n)%nat, s') in
  if negb (bool_decide (state p = S_ERROR)) && negb (flag p F_PAUSED) then
    match state p with
    | S_START =>
        let '((off', out), s') := skip_empty (drop off data) off s in
        if out || (off' =? length data)%nat then Some (false, off', s')
        else
          let '(_, s') :=
            (updp (fun p => (message_reset p) <| state := S_HEAD_LINE |>) ;;
             HOOK hooks on_msg_begin []) s' in
          Some (true, off', s')
    | S_HEAD_LINE | S_HEADERS | S_TRAILERS =>
        match parse_head hooks (drop off data) s with
        | None => None
        | Some (n, s') => advance n s'
        end
    | S_BODY =>
        if (off =? length data)%nat then Some (false, off, s)
        else let '(n, s') := parse_body hooks (drop off data) s in advance n s'
    | S_COMPLETE =>
        let '(_, s') :=
          (updp (fun p => clear_flag F_SKIP_BODY (p <| state := S_START |>)) ;;
           HOOK hooks on_msg_complete []) s in
        Some (false, off, s')
    | S_ERROR => Some (false, off, s)
    end
  else Some (false, off, s).

Fixpoint run_loop (fuel : nat) hooks (data : list Z) (off : nat)
    (s : St W) : option (nat * St W) :=
  match fuel with
  | O => None
  | S fuel =>
      match run_step hooks data off s with
      | None => None
      | Some (true, off', s') => run_loop fuel hooks data off' s'
      | Some (false, off', s') => Some (off', s')
      end
  end.

Definition run_fuel (data : list Z) : nat := (4 * length data + 8)%nat.

Definition htparser_run hooks (data : list Z) (s : St W) : option (nat * St W) :=
  let '(_, s) := updp (fun p => p <| bytes_read := 0 |>) s in
  match run_loop (run_fuel data) hooks data 0 s with
  | None => None
  | Some (off, s') =>
      let '(_, s') :=
        updp (fun p => p <| bytes_read := Z.of_nat off |>
                         <| total_bytes_read := u64 (total_bytes_read p + Z.of_nat off) |>) s' in
      Some (off, s')
  end.

Definition htparser_run_eof hooks : M (St W) nat :=
  p <- gets fst ;;
  if bool_decide (state p = S_BODY) && bool_decide (body p = B_IDENTITY) then
    updp (fun p => p <| state := S_START |>) ;;
    HOOK hooks on_msg_complete [] ;; ret 0%nat
  else ret 0%nat.

End Lines.

(** ** Life cycle and configuration *)

(** [calloc]: every member zero. *)
Definition calloc_htparser : htparser := {|
  config := None; userdata := 0; type := htp_type_request; state := S_START;
  error := htparse_error_none; body := B_NONE; chunk := C_SIZE;
  method := htp_method_UNKNOWN; scheme := htp_scheme_none; status := 0;
  major := 0; minor := 0; flags := 0; content_len := 0; orig_content_len := 0;
  header_count := 0; empty_lines := 0; bytes_read := 0; total_bytes_read := 0
|}.

(** [alloc]: whether [calloc] succeeds. *)
Definition htparser_new_ (conf : option htp_http1config) (alloc : bool) : option htparser :=
  if alloc then
    Some (message_reset
      (calloc_htparser <| config := Some (default default_config conf) |>))
  else None.

Definition htparser_new (alloc : bool) : option htparser := htparser_new_ None alloc.

Definition htparser_init (t : htp_type) (p : htparser) : htparser :=
  let p := match config p with
           | None => p <| config := Some default_config |>
           | Some _ => p
           end in
  message_reset (p <| type := t |> <| flags := 0 |> <| bytes_read := 0 |>).

(** A pointer argument that may be NULL is an [option]. *)
Definition htparser_reset (p : option htparser) : option htparser :=
  (fun p => let skip := Z.land (flags p) F_SKIP_BODY in
            (message_reset p) <| flags := skip |>) <$> p.

Definition htparser_set_http1config (conf : option htp_http1config)
    (p : option htparser) : option htparser :=
  (fun p => p <| config := Some (default default_config conf) |>) <$> p.

(** ** Accessors *)

Definition htparser_should_keep_alive (p : option htparser) : bool :=
  match p with
  | None => false
  | Some p => if flag p F_CONN_CLOSE then false
              else (11 <=? major p * 10 + minor p) || flag p F_CONN_KEEP_ALIVE
  end.

Definition htparser_get_methodstr_m (m : nat) : option string :=
  if (m <? htp_method_LAST)%nat then method_strmap !! m else None.

Definition htparser_get_scheme (p : option htparser) : htp_scheme :=
  from_option scheme htp_scheme_unknown p.
Definition htparser_get_method (p : option htparser) : htp_method :=
  from_option method htp_method_UNKNOWN p.
Definition htparser_get_methodstr (p : option htparser) : option string :=
  match p with
  | Some p => htparser_get_methodstr_m (htp_method_index (method p))
  | None => None
  end.
Definition htparser_get_major (p : option htparser) : Z := from_option major 0 p.
Definition htparser_get_minor (p : option htparser) : Z := from_option minor 0 p.
Definition htparser_get_multipart (p : option htparser) : bool :=
  from_option (fun p => flag p F_MULTIPART) false p.
Definition htparser_get_status (p : option htparser) : Z := from_option status 0 p.
Definition htparser_get_content_length (p : option htparser) : Z :=
  from_option orig_content_len 0 p.
Definition htparser_get_content_pending (p : option htparser) : Z :=
  from_option content_len 0 p.
Definition htparser_get_bytes_read (p : option htparser) : Z :=
  from_option bytes_read 0 p.
Definition htparser_get_total_bytes_read (p : option htparser) : Z :=
  from_option total_bytes_read 0 p.
Definition htparser_get_error (p : option htparser) : htpparse_error :=
  from_option error htparse_error_user p.
Definition htparser_get_userdata (p : option htparser) : Z :=
  from_option userdata 0 p.
Definition htparser_is_chunked (p : option htparser) : bool :=
  from_option (fun p => flag p F_CHUNKED) false p.
Definition htparser_uses_transfer_encoding (p : option htparser) : bool :=
  from_option (fun p => flag p F_HAVE_TE) false p.
Definition htparser_is_identity_response (p : option htparser) : bool :=
  from_option (fun p => bool_decide (body p = B_IDENTITY)) false p.
Definition htparser_is_paused (p : option htparser) : bool :=
  from_option (fun p => flag p F_PAUSED) false p.
Definition htparser_has_content_length (p : option htparser) : bool :=
  from_option (fun p => flag p F_HAVE_CL && negb (flag p F_CHUNKED)) false p.

(** The setters, the interface through which hooks change the parser. *)
Definition htparser_set_method (m : htp_method) (p : htparser) : htparser :=
  p <| method := m |>.
Definition htparser_set_major (v : Z) (p : htparser) : htparser :=
  p <| major := u8 v |>.
Definition htparser_set_minor (v : Z) (p : htparser) : htparser :=
  p <| minor := u8 v |>.
Definition htparser_set_status (s : Z) (p : htparser) : htparser :=
  p <| status := u32 s |>.
Definition htparser_set_content_length (n : Z) (p : htparser) : htparser :=
  p <| orig_content_len := u64 n |>.
Definition htparser_set_userdata (u : Z) (p : htparser) : htparser :=
  p <| userdata := u |>.
Definition htparser_pause (p : htparser) : htparser := set_flag F_PAUSED p.
Definition htparser_resume (p : htparser) : htparser := clear_flag F_PAUSED p.
Definition htparser_set_skip_body (p : htparser) : htparser := set_flag F_SKIP_BODY p.

Definition htparser_parse_method (m : list Z) (p : htparser) : htp_method * htparser :=
  let p := p <| method := method_from m |> in (method p, p).

Definition htparser_get_strerror (p : option htparser) : option string :=
  let e := htpparse_error_index (htparser_get_error p) in
  if (e <=? htpparse_error_index htparse_error_generic)%nat then errstr_map !! e
  else Some "htparse_no_such_error"%string.

#[global] Arguments take_line : simpl never.
#[global] Arguments HOOK : simpl never.
#[global] Arguments fail : simpl never.
#[global] Arguments parse_request_line : simpl never.
#[global] Arguments parse_status_line : simpl never.
#[global] Arguments emit_target : simpl never.
#[global] Arguments parse_header : simpl never.
#[global] Arguments note_header : simpl never.
#[global] Arguments framing : simpl never.
#[global] Arguments parse_body : simpl never.
#[global] Arguments parse_body_raw : simpl never.
#[global] Arguments parse_body_chunked : simpl never.
#[global] Arguments chunk_size_step : simpl never.
#[global] Arguments chunk_data_step : simpl never.
#[global] Arguments chunk_end_step : simpl never.
#[global] Arguments start_line : simpl never.
#[global] Arguments head_end : simpl never.
#[global] Arguments head_line : simpl never.
#[global] Arguments parse_head : simpl never.
#[global] Arguments message_reset : simpl never.
#[global] Arguments flag : simpl never.
#[global] Arguments run_step : simpl never.
