(* ===== verification/MsgParserFacts.v ===== *)
(** * msgparser.c: bounds, termination, pausing and errors

    Facts about the control structure of [htparser_run] that hold whatever
    the hooks do ([run_consumed_le]), or for hooks that only use the setters
    of parser.h ([HookFrame]). *)

From S2P Require Import Prelude HtpTypes HtString MsgParser.

(** ** What a hook may change

    [hook_frame p p']: [p'] differs from [p] at most in what the setters
    htparser_set_method / major / minor / status / content_length / userdata,
    htparser_pause, htparser_resume and htparser_set_skip_body change.  A hook
    that calls htparser_init, htparser_reset, htparser_set_http1config or
    htparser_run on its own parser is outside the contract. *)

Definition F_HOOK : Z := Z.lor F_PAUSED F_SKIP_BODY.

Record hook_frame (p p' : htparser) : Prop := {
  hf_config : config p' = config p;
  hf_type : type p' = type p;
  hf_state : state p' = state p;
  hf_error : error p' = error p;
  hf_body : body p' = body p;
  hf_chunk : chunk p' = chunk p;
  hf_content_len : content_len p' = content_len p;
  hf_header_count : header_count p' = header_count p;
  hf_empty_lines : empty_lines p' = empty_lines p;
  hf_total : total_bytes_read p' = total_bytes_read p;
  hf_flags : forall m, Z.land m F_HOOK = 0 -> has (flags p') m = has (flags p) m
}.

Class HookFrame {W} (hooks : hook_table W) : Prop :=
  hooks_frame : forall hs n f d s,
    hooks = Some hs -> hs n = Some f -> hook_frame s.1 (f d s).2.1.

#[export] Instance hook_frame_preorder : PreOrder hook_frame.
Proof.
  split; [by intros p; split|].
  intros p q r [] []. split; try congruence. intros m Hm.
  rewrite hf_flags1 by done. by apply hf_flags0.
Qed.

Create HintDb frame discriminated.

(** The setters of parser.h stay within the frame. *)
Lemma frame_setters p :
  hook_frame p (htparser_pause p) /\ hook_frame p (htparser_resume p) /\
  hook_frame p (htparser_set_skip_body p) /\
  (forall m, hook_frame p (htparser_set_method m p)) /\
  (forall v, hook_frame p (htparser_set_status v p)) /\
  (forall v, hook_frame p (htparser_set_content_length v p)) /\
  (forall v, hook_frame p (htparser_set_userdata v p)).
Proof.
  assert (forall m, Z.land m F_HOOK = 0 ->
    Z.land F_PAUSED m = 0 /\ Z.land F_SKIP_BODY m = 0) as Hm.
  { intros m Hm. unfold F_HOOK in Hm.
    rewrite Z.land_lor_distr_r, !(Z.land_comm m) in Hm.
    by apply Z.lor_eq_0_iff in Hm. }
  repeat apply conj; try (intros; by split); split; try done; cbn; intros m H;
    destruct (Hm m H); (apply has_on_ne || apply has_off_ne); done.
Qed.

#[export] Instance null_hooks_frame : HookFrame (Some (@null_hooks htparser)).
Proof. intros hs n f d s [= <-]. done. Qed.
#[export] Instance no_hooks_frame {W} : HookFrame (@None (htparse_hooks htparser W)).
Proof. done. Qed.

#[export] Instance logged_frame {W} (hs : htparse_hooks htparser W) :
  HookFrame (Some hs) -> HookFrame (Some (logged hs)).
Proof.
  intros Hh hs' n f d [p [log w]] [= <-] [= <-]. cbn.
  destruct (hs n) as [g|] eqn:E; [|reflexivity].
  specialize (Hh hs n g d (p, w) eq_refl E).
  destruct (g d (p, w)) as [r [p' w']]. done.
Qed.

(** Hooks that always succeed and leave the parser alone, such as those that
    only record what they are told. *)
Class Passive {W} (hooks : hook_table W) : Prop :=
  passive : forall n d s, exists w', HOOK hooks n d s = (true, (s.1, w')).

#[export] Instance no_hooks_passive {W} : Passive (@None (htparse_hooks htparser W)).
Proof. intros n d [p w]. by exists w. Qed.

Lemma HOOK_logged_null n d (p : htparser) log (w : unit) :
  HOOK (Some (logged null_hooks)) n d (p, (log, w)) = (true, (p, (log ++ [(n, d)], w))).
Proof. done. Qed.

#[export] Instance logged_null_passive : Passive (Some (logged (P := htparser) null_hooks)).
Proof. intros n d [p [log w]]. by exists (log ++ [(n, d)], w). Qed.

(** ** How far [htparser_run] reads: any hooks *)

Section Bounds.
Context `{lib : HtStringLib} {W : Type} (hooks : hook_table W).
Implicit Types (s : St W).

Lemma take_line_ok p data line used :
  take_line p data = line_ok line used ->
  (0 < used <= length data)%nat /\
  exists i, memchr LF data = Some i /\ used = (i + 1)%nat.
Proof.
  unfold take_line. destruct (memchr LF data) as [i|] eqn:E.
  - apply memchr_lt in E as Hi. case_match; case_match; intros [= <- <-];
      (split; [lia|by exists i]).
  - by case_match.
Qed.

Lemma parse_head_loop_le fuel data off s off' s' :
  (off <= length data)%nat ->
  parse_head_loop fuel hooks data off s = Some (off', s') ->
  (off <= off' <= length data)%nat.
Proof.
  revert off s. induction fuel as [|fuel IH]; intros off s Hoff; cbn; [done|].
  destruct (_ && _); [|intros [= <- <-]; lia].
  destruct (take_line _ _) as [line used| |] eqn:E;
    [|intros [= <- <-]; lia|intros [= <- <-]; lia].
  apply take_line_ok in E as [Hu _]. rewrite length_drop in Hu.
  destruct (head_line hooks line s) as [[] s1]. intros Hrec.
  apply IH in Hrec; lia.
Qed.

Lemma skip_empty_le data off :
  hoare (fun _ => True) (skip_empty (W:=W) data off)
    (fun r _ => (off <= r.1 <= off + length data)%nat).
Proof.
  revert off. induction data as [|c data IH]; intros off; cbn [skip_empty].
  - apply hoare_ret. cbn. lia.
  - hoare_value; cbn; try lia;
      (eapply hoare_conseq; [apply IH|done|cbn; lia]).
Qed.

Lemma parse_body_le data :
  hoare (fun _ => True) (parse_body hooks data) (fun n _ => (n <= length data)%nat).
Proof.
  assert (forall c, ((if (c <? Z.of_nat (length data))%Z then Z.to_nat c
                      else length data) <= length data)%nat) as Hmin.
  { intros c. destruct (Z.ltb_spec c (Z.of_nat (length data))); lia. }
  unfold parse_body, parse_body_raw, parse_body_chunked, chunk_size_step,
    chunk_data_step, chunk_end_step.
  hoare_value; try lia;
    repeat match goal with
    | E : take_line _ _ = line_ok _ _ |- _ => apply take_line_ok in E as [? _]
    end; try lia.
  all: try (match goal with |- context [content_len ?p] => specialize (Hmin (content_len p)) end).
  all: try lia.
Qed.
Lemma run_step_le data off s go off' s' :
  (off <= length data)%nat ->
  run_step hooks data off s = Some (go, off', s') ->
  (off <= off' <= length data)%nat.
Proof.
  intros Hoff. unfold run_step.
  destruct (_ && _); [|intros [= <- <- <-]; lia].
  destruct (state s.1) eqn:Est;
    try (destruct (parse_head hooks (drop off data) s) as [[n s0]|] eqn:E; [|done];
         apply parse_head_loop_le in E; [|lia]; rewrite length_drop in E;
         intros [= <- <- <-]; lia).
  - pose proof (skip_empty_le (drop off data) off s I) as Hs.
    destruct (skip_empty _ _ _) as [[off0 out] s0]. cbn in Hs.
    rewrite length_drop in Hs.
    destruct (_ || _); [intros [= <- <- <-]; lia|].
    case_match; intros [= <- <- <-]; lia.
  - destruct (_ =? _)%nat; [intros [= <- <- <-]; lia|].
    pose proof (parse_body_le (drop off data) s I) as Hb. rewrite length_drop in Hb.
    destruct (parse_body _ _ _) as [n s0]. intros [= <- <- <-]. cbn in Hb. lia.
  - case_match; intros [= <- <- <-]; lia.
  - intros [= <- <- <-]. lia.
Qed.

Lemma run_loop_le fuel data off s off' s' :
  (off <= length data)%nat ->
  run_loop fuel hooks data off s = Some (off', s') ->
  (off <= off' <= length data)%nat.
Proof.
  revert off s. induction fuel as [|fuel IH]; intros off s Hoff; cbn; [done|].
  destruct (run_step hooks data off s) as [[[[] off0] s0]|] eqn:E; [| |done];
    apply run_step_le in E; try done.
  - intros Hr. apply IH in Hr; lia.
  - intros [= <- <-]. lia.
Qed.

Lemma run_consumed_le data s off s' :
  htparser_run hooks data s = Some (off, s') ->
  (off <= length data)%nat /\
  htparser_get_bytes_read (Some s'.1) = Z.of_nat off.
Proof.
  unfold htparser_run. cbn.
  destruct (run_loop _ _ _ _ _) as [[n s1]|] eqn:E; [|done].
  apply run_loop_le in E; [|lia]. intros [= <- <-]. split; [lia|done].
Qed.

End Bounds.

(** ** Reasoning about the parser under well-behaved hooks *)

(** [Keeps R m]: [m] preserves the parser predicate [R]. *)
Definition Keeps {W A} (R : htparser -> Prop) (m : M (St W) A) : Prop :=
  hoare (fun s => R s.1) m (fun _ s => R s.1).

Definition frame_stable (R : htparser -> Prop) : Prop :=
  forall p p', hook_frame p p' -> R p -> R p'.

Definition failed (e : htpparse_error) (p : htparser) : htparser :=
  p <| error := e |> <| state := S_ERROR |>.

Section Keeps.
Context {W : Type}.
Implicit Types (R : htparser -> Prop).

Lemma keeps_ret {A} R (a : A) : Keeps R (ret (S:=St W) a).
Proof. by intros s. Qed.

Lemma keeps_bind {A B} R (m : M (St W) A) (k : A -> M (St W) B) :
  Keeps R m -> (forall a, Keeps R (k a)) -> Keeps R (bind m k).
Proof. intros Hm Hk. by eapply hoare_bind. Qed.

Lemma keeps_andM R (m k : M (St W) bool) :
  Keeps R m -> Keeps R k -> Keeps R (andM m k).
Proof. intros Hm Hk. apply keeps_bind; [done|]. intros []; [done|apply keeps_ret]. Qed.

Lemma keeps_orM R (m k : M (St W) bool) :
  Keeps R m -> Keeps R k -> Keeps R (orM m k).
Proof. intros Hm Hk. apply keeps_bind; [done|]. intros []; [apply keeps_ret|done]. Qed.

Lemma keeps_when R b (m : M (St W) unit) : (b = true -> Keeps R m) -> Keeps R (when b m).
Proof. destruct b; [auto|intros; apply keeps_ret]. Qed.

(** The state read is one where [R] holds. *)
Lemma keeps_gets {B} R (k : htparser -> M (St W) B) :
  (forall p, R p -> Keeps R (k p)) -> Keeps R (bind (gets fst) k).
Proof. intros H s Hs. by apply (H s.1). Qed.

Lemma keeps_getp {A B} R (f : htparser -> A) (k : A -> M (St W) B) :
  (forall p, R p -> Keeps R (k (f p))) -> Keeps R (bind (getp f) k).
Proof. intros H s Hs. by apply (H s.1). Qed.

Lemma keeps_updp R f : (forall p, R p -> R (f p)) -> Keeps R (updp (W:=W) f).
Proof. intros H s Hs. by apply H. Qed.

Lemma keeps_fail R e : (forall p, R p -> R (failed e p)) -> Keeps R (fail (W:=W) e).
Proof. intros H s Hs. by apply H. Qed.

Lemma HOOK_cases (hooks : hook_table W) n d (s : St W) :
  HookFrame hooks ->
  exists s0, hook_frame s.1 s0.1 /\
    (HOOK hooks n d s = (true, s0) \/
     HOOK hooks n d s = (false, (failed htparse_error_user s0.1, s0.2))).
Proof.
  intros Hh. unfold HOOK.
  destruct hooks as [hs|]; [|by exists s; split; [|left]].
  destruct (hs n) as [f|] eqn:E; [|by exists s; split; [|left]].
  pose proof (Hh hs n f d s eq_refl E) as Hf.
  destruct (f d s) as [r s']. exists s'. split; [done|].
  destruct (r =? 0); [by left|by right].
Qed.

Lemma keeps_HOOK R (hooks : hook_table W) n d :
  HookFrame hooks -> frame_stable R ->
  (forall p, R p -> R (failed htparse_error_user p)) ->
  Keeps R (HOOK hooks n d).
Proof.
  intros Hh HR Hf s Hs.
  destruct (HOOK_cases hooks n d s Hh) as (s0 & Hfr & [-> | ->]); cbn; eauto.
Qed.
End Keeps.

(** Proves [Keeps R m] by walking through [m]; [tac] proves that [R] survives
    the updates, [hook] that it survives a hook. *)
Ltac keeps_with hook tac :=
  repeat first
    [ assumption
    | hook
    | lazymatch goal with
      | |- Keeps _ (bind (gets fst) _) => apply keeps_gets; intros ? ?
      | |- Keeps _ (bind (getp _) _) => apply keeps_getp; intros ? ?
      | |- Keeps _ (bind _ _) => apply keeps_bind; [|intros ?]
      | |- Keeps _ (andM _ _) => apply keeps_andM
      | |- Keeps _ (orM _ _) => apply keeps_orM
      | |- Keeps _ (when _ _) => apply keeps_when; intros ?
      | |- Keeps _ (ret _) => apply keeps_ret
      | |- Keeps _ (fail _) => apply keeps_fail; solve [tac]
      | |- Keeps _ (updp _) => apply keeps_updp; solve [tac]
      end
    | progress cbv zeta
    | case_match ].
Ltac keeps tac := keeps_with ltac:(apply keeps_HOOK; [done | solve [tac] | solve [tac]]) tac.

(** ** Termination *)

Section Termination.
Context `{lib : HtStringLib} {W : Type} (hooks : hook_table W) `{!HookFrame hooks}.
Implicit Types (s : St W).

(** [parse_head] has fuel for a line per byte. *)
Lemma parse_head_loop_total fuel data off s :
  (length data - off < fuel)%nat ->
  exists r, parse_head_loop fuel hooks data off s = Some r.
Proof.
  revert off s. induction fuel as [|fuel IH]; intros off s Hf; [lia|]. cbn.
  destruct (_ && _); [|by eexists].
  destruct (take_line _ _) as [line used| |] eqn:E; [|by eexists..].
  apply take_line_ok in E as [Hu _]. rewrite length_drop in Hu.
  destruct (head_line hooks line s) as [[] s1]. apply IH. lia.
Qed.

Lemma parse_head_total data s : exists r, parse_head hooks data s = Some r.
Proof. apply parse_head_loop_total. lia. Qed.

(** Without a complete line the head is left alone, or found too long. *)
Lemma parse_head_zero data s s' :
  in_head (state s.1) = true -> flag s.1 F_PAUSED = false ->
  parse_head hooks data s = Some (0%nat, s') ->
  in_head (state s'.1) = true \/ state s'.1 = S_ERROR.
Proof.
  intros Hst Hpa. unfold parse_head. cbn. rewrite Hst, Hpa. cbn. rewrite drop_0.
  destruct (take_line _ _) as [line used| |] eqn:E.
  - destruct (head_line hooks line s) as [[] s1]. intros Hr.
    apply take_line_ok in E as [Hu _].
    apply parse_head_loop_le in Hr; lia.
  - intros [= <-]. by left.
  - intros [= <-]. by right.
Qed.

Definition rank (st : state_t) : nat :=
  match st with
  | S_START => 3 | S_HEAD_LINE | S_HEADERS | S_TRAILERS | S_BODY => 2
  | S_COMPLETE => 1 | S_ERROR => 0
  end.

Lemma parse_body_not_start data :
  Keeps (fun p => state p <> S_START) (parse_body hooks data).
Proof.
  unfold parse_body, parse_body_raw, parse_body_chunked, chunk_size_step,
    chunk_data_step, chunk_end_step.
  keeps ltac:(first [done | intros ? ? [] ?; congruence]).
Qed.

Lemma rank_le st : (rank st <= 3)%nat.
Proof. destruct st; cbn; lia. Qed.

Lemma run_step_decreases data off s off' s' :
  (off <= length data)%nat ->
  run_step hooks data off s = Some (true, off', s') ->
  (4 * (length data - off') + rank (state s'.1) <
   4 * (length data - off) + rank (state s.1))%nat.
Proof.
  intros Hoff E. pose proof (run_step_le hooks data off s true off' s' Hoff E) as Hle.
  pose proof (rank_le (state s'.1)) as Hrk'.
  revert E. unfold run_step.
  destruct (bool_decide _) eqn:Her; [done|].
  destruct (flag s.1 F_PAUSED) eqn:Hpa; [done|]. cbn [negb andb].
  assert (forall n, parse_head hooks (drop off data) s = Some (n, s') ->
    in_head (state s.1) = true -> off' = (off + n)%nat ->
    (n =? 0)%nat && (in_head (state s'.1) || bool_decide (state s'.1 = S_BODY)) = false ->
    (4 * (length data - off') + rank (state s'.1) <
     4 * (length data - off) + 2)%nat) as Hhead.
  { intros n Hn Hst -> Hmore. destruct n; [|lia].
    destruct (parse_head_zero _ _ _ Hst Hpa Hn) as [Hs|Hs];
      [by rewrite Hs in Hmore|]. rewrite Hs. cbn. lia. }
  destruct (state s.1) eqn:Est; cbn [rank];
    try (destruct (parse_head hooks (drop off data) s) as [[n s0]|] eqn:En; [|done];
         intros [= Hm <- <-]; apply negb_true_iff in Hm; by apply (Hhead n));
    try done.
  - destruct (skip_empty _ _ _) as [[off0 out] s0].
    destruct (out || _); [done|]. cbn.
    match goal with |- context [HOOK hooks on_msg_begin [] ?s1] =>
      destruct (HOOK_cases hooks on_msg_begin [] s1 _) as (s2 & Hfr & [-> | ->]) end;
      intros [= <- <-]; cbn; [|lia].
    rewrite (hf_state _ _ Hfr). cbn. lia.
  - destruct (_ =? _)%nat; [done|].
    assert (state s.1 <> S_START) as Hns by congruence.
    pose proof (parse_body_not_start (drop off data) s Hns) as Hb.
    destruct (parse_body _ _ _) as [n s0]. cbn in Hb.
    intros [= Hm <- <-]. apply negb_true_iff in Hm.
    destruct n; [|lia]. cbn in Hm.
    destruct (state s0.1); cbn in *; (done || lia).
  - by case_match.
Qed.

Lemma run_step_total data off s : exists r, run_step hooks data off s = Some r.
Proof.
  unfold run_step. destruct (_ && _); [|by eexists].
  destruct (parse_head_total (drop off data) s) as [[n s'] E].
  destruct (state s.1); rewrite ?E; repeat case_match; by eexists.
Qed.

Lemma run_loop_total fuel data off s :
  (off <= length data)%nat ->
  (4 * (length data - off) + rank (state s.1) < fuel)%nat ->
  exists r, run_loop fuel hooks data off s = Some r.
Proof.
  revert off s. induction fuel as [|fuel IH]; intros off s Hoff Hf; [lia|]. cbn.
  destruct (run_step_total data off s) as [[[[] off'] s'] E]; rewrite E; [|by eexists].
  apply run_step_le in E as Hle; [|done].
  apply run_step_decreases in E; [|done]. apply IH; lia.
Qed.

(** More fuel than needed does not change the result. *)
Lemma run_loop_mono fuel fuel' data off s r :
  (fuel <= fuel')%nat -> run_loop fuel hooks data off s = Some r ->
  run_loop fuel' hooks data off s = Some r.
Proof.
  revert fuel' off s. induction fuel as [|fuel IH]; intros fuel' off s Hf; [done|].
  destruct fuel' as [|fuel']; [lia|]. cbn.
  destruct (run_step hooks data off s) as [[[[] off'] s']|]; [|done..].
  apply IH. lia.
Qed.

Lemma run_total data s : exists r, htparser_run hooks data s = Some r.
Proof.
  unfold htparser_run. cbn.
  match goal with |- context [run_loop _ _ _ _ ?s1] =>
    destruct (run_loop_total (run_fuel data) data 0 s1) as [[n s'] E] end.
  - lia.
  - unfold run_fuel. match goal with |- context [rank ?st] =>
      pose proof (rank_le st) end. lia.
  - cbn in E. rewrite E. by eexists.
Qed.

(** C25: [htparser_run] terminates on every input, from every parser state and
    whatever the hooks do within the setters of parser.h (the loop finishes
    within [run_fuel] rounds), never consumes more bytes than it was given, and
    records in [bytes_read] exactly the number it returns. *)
Theorem run_terminates data s :
  exists n s', htparser_run hooks data s = Some (n, s') /\ (n <= length data)%nat /\
    htparser_get_bytes_read (Some s'.1) = Z.of_nat n.
Proof.
  destruct (run_total data s) as [[n s'] E].
  destruct (run_consumed_le _ _ _ _ _ E) as [Hn Hb]. by exists n, s'.
Qed.

End Termination.

(** ** Witnesses *)

Definition p_init (t : htp_type) : htparser := htparser_init t calloc_htparser.

Lemma run_terminates_witness :
  exists n s', htparser_run (Some null_hooks) (bytes "GET /a HTTP/1.1" ++ [CR; LF])
      (p_init htp_type_request, tt) = Some (n, s') /\ (n <= 17)%nat /\
    htparser_get_bytes_read (Some s'.1) = Z.of_nat n.
Proof.
  apply (run_terminates (Some null_hooks) (bytes "GET /a HTTP/1.1" ++ [CR; LF])
    (p_init htp_type_request, tt)).
Defined.
