(* ===== verification/MsgParserTrace.v ===== *)
(** * msgparser.c: the order in which hooks are called

    [accepts] is an automaton over hook calls: the protocol parser.h and the
    header of msgparser.c promise to the application.  The calls made by any
    number of runs form a word it accepts ([hook_protocol]), for arbitrary
    hooks that stay within [HookFrame]: they may pause, fail, set skip_body,
    or use any setter.  Along the word, a property of the world per phase is
    kept when every hook leads from that of its phase to that of the next
    ([obeys], [trace_session]): ConnSafe.v instantiates it with the hooks of the
    library. *)

From S2P Require Import Prelude HtpTypes HtString MsgParser MsgParserFacts.

Inductive phase :=
| ph_idle                  (** between messages *)
| ph_line (rank : nat)     (** in the start line, after the token of that rank *)
| ph_hdrs                  (** between header fields *)
| ph_key (may_host : bool) (** a header's name was reported, not its value *)
| ph_body                  (** after the head, between chunks *)
| ph_chunk                 (** inside a chunk *)
| ph_trailers
| ph_tkey.

(** The request-target tokens come in this order, each at most once; the query
    only right after the path. *)
Definition token_rank (n : hook_name) : option nat :=
  match n with
  | h_method => Some 1 | h_scheme => Some 2 | h_host => Some 3
  | h_port => Some 4 | h_path => Some 5 | h_args => Some 6 | h_uri => Some 7
  | _ => None
  end%nat.

Definition next_phase (q : phase) (n : hook_name) : option phase :=
  match q, n with
  | ph_idle, on_msg_begin => Some (ph_line 0)
  | ph_line _, on_hdrs_begin => Some ph_hdrs
  | ph_line k, h_args => if (k =? 5)%nat then Some (ph_line 6) else None
  | ph_line k, _ =>
      match token_rank n with
      | Some r => if (k <? r)%nat then Some (ph_line r) else None
      | None => None
      end
  | ph_hdrs, h_hdr_key => Some (ph_key true)
  | ph_hdrs, on_hdrs_complete => Some ph_body
  | ph_key true, h_hostname => Some (ph_key false)
  | ph_key _, h_hdr_val => Some ph_hdrs
  | ph_body, h_body => Some ph_body
  | ph_body, on_new_chunk => Some ph_chunk
  | ph_body, on_chunks_complete => Some ph_trailers
  | ph_body, on_msg_complete => Some ph_idle
  | ph_chunk, h_body => Some ph_chunk
  | ph_chunk, on_chunk_complete => Some ph_body
  | ph_trailers, h_hdr_key => Some ph_tkey
  | ph_trailers, on_msg_complete => Some ph_idle
  | ph_tkey, h_hdr_val => Some ph_trailers
  | _, _ => None
  end.

Fixpoint accepts (q : phase) (log : list event) : option phase :=
  match log with
  | [] => Some q
  | (n, _) :: log' =>
      match next_phase q n with Some q' => accepts q' log' | None => None end
  end.

(** The phase a parser state stands for. *)
Definition expects (p : htparser) (q : phase) : Prop :=
  match state p with
  | S_START => q = ph_idle
  | S_HEAD_LINE => q = ph_line 0
  | S_HEADERS => q = ph_hdrs
  | S_BODY => q = match body p, chunk p with
                  | B_CHUNKED, C_DATA | B_CHUNKED, C_DATA_END => ph_chunk
                  | _, _ => ph_body
                  end
  | S_TRAILERS => q = ph_trailers
  | S_COMPLETE => q = ph_body \/ q = ph_trailers
  | S_ERROR => True
  end.

Lemma accepts_snoc q log q' n d :
  accepts q log = Some q' -> accepts q (log ++ [(n, d)]) = next_phase q' n.
Proof.
  revert q. induction log as [|[m e] log IH]; intros q; cbn.
  - intros [= ->]. by destruct (next_phase q' n).
  - destruct (next_phase q m); [apply IH|done].
Qed.

(** ** Sessions

    What the owner of a parser does with it between messages: feed bytes,
    signal EOF, pause, resume, ask for the body to be skipped. *)
Inductive session_op :=
| op_run (data : list Z) | op_eof | op_pause | op_resume | op_skip_body.

Section Session.
Context `{lib : HtStringLib} {W : Type}.

Definition session_step (hooks : hook_table W) (op : session_op) (s : St W) :
    option (St W) :=
  match op with
  | op_run data => snd <$> htparser_run hooks data s
  | op_eof => Some (htparser_run_eof hooks s).2
  | op_pause => Some (htparser_pause s.1, s.2)
  | op_resume => Some (htparser_resume s.1, s.2)
  | op_skip_body => Some (htparser_set_skip_body s.1, s.2)
  end.

Fixpoint session (hooks : hook_table W) (ops : list session_op) (s : St W) :
    option (St W) :=
  match ops with
  | [] => Some s
  | op :: ops' =>
      match session_step hooks op s with
      | Some s' => session hooks ops' s'
      | None => None
      end
  end.
Lemma session_total hs `{!HookFrame hs} ops (s : St W) : exists s', session hs ops s = Some s'.
Proof.
  revert s. induction ops as [|op ops IH]; intros s; cbn; [by eexists|].
  assert (exists s1, session_step hs op s = Some s1) as [s1 ->]; [|apply IH].
  destruct op; cbn [session_step]; try by eexists.
  match goal with |- context [htparser_run _ ?d _] =>
    destruct (run_total hs d s) as [[n s1] ->] end. by eexists.
Qed.

End Session.

(** ** An invariant for each phase

    [Inv q]: what the store is like in phase [q]; [Stop]: after a failure.  The
    hooks obey them: a call that the automaton allows leads from the invariant
    of the phase to that of the next, or fails.  Then the parser keeps the
    invariant of the phase it is in ([trace_session]). *)
Section Trace.
Context `{lib : HtStringLib} {W : Type} (hooks : hook_table W) `{!HookFrame hooks}.
Context (Inv : phase -> W -> Prop) (Stop : W -> Prop).
Implicit Types (s : St W) (P Q : St W -> Prop) (R : htparser -> Prop).

Definition obeys : Prop := forall q n q' d s,
  next_phase q n = Some q' -> Inv q s.2 ->
  if (HOOK hooks n d s).1 then Inv q' (HOOK hooks n d s).2.2 else Stop (HOOK hooks n d s).2.2.
Context (Hstop : forall q w, Inv q w -> Stop w) (Hobeys : obeys).

Definition at_phase (q : phase) s : Prop := Inv q s.2.
Definition stopped s : Prop := state s.1 = S_ERROR /\ Stop s.2.
Definition trace_ok s : Prop := (exists q, at_phase q s /\ expects s.1 q) \/ stopped s.
Definition post (b : bool) Q s : Prop := if b then Q s else stopped s.

(** A triple for C functions that return [false] when the message fails. *)
Definition tr P (m : M (St W) bool) Q : Prop := hoare P m (fun b s => post b Q s).

(** In phase [q], with the parser satisfying [R]. *)
Definition In_ (q : phase) R s : Prop := at_phase q s /\ R s.1.
(** In the start line, before the token of rank [r]. *)
Definition Line (r : nat) R s : Prop := exists k, (k < r)%nat /\ In_ (ph_line k) R s.

Lemma stopped_ok s : stopped s -> trace_ok s.
Proof. by right. Qed.
Lemma at_phase_ok q s : at_phase q s -> expects s.1 q -> trace_ok s.
Proof. left. by exists q. Qed.
Lemma trace_ok_at s : trace_ok s -> state s.1 <> S_ERROR -> exists q, at_phase q s /\ expects s.1 q.
Proof. by intros [?|[? _]]. Qed.
Lemma trace_ok_stop s : trace_ok s -> Stop s.2.
Proof. intros [(q & Ha & _)|[_ Hs]]; [by eapply Hstop|done]. Qed.

Lemma tr_conseq P P' m Q Q' :
  tr P' m Q' -> (forall s, P s -> P' s) -> (forall s, Q' s -> Q s) -> tr P m Q.
Proof.
  intros Hm HP HQ. eapply hoare_conseq; [exact Hm|exact HP|].
  intros [] s; cbn; auto.
Qed.

Lemma tr_true P Q : (forall s, P s -> Q s) -> tr P (ret true) Q.
Proof. intros H s Hs. cbn. auto. Qed.

Lemma tr_fail P e Q : (forall s, P s -> exists q, at_phase q s) -> tr P (fail e) Q.
Proof. intros H s Hs. cbn. split; [done|]. destruct (H s Hs) as [q Hq]. by eapply Hstop. Qed.

Lemma tr_and P m k Q Q' : tr P m Q' -> tr Q' k Q -> tr P (m &&> k) Q.
Proof. intros Hm Hk. eapply hoare_andM; [exact Hm|exact Hk|done]. Qed.

Lemma tr_upd P f k Q Q' :
  (forall s, P s -> Q' (f s.1, s.2)) -> tr Q' k Q -> tr P (updp f ;; k) Q.
Proof. intros Hf Hk s Hs. exact (Hk _ (Hf s Hs)). Qed.

Lemma tr_gets {A} P (f : St W -> A) k Q :
  (forall a, tr P (k a) Q) -> tr P (bind (gets f) k) Q.
Proof. intros H s Hs. exact (H (f s) s Hs). Qed.

Lemma tr_getp {A} P (f : htparser -> A) k Q :
  (forall a, tr P (k a) Q) -> tr P (bind (getp f) k) Q.
Proof. intros H s Hs. exact (H (f s.1) s Hs). Qed.

(** The hook rule: the automaton must allow the call. *)
Lemma tr_HOOK P n d Q q R :
  (forall s, P s -> In_ q R s) -> frame_stable R ->
  (forall q', next_phase q n = Some q' -> forall s, In_ q' R s -> Q s) ->
  is_Some (next_phase q n) ->
  tr P (HOOK hooks n d) Q.
Proof.
  intros HP HR HQ [q' Hq'] s Hs. destruct (HP s Hs) as [Ha HRs].
  pose proof (Hobeys _ _ _ d s Hq' Ha) as Hc.
  assert ((HOOK hooks n d s).1 = true -> R (HOOK hooks n d s).2.1) as Hr.
  { unfold HOOK. destruct hooks as [hs|] eqn:Eh; [|done]. destruct (hs n) as [f|] eqn:Ef; [|done].
    pose proof (HookFrame0 hs n f d s eq_refl Ef) as Hf. destruct (f d s) as [v [p' w']]. cbn in *.
    destruct (v =? 0); cbn; [|done]. intros _. by eapply HR. }
  assert ((HOOK hooks n d s).1 = false -> state (HOOK hooks n d s).2.1 = S_ERROR) as He.
  { unfold HOOK. destruct hooks as [hs|]; [|done]. destruct (hs n) as [f|]; [|done].
    destruct (f d s) as [v [p' w']]. by destruct (v =? 0). }
  destruct (HOOK hooks n d s) as [[] s']; cbn in *; [|by split; [apply He|]].
  eapply HQ; [done|]. split; [done|by apply Hr].
Qed.

Lemma tr_token P n d Q r R :
  token_rank n = Some r -> n <> h_args -> frame_stable R ->
  (forall s, P s -> Line r R s) -> (forall s, In_ (ph_line r) R s -> Q s) ->
  tr P (HOOK hooks n d) Q.
Proof.
  intros Hn Hargs HR HP HQ s Hs. destruct (HP s Hs) as (k & Hk & Hin).
  assert (next_phase (ph_line k) n = Some (ph_line r)) as Hnext.
  { apply Nat.ltb_lt in Hk. destruct n; try done; injection Hn as <-;
      cbn -[Nat.ltb]; by rewrite Hk. }
  assert (tr (In_ (ph_line k) R) (HOOK hooks n d) Q) as Ht; [|exact (Ht s Hin)].
  apply (tr_HOOK _ n d Q (ph_line k) R); [done|done| |by eexists].
  intros q' Hq' s' Hs'. rewrite Hnext in Hq'. injection Hq' as <-. by apply HQ.
Qed.
(** The query follows the path. *)
Lemma tr_args d R :
  frame_stable R -> tr (In_ (ph_line 5) R) (HOOK hooks h_args d) (Line 7 R).
Proof.
  intros HR. eapply (tr_HOOK _ _ _ _ (ph_line 5) R); [done|done| |by eexists].
  intros q' [= <-] s Hs. exists 6%nat. split; [lia|done].
Qed.
Lemma in_line r r' R s : (r < r')%nat -> In_ (ph_line r) R s -> Line r' R s.
Proof. intros Hr Hs. by exists r. Qed.

Lemma line_weaken r r' R s : (r <= r')%nat -> Line r R s -> Line r' R s.
Proof. intros Hr (k & Hk & Hs). exists k. split; [lia|done]. Qed.

Definition in_state (st : state_t) (p : htparser) : Prop := state p = st.
Lemma in_state_stable st : frame_stable (in_state st).
Proof. intros p p' [] Hp. unfold in_state in *. congruence. Qed.

Hint Resolve in_state_stable : core.

Lemma tr_fail_in q R e Q : tr (In_ q R) (fail e) Q.
Proof. apply tr_fail. intros s [Ha _]. by eexists. Qed.

Lemma tr_upd_in q R f k Q :
  (forall p, R p -> R (f p)) -> tr (In_ q R) k Q -> tr (In_ q R) (updp f ;; k) Q.
Proof. intros Hf Hk. eapply tr_upd; [|exact Hk]. intros s [Ha HR].
  split; [done|]. by apply Hf. Qed.

(** *** The start line *)

Lemma tr_host_port base u R Q :
  frame_stable R -> (forall s, Line 5 R s -> Q s) ->
  tr (Line 3 R) (emit_host_port hooks base u) Q.
Proof.
  intros HR HQ. unfold emit_host_port.
  eapply tr_and; [apply (tr_token _ _ _ (Line 4 R) 3 R); [done..|]; intros s; apply in_line; lia|].
  assert (tr (Line 4 R) (ret true) Q) as Hskip.
  { apply tr_true. intros s Hs. apply HQ. revert Hs. apply line_weaken. lia. }
  destruct (parsed_uri_has_port u); [|done].
  destruct (after_last _ _); [|done]. apply (tr_token _ _ _ Q 4 R); [done..|].
  intros s Hs. apply HQ. revert Hs. apply in_line. lia.
Qed.

(** A token hook, from any earlier point of the line. *)
Lemma tr_tok n d r r' R :
  token_rank n = Some r -> n <> h_args -> (r' <= r)%nat -> frame_stable R ->
  tr (Line r' R) (HOOK hooks n d) (Line (S r) R).
Proof.
  intros Hn Hargs Hr HR. apply (tr_token _ n d _ r R); try done.
  - intros s. by apply line_weaken.
  - intros s. apply in_line. lia.
Qed.
Lemma tr_path d r' R :
  (r' <= 5)%nat -> frame_stable R -> tr (Line r' R) (HOOK hooks h_path d) (In_ (ph_line 5) R).
Proof.
  intros Hr HR. apply (tr_token _ h_path d _ 5 R); try done. intros s. by apply line_weaken.
Qed.
(** The query, if there is one. *)
Lemma tr_query (b : bool) d R :
  frame_stable R ->
  tr (In_ (ph_line 5) R) (if b then HOOK hooks h_args d else ret true) (Line 7 R).
Proof.
  intros HR. destruct b; [by apply tr_args|]. apply tr_true. intros s. apply in_line. lia.
Qed.

Lemma tr_skip r r' R : (r <= r')%nat -> tr (Line r R) (ret true) (Line r' R).
Proof. intros Hr. apply tr_true. intros s. by apply line_weaken. Qed.

Lemma line_at r R s : Line r R s -> exists q, at_phase q s.
Proof. intros (k & _ & Hq & _). by eexists. Qed.

Lemma tr_upd_line r f k R Q :
  (forall p, R p -> R (f p)) -> tr (Line r R) k Q -> tr (Line r R) (updp f ;; k) Q.
Proof.
  intros Hf Hk. eapply tr_upd; [|exact Hk].
  intros s (j & Hj & Ha & HR). exists j. split; [done|]. split; [done|]. by apply Hf.
Qed.

Lemma tr_fail_line r e R Q : tr (Line r R) (fail e) Q.
Proof. apply tr_fail. intros s. apply line_at. Qed.

Lemma tr_emit_target t R :
  frame_stable R -> (forall p sch, R p -> R (p <| scheme := sch |>)) ->
  tr (Line 2 R) (emit_target hooks t) (Line 8 R).
Proof.
  intros HR Hsch. unfold emit_target.
  assert (forall u r, (3 <= r)%nat -> tr (Line 2 R) (emit_host_port hooks t u) (Line 5 R))
    as Hhp.
  { intros u r _. eapply tr_conseq; [by apply (tr_host_port t u R (Line 5 R))| |done].
    intros s. apply line_weaken. lia. }
  assert (forall d, tr (Line 7 R) (HOOK hooks h_uri d) (Line 8 R)) as Huri.
  { intros d. apply tr_tok; [done|done|lia|done]. }
  assert (forall d, tr (In_ (ph_line 5) R) (HOOK hooks h_uri d) (Line 8 R)) as Huri'.
  { intros d. eapply tr_conseq; [apply Huri| |done]. intros s. apply in_line. lia. }
  destruct (_ =? _).
  { apply tr_upd_line; [auto|].
    eapply tr_and; [by apply tr_path; [lia|]|].
    eapply tr_and; [|apply Huri]. destruct (memchr _ _); [by apply tr_args|].
    apply tr_true. intros s. apply in_line. lia. }
  destruct (_ && _).
  { apply tr_upd_line; [auto|].
    eapply tr_and; [by apply tr_path; [lia|]|]. apply Huri'. }
  apply tr_getp. intros meth.
  destruct (parsed_uri_has_error _); [apply tr_fail_line|].
  destruct (parsed_uri_is_authority_form _).
  { apply tr_upd_line; [auto|]. eapply tr_and; [by apply (Hhp _ 3%nat)|].
    eapply tr_and; [by apply tr_path; [lia|]|]. apply Huri'. }
  apply tr_upd_line; [auto|].
  destruct (bool_decide _); [apply tr_fail_line|].
  eapply tr_and; [by apply (tr_tok _ _ 2); [| |lia|]|].
  eapply tr_and; [by apply (tr_host_port _ _ R (Line 5 R))|].
  eapply tr_and; [by apply tr_path; [lia|]|].
  eapply tr_and; [|apply Huri]. by apply tr_query.
Qed.

Lemma version_keeps P v :
  (forall s ma mi, P s -> P (s.1 <| major := ma |> <| minor := mi |>, s.2)) ->
  hoare P (parse_version v) (fun _ => P).
Proof.
  intros HP. unfold parse_version.
  repeat (case_match; try by intros s Hs).
  intros s Hs. by apply HP.
Qed.

Lemma tr_version P v k e Q :
  (forall s ma mi, P s -> P (s.1 <| major := ma |> <| minor := mi |>, s.2)) ->
  (forall s, P s -> exists q, at_phase q s) -> tr P k Q ->
  tr P (ok <- parse_version v ;; if negb ok then fail e else k) Q.
Proof.
  intros HP Hat Hk. eapply hoare_bind; [by apply version_keeps|].
  intros []; cbn; [exact Hk|by apply tr_fail].
Qed.

Lemma tr_request_line line :
  tr (In_ (ph_line 0) (in_state S_HEAD_LINE)) (parse_request_line hooks line)
     (Line 8 (in_state S_HEAD_LINE)).
Proof.
  assert (forall s, In_ (ph_line 0) (in_state S_HEAD_LINE) s ->
    Line 1 (in_state S_HEAD_LINE) s) as Hl by (intros s Hs; exists 0%nat; split; [lia|done]).
  eapply tr_conseq; [|exact Hl|done]. unfold parse_request_line.
  destruct (next_token line) as [meth l1], (next_token l1) as [target l2],
    (next_token l2) as [ver l3].
  apply tr_upd_line; [done|].
  destruct (bool_decide _); [apply tr_fail_line|].
  destruct (_ || _); [apply tr_fail_line|].
  apply tr_version.
  - intros s ma mi (k & Hk & Hs). by exists k.
  - intros s. apply line_at.
  - eapply tr_and; [by apply (tr_tok _ _ 1); [| |lia|]|]. by apply tr_emit_target.
Qed.

Lemma tr_status_line line :
  tr (In_ (ph_line 0) (in_state S_HEAD_LINE)) (parse_status_line line)
     (Line 8 (in_state S_HEAD_LINE)).
Proof.
  unfold parse_status_line.
  assert (forall P e, (forall s, P s -> exists q, at_phase q s) ->
    tr P (fail e) (Line 8 (in_state S_HEAD_LINE))) as Hfail by (intros; by apply tr_fail).
  eapply (hoare_bind _ _ _ (fun _ => In_ (ph_line 0) (in_state S_HEAD_LINE))).
  { destruct (_ <? _)%nat; [by intros s|]. by apply version_keeps. }
  intros []; cbn [negb]; [|apply Hfail; intros s [Ha _]; by eexists].
  destruct (_ || _); [apply Hfail; intros s [Ha _]; by eexists|].
  apply tr_upd_in; [done|].
  destruct (_ <? _); [apply Hfail; intros s [Ha _]; by eexists|].
  apply tr_true. intros s Hs. exists 0%nat. split; [lia|done].
Qed.

(** *** Header fields *)

Lemma foldl_state {A} (f : htparser -> A -> htparser) l p :
  (forall p a, state (f p a) = state p) -> state (foldl f p l) = state p.
Proof. intros Hf. revert p. induction l as [|a l IH]; intros p; cbn; [done|]. by rewrite IH. Qed.

Lemma note_connection_state v p : state (note_connection v p) = state p.
Proof. apply foldl_state. intros q a. unfold note_connection_token. by repeat case_match. Qed.

Lemma note_transfer_encoding_state v p : state (note_transfer_encoding v p) = state p.
Proof.
  unfold note_transfer_encoding. rewrite foldl_state; [done|].
  intros q a. unfold note_coding. by repeat case_match.
Qed.

Lemma tr_content_length q st els any :
  tr (In_ q (in_state st)) (note_content_length_loop els any) (In_ q (in_state st)).
Proof.
  revert any. induction els as [|el els IH]; intros any; cbn.
  - destruct any; [by apply tr_true|apply tr_fail_in].
  - destruct (parse_u64 el); [|apply tr_fail_in].
    apply tr_gets. intros p. destruct (_ && _); [apply tr_fail_in|].
    apply tr_upd_in; [done|]. apply IH.
Qed.

(** After [note_header] the header's value may be reported. *)
Definition Valued st s : Prop := exists b, In_ (ph_key b) (in_state st) s.

Lemma tr_note_header st name value :
  tr (In_ (ph_key true) (in_state st)) (note_header hooks name value) (Valued st).
Proof.
  assert (tr (In_ (ph_key true) (in_state st)) (ret true) (Valued st)) as Hskip.
  { apply tr_true. intros s Hs. by exists true. }
  assert (forall f, (forall p, state (f p) = state p) ->
    tr (In_ (ph_key true) (in_state st)) (updp f ;; ret true) (Valued st)) as Hupd.
  { intros f Hf. apply tr_upd_in; [|done]. intros p. unfold in_state. by rewrite Hf. }
  unfold note_header. apply tr_gets. intros p.
  assert (tr (In_ (ph_key true) (in_state st)) (HOOK hooks h_hostname value) (Valued st))
    as Hhost.
  { eapply (tr_HOOK _ _ _ _ (ph_key true)); [done..| |by eexists].
    intros q' [= <-] s Hs. by exists false. }
  assert (tr (In_ (ph_key true) (in_state st)) (note_content_length value) (Valued st))
    as Hcl.
  { eapply tr_conseq; [apply tr_content_length|done|]. intros s Hs. by exists true. }
  repeat (case_match; try done);
    first [ apply Hupd, note_connection_state
          | apply Hupd, note_transfer_encoding_state
          | apply tr_upd_in; [done|]; first [done | by apply Hupd] ].
Qed.

(** The phase between header fields, of the head or of the trailers. *)
Definition fields (trailer : bool) : phase := if trailer then ph_trailers else ph_hdrs.

Lemma tr_parse_header st line trailer :
  tr (In_ (fields trailer) (in_state st)) (parse_header hooks line trailer)
     (In_ (fields trailer) (in_state st)).
Proof.
  unfold parse_header. destruct (memchr _ _) as [colon|]; [|apply tr_fail_in].
  destruct (_ || _); [apply tr_fail_in|].
  destruct trailer; cbn [fields].
  - eapply tr_and; [|eapply tr_and; [by apply tr_true|]].
    + eapply (tr_HOOK _ _ _ (In_ ph_tkey (in_state st)) ph_trailers);
        [done..| |by eexists]. by intros q' [= <-].
    + eapply (tr_HOOK _ _ _ _ ph_tkey); [done..| |by eexists]. by intros q' [= <-].
  - eapply tr_and; [|eapply tr_and; [apply tr_note_header|]].
    + eapply (tr_HOOK _ _ _ _ ph_hdrs); [done..| |by eexists]. by intros q' [= <-].
    + intros s [b Hs].
      assert (tr (In_ (ph_key b) (in_state st)) (HOOK hooks h_hdr_val (trim (drop (colon + 1) line)))
        (In_ ph_hdrs (in_state st))) as Ht; [|exact (Ht s Hs)].
      eapply (tr_HOOK _ _ _ _ (ph_key b)); [done..| |by destruct b; eexists].
      by destruct b; intros q' [= <-].
Qed.

(** *** The end of the head, and the body *)

Lemma tr_framing q st :
  tr (In_ q (in_state st)) framing (In_ q (in_state st)).
Proof.
  unfold framing. apply tr_gets. intros p.
  eapply (hoare_bind _ _ _ (fun b => post b (In_ q (in_state st)))).
  - repeat case_match; first [apply tr_fail_in | by apply tr_upd_in, tr_true].
  - intros []; [by apply tr_upd_in, tr_true|]. intros s Hs. exact Hs.
Qed.

(** A hook call whose outcome is ignored: [(void)HOOK(...)]. *)
Lemma void_HOOK {A} (P : St W -> Prop) n q q' R (a : A) :
  (forall s, P s -> In_ q R s) -> frame_stable R -> next_phase q n = Some q' ->
  (forall s, In_ q' R s -> trace_ok s) ->
  hoare P (HOOK hooks n [] ;; ret a) (fun _ => trace_ok).
Proof.
  intros HP HR Hn Hok. eapply hoare_bind.
  - apply (tr_HOOK P n [] (In_ q' R) q R); [done|done| |by rewrite Hn].
    rewrite Hn. by intros q'' [= <-].
  - intros [] s Hs; [by apply Hok|by apply stopped_ok].
Qed.

(** In the body, between (or, with [C_DATA], inside) chunks. *)
Definition in_body (b : body_t) (c : chunk_t) (p : htparser) : Prop :=
  state p = S_BODY /\ body p = b /\ chunk p = c.
Lemma in_body_stable b c : frame_stable (in_body b c).
Proof. intros p p' [] (? & ? & ?). unfold in_body. repeat split; congruence. Qed.
Hint Resolve in_body_stable : core.

Definition body_phase (b : body_t) (c : chunk_t) : phase :=
  match b, c with
  | B_CHUNKED, C_DATA | B_CHUNKED, C_DATA_END => ph_chunk
  | _, _ => ph_body
  end.

Lemma in_ok q R s :
  In_ q R s -> (forall p, R p -> expects p q) -> trace_ok s.
Proof. intros [Ha HR] H. apply (at_phase_ok q); auto. Qed.

Lemma in_body_expects b c p : in_body b c p -> expects p (body_phase b c).
Proof. intros (Hs & Hb & Hc). unfold expects. by rewrite Hs, Hb, Hc. Qed.
Hint Resolve in_body_expects : core.

(** An update and the read that follows it. *)
Lemma hoare_updp {A} P (f : htparser -> htparser) (k : unit -> M (St W) A) P'
    (Q : A -> St W -> Prop) :
  (forall s, P s -> P' (f s.1, s.2)) -> hoare P' (k tt) Q -> hoare P (bind (updp f) k) Q.
Proof. intros Hf Hk s Hs. exact (Hk _ (Hf s Hs)). Qed.

Lemma hoare_post_if {A} P (m : M (St W) bool) (k1 k2 : M (St W) A)
    (R : St W -> Prop) (Q : A -> St W -> Prop) :
  tr P m R -> (forall s, stopped s -> Q (k1 s).1 (k1 s).2) -> hoare R k2 Q ->
  hoare P (ok <- m ;; if negb ok then k1 else k2) Q.
Proof.
  intros Hm H1 H2. eapply hoare_bind; [exact Hm|]. intros []; cbn; [exact H2|exact H1].
Qed.

Lemma trace_body_raw data b c :
  b <> B_CHUNKED ->
  hoare (In_ ph_body (in_body b c)) (parse_body_raw hooks data) (fun _ => trace_ok).
Proof.
  intros Hb.
  assert (body_phase b c = ph_body) as Hph by (by destruct b).
  assert (forall s, In_ ph_body (in_body b c) s -> trace_ok s) as Hok.
  { intros s Hs. eapply in_ok; [exact Hs|]. rewrite <- Hph. auto. }
  unfold parse_body_raw. apply hoare_gets. intros p.
  eapply hoare_conseq with (Q' := fun _ => trace_ok); [|by intros s [Hs _]|done].
  apply (hoare_post_if _ _ _ _ (In_ ph_body (in_body b c))).
  - destruct (_ =? _)%nat; [by apply tr_true|].
    eapply (tr_HOOK _ _ _ _ ph_body); [done| |by intros q' [= <-]|by eexists]. auto.
  - intros s Hs. by apply stopped_ok.
  - apply hoare_gets. intros p1. eapply (hoare_conseq _ (In_ ph_body (in_body b c)));
      [|by intros s [Hs _]|intros a s Hs; exact Hs].
    destruct (bool_decide _); [|apply hoare_ret; auto].
    apply (hoare_updp _ _ _ (In_ ph_body (in_body b c))); [done|].
    apply hoare_gets; intros p2; eapply hoare_bind.
    + apply (hoare_when _ _ _ (fun _ => trace_ok)).
      * intros _ s [[Ha HR] _]. eapply (in_ok ph_body (in_state S_COMPLETE)); [by split|].
        unfold expects. intros q ->. by left.
      * intros _ s [Hs _]. by apply Hok.
    + intros u. by apply hoare_ret.
Qed.

(** Entering phase [q] with [R], no matter which state was read. *)
Lemma hoare_gets_in {A B} q R (f : St W -> A) (k : A -> M (St W) B)
    (Q : B -> St W -> Prop) :
  (forall a, hoare (In_ q R) (k a) Q) -> hoare (In_ q R) (bind (gets f) k) Q.
Proof. intros H s Hs. exact (H (f s) s Hs). Qed.

Lemma hoare_fail_in {A} q R e (a : A) :
  hoare (In_ q R) (fail e ;; ret a) (fun _ => trace_ok).
Proof. intros s [Ha _]. apply stopped_ok. split; [done|]. by eapply Hstop. Qed.

Lemma in_chunk_ok c s :
  In_ (body_phase B_CHUNKED c) (in_body B_CHUNKED c) s -> trace_ok s.
Proof. intros Hs. eapply in_ok; [exact Hs|auto]. Qed.
Hint Resolve in_chunk_ok : core.

Lemma trace_chunk_size data :
  hoare (In_ ph_body (in_body B_CHUNKED C_SIZE)) (chunk_size_step hooks data)
        (fun _ => trace_ok).
Proof.
  unfold chunk_size_step. apply hoare_gets_in. intros p.
  destruct (take_line _ _) as [line off| |]; [| |apply hoare_fail_in].
  - destruct (parse_chunk_size line) as [size|]; [|apply hoare_fail_in].
    destruct (_ =? _).
    + apply (hoare_updp _ _ _ (In_ ph_body (in_state S_TRAILERS)));
        [by intros s [Ha _]|].
      eapply (void_HOOK _ _ ph_body ph_trailers); [done..|].
      intros s Hs. eapply in_ok; [exact Hs|]. intros q Hq. unfold expects. by rewrite Hq.
    + apply (hoare_updp _ _ _ (In_ ph_body (in_body B_CHUNKED C_DATA))).
      { intros s [Ha (? & ? & ?)]. by repeat split. }
      eapply (void_HOOK _ _ ph_body ph_chunk); [done..|auto|done|].
      intros s Hs. by apply (in_chunk_ok C_DATA).
  - apply hoare_ret. intros s Hs. by apply (in_chunk_ok C_SIZE).
Qed.

Lemma trace_chunk_data data :
  hoare (In_ ph_chunk (in_body B_CHUNKED C_DATA)) (chunk_data_step hooks data)
        (fun _ => trace_ok).
Proof.
  unfold chunk_data_step. apply hoare_gets_in. intros p.
  apply (hoare_post_if _ _ _ _ (In_ ph_chunk (in_body B_CHUNKED C_DATA))).
  - eapply (tr_HOOK _ _ _ _ ph_chunk); [done|auto|by intros q' [= <-]|by eexists].
  - intros s Hs. by apply stopped_ok.
  - apply (hoare_updp _ _ _ (In_ ph_chunk (in_body B_CHUNKED C_DATA))); [done|].
    apply hoare_gets_in. intros p'.
    apply (hoare_bind _ _ _ (fun _ => trace_ok)); [|intros u; by apply hoare_ret].
    apply hoare_when; intros _.
    + intros s [Ha (? & ? & ?)]. apply (in_chunk_ok C_DATA_END). by repeat split.
    + intros s Hs. by apply (in_chunk_ok C_DATA).
Qed.

Lemma trace_chunk_end data :
  hoare (In_ ph_chunk (in_body B_CHUNKED C_DATA_END)) (chunk_end_step hooks data)
        (fun _ => trace_ok).
Proof.
  unfold chunk_end_step. apply hoare_gets_in. intros p.
  destruct (take_line _ _) as [line off| |]; [| |apply hoare_fail_in].
  - destruct (negb _); [apply hoare_fail_in|].
    apply (hoare_updp _ _ _ (In_ ph_chunk (in_body B_CHUNKED C_SIZE))).
    { intros s [Ha (? & ? & ?)]. by repeat split. }
    eapply (void_HOOK _ _ ph_chunk ph_body); [done..|auto|done|].
    intros s Hs. by apply (in_chunk_ok C_SIZE).
  - destruct (_ <? _)%nat; [|apply hoare_fail_in].
    apply hoare_ret. intros s Hs. by apply (in_chunk_ok C_DATA_END).
Qed.

Lemma trace_body data :
  hoare (fun s => trace_ok s /\ state s.1 = S_BODY) (parse_body hooks data)
        (fun _ => trace_ok).
Proof.
  intros s [Hok Hst]. destruct (trace_ok_at _ Hok ltac:(by rewrite Hst)) as (q & Ha & He).
  unfold expects in He. rewrite Hst in He. subst q. unfold parse_body, bind at 1, gets. cbn [fst snd].
  set (b := body s.1) in *. set (c := chunk s.1) in *.
  assert (In_ (body_phase b c) (in_body b c) s) as Hs.
  { split; [by destruct b, c|]. by repeat split. }
  destruct b eqn:Eb.
  - apply (in_ok ph_body (in_state S_COMPLETE)); [by split; destruct c|].
    intros p Hp. unfold expects. rewrite Hp. by left.
  - by apply (trace_body_raw data B_LENGTH c).
  - unfold parse_body_chunked, bind, gets. cbn [fst snd].
    change (chunk s.1) with c. destruct c.
    + by apply trace_chunk_size.
    + by apply trace_chunk_data.
    + by apply trace_chunk_end.
  - by apply (trace_body_raw data B_IDENTITY c).
Qed.

(** *** The run loop *)

Lemma trace_start_line line :
  hoare (In_ (ph_line 0) (in_state S_HEAD_LINE)) (start_line hooks line)
        (fun _ => trace_ok).
Proof.
  unfold start_line. apply hoare_gets_in. intros p.
  apply (hoare_bind _ _ _ (fun b => post b (Line 8 (in_state S_HEAD_LINE)))).
  { destruct (bool_decide _); [apply tr_request_line|apply tr_status_line]. }
  intros []; [|intros s Hs; by apply stopped_ok]. cbn [when].
  intros s (k & _ & Ha & _).
  apply (void_HOOK (In_ (ph_line k) (in_state S_HEADERS)) on_hdrs_begin (ph_line k)
      ph_hdrs (in_state S_HEADERS) tt); [done|auto|done| |by split].
  intros s' Hs'. eapply in_ok; [exact Hs'|]. intros q Hq. unfold expects. by rewrite Hq.
Qed.

(** Once the framing is decided: the state is one in which a body may follow. *)
Definition framed (p : htparser) : Prop :=
  (state p = S_COMPLETE \/ state p = S_BODY) /\ chunk p = C_SIZE.

Lemma framed_stable : frame_stable framed.
Proof. intros p p' [] []. unfold framed. rewrite hf_state, hf_chunk. by split. Qed.

Lemma framed_expects p : framed p -> expects p ph_body.
Proof.
  intros [[Hs|Hs] Hc]; unfold expects; rewrite Hs; [by left|].
  rewrite Hc. by destruct (body p).
Qed.

Lemma framing_chunk :
  hoare (fun _ : St W => True) framing (fun b s => b = true -> chunk s.1 = C_SIZE).
Proof.
  unfold framing. apply hoare_bind_any. intros p. apply hoare_bind_any. intros [].
  - intros s _ _. done.
  - by intros s _.
Qed.

Lemma hoare_conj {A} P1 P2 (m : M (St W) A) (Q1 Q2 : A -> St W -> Prop) :
  hoare P1 m Q1 -> hoare P2 m Q2 ->
  hoare (fun s => P1 s /\ P2 s) m (fun a s => Q1 a s /\ Q2 a s).
Proof. intros H1 H2 s [Hs1 Hs2]. split; [by apply H1|by apply H2]. Qed.

Lemma trace_head_end :
  hoare (In_ ph_hdrs (in_state S_HEADERS)) (head_end hooks) (fun _ => trace_ok).
Proof.
  unfold head_end.
  apply (hoare_bind _ _ _ (fun b s =>
    post b (In_ ph_hdrs (in_state S_HEADERS)) s /\ (b = true -> chunk s.1 = C_SIZE))).
  { eapply hoare_conseq; [exact (hoare_conj _ _ _ _ _
      (tr_framing ph_hdrs S_HEADERS) framing_chunk)| |].
    - intros s Hs. by split.
    - intros b s Hs. exact Hs. }
  intros []; [|intros s [Hs _]; by apply stopped_ok]. cbn [when].
  apply (hoare_updp _ _ _ (In_ ph_hdrs framed)).
  { intros s [[Ha Hst] Hc]. split; [done|]. split; [|by apply Hc].
    cbn. case_bool_decide; [by left|by right]. }
  apply (hoare_bind _ _ _ (fun b => post b (In_ ph_body framed))).
  { eapply (tr_HOOK _ _ _ _ ph_hdrs); [done|apply framed_stable| |by eexists].
    by intros q' [= <-]. }
  intros ok s Hs. unfold bind, gets. cbn [fst snd].
  assert (trace_ok s) as Hok.
  { destruct ok; [|by apply stopped_ok]. eapply in_ok; [exact Hs|apply framed_expects]. }
  destruct ok; [|done]. cbn [andb]. destruct (flag _ _); [|done].
  destruct Hs as [Ha _]. apply (at_phase_ok ph_body); [done|]. unfold expects. by left.
Qed.

Lemma trace_head_line line :
  hoare (fun s => trace_ok s /\ in_head (state s.1) = true) (head_line hooks line)
        (fun _ => trace_ok).
Proof.
  intros s [Hok Hst]. destruct (trace_ok_at _ Hok) as (q & Ha & He); [by destruct (state s.1)|].
  clear Hok. unfold expects in He.
  assert (forall st, state s.1 = st -> In_ q (in_state st) s) as Hs by by split.
  unfold head_line, bind at 1, gets. cbn [fst snd].
  generalize (max_header_count (cfg s.1)), (header_count s.1). intros mx hc.
  assert (forall t st, In_ (fields t) (in_state st) s ->
    st = (if t then S_TRAILERS else S_HEADERS) ->
    trace_ok ((if negb (mx =? 0) && (mx <=? hc) then fail htparse_error_too_big ;; ret tt
      else updp (fun p => p <| header_count := u64 (header_count p + 1) |>) ;;
           parse_header hooks line t ;; ret tt) s).2) as Hfield.
  { intros t st Hin Hf. destruct (_ && _); [exact (hoare_fail_in _ _ _ _ s Hin)|].
    revert s Ha He Hst Hs Hin. intros s _ _ _ _ Hin.
    assert (tr (In_ (fields t) (in_state st))
      (updp (fun p => p <| header_count := u64 (header_count p + 1) |>) ;;
       parse_header hooks line t) (In_ (fields t) (in_state st))) as Ht
      by (apply tr_upd_in; [done|apply tr_parse_header]).
    specialize (Ht s Hin). revert Ht. unfold bind, updp, ret. cbn.
    destruct (parse_header _ _ _ _) as [[] s']; cbn; [|apply stopped_ok].
    intros Hs'. eapply in_ok; [exact Hs'|]. intros p Hp. unfold expects. rewrite Hp, Hf.
    by destruct t. }
  destruct (state s.1) eqn:E; try done; subst q; cbn [bool_decide]; specialize (Hs _ eq_refl).
  - by apply trace_start_line.
  - rewrite !bool_decide_false by done. destruct (_ =? _)%nat.
    + by apply trace_head_end.
    + by apply (Hfield false S_HEADERS).
  - rewrite bool_decide_false, bool_decide_true by done. destruct (_ =? _)%nat.
    + apply (at_phase_ok ph_trailers); [done|]. by right.
    + by apply (Hfield true S_TRAILERS).
Qed.

Lemma trace_parse_head_loop fuel data off s n s' :
  trace_ok s -> parse_head_loop fuel hooks data off s = Some (n, s') -> trace_ok s'.
Proof.
  revert off s. induction fuel as [|fuel IH]; intros off s Hs; cbn; [done|].
  destruct (in_head (state s.1)) eqn:Hst; cbn; [|by intros [= <- <-]].
  destruct (negb _); [|by intros [= <- <-]].
  destruct (take_line _ _) as [line used| |].
  - pose proof (trace_head_line line s (conj Hs Hst)) as Hl.
    destruct (head_line _ _ _) as [[] s1]. by apply IH.
  - by intros [= <- <-].
  - intros [= <- <-]. apply stopped_ok. split; [done|].
    exact (trace_ok_stop _ Hs).
Qed.

Lemma trace_skip_empty data off :
  hoare (In_ ph_idle (in_state S_START)) (skip_empty (W := W) data off)
    (fun r s => if r.2 then stopped s else In_ ph_idle (in_state S_START) s).
Proof.
  revert off. induction data as [|c data IH]; intros off; cbn; [by intros s|].
  destruct (_ || _); [|by intros s].
  apply hoare_gets_in. intros p. destruct (_ && _); [|apply IH].
  apply (hoare_updp _ _ _ (In_ ph_idle (in_state S_START))); [done|].
  apply hoare_gets_in. intros p'. destruct (_ <=? _); [|apply IH].
  intros s [Ha _]. split; [done|]. by eapply Hstop.
Qed.

Lemma trace_run_step data off s go off' s' :
  trace_ok s -> run_step hooks data off s = Some (go, off', s') -> trace_ok s'.
Proof.
  intros Hs. unfold run_step. destruct (_ && _); [|by intros [= <- <- <-]].
  destruct (state s.1) eqn:Hst;
    try (destruct (parse_head _ _ s) as [[n s1]|] eqn:E; [|done];
         intros [= _ _ <-]; exact (trace_parse_head_loop _ _ _ _ _ _ Hs E)).
  - destruct (trace_ok_at _ Hs ltac:(by rewrite Hst)) as (q & Ha & He). unfold expects in He. rewrite Hst in He. subst q.
    pose proof (trace_skip_empty (drop off data) off s (conj Ha Hst)) as Hsk.
    destruct (skip_empty _ _ s) as [[off1 out] s1]. cbn in Hsk. destruct out; cbn.
    { intros [= _ _ <-]. by apply stopped_ok. }
    destruct Hsk as [Ha1 Hst1]. destruct (_ =? _)%nat.
    { intros [= _ _ <-]. eapply in_ok; [by split|]. intros p Hp. unfold expects.
      by rewrite Hp. }
    assert (tr (In_ ph_idle (in_state S_HEAD_LINE)) (HOOK hooks on_msg_begin [])
      (In_ (ph_line 0) (in_state S_HEAD_LINE))) as Ht.
    { eapply (tr_HOOK _ _ _ _ ph_idle); [done|auto|by intros q [= <-]|by eexists]. }
    unfold bind, updp. cbn [fst snd].
    match goal with |- context [HOOK hooks on_msg_begin [] ?s2] =>
      specialize (Ht s2 (conj Ha1 eq_refl)); destruct (HOOK hooks on_msg_begin [] s2)
        as [b s3] end.
    intros [= _ _ <-]. destruct b; cbn in Ht; [|by apply stopped_ok].
    eapply in_ok; [exact Ht|]. intros p Hp. unfold expects. by rewrite Hp.
  - destruct (_ =? _)%nat; [by intros [= _ _ <-]|].
    pose proof (trace_body (drop off data) s (conj Hs Hst)) as Hb.
    destruct (parse_body _ _ s) as [n s1]. by intros [= _ _ <-].
  - destruct (trace_ok_at _ Hs ltac:(by rewrite Hst)) as (q & Ha & He). unfold expects in He. rewrite Hst in He.
    assert (tr (In_ q (in_state S_START)) (HOOK hooks on_msg_complete [])
      (In_ ph_idle (in_state S_START))) as Ht.
    { eapply (tr_HOOK _ _ _ _ q); [done|auto| |by destruct He; subst; eexists].
      by destruct He; subst; intros q' [= <-]. }
    unfold bind, updp. cbn [fst snd].
    match goal with |- context [HOOK hooks on_msg_complete [] ?s2] =>
      specialize (Ht s2 (conj Ha eq_refl)); destruct (HOOK hooks on_msg_complete [] s2)
        as [b s3] end.
    intros [= _ _ <-]. destruct b; cbn in Ht; [|by apply stopped_ok].
    eapply in_ok; [exact Ht|]. intros p Hp. unfold expects. by rewrite Hp.
  - by intros [= _ _ <-].
Qed.

Lemma trace_run_loop fuel data off s n s' :
  trace_ok s -> run_loop fuel hooks data off s = Some (n, s') -> trace_ok s'.
Proof.
  revert off s. induction fuel as [|fuel IH]; intros off s Hs; cbn; [done|].
  destruct (run_step hooks data off s) as [[[[] off1] s1]|] eqn:E; [| |done].
  - apply IH. by eapply trace_run_step.
  - intros [= <- <-]. by eapply trace_run_step.
Qed.

Lemma trace_run data s n s' :
  trace_ok s -> htparser_run hooks data s = Some (n, s') -> trace_ok s'.
Proof.
  intros Hs. unfold htparser_run. cbn. destruct (run_loop _ _ _ _ _) as [[k s1]|] eqn:E; [|done].
  intros [= _ <-]. by eapply trace_run_loop in E.
Qed.
Lemma trace_run_eof s : trace_ok s -> trace_ok (htparser_run_eof hooks s).2.
Proof.
  intros Hs. unfold htparser_run_eof, bind at 1, gets. cbn [fst snd].
  destruct (state s.1) eqn:Hst; try done.
  destruct (bool_decide (body s.1 = B_IDENTITY)) eqn:Hb; [|done].
  apply bool_decide_eq_true in Hb.
  destruct (trace_ok_at _ Hs ltac:(by rewrite Hst)) as (q & Ha & He). unfold expects in He. rewrite Hst, Hb in He. subst q.
  apply (void_HOOK (In_ ph_body (in_state S_START)) on_msg_complete ph_body ph_idle
    (in_state S_START) 0%nat); [done|auto|done| |by split].
  intros s1 Hs1. eapply in_ok; [exact Hs1|]. intros p Hp. unfold expects. by rewrite Hp.
Qed.
Lemma trace_ok_frame f s :
  (forall p q, expects p q -> expects (f p) q) -> (forall p, state (f p) = state p) ->
  trace_ok s -> trace_ok (f s.1, s.2).
Proof.
  intros He Hst [(q & Ha & Hq)|[Hs Hp]]; [left|right].
  - exists q. split; [done|]. by apply He.
  - split; [cbn; by rewrite Hst|done].
Qed.

Lemma trace_session_step op s s' :
  trace_ok s -> session_step hooks op s = Some s' -> trace_ok s'.
Proof.
  intros Hs. destruct op as [data| | | |]; cbn [session_step].
  - destruct (htparser_run _ _ _) as [[n s1]|] eqn:E; [|done]. intros [= <-]. by eapply trace_run.
  - intros [= <-]. by apply trace_run_eof.
  - intros [= <-]. by apply (trace_ok_frame htparser_pause).
  - intros [= <-]. by apply (trace_ok_frame htparser_resume).
  - intros [= <-]. by apply (trace_ok_frame htparser_set_skip_body).
Qed.

Lemma trace_session ops s s' :
  trace_ok s -> session hooks ops s = Some s' -> trace_ok s'.
Proof.
  revert s. induction ops as [|op ops IH]; intros s Hs; cbn; [by intros [= <-]|].
  destruct (session_step hooks op s) as [s1|] eqn:E; [|done].
  apply IH. by eapply trace_session_step.
Qed.
End Trace.

(** ** The log *)

Section Protocol.
Context `{lib : HtStringLib} {W : Type} (hs : htparse_hooks htparser W).
Context `{!HookFrame (Some hs)}.
Abbreviation LW := (list event * W)%type.

(** In phase [q] the log is a word that leads there. *)
Definition log_at (q : phase) (w : LW) : Prop := accepts ph_idle w.1 = Some q.
Definition log_ok (w : LW) : Prop := is_Some (accepts ph_idle w.1).
Lemma logged_obeys : obeys (Some (logged hs)) log_at log_ok.
Proof.
  intros q n q' d [p [log w]] Hn Ha. unfold log_at in Ha. cbn in Ha.
  pose proof (accepts_snoc _ _ _ n d Ha) as Ha'. rewrite Hn in Ha'.
  unfold HOOK, logged, log_at, log_ok. destruct (hs n) as [f|]; [|by cbn].
  destruct (f d (p, w)) as [v [p' w']]. cbn. destruct (v =? 0); cbn; [done|by eexists].
Qed.

(** C22: hooks are called in the order the interface promises.  From
    [htparser_init] on, whatever is fed to the parser in whatever pieces, with
    pauses, EOF and skip_body in between, and whatever the hooks answer, the
    calls form a word of the automaton [accepts]: the head line's tokens in
    order, the query only after the path, then each header's name before its
    value, the body only after on_hdrs_complete, chunks properly bracketed, and
    on_msg_complete once at the end of each message before the next
    on_msg_begin. *)
Theorem hook_protocol t p ops w s' :
  session (Some (logged hs)) ops (htparser_init t p, ([], w)) = Some s' ->
  is_Some (accepts ph_idle s'.2.1).
Proof.
  intros H. apply (trace_session _ log_at log_ok) in H.
  - apply (trace_ok_stop log_at log_ok) in H; [done|]. intros q w' Hq. by exists q.
  - intros q w' Hq. by exists q.
  - exact logged_obeys.
  - by apply (at_phase_ok log_at log_ok ph_idle).
Qed.
End Protocol.

(** A witness: a request whose hooks pause and fail nowhere, in two pieces. *)
Lemma hook_protocol_witness :
  is_Some (accepts ph_idle
    (default (htparser_init htp_type_request calloc_htparser, ([], tt))
      (session (Some (logged null_hooks))
        [op_run (bytes "GET /a HTTP/1.1" ++ [CR]); op_run ([LF; CR; LF])]
        (htparser_init htp_type_request calloc_htparser, ([], tt)))).2.1).
Proof.
  eapply (hook_protocol null_hooks htp_type_request calloc_htparser
    [op_run (bytes "GET /a HTTP/1.1" ++ [CR]); op_run ([LF; CR; LF])] tt).
  vm_compute. reflexivity.
Defined.
