(* ===== verification/MsgParserTyped.v ===== *)
(** * msgparser.c: the values of [struct htparser] stay well typed

    The model keeps the members of the C struct as unbounded [Z].  [typed] says
    what the C types say of them, the width of each member and the declared
    flags only, and what the code relies on while it reads a body: there is a
    body to read, and a counted one still has bytes to come.  Every operation
    preserves it, for hooks that call the setters of parser.h. *)

From S2P Require Import Prelude HtpTypes HtString MsgParser MsgParserFacts MsgParserTrace.

Definition fits (w v : Z) : Prop := 0 <= v < 2 ^ w.

(** All the members of the enumeration of flags. *)
Definition F_ALL_BITS : Z := 12.

Record ranged (p : htparser) : Prop := {
  rg_status : fits 32 (status p);
  rg_major : fits 8 (major p);
  rg_minor : fits 8 (minor p);
  rg_flags : fits F_ALL_BITS (flags p);
  rg_content_len : fits 64 (content_len p);
  rg_orig : fits 64 (orig_content_len p);
  rg_header_count : fits 64 (header_count p);
  rg_empty_lines : fits 64 (empty_lines p);
  rg_bytes_read : fits 64 (bytes_read p);
  rg_total : fits 64 (total_bytes_read p)
}.

(** While a body is read. *)
Definition body_ok (p : htparser) : Prop :=
  state p = S_BODY ->
  match body p with
  | B_NONE => False
  | B_LENGTH => 0 < content_len p
  | B_CHUNKED => chunk p = C_DATA <-> 0 < content_len p
  | B_IDENTITY => True
  end.

Definition typed (p : htparser) : Prop := ranged p /\ body_ok p.

(** The hooks keep the widths, as C makes them. *)
Class RangedHooks {W} (hooks : hook_table W) : Prop :=
  hooks_ranged : forall hs n f d s,
    hooks = Some hs -> hs n = Some f -> ranged s.1 -> ranged (f d s).2.1.

(** ** Arithmetic of the members *)

Create HintDb fits discriminated.

Lemma fits_mod w v : 0 <= w -> fits w (v mod 2 ^ w).
Proof. intros. unfold fits. apply Z.mod_pos_bound. lia. Qed.
Lemma fits_u8 v : fits 8 (u8 v). Proof. by apply fits_mod. Qed.
Lemma fits_u32 v : fits 32 (u32 v). Proof. by apply fits_mod. Qed.
Lemma fits_u64 v : fits 64 (u64 v). Proof. by apply fits_mod. Qed.
Lemma fits_0 w : 0 <= w -> fits w 0.
Proof. intros. unfold fits. lia. Qed.

(** [fits w v]: no bit from [w] on. *)
Lemma fits_bits w v : 0 <= w -> fits w v <-> 0 <= v /\ Z.shiftr v w = 0.
Proof.
  intros. unfold fits. rewrite Z.shiftr_div_pow2 by done. split.
  - intros [? ?]. split; [done|]. by apply Z.div_small.
  - intros [? E]. split; [done|]. apply Z.div_small_iff in E; [|lia]. lia.
Qed.

Lemma fits_on w v m : 0 <= w -> fits w m -> fits w v -> fits w (flag_on v m).
Proof.
  intros Hw. rewrite !fits_bits by done. intros [? Hm] [? Hv]. unfold flag_on.
  split; [by apply Z.lor_nonneg|]. by rewrite Z.shiftr_lor, Hm, Hv.
Qed.
Lemma fits_off w v m : 0 <= w -> fits w v -> fits w (flag_off v m).
Proof.
  intros Hw. rewrite !fits_bits by done. intros [? Hv]. unfold flag_off.
  split; [apply Z.ldiff_nonneg; by left|]. by rewrite Z.shiftr_ldiff, Hv, Z.ldiff_0_l.
Qed.
Lemma fits_mask w v m : 0 <= w -> fits w v -> fits w (Z.land v m).
Proof.
  intros Hw. rewrite !fits_bits by done. intros [? Hv].
  split; [apply Z.land_nonneg; by left|]. by rewrite Z.shiftr_land, Hv, Z.land_0_l.
Qed.

Lemma hexval_fits c : 0 <= hexval c -> fits 64 (hexval c).
Proof. unfold hexval, fits. repeat case_match; lia. Qed.

Lemma chunk_digits_fits s n v r m rest :
  fits 64 v -> chunk_digits s n v = Some (r, m, rest) -> fits 64 r.
Proof.
  revert n v. induction s as [|c s IH]; intros n v Hv; cbn; [by intros [= <- _ _]|].
  destruct (Z.leb_spec 0 (hexval c)); [|by intros [= <- _ _]].
  destruct (n =? 15)%nat; [done|]. apply IH.
  apply fits_on; [done|by apply hexval_fits|apply fits_u64].
Qed.

Lemma parse_chunk_size_fits s size : parse_chunk_size s = Some size -> fits 64 size.
Proof.
  unfold parse_chunk_size. destruct (chunk_digits s 0 0) as [[[v n] rest]|] eqn:E; [|done].
  destruct (n =? 0)%nat; [done|]. destruct (chunk_ext_ok rest); [|done].
  intros [= <-]. eapply chunk_digits_fits; [|exact E]. by apply fits_0.
Qed.

Lemma parse_u64_fits s n : parse_u64 s = Some n -> fits 64 n.
Proof.
  assert (forall v, fits 64 v -> parse_u64_loop s v = Some n -> fits 64 n) as H.
  { induction s as [|c s IH]; intros v Hv; cbn; [by intros [= <-]|].
    destruct (_ || _); [done|]. apply IH, fits_u64. }
  unfold parse_u64. destruct s; [done|]. apply H. by apply fits_0.
Qed.

Lemma isdigit_fits c : isdigit c = true -> 0 <= c - "0"%c <= 9.
Proof. unfold isdigit. change ("0"%c : Z) with 48. lia. Qed.

#[export] Hint Resolve fits_u8 fits_u32 fits_u64 fits_on fits_off fits_mask
  parse_chunk_size_fits parse_u64_fits : fits.

(** ** The setters and the life cycle *)

Lemma fits_const w v : (0 <=? v) && (v <? 2 ^ w) = true -> fits w v.
Proof. unfold fits. lia. Qed.

Ltac fits :=
  match goal with
  | |- fits _ _ => solve [eauto with fits | by apply fits_const | unfold F_ALL_BITS in *; eauto with fits]
  end.

(** [ranged] of an updated parser from [ranged] of the parser. *)
Ltac ranged := intros; destruct_and?;
  repeat match goal with H : ranged _ |- _ => destruct H end;
  split; cbn; try assumption; try fits.

Lemma ranged_on m p : fits F_ALL_BITS m -> ranged p -> ranged (set_flag m p).
Proof. ranged. by apply fits_on. Qed.
Lemma ranged_off m p : ranged p -> ranged (clear_flag m p).
Proof. ranged. by apply fits_off. Qed.

(** The setters of parser.h keep the widths. *)
Lemma ranged_setters p :
  ranged p ->
  ranged (htparser_pause p) /\ ranged (htparser_resume p) /\
  ranged (htparser_set_skip_body p) /\
  (forall m, ranged (htparser_set_method m p)) /\
  (forall v, ranged (htparser_set_major v p)) /\
  (forall v, ranged (htparser_set_minor v p)) /\
  (forall v, ranged (htparser_set_status v p)) /\
  (forall v, ranged (htparser_set_content_length v p)) /\
  (forall v, ranged (htparser_set_userdata v p)).
Proof.
  intros H. split_and!; try (apply ranged_off; done);
    try (apply ranged_on; [by apply fits_const|done]); ranged.
Qed.

Lemma ranged_state st p : ranged p -> ranged (p <| state := st |>).
Proof. ranged. Qed.

Lemma message_reset_ranged p : ranged p -> ranged (message_reset p).
Proof. unfold message_reset. ranged. by apply fits_mask. Qed.

Lemma htparser_init_ranged t p : ranged p -> ranged (htparser_init t p).
Proof.
  intros H. unfold htparser_init. apply message_reset_ranged.
  destruct (config p); ranged.
Qed.

Lemma calloc_ranged : ranged calloc_htparser.
Proof. ranged. Qed.

#[export] Instance null_hooks_ranged : RangedHooks (Some (@null_hooks htparser)).
Proof. intros hs n f d s [= <-]. done. Qed.

(** ** The parser's own updates *)

Section Typed.
Context `{lib : HtStringLib} {W : Type} (hooks : hook_table W).
Context `{!HookFrame hooks, !RangedHooks hooks}.
Implicit Types (s : St W) (R : htparser -> Prop).

(** A hook that is called leaves a ranged parser within the frame; when it
    fails, so does the parser. *)
Lemma HOOK_ranged n d s :
  ranged s.1 ->
  exists s0, hook_frame s.1 s0.1 /\ ranged s0.1 /\
    (HOOK hooks n d s = (true, s0) \/
     HOOK hooks n d s = (false, (failed htparse_error_user s0.1, s0.2))).
Proof.
  intros Hs. unfold HOOK. destruct hooks as [hs|] eqn:Eh.
  2:{ exists s. split; [done|]. split; [done|by left]. }
  destruct (hs n) as [f|] eqn:E.
  2:{ exists s. split; [done|]. split; [done|by left]. }
  exists (f d s).2. split; [by eapply hooks_frame|]. split; [by eapply hooks_ranged|].
  destruct (f d s) as [r s']. cbn. destruct (r =? 0); [by left|by right].
Qed.

Lemma keeps_HOOK_ranged R n d :
  (forall p, R p -> ranged p) ->
  (forall p p', hook_frame p p' -> ranged p' -> R p -> R p') ->
  (forall p, R p -> R (failed htparse_error_user p)) ->
  Keeps R (HOOK hooks n d).
Proof.
  intros Hr Hf He s Hs.
  destruct (HOOK_ranged n d s (Hr _ Hs)) as (s0 & Hfr & Hr0 & [-> | ->]); cbn; eauto.
Qed.

(** Outside a body. *)
Definition ranged_head (p : htparser) : Prop := ranged p /\ state p <> S_BODY.

Lemma head_typed p : ranged_head p -> typed p.
Proof. intros [Hr Hs]. by split; [|intros ?]. Qed.

Ltac head_upd := intros ? [? ?]; split; [|done]; ranged.
Ltac head_hook :=
  apply keeps_HOOK_ranged;
  [ by intros ? []
  | intros ? ? [] ? []; split; [done|congruence]
  | intros ? [? _]; split; [ranged|done] ].
Ltac head := keeps_with head_hook ltac:(solve [head_upd]).

Lemma keeps_version v : Keeps (W := W) ranged_head (parse_version v).
Proof.
  unfold parse_version. head.
  match goal with H : _ && _ && _ && _ && _ = true |- _ =>
    rewrite !andb_true_iff in H; destruct H as [[[[_ Hd1] _] Hd2] _] end.
  apply keeps_updp. head_upd; unfold fits;
    [pose proof (isdigit_fits _ Hd1)|pose proof (isdigit_fits _ Hd2)]; lia.
Qed.

Lemma keeps_request_line line : Keeps ranged_head (parse_request_line hooks line).
Proof.
  unfold parse_request_line, emit_target, emit_host_port.
  destruct (next_token line) as [meth l1], (next_token l1) as [target l2],
    (next_token l2) as [ver l3].
  keeps_with ltac:(first [apply keeps_version | head_hook]) ltac:(solve [head_upd]).
Qed.

(** Three digits are at most 999. *)
Lemma keeps_status_line line : Keeps (W := W) ranged_head (parse_status_line line).
Proof.
  unfold parse_status_line.
  keeps_with ltac:(apply keeps_version) ltac:(solve [head_upd]).
  match goal with H : _ || _ || _ || _ || _ = false |- _ =>
    rewrite !orb_false_iff, !negb_false_iff in H; destruct H as [[[[_ Ha] Hb] Hc] _] end.
  apply isdigit_fits in Ha, Hb, Hc.
  apply keeps_updp. head_upd; unfold fits; lia.
Qed.

Lemma keeps_start_line line :
  hoare (fun s => ranged_head s.1) (start_line hooks line) (fun _ s => ranged_head s.1).
Proof.
  change (Keeps ranged_head (start_line hooks line)). unfold start_line.
  keeps_with ltac:(first [apply keeps_request_line | apply keeps_status_line | head_hook])
    ltac:(solve [head_upd]).
Qed.

Lemma note_transfer_encoding_ranged v p : ranged p -> ranged (note_transfer_encoding v p).
Proof.
  unfold note_transfer_encoding. intros H.
  assert (ranged (set_flag F_HAVE_TE p)) as H1 by (apply ranged_on; [by apply fits_const|done]).
  revert H1. generalize (set_flag F_HAVE_TE p).
  induction (ht_elements v) as [|el els IH]; intros q Hq; [done|]. cbn [foldl]. apply IH.
  unfold note_coding. repeat case_match; repeat (apply ranged_on; [by apply fits_const|]); done.
Qed.
Lemma note_transfer_encoding_head v p :
  ranged_head p -> ranged_head (note_transfer_encoding v p).
Proof.
  intros [Hr Hs]. split; [by apply note_transfer_encoding_ranged|].
  by rewrite note_transfer_encoding_state.
Qed.

Lemma note_connection_ranged v p : ranged p -> ranged (note_connection v p).
Proof.
  unfold note_connection. revert p. induction (ht_elements v) as [|el els IH]; intros p Hp;
    [done|]. cbn [foldl]. apply IH. unfold note_connection_token.
  repeat case_match; repeat (apply ranged_on; [by apply fits_const|]); done.
Qed.
Lemma note_connection_head v p : ranged_head p -> ranged_head (note_connection v p).
Proof.
  intros [Hr Hs]. split; [by apply note_connection_ranged|]. by rewrite note_connection_state.
Qed.

Lemma keeps_content_length v : Keeps (W := W) ranged_head (note_content_length v).
Proof.
  unfold note_content_length. generalize false.
  induction (ht_elements v) as [|el els IH]; intros any; cbn [note_content_length_loop];
    keeps_with ltac:(apply IH) ltac:(solve [head_upd]).
  apply keeps_updp. head_upd. apply fits_on; [done|by apply fits_const|done].
Qed.

Lemma set_flag_head m p : fits F_ALL_BITS m -> ranged_head p -> ranged_head (set_flag m p).
Proof. intros Hm [? ?]. split; [by apply ranged_on|done]. Qed.

Lemma keeps_parse_header line tr : Keeps ranged_head (parse_header hooks line tr).
Proof.
  unfold parse_header, note_header.
  keeps_with ltac:(first [apply keeps_content_length | head_hook])
    ltac:(solve [ head_upd | intros; by apply note_connection_head
                | intros; by apply note_transfer_encoding_head
                | intros; apply set_flag_head; [by apply fits_const|done] ]).
Qed.

(** ** The decision on the body *)

(** Once [framing] has succeeded, but for the state. *)
Definition decided (p : htparser) : Prop :=
  ranged p /\ state p <> S_BODY /\
  match body p with
  | B_LENGTH => 0 < content_len p
  | _ => content_len p = 0 /\ chunk p = C_SIZE
  end.

Lemma framing_decided :
  hoare (fun s => ranged_head s.1) (framing (W := W))
    (fun b s => if b then decided s.1 else ranged_head s.1).
Proof.
  unfold framing. apply hoare_gets. intros p.
  eapply (hoare_bind _ _ _ (fun b s => ranged_head s.1 /\
    (b = true -> body s.1 = B_LENGTH -> orig_content_len s.1 <> 0))).
  { intros [p' w] [[Hr Hs] Hp]. cbn in Hr, Hs, Hp. subst p'.
    repeat case_match; unfold fail, bind, updp, ret; cbn; (split; [split; [ranged|done]|]);
      try done; intros _; repeat case_match; (done || lia). }
  intros [] s [[Hr Hs] Hb]; cbn [negb]; [|by split].
  specialize (Hb eq_refl). destruct s as [p' w]. unfold bind, updp, ret. cbn in Hr, Hs, Hb |- *.
  split; [|split; [done|]].
  - assert (fits 64 (orig_content_len p')) by by destruct Hr.
    case_bool_decide; ranged.
  - cbn. destruct (body p') eqn:E; cbn; try done. destruct Hr as [_ _ _ _ _ [? _]].
    specialize (Hb eq_refl). rewrite bool_decide_true by done. lia.
Qed.

(** Everything a hook may do to a typed parser. *)
Lemma keeps_HOOK_typed n d : Keeps typed (HOOK hooks n d).
Proof.
  apply keeps_HOOK_ranged.
  - by intros p [].
  - intros p p' [] Hr [_ Hb]. split; [done|]. unfold body_ok in *.
    by rewrite hf_state, hf_body, hf_chunk, hf_content_len.
  - intros p [? _]. split; [ranged|]. by intros ?.
Qed.

Lemma decided_typed p :
  decided p ->
  typed (p <| state := if bool_decide (body p = B_NONE) then S_COMPLETE else S_BODY |>).
Proof.
  intros (Hr & _ & Hb). split; [ranged|]. unfold body_ok. cbn.
  destruct (body p) eqn:E; cbn; try done; intros _. destruct Hb as [-> ->].
  split; [done|lia].
Qed.

Lemma keeps_skipped : Keeps (W := W) typed
  (updp (fun p => p <| body := B_NONE |> <| state := S_COMPLETE |>)).
Proof. apply keeps_updp. intros p [? _]. split; [ranged|]. by intros ?. Qed.

Lemma typed_head_end :
  hoare (fun s => ranged_head s.1) (head_end hooks) (fun _ s => typed s.1).
Proof.
  unfold head_end. eapply hoare_bind; [apply framing_decided|].
  intros []; cbn [when]; [|intros s Hs; by apply head_typed].
  apply (hoare_bind _ _ _ (fun _ s => typed s.1)).
  { intros s Hs. by apply decided_typed. }
  intros []. change (Keeps typed (bind (HOOK hooks on_hdrs_complete []) (fun ok =>
    bind (gets fst) (fun p => when (ok && flag p F_SKIP_BODY)
      (updp (fun p => p <| body := B_NONE |> <| state := S_COMPLETE |>)))))).
  keeps_with ltac:(first [apply keeps_HOOK_typed | apply keeps_skipped]) ltac:(idtac).
Qed.

Lemma typed_head_line line :
  hoare (fun s => ranged_head s.1) (head_line hooks line) (fun _ s => typed s.1).
Proof.
  unfold head_line. apply hoare_gets. intros p.
  assert (forall m : M (St W) unit, Keeps ranged_head m ->
    hoare (fun s => ranged_head s.1 /\ s.1 = p) m (fun _ s => typed s.1)) as Hk.
  { intros m Hm s [Hs _]. by apply head_typed, Hm. }
  assert (forall tr, Keeps ranged_head
    (updp (fun p => p <| header_count := u64 (header_count p + 1) |>) ;;
     parse_header hooks line tr ;; ret tt)) as Hfield.
  { intros tr. keeps_with ltac:(apply keeps_parse_header) ltac:(solve [head_upd]). }
  assert (Keeps (W := W) ranged_head (updp (fun p => p <| state := S_COMPLETE |>))) as Hend.
  { apply keeps_updp. head_upd. }
  assert (Keeps (W := W) ranged_head (fail htparse_error_too_big ;; ret tt)) as Hfail.
  { apply keeps_bind; [|intros; apply keeps_ret]. apply keeps_fail. head_upd. }
  cbv zeta. repeat case_match; try (by apply Hk).
  - intros s [Hs _]. apply head_typed. by apply keeps_start_line.
  - intros s [Hs _]. by apply typed_head_end.
Qed.

(** ** Bodies *)

Lemma HOOK_typed n d s :
  typed s.1 ->
  exists s0, hook_frame s.1 s0.1 /\ typed s0.1 /\
    (HOOK hooks n d s = (true, s0) \/
     HOOK hooks n d s = (false, (failed htparse_error_user s0.1, s0.2))).
Proof.
  intros [Hr Hb]. destruct (HOOK_ranged n d s Hr) as (s0 & Hf & Hr0 & H).
  exists s0. split; [done|]. split; [|done]. split; [done|].
  destruct Hf. unfold body_ok in *. by rewrite hf_state, hf_body, hf_chunk, hf_content_len.
Qed.

(** A step of [parse_body] in a state of its own. *)
Definition in_body_typed (b : body_t) (c : option chunk_t) (p : htparser) : Prop :=
  typed p /\ state p = S_BODY /\ body p = b /\
  match c with Some c => chunk p = c | None => True end.

(** Consuming [n] bytes of those to come, then leaving with [f] at the end. *)
Lemma consume_fits p n : 0 <= n <= content_len p -> ranged p ->
  u64 (content_len p - n) = content_len p - n.
Proof. intros Hn [_ _ _ _ Hc]. unfold fits in Hc. apply Z.mod_small. lia. Qed.

(** A failed hook. *)
Lemma failed_typed e p : ranged p -> typed (failed e p).
Proof. intros H. split; [ranged|]. by intros ?. Qed.

Lemma typed_body_raw b data :
  (0 < length data)%nat -> b = B_LENGTH \/ b = B_IDENTITY ->
  hoare (fun s => in_body_typed b None s.1) (parse_body_raw hooks data) (fun _ s => typed s.1).
Proof.
  intros Hd Hb [p w] (Ht & Hst & Hbd & _). cbn in *.
  unfold parse_body_raw, bind at 1, gets. cbn [fst snd]. cbv zeta.
  set (n := if _ && _ then _ else _).
  assert (n <> 0%nat /\ (b = B_LENGTH -> Z.of_nat n <= content_len p)) as [Hn Hle].
  { subst n. destruct Ht as [_ Hk]. specialize (Hk Hst). rewrite Hbd in Hk |- *.
    destruct Hb; subst b; [rewrite bool_decide_true by done|rewrite bool_decide_false by done; split; [cbn; lia|done]].
    cbn in Hk |- *.
    destruct (Z.ltb_spec (content_len p) (Z.of_nat (length data))); lia. }
  apply Nat.eqb_neq in Hn as Hn'. rewrite Hn'. clear Hn'.
  unfold bind at 1.
  destruct (HOOK_typed h_body (take n data) (p, w) Ht) as ([p0 w0] & Hf & Ht0 & [-> | ->]);
    cbn [fst snd negb] in *; [|by apply failed_typed, Ht0].
  unfold bind at 1. cbn [fst snd].
  case_bool_decide as Eb; [|done]. rewrite (hf_body _ _ Hf), Hbd in Eb.
  rewrite <- (hf_content_len _ _ Hf) in Hle. specialize (Hle Eb).
  unfold bind, updp, when, ret. cbn.
  rewrite consume_fits by first [by destruct Ht0 | lia].
  destruct Ht0 as [Hr Hk]. assert (fits 64 (content_len p0)) as Hc by by destruct Hr.
  unfold fits in Hc.
  destruct (Z.eqb_spec (content_len p0 - Z.of_nat n) 0); cbn.
  - split; [ranged; unfold fits; lia|]. by intros ?.
  - split; [ranged; unfold fits; lia|]. intros _. cbn.
    rewrite (hf_body _ _ Hf), Hbd, Eb. lia.
Qed.

Lemma typed_fail {A} b c q e (a : A) :
  hoare (fun s => in_body_typed b c s.1 /\ s.1 = q) (fail (W := W) e ;; ret a)
    (fun _ s => typed s.1).
Proof. intros s [[[Hr _] _] _]. by apply failed_typed. Qed.

Lemma typed_chunk_size data :
  hoare (fun s => in_body_typed B_CHUNKED (Some C_SIZE) s.1) (chunk_size_step hooks data)
    (fun _ s => typed s.1).
Proof.
  unfold chunk_size_step. apply hoare_gets. intros p.
  destruct (take_line p data) as [line off| |]; [|by intros s [[? _] _]|apply typed_fail].
  destruct (parse_chunk_size line) as [size|] eqn:E; [|apply typed_fail].
  apply parse_chunk_size_fits in E. destruct (Z.eqb_spec size 0) as [|Hne].
  - apply (hoare_bind _ _ _ (fun _ s => typed s.1)).
    + intros s [[[Hr _] _] _]. split; [ranged|]. by intros ?.
    + intros _. apply keeps_bind; [apply keeps_HOOK_typed|intros; apply keeps_ret].
  - apply (hoare_bind _ _ _ (fun _ s => typed s.1)).
    + intros s [[[Hr _] (Hst & Hb & _)] _]. split; [ranged|]. intros _. cbn. rewrite Hb.
      unfold fits in E. split; [lia|done].
    + intros _. apply keeps_bind; [apply keeps_HOOK_typed|intros; apply keeps_ret].
Qed.

Lemma typed_chunk_data data :
  (0 < length data)%nat ->
  hoare (fun s => in_body_typed B_CHUNKED (Some C_DATA) s.1) (chunk_data_step hooks data)
    (fun _ s => typed s.1).
Proof.
  intros Hd [p w] (Ht & Hst & Hbd & Hch). cbn in *.
  unfold chunk_data_step, bind at 1, gets. cbn [fst snd]. cbv zeta.
  assert (0 < content_len p) as Hpos.
  { destruct Ht as [_ Hk]. specialize (Hk Hst). rewrite Hbd in Hk. by apply Hk. }
  set (n := if _ <? _ then _ else _).
  assert (Z.of_nat n <= content_len p) as Hle.
  { subst n. destruct (Z.ltb_spec (content_len p) (Z.of_nat (length data))); lia. }
  unfold bind at 1.
  destruct (HOOK_typed h_body (take n data) (p, w) Ht) as ([p0 w0] & Hf & Ht0 & [-> | ->]);
    cbn [fst snd negb] in *; [|by apply failed_typed, Ht0].
  rewrite <- (hf_content_len _ _ Hf) in Hle. unfold bind, updp, when, ret. cbn.
  rewrite consume_fits by first [by destruct Ht0 | lia].
  destruct Ht0 as [Hr Hk]. assert (fits 64 (content_len p0)) as Hc by by destruct Hr.
  unfold fits in Hc.
  destruct (Z.eqb_spec (content_len p0 - Z.of_nat n) 0); cbn.
  - split; [ranged; unfold fits; lia|]. intros _. cbn.
    rewrite (hf_body _ _ Hf), Hbd. split; [done|lia].
  - split; [ranged; unfold fits; lia|]. intros _. cbn.
    rewrite (hf_body _ _ Hf), (hf_chunk _ _ Hf), Hbd, Hch. split; [lia|done].
Qed.

Lemma typed_chunk_end data :
  hoare (fun s => in_body_typed B_CHUNKED (Some C_DATA_END) s.1) (chunk_end_step hooks data)
    (fun _ s => typed s.1).
Proof.
  unfold chunk_end_step. apply hoare_gets. intros p.
  destruct (take_line p data) as [line off| |]; [|case_match; [by intros s [[? _] _]|apply typed_fail]|apply typed_fail].
  destruct (negb _); [apply typed_fail|].
  apply (hoare_bind _ _ _ (fun _ s => typed s.1)).
  - intros s [[[Hr Hk] (Hst & Hb & Hc)] _]. specialize (Hk Hst). rewrite Hb, Hc in Hk.
    split; [ranged|]. intros _. cbn. rewrite Hb. split; [done|]. intros. by apply Hk in H.
  - intros _. apply keeps_bind; [apply keeps_HOOK_typed|intros; apply keeps_ret].
Qed.

Lemma typed_body data :
  (0 < length data)%nat ->
  hoare (fun s => typed s.1 /\ state s.1 = S_BODY) (parse_body hooks data)
    (fun _ s => typed s.1).
Proof.
  intros Hd s [Ht Hst]. unfold parse_body, bind at 1, gets. cbn [fst snd].
  destruct (body s.1) eqn:Eb.
  - destruct Ht as [_ Hk]. specialize (Hk Hst). by rewrite Eb in Hk.
  - apply (typed_body_raw B_LENGTH); [done|by left|by split_and!].
  - unfold parse_body_chunked, bind at 1, gets. cbn [fst snd]. destruct (chunk s.1) eqn:Ec.
    + apply typed_chunk_size; by split_and!.
    + apply typed_chunk_data; [done|by split_and!].
    + apply typed_chunk_end; by split_and!.
  - apply (typed_body_raw B_IDENTITY); [done|by right|by split_and!].
Qed.

(** ** The run loop and sessions *)

Lemma typed_head p : typed p -> state p <> S_BODY -> ranged_head p.
Proof. by intros [? _]. Qed.

Lemma typed_parse_head_loop fuel data off s n s' :
  typed s.1 -> parse_head_loop fuel hooks data off s = Some (n, s') -> typed s'.1.
Proof.
  revert off s. induction fuel as [|fuel IH]; intros off s Hs; cbn; [done|].
  destruct (in_head (state s.1)) eqn:Hst; cbn; [|by intros [= _ <-]].
  destruct (negb _); [|by intros [= _ <-]].
  destruct (take_line _ _) as [line used| |].
  - assert (ranged_head s.1) as Hh by (apply typed_head; [done|by intros E; rewrite E in Hst]).
    pose proof (typed_head_line line s Hh) as Hl. destruct (head_line _ _ _) as [[] s1].
    by apply IH.
  - by intros [= _ <-].
  - intros [= _ <-]. by apply failed_typed, Hs.
Qed.

Lemma keeps_skip_empty data off : Keeps (W := W) ranged_head (skip_empty data off).
Proof.
  revert off. induction data as [|c data IH]; intros off; cbn [skip_empty];
    keeps_with ltac:(apply IH) ltac:(solve [head_upd]).
Qed.

(** The head of a message begins. *)
Lemma keeps_begin : Keeps ranged_head
  (updp (fun p => (message_reset p) <| state := S_HEAD_LINE |>) ;; HOOK hooks on_msg_begin []).
Proof.
  apply keeps_bind; [|intros; head_hook]. apply keeps_updp. intros p [Hr _].
  split; [|done]. by apply ranged_state, message_reset_ranged.
Qed.

(** A message is complete. *)
Lemma keeps_complete : Keeps ranged_head
  (updp (fun p => clear_flag F_SKIP_BODY (p <| state := S_START |>)) ;;
   HOOK hooks on_msg_complete []).
Proof.
  apply keeps_bind; [|intros; head_hook]. apply keeps_updp. intros p [Hr _].
  split; [|done]. by apply ranged_off, ranged_state.
Qed.

Lemma typed_run_step data off s go off' s' :
  typed s.1 -> run_step hooks data off s = Some (go, off', s') -> (off <= length data)%nat ->
  typed s'.1.
Proof.
  intros Hs. unfold run_step. destruct (_ && _); [|by intros [= _ _ <-]].
  destruct (state s.1) eqn:Hst;
    try (destruct (parse_head _ _ s) as [[n s1]|] eqn:E; [|done];
         intros [= _ _ <-] _; exact (typed_parse_head_loop _ _ _ _ _ _ Hs E)).
  - pose proof (keeps_skip_empty (drop off data) off s) as Hsk.
    destruct (skip_empty _ _ s) as [[off1 out] s1]. cbn in Hsk.
    assert (ranged_head s1.1) as Hh by (apply Hsk, typed_head; congruence). clear Hsk.
    destruct (_ || _); [intros [= _ _ <-] _; by apply head_typed|].
    pose proof (keeps_begin s1 Hh) as Hm. destruct (bind _ _ s1) as [b s2].
    intros [= _ _ <-] _. by apply head_typed.
  - destruct (Nat.eqb_spec off (length data)); [by intros [= _ _ <-]|].
    pose proof (typed_body (drop off data)) as Hb. rewrite length_drop in Hb.
    specialize (fun H => Hb H s (conj Hs Hst)).
    destruct (parse_body _ _ s) as [n1 s1]. intros [= _ _ <-] Hle. apply Hb. lia.
  - assert (ranged_head s.1) as Hh by (apply typed_head; congruence).
    pose proof (keeps_complete s Hh) as Hm. destruct (bind _ _ s) as [b s2].
    intros [= _ _ <-] _. by apply head_typed.
  - by intros [= _ _ <-].
Qed.

Lemma typed_run_loop fuel data off s n s' :
  typed s.1 -> run_loop fuel hooks data off s = Some (n, s') -> (off <= length data)%nat ->
  typed s'.1.
Proof.
  revert off s. induction fuel as [|fuel IH]; intros off s Hs; cbn; [done|].
  destruct (run_step hooks data off s) as [[[go off1] s1]|] eqn:E; [|done]. intros H Hle.
  pose proof (typed_run_step _ _ _ _ _ _ Hs E Hle) as H1.
  apply run_step_le in E; [|done]. destruct go; [|by injection H as _ <-].
  eapply IH; [exact H1|exact H|lia].
Qed.

(** [size_t len]. *)
Definition op_fits (op : session_op) : Prop :=
  match op with op_run data => fits 64 (Z.of_nat (length data)) | _ => True end.

Lemma typed_session_step op s s' :
  op_fits op -> typed s.1 -> session_step hooks op s = Some s' -> typed s'.1.
Proof.
  intros Hop Hs. destruct op as [data| | | |]; cbn [session_step].
  - destruct (htparser_run hooks data s) as [[n s1]|] eqn:E; [|done]. intros [= <-].
    pose proof (run_consumed_le _ _ _ _ _ E) as [Hn _].
    unfold htparser_run in E. cbn in E.
    destruct (run_loop _ _ _ _ _) as [[off s2]|] eqn:El; [|done].
    apply typed_run_loop in El as [Hr Hb]; [|destruct Hs; split; [ranged|done]|lia].
    injection E as -> <-. cbn in Hop. unfold fits in Hop.
    split; [ranged; unfold fits; lia|done].
  - unfold htparser_run_eof, bind at 1, gets. cbn [fst snd].
    destruct (_ && _); [|by intros [= <-]]. intros [= <-].
    match goal with |- context [snd (?m s)] => assert (Keeps typed m) as Hm end.
    { apply keeps_bind; [apply keeps_updp; intros p [Hr _]; split; [ranged|by intros ?]|].
      intros _. apply keeps_bind; [apply keeps_HOOK_typed|intros; apply keeps_ret]. }
    by apply Hm.
  - intros [= <-]. destruct Hs. split; [by apply ranged_setters|done].
  - intros [= <-]. destruct Hs. split; [by apply ranged_setters|done].
  - intros [= <-]. destruct Hs. split; [by apply ranged_setters|done].
Qed.

Lemma typed_session ops s s' :
  Forall op_fits ops -> typed s.1 -> session hooks ops s = Some s' -> typed s'.1.
Proof.
  intros Hops. revert s. induction Hops as [|op ops Hop _ IH]; intros s Hs; cbn;
    [by intros [= <-]|].
  destruct (session_step hooks op s) as [s1|] eqn:E; [|done].
  apply IH. by eapply typed_session_step.
Qed.

(** C20: the parser's members keep their C types.  From [htparser_init] on,
    whatever is fed to the parser in whatever pieces, with pauses, EOF and
    skip_body in between, every call returns, every member of [struct htparser]
    fits its C type with no flag but those declared, and a parser that waits for
    a body has one: a counted body or a chunk always has bytes to come, so the
    subtractions that count them down never wrap. *)
Theorem parser_well_typed t p ops w :
  ranged p -> Forall op_fits ops ->
  exists s', session hooks ops (htparser_init t p, w) = Some s' /\ typed s'.1.
Proof.
  intros Hp Hops. destruct (session_total hooks ops (htparser_init t p, w)) as [s' E].
  exists s'. split; [done|]. eapply typed_session; [exact Hops| |exact E].
  split; [by apply htparser_init_ranged|].
  unfold body_ok, htparser_init. by destruct (config p).
Qed.

End Typed.

(** A witness: a chunk that is still being read. *)
Lemma parser_well_typed_witness :
  exists s', session (Some null_hooks)
    [op_run (bytes "POST / HTTP/1.1" ++ [CR; LF] ++ bytes "Transfer-Encoding: chunked" ++ [CR; LF] ++
             [CR; LF] ++ bytes "5" ++ [CR; LF] ++ bytes "hel"); op_pause]
    (htparser_init htp_type_request calloc_htparser, tt) = Some s' /\ typed s'.1.
Proof.
  apply (parser_well_typed (Some null_hooks)); [apply calloc_ranged|].
  repeat constructor; cbn; lia.
Defined.

Example typed_chunk_pending :
  (fun s => (state s.1, chunk s.1, content_len s.1)) <$> session (Some null_hooks)
    [op_run (bytes "POST / HTTP/1.1" ++ [CR; LF] ++ bytes "Transfer-Encoding: chunked" ++ [CR; LF] ++
             [CR; LF] ++ bytes "5" ++ [CR; LF] ++ bytes "hel")]
    (htparser_init htp_type_request calloc_htparser, tt) = Some (S_BODY, C_DATA, 2).
Proof. vm_compute. reflexivity. Qed.
