(* ===== verification/MsgParserSpec.v ===== *)
(** * msgparser.c: what the field parsers accept

    Content-Length and chunk-size numbers against their mathematical value,
    the method table, and the decision where a message's body ends
    ([framing]) against the rules of RFC 9112 section 6.3. *)

From S2P Require Import Prelude HtpTypes HtString MsgParser MsgParserFacts.

(** ** Numbers *)

(** The value of a string of decimal digits, continuing from [v]. *)
Definition dec_value (v : Z) (s : list Z) : Z :=
  foldl (fun v c => v * 10 + (c - "0"%c)) v s.

Definition is_hex (c : Z) : bool := 0 <=? hexval c.
Definition hex_value (v : Z) (s : list Z) : Z :=
  foldl (fun v c => v * 16 + hexval c) v s.

Lemma dec_value_ge v s :
  0 <= v -> Forall (fun c => isdigit c = true) s -> v <= dec_value v s.
Proof.
  intros Hv Hs. revert v Hv. induction Hs as [|c s Hc _ IH]; intros v Hv; cbn; [lia|].
  unfold isdigit in Hc. specialize (IH (v * 10 + (c - 48))). unfold dec_value in IH. lia.
Qed.

Lemma parse_u64_loop_spec s v n :
  Forall is_byte s -> 0 <= v <= UINT64_MAX ->
  parse_u64_loop s v = Some n <->
  Forall (fun c => isdigit c = true) s /\ dec_value v s = n /\ n <= UINT64_MAX.
Proof.
  intros Hs. revert v. induction Hs as [|c s Hc Hs IH]; intros v Hv.
  { cbn. split; [intros [= <-]; split; [done|lia]|intros (_ & <- & _); done]. }
  cbn [parse_u64_loop]. rewrite Forall_cons.
  destruct (isdigit c) eqn:Ed.
  - unfold isdigit in Ed.
    assert (u32 (c - 48) = c - 48) as -> by (apply Z.mod_small; lia).
    assert (0 <= v * 10 + (c - 48)) as Hv' by lia.
    destruct (Z.ltb_spec 9 (c - 48)); [lia|]. cbn [orb].
    pose proof (Z.div_mod (UINT64_MAX - (c - 48)) 10 ltac:(lia)) as Hdiv.
    pose proof (Z.mod_pos_bound (UINT64_MAX - (c - 48)) 10 ltac:(lia)) as Hmod.
    destruct (Z.ltb_spec ((UINT64_MAX - (c - 48)) / 10) v) as [Hov|Hov].
    + split; [done|]. intros ((_ & Hd) & Hn & Hle). exfalso.
      pose proof (dec_value_ge (v * 10 + (c - 48)) s Hv' Hd) as Hge.
      cbn in Hn. unfold dec_value in Hge. lia.
    + assert (v * 10 + (c - 48) <= UINT64_MAX) as Hle by lia.
      assert (u64 (v * 10 + (c - 48)) = v * 10 + (c - 48)) as ->.
      { apply Z.mod_small. unfold UINT64_MAX in Hle. lia. }
      rewrite IH by lia. cbn. unfold dec_value. tauto.
  - assert (9 < u32 (c - 48)) as Hbig.
    { unfold isdigit in Ed. unfold is_byte in Hc. unfold u32.
      destruct (Z.ltb_spec c 48).
      - replace (c - 48) with (c - 48 + 2 ^ 32 - 1 * 2 ^ 32) by lia.
        rewrite <- (Z.mod_unique (c - 48 + 2 ^ 32 - 1 * 2 ^ 32) (2 ^ 32) (-1) (c - 48 + 2 ^ 32)); lia.
      - rewrite Z.mod_small; lia. }
    destruct (Z.ltb_spec 9 (u32 (c - 48))); [|lia]. cbn [orb].
    split; [done|]. intros ((? & _) & _). congruence.
Qed.

(** C27: a Content-Length is accepted exactly when it is a non-empty string of
    decimal digits whose value fits 64 bits, and then it is that value; signs,
    spaces, an empty field and every overflow are rejected. *)
Theorem parse_u64_correct s n :
  Forall is_byte s ->
  parse_u64 s = Some n <->
  s <> [] /\ Forall (fun c => isdigit c = true) s /\ dec_value 0 s = n /\
  n <= UINT64_MAX.
Proof.
  intros Hs. unfold parse_u64. destruct s as [|c s]; [naive_solver|].
  rewrite parse_u64_loop_spec; [naive_solver|done|]. unfold UINT64_MAX. lia.
Qed.

Lemma parse_u64_correct_witness :
  parse_u64 (bytes "18446744073709551615") = Some UINT64_MAX /\
  parse_u64 (bytes "18446744073709551616") <> Some (UINT64_MAX + 1).
Proof.
  split.
  - apply parse_u64_correct; [by apply (bool_decide_unpack _)|].
    split_and!; [done|by apply (bool_decide_unpack _)|done|done].
  - intros H. apply parse_u64_correct in H; [|by apply (bool_decide_unpack _)].
    destruct H as (_ & _ & _ & H). unfold UINT64_MAX in H. lia.
Defined.

Lemma lor_shift_add a b : 0 <= a -> 0 <= b < 16 -> Z.lor (Z.shiftl a 4) b = a * 16 + b.
Proof.
  intros Ha Hb. rewrite Z.shiftl_mul_pow2 by lia. change (2 ^ 4) with 16.
  rewrite <- Z.add_nocarry_lor; [done|].
  apply Z.bits_inj'. intros i Hi. rewrite Z.land_spec, Z.bits_0.
  destruct (Z.ltb_spec i 4).
  - change 16 with (2 ^ 4). by rewrite Z.mul_pow2_bits_low.
  - rewrite (Z.bits_above_log2 b i); [by rewrite andb_false_r|lia|].
    destruct (Z.eq_dec b 0) as [->|]; [cbn; lia|].
    apply Z.log2_lt_pow2; [lia|]. apply Z.lt_le_trans with (2 ^ 4); [lia|].
    by apply Z.pow_le_mono_r.
Qed.

Lemma hexval_range c : is_byte c -> -1 <= hexval c < 16.
Proof. intros Hc. unfold hexval. repeat case_match; lia. Qed.

(** The accumulator of [chunk_digits] after [n] digits. *)
Lemma chunk_digits_spec s n v r m rest :
  Forall is_byte s -> (n <= 15)%nat -> 0 <= v < 16 ^ Z.of_nat n ->
  chunk_digits s n v = Some (r, m, rest) <->
  exists ds, s = ds ++ rest /\ m = (n + length ds)%nat /\ (m <= 15)%nat /\
    Forall (fun c => is_hex c = true) ds /\ r = hex_value v ds /\
    match rest with c :: _ => is_hex c = false | [] => True end.
Proof.
  intros Hs. revert n v. induction Hs as [|c s Hc Hs IH]; intros n v Hn Hv.
  { cbn. split.
    - intros [= <- <- <-]. exists []. cbn. split_and!; try done; lia.
    - intros (ds & Hds & -> & _ & _ & -> & _). destruct ds, rest; try done.
      cbn. by rewrite Nat.add_0_r. }
  cbn [chunk_digits]. pose proof (hexval_range c Hc) as Hr.
  destruct (Z.leb_spec 0 (hexval c)) as [Hh|Hh].
  2:{ split.
      - intros [= <- <- <-]. exists []. cbn.
        split_and!; try done; unfold is_hex; lia.
      - intros (ds & Hds & -> & _ & Hall & -> & _). destruct ds as [|d ds]; cbn in Hds.
        + subst rest. cbn. by rewrite Nat.add_0_r.
        + injection Hds as <- _. inversion Hall. unfold is_hex in *. lia. }
  assert (is_hex c = true) as Hhex by (unfold is_hex; lia).
  assert (forall ds, c :: s = ds ++ rest ->
    match rest with c :: _ => is_hex c = false | [] => True end ->
    exists ds', ds = c :: ds' /\ s = ds' ++ rest) as Hinv.
  { intros [|d ds'] Hds Hrest; cbn in Hds.
    - subst rest. congruence.
    - injection Hds as <- Hds. by exists ds'. }
  destruct (Nat.eqb_spec n 15) as [->|Hn15].
  { split; [done|]. intros (ds & Hds & -> & Hm & _ & _ & Hrest).
    destruct (Hinv ds Hds Hrest) as (ds' & -> & _). cbn in Hm. lia. }
  assert (16 ^ Z.of_nat (S n) <= 16 ^ 15) as Hpow by (apply Z.pow_le_mono_r; lia).
  assert (16 ^ Z.of_nat (S n) = 16 ^ Z.of_nat n * 16) as HS.
  { rewrite Nat2Z.inj_succ, Z.pow_succ_r by lia. lia. }
  assert (Z.lor (u64 (Z.shiftl v 4)) (hexval c) = v * 16 + hexval c) as Hstep.
  { rewrite <- lor_shift_add by lia. f_equal. unfold u64.
    rewrite Z.shiftl_mul_pow2 by lia. apply Z.mod_small. lia. }
  rewrite Hstep, IH by lia. split.
  - intros (ds & -> & -> & Hm & Hall & -> & Hrest). exists (c :: ds). cbn.
    split_and!; try done; [lia..|by constructor].
  - intros (ds & Hds & -> & Hm & Hall & -> & Hrest).
    destruct (Hinv ds Hds Hrest) as (ds' & -> & Hs'). exists ds'.
    inversion Hall. cbn in *. split_and!; try done; lia.
Qed.

Lemma hex_value_bound v ds :
  Forall is_byte ds -> Forall (fun c => is_hex c = true) ds -> 0 <= v ->
  0 <= hex_value v ds < (v + 1) * 16 ^ Z.of_nat (length ds).
Proof.
  intros Hb Hh. revert v. induction Hh as [|c ds Hc _ IH]; intros v Hv.
  { cbn. lia. }
  inversion Hb as [|? ? Hcb Hb']; subst. pose proof (hexval_range c Hcb) as Hr.
  unfold is_hex in Hc. specialize (IH Hb' (v * 16 + hexval c)).
  cbn [length]. rewrite Nat2Z.inj_succ, Z.pow_succ_r by lia. cbn [hex_value foldl].
  unfold hex_value in *.
  assert (0 < 16 ^ Z.of_nat (length ds)) by (apply Z.pow_pos_nonneg; lia).
  specialize (IH ltac:(lia)). split; [lia|].
  eapply Z.lt_le_trans; [apply IH|]. nia.
Qed.

(** A chunk-size line is accepted exactly when it starts with 1 to 15
    hexadecimal digits followed by nothing, blanks, or blanks and an
    extension; the size is their value, which is below 2^60, so no size ever
    wraps. *)
Theorem parse_chunk_size_correct s size :
  Forall is_byte s ->
  parse_chunk_size s = Some size <->
  exists ds rest, s = ds ++ rest /\ (1 <= length ds <= 15)%nat /\
    Forall (fun c => is_hex c = true) ds /\ size = hex_value 0 ds /\
    0 <= size < 2 ^ 60 /\ chunk_ext_ok rest = true /\
    match rest with c :: _ => is_hex c = false | [] => True end.
Proof.
  intros Hs. unfold parse_chunk_size.
  assert (forall r m rest, chunk_digits s 0 0 = Some (r, m, rest) <-> _) as Hspec
    by (intros r m rest; apply (chunk_digits_spec s 0 0 r m rest Hs); cbn; lia).
  split.
  - destruct (chunk_digits s 0 0) as [[[v m] rest]|]; [|done].
    destruct (proj1 (Hspec v m rest) eq_refl) as (ds & -> & -> & Hm & Hall & -> & Hrest).
    cbn [Nat.add]. destruct (Nat.eqb_spec (length ds) 0); [done|].
    destruct (chunk_ext_ok rest) eqn:Hext; [|done]. intros [= <-].
    apply Forall_app in Hs as [Hds _].
    pose proof (hex_value_bound 0 ds Hds Hall ltac:(lia)) as Hv.
    assert (16 ^ Z.of_nat (length ds) <= 16 ^ 15) by (apply Z.pow_le_mono_r; cbn in *; lia).
    exists ds, rest. cbn in Hm. split_and!; try done; lia.
  - intros (ds & rest & -> & Hlen & Hall & -> & _ & Hext & Hrest).
    rewrite (proj2 (Hspec (hex_value 0 ds) (length ds) rest)).
    + destruct (Nat.eqb_spec (length ds) 0); [lia|]. by rewrite Hext.
    + exists ds. split_and!; try done; lia.
Qed.

Lemma parse_chunk_size_correct_witness :
  parse_chunk_size (bytes "fff ;x") = Some 4095.
Proof.
  apply parse_chunk_size_correct; [by apply (bool_decide_unpack _)|].
  exists (bytes "fff"), (bytes " ;x").
  split_and!; try done; [change (length (bytes "fff")) with 3%nat; lia..|by apply (bool_decide_unpack _)].
Defined.

(** ** The method table *)

(** The names RFC 9110, RFC 5789 and RFC 4918 give the methods. *)
Definition standard_name (m : htp_method) : option string :=
  match m with
  | htp_method_UNKNOWN => None
  | htp_method_GET => Some "GET" | htp_method_HEAD => Some "HEAD"
  | htp_method_POST => Some "POST" | htp_method_PUT => Some "PUT"
  | htp_method_DELETE => Some "DELETE" | htp_method_MKCOL => Some "MKCOL"
  | htp_method_COPY => Some "COPY" | htp_method_MOVE => Some "MOVE"
  | htp_method_OPTIONS => Some "OPTIONS" | htp_method_PROPFIND => Some "PROPFIND"
  | htp_method_PROPPATCH => Some "PROPPATCH" | htp_method_LOCK => Some "LOCK"
  | htp_method_UNLOCK => Some "UNLOCK" | htp_method_TRACE => Some "TRACE"
  | htp_method_CONNECT => Some "CONNECT" | htp_method_PATCH => Some "PATCH"
  end%string.

Lemma method_lookup_in tbl s m :
  m <> htp_method_UNKNOWN -> method_lookup tbl s = m ->
  exists name, In (name, m) tbl /\ s = bytes name.
Proof.
  intros Hm. induction tbl as [|[name k] tbl IH]; cbn; [congruence|].
  unfold bytes_eqb. case_bool_decide as E.
  - intros <-. exists name. auto.
  - intros H. destruct (IH H) as (x & ? & ?). exists x. auto.
Qed.

(** The method recogniser is exact: a token is read as method [m] exactly
    when it is, byte for byte, the registered name of [m]; and the name that
    htparser_get_methodstr_m prints reads back as the same method, except for
    PROPPATCH, which is printed under the table's other spelling and reads
    back as unknown. *)
Theorem method_from_exact s m :
  (m <> htp_method_UNKNOWN ->
   method_from s = m <-> bytes <$> standard_name m = Some s) /\
  (m <> htp_method_UNKNOWN ->
   (method_from <$> (bytes <$> htparser_get_methodstr_m (htp_method_index m))) =
   Some (if bool_decide (m = htp_method_PROPPATCH) then htp_method_UNKNOWN else m)).
Proof.
  split; intros Hm.
  - split.
    + intros H. apply method_lookup_in in H as (name & Hin & ->); [|done].
      cbn in Hin. repeat (destruct Hin as [[= <- <-]|Hin]; [done|]). done.
    + destruct m; cbn; try done; intros [= <-]; vm_compute; reflexivity.
  - destruct m; try done; vm_compute; reflexivity.
Qed.

Lemma method_from_exact_witness :
  method_from (bytes "PROPPATCH") = htp_method_PROPPATCH <->
  bytes <$> standard_name htp_method_PROPPATCH = Some (bytes "PROPPATCH").
Proof.
  apply (proj1 (method_from_exact (bytes "PROPPATCH") htp_method_PROPPATCH)). discriminate.
Defined.

(** ** Reading a line *)

Lemma take_line_complete p line rest :
  Forall (fun c => c <> LF) line ->
  take_line p (line ++ CR :: LF :: rest) =
    if negb (max_line_length (cfg p) =? 0) &&
       (max_line_length (cfg p) <? Z.of_nat (length line))
    then line_too_long else line_ok line (length line + 2).
Proof.
  intros Hl. unfold take_line.
  rewrite memchr_app_none by done. cbn [memchr].
  change (CR =? LF) with false. change (LF =? LF) with true. cbn [fmap option_fmap option_map].
  rewrite (proj2 (Nat.ltb_lt 0 (length line + 1))) by lia.
  replace (length line + 1 - 1)%nat with (length line + 0)%nat by lia.
  rewrite app_nth2_plus. cbn [nth]. change (CR =? CR) with true. cbn [andb].
  rewrite Nat.add_0_r.
  destruct (_ && _); [done|]. rewrite take_app_length. f_equal. lia.
Qed.

(** A line of exactly the configured maximum length is accepted when its
    CR LF arrives with it, but refused as too long when the bytes read so far
    end between the CR and the LF: the verdict depends on how the stream was
    cut. *)
Theorem take_line_cut_dependent p line :
  Forall (fun c => c <> LF) line ->
  max_line_length (cfg p) = Z.of_nat (length line) -> (0 < length line)%nat ->
  take_line p (line ++ [CR; LF]) = line_ok line (length line + 2) /\
  take_line p (line ++ [CR]) = line_too_long.
Proof.
  intros Hl Hmax Hpos. split.
  - rewrite take_line_complete by done. rewrite Hmax.
    destruct (Z.ltb_spec (Z.of_nat (length line)) (Z.of_nat (length line))); [lia|].
    by rewrite andb_false_r.
  - unfold take_line. rewrite memchr_app_none by done. cbn.
    rewrite Hmax, length_app. cbn.
    destruct (Z.eqb_spec (Z.of_nat (length line)) 0); [lia|].
    destruct (Z.ltb_spec (Z.of_nat (length line)) (Z.of_nat (length line + 1))); [done|lia].
Qed.

Lemma take_line_cut_dependent_witness :
  let p := calloc_htparser <| config :=
    Some {| max_line_length := 3; max_header_count := 1;
            max_empty_line_count := 1; allow_folding := false |} |> in
  take_line p ([65; 66; 67] ++ [CR; LF]) = line_ok [65; 66; 67] 5 /\
  take_line p ([65; 66; 67] ++ [CR]) = line_too_long.
Proof.
  refine (take_line_cut_dependent _ [65; 66; 67] _ _ _);
    [repeat constructor; discriminate|reflexivity|cbn; lia].
Defined.

Lemma take_line_app_ok p d1 d2 line used :
  take_line p d1 = line_ok line used -> take_line p (d1 ++ d2) = line_ok line used.
Proof.
  unfold take_line. destruct (memchr LF d1) as [i|] eqn:E; [|by case_match].
  rewrite (memchr_app_some _ _ d2 _ E). apply memchr_lt in E.
  rewrite app_nth1 by lia.
  case_match; case_match; try done; intros [= <- <-]; f_equal;
    rewrite take_app_le by lia; done.
Qed.

(** ** Resuming a head where it was left *)

Section Split.
Context `{lib : HtStringLib} {W : Type} (hooks : hook_table W).
Implicit Types (s : St W).

Lemma parse_head_loop_mono fuel fuel' data off s r :
  (fuel <= fuel')%nat -> parse_head_loop fuel hooks data off s = Some r ->
  parse_head_loop fuel' hooks data off s = Some r.
Proof.
  revert fuel' off s. induction fuel as [|fuel IH]; intros fuel' off s Hf; [done|].
  destruct fuel' as [|fuel']; [lia|]. cbn.
  destruct (_ && _); [|done]. destruct (take_line _ _) as [line used| |]; [|done..].
  destruct (head_line hooks line s) as [[] s1]. apply IH. lia.
Qed.

(** The loop only looks at the bytes from [off] on. *)
Lemma parse_head_loop_shift fuel data off k s :
  parse_head_loop fuel hooks data (k + off) s =
  (fun '(n, s') => ((k + n)%nat, s')) <$> parse_head_loop fuel hooks (drop k data) off s.
Proof.
  revert off s. induction fuel as [|fuel IH]; intros off s; cbn; [done|].
  rewrite drop_drop. destruct (_ && _); [|done].
  destruct (take_line _ _) as [line used| |]; [|done..].
  destruct (head_line hooks line s) as [[] s1].
  rewrite <- (IH (off + used)%nat). f_equal. lia.
Qed.

(** What the loop does on [d1 ++ d2] after it has stopped at [n1] on [d1]. *)
Lemma parse_head_loop_app fuel fuel2 d1 d2 off s n1 s1 n2 s2 :
  (off <= length d1)%nat ->
  parse_head_loop fuel hooks d1 off s = Some (n1, s1) -> state s1.1 <> S_ERROR ->
  parse_head_loop fuel2 hooks (drop n1 d1 ++ d2) 0 s1 = Some (n2, s2) ->
  parse_head_loop (fuel + fuel2) hooks (d1 ++ d2) off s = Some ((n1 + n2)%nat, s2).
Proof.
  intros Hoff H1 Hne H2.
  assert (forall f, (fuel2 <= f)%nat -> (n1 <= length d1)%nat ->
    parse_head_loop f hooks (d1 ++ d2) n1 s1 = Some ((n1 + n2)%nat, s2)) as Hrest.
  { intros f Hf Hn. replace n1 with (n1 + 0)%nat at 1 by lia.
    rewrite parse_head_loop_shift, drop_app_le by done.
    by rewrite (parse_head_loop_mono fuel2 f _ _ _ _ Hf H2). }
  revert off s Hoff H1. induction fuel as [|fuel IH]; intros off s Hoff; [done|].
  cbn [parse_head_loop Nat.add].
  destruct (in_head (state s.1) && negb (flag s.1 F_PAUSED)) eqn:Hgo.
  2:{ intros [= -> ->]. specialize (Hrest (S fuel2) ltac:(lia) Hoff).
      cbn in Hrest. by rewrite Hgo in Hrest. }
  destruct (take_line s.1 (drop off d1)) as [line used| |] eqn:E.
  - rewrite drop_app_le, (take_line_app_ok _ _ _ _ _ E) by done.
    destruct (head_line hooks line s) as [[] s0].
    apply take_line_ok in E as [Hu _]. rewrite length_drop in Hu. apply IH. lia.
  - intros [= -> ->]. specialize (Hrest (S (fuel + fuel2)) ltac:(lia) Hoff).
    cbn [parse_head_loop] in Hrest. by rewrite Hgo in Hrest.
  - intros [= <- <-]. done.
Qed.

(** C26: the head of a message may arrive cut anywhere.  If parsing the bytes
    received so far stopped at [n1] without an error, then parsing the
    unconsumed rest followed by the next bytes ends in the same parser state,
    with the same hook calls, and at the same byte as parsing everything at
    once. *)
Theorem parse_head_incremental d1 d2 s n1 s1 :
  parse_head hooks d1 s = Some (n1, s1) -> state s1.1 <> S_ERROR ->
  parse_head hooks (d1 ++ d2) s =
  (fun '(n2, s2) => ((n1 + n2)%nat, s2)) <$> parse_head hooks (drop n1 d1 ++ d2) s1.
Proof.
  intros H1 Hne. unfold parse_head in *.
  destruct (parse_head_loop (S (length (drop n1 d1 ++ d2))) hooks (drop n1 d1 ++ d2) 0 s1)
    as [[n2 s2]|] eqn:H2.
  2:{ destruct (parse_head_loop_total hooks (S (length (drop n1 d1 ++ d2)))
        (drop n1 d1 ++ d2) 0 s1 ltac:(lia)) as [r Hr]. congruence. }
  cbn [fmap option_fmap option_map].
  pose proof (parse_head_loop_app _ _ d1 d2 0 s n1 s1 n2 s2 ltac:(lia) H1 Hne H2) as H.
  destruct (parse_head_loop_total hooks (S (length (d1 ++ d2))) (d1 ++ d2) 0 s
    ltac:(lia)) as [r Hr].
  rewrite Hr. rewrite <- H. symmetry.
  eapply parse_head_loop_mono; [|exact Hr].
  rewrite !length_app, length_drop.
  apply parse_head_loop_le in H1; [lia|lia].
Qed.
End Split.

(** A request head cut inside its second header. *)
Lemma parse_head_incremental_witness :
  let s0 := ((p_init htp_type_request) <| state := S_HEAD_LINE |>, ([], tt)) in
  let d1 := bytes "GET /a HTTP/1.1" ++ [CR; LF] ++ bytes "Ho" in
  let d2 := bytes "st: x" ++ [CR; LF; CR; LF] in
  parse_head (Some (logged null_hooks)) (d1 ++ d2) s0 =
  (fun '(n2, s2) => ((17 + n2)%nat, s2)) <$>
    parse_head (Some (logged null_hooks)) (drop 17 d1 ++ d2)
      (default (0%nat, s0) (parse_head (Some (logged null_hooks)) d1 s0)).2.
Proof.
  cbv zeta. eapply parse_head_incremental.
  - vm_compute. reflexivity.
  - vm_compute. discriminate.
Defined.

(** ** A parser that is paused or has failed *)

Section Parked.
Context `{lib : HtStringLib} {W : Type} (hooks : hook_table W).

(** A parser that is paused, or that has reported an error, consumes
    nothing, calls no hook and changes nothing but [bytes_read], until it is
    resumed or re-initialised: errors are sticky. *)
Theorem run_parked data (s : St W) :
  state s.1 = S_ERROR \/ htparser_is_paused (Some s.1) = true ->
  htparser_run hooks data s =
    Some (0%nat, (s.1 <| bytes_read := 0 |> <| total_bytes_read :=
                    u64 (total_bytes_read s.1) |>, s.2)).
Proof.
  intros Hp. unfold htparser_run. cbn.
  assert (forall f s', (state s'.1 = S_ERROR \/ flag s'.1 F_PAUSED = true) ->
    run_loop (S f) hooks data 0 s' = Some (0%nat, s')) as Hloop.
  { intros f s' Hs'. cbn. unfold run_step.
    replace (negb (bool_decide (state s'.1 = S_ERROR)) && negb (flag s'.1 F_PAUSED))
      with false; [done|].
    destruct Hs' as [-> | ->]; [done|]. by rewrite andb_false_r. }
  unfold run_fuel. rewrite Nat.add_comm. cbn [Nat.add]. rewrite Hloop; [|exact Hp].
  cbn. by rewrite Z.add_0_r.
Qed.
End Parked.

Lemma run_parked_witness :
  htparser_run (Some (logged null_hooks)) [1; 2; 3]
    (htparser_pause (p_init htp_type_request), ([], tt)) =
  Some (0%nat, (htparser_pause (p_init htp_type_request), ([], tt))).
Proof.
  etransitivity; [apply run_parked; right; vm_compute; reflexivity|].
  vm_compute. reflexivity.
Defined.
