(* ===== verification/MsgParserFraming.v ===== *)
(** * msgparser.c: where a message's body ends

    [rfc_body] is RFC 9112 section 6.3 over a list of header fields;
    [framing_decision] states which body [note_header] and [framing] give a
    message with these fields: the one of the RFC, but that a head that is wrong
    or could be read in two ways ([doubtful]) is refused, and that a response
    that ends neither by its length nor by chunks has no body when the connection
    is kept alive ([left_open]).  [body_spec] is what the parser decides, as one
    function of the fields; other files use it. *)

From S2P Require Import Prelude HtpTypes HtString MsgParser MsgParserFacts.

Section Framing.
Context `{lib : HtStringLib} {laws : HtStringLaws lib}.

Abbreviation field := (list Z * list Z)%type.
Implicit Types (hs : list field) (p : htparser).

(** ** Functions of the header list *)

Definition named (n : string) hs : list (list Z) :=
  map snd (filter (fun h => htstring_equalsi h.1 (bytes n)) hs).

(** All elements of all fields called [n], in order. *)
Definition elements (n : string) hs : list (list Z) :=
  concat (map ht_elements (named n hs)).

Definition is_chunked (e : list Z) : bool := htstring_equalsi e (bytes "chunked").
Definition is_unknown (e : list Z) : bool := negb (is_chunked e) && negb (is_known_coding e).

(** A field value all of whose elements, of which there is one, are [n]. *)
Definition says_length (n : Z) (v : list Z) : bool :=
  negb (bool_decide (ht_elements v = [])) &&
  forallb (fun e => bool_decide (parse_u64 e = Some n)) (ht_elements v).

(** [None]: no length can be agreed on; [Some None]: no Content-Length. *)
Definition agreed_length (vs : list (list Z)) : option (option Z) :=
  match vs with
  | [] => Some None
  | v :: _ =>
      match ht_elements v with
      | e :: _ =>
          match parse_u64 e with
          | Some n => if forallb (says_length n) vs then Some (Some n) else None
          | None => None
          end
      | [] => None
      end
  end.

(** chunked applied twice, or not last *)
Definition chunked_misplaced (codings : list (list Z)) : bool :=
  existsb is_chunked (removelast codings).

(** What the parser makes of the header list; [None]: the message is refused. *)
Definition body_spec p hs : option (body_t * Z) :=
  let response := bool_decide (type p = htp_type_response) in
  let codings := elements "Transfer-Encoding" hs in
  let chunked := existsb is_chunked codings in
  let keep_alive := existsb (fun e => negb (htstring_equalsi e (bytes "close")) &&
                                      htstring_equalsi e (bytes "keep-alive"))
                      (elements "Connection" hs) in
  match agreed_length (named "Content-Length" hs) with
  | None => None
  | Some len =>
      if response && ((status p <? 200) || (status p =? 204) || (status p =? 304))
      then Some (B_NONE, 0)
      else match named "Transfer-Encoding" hs with
           | _ :: _ =>
               if chunked_misplaced codings then None
               else if response then Some (if chunked then B_CHUNKED else B_IDENTITY, 0)
               else if chunked && negb (existsb is_unknown codings) &&
                       bool_decide (len = None)
               then Some (B_CHUNKED, 0) else None
           | [] =>
               match len with
               | Some n => if n =? 0 then Some (B_NONE, 0) else Some (B_LENGTH, n)
               | None =>
                   if response && (major p * 10 + minor p <? 11) && negb keep_alive
                   then Some (B_IDENTITY, 0) else Some (B_NONE, 0)
               end
           end
  end.

(** ** RFC 9112 section 6.3 *)

Inductive delimited := no_body | by_length (n : Z) | by_chunks | until_close | invalid.

(** Rule 1: responses that end with their head. *)
Definition bodyless p : bool :=
  bool_decide (type p = htp_type_response) &&
  ((status p <? 200) || (status p =? 204) || (status p =? 304)).
(** Rules 3 to 8, in their order. *)
Definition rfc_body p hs : delimited :=
  let response := bool_decide (type p = htp_type_response) in
  if bodyless p then no_body
  else match named "Transfer-Encoding" hs with
       | _ :: _ =>
           match last (elements "Transfer-Encoding" hs) with
           | Some e => if is_chunked e then by_chunks else if response then until_close else invalid
           | None => if response then until_close else invalid
           end
       | [] =>
           match agreed_length (named "Content-Length" hs) with
           | None => invalid
           | Some (Some n) => by_length n
           | Some None => if response then until_close else no_body
           end
       end.

(** Heads that the RFC gives a meaning, or leaves it to the recipient to refuse:
    lengths that do not agree where they do not count, chunked twice or not last,
    a request with both fields or with a coding that is not known. *)
Definition doubtful p hs : bool :=
  bool_decide (agreed_length (named "Content-Length" hs) = None) ||
  (negb (bodyless p) && negb (bool_decide (named "Transfer-Encoding" hs = [])) &&
   (chunked_misplaced (elements "Transfer-Encoding" hs) ||
    bool_decide (type p = htp_type_request) &&
    (existsb is_unknown (elements "Transfer-Encoding" hs) ||
     negb (bool_decide (named "Content-Length" hs = []))))).

(** A response without either field, on a connection that stays. *)
Definition left_open p hs : bool :=
  bool_decide (type p = htp_type_response) && negb (bodyless p) &&
  bool_decide (named "Transfer-Encoding" hs = []) && bool_decide (named "Content-Length" hs = []) &&
  negb ((major p * 10 + minor p <? 11) &&
        negb (existsb (fun e => negb (htstring_equalsi e (bytes "close")) &&
                                htstring_equalsi e (bytes "keep-alive")) (elements "Connection" hs))).

(** The members of the parser that say so. *)
Definition represents (d : delimited) : option (body_t * Z) :=
  match d with
  | no_body => Some (B_NONE, 0)
  | by_length n => Some (if n =? 0 then (B_NONE, 0) else (B_LENGTH, n))
  | by_chunks => Some (B_CHUNKED, 0)
  | until_close => Some (B_IDENTITY, 0)
  | invalid => None
  end.

Lemma no_length vs : agreed_length vs = Some None -> vs = [].
Proof. destruct vs as [|v vs]; [done|]. cbn. by repeat case_match. Qed.
Lemma chunked_last codings :
  chunked_misplaced codings = false ->
  existsb is_chunked codings = match last codings with Some e => is_chunked e | None => false end.
Proof.
  destruct codings as [|e es _] using rev_ind; [done|]. unfold chunked_misplaced.
  rewrite removelast_last, last_snoc, existsb_app. intros ->. cbn. by rewrite orb_false_r.
Qed.
Lemma body_spec_rfc p hs :
  body_spec p hs =
  if doubtful p hs then None else represents (if left_open p hs then no_body else rfc_body p hs).
Proof.
  unfold body_spec, doubtful, left_open, rfc_body, bodyless.
  destruct (agreed_length (named "Content-Length" hs)) as [len|] eqn:Elen; [|done].
  rewrite (bool_decide_false (Some len = None)) by done. cbn [orb].
  assert (bool_decide (type p = htp_type_request) = negb (bool_decide (type p = htp_type_response)))
    as -> by by destruct (type p).
  set (resp := bool_decide (type p = htp_type_response)).
  set (none := (status p <? 200) || (status p =? 204) || (status p =? 304)).
  set (keep := existsb _ (elements "Connection" hs)).
  destruct (named "Transfer-Encoding" hs) as [|te tes].
  - rewrite (bool_decide_true ([] = [])) by done. rewrite !andb_false_r. cbn [negb andb].
    destruct len as [n|].
    + assert (named "Content-Length" hs <> []) as Hne by (intros E; by rewrite E in Elen).
      rewrite (bool_decide_false (_ = [])) by done. rewrite !andb_false_r. cbn [andb].
      destruct resp, none; cbn; by destruct (n =? 0).
    + rewrite (no_length _ Elen). rewrite (bool_decide_true ([] = [])) by done.
      by destruct resp, none, (_ <? 11), keep.
  - rewrite (bool_decide_false (te :: tes = [])) by done. rewrite !andb_false_r. cbn [negb andb].
    destruct (chunked_misplaced _) eqn:Emis; [by destruct resp, none|].
    rewrite (chunked_last _ Emis).
    assert (bool_decide (len = None) = bool_decide (named "Content-Length" hs = [])) as ->.
    { apply bool_decide_ext. split; [intros ->; by apply no_length|].
      intros E. rewrite E in Elen. by injection Elen. }
    destruct (last _) as [e|] eqn:El; [destruct (is_chunked e)|];
      destruct resp, none, (existsb is_unknown _), (bool_decide (named "Content-Length" hs = [])); done.
Qed.

(** ** The code: note every field, then decide *)

Context {W : Type} (hooks : hook_table W) `{!Passive hooks}.

Fixpoint note_headers hs : M (St W) bool :=
  match hs with
  | [] => ret true
  | (n, v) :: hs' => note_header hooks n v &&> note_headers hs'
  end.

Definition decide_body hs : M (St W) bool := note_headers hs &&> framing.

(** Whether the connection is to be closed, and a multipart body announced. *)
Definition closes hs : bool :=
  existsb (fun e => htstring_equalsi e (bytes "close")) (elements "Connection" hs).
Definition is_multipart (f : field) : bool :=
  htstring_equalsi f.1 (bytes "Content-Type") &&
  ((9 <=? length f.2)%nat && htstring_equalsi (take 9 f.2) (bytes "multipart")).

(** What the flags of [p] say about the fields noted so far. *)
Record noted hs p : Prop := {
  no_cl : agreed_length (named "Content-Length" hs) =
            Some (if flag p F_HAVE_CL then Some (orig_content_len p) else None);
  no_te : flag p F_HAVE_TE = negb (bool_decide (named "Transfer-Encoding" hs = []));
  no_chunked : flag p F_CHUNKED = existsb is_chunked (elements "Transfer-Encoding" hs);
  no_bad : flag p F_TE_BAD = chunked_misplaced (elements "Transfer-Encoding" hs);
  no_unknown : flag p F_TE_UNKNOWN = existsb is_unknown (elements "Transfer-Encoding" hs);
  no_keep : flag p F_CONN_KEEP_ALIVE =
    existsb (fun e => negb (htstring_equalsi e (bytes "close")) &&
                      htstring_equalsi e (bytes "keep-alive")) (elements "Connection" hs);
  no_close : flag p F_CONN_CLOSE = closes hs;
  no_multi : flag p F_MULTIPART = true -> existsb is_multipart hs = true
}.

(** What noting headers leaves alone. *)
Record head_same (p p' : htparser) : Prop := {
  hs_type : type p' = type p; hs_status : status p' = status p;
  hs_major : major p' = major p; hs_minor : minor p' = minor p;
  hs_state : state p' = state p; hs_error : error p' = error p;
  hs_config : config p' = config p; hs_method : method p' = method p;
  hs_scheme : scheme p' = scheme p; hs_count : header_count p' = header_count p;
  hs_skip : flag p' F_SKIP_BODY = flag p F_SKIP_BODY;
  hs_paused : flag p' F_PAUSED = flag p F_PAUSED
}.

#[local] Instance head_same_preorder : PreOrder head_same.
Proof. split; [by split|]. intros p q r [] []. split; congruence. Qed.

Definition framing_flags : Z :=
  Z.lor F_HAVE_CL (Z.lor F_HAVE_TE (Z.lor F_CHUNKED (Z.lor F_TE_BAD
    (Z.lor F_TE_UNKNOWN (Z.lor F_CONN_KEEP_ALIVE (Z.lor F_CONN_CLOSE F_HOOK)))))).

(** ** The specification, one field at a time *)

Lemma named_snoc n hs k v :
  named n (hs ++ [(k, v)]) =
  named n hs ++ (if htstring_equalsi k (bytes n) then [v] else []).
Proof.
  unfold named. rewrite filter_app, map_app. f_equal.
  rewrite filter_cons. cbn. by destruct (htstring_equalsi k (bytes n)).
Qed.

Lemma elements_snoc n hs k v :
  elements n (hs ++ [(k, v)]) =
  elements n hs ++ (if htstring_equalsi k (bytes n) then ht_elements v else []).
Proof.
  unfold elements. rewrite named_snoc, map_app, concat_app. f_equal.
  destruct (htstring_equalsi k (bytes n)); cbn; [apply app_nil_r|done].
Qed.

Lemma equalsi_length s t : htstring_equalsi s t = true -> length s = length t.
Proof.
  rewrite equalsi_spec. rewrite bool_decide_eq_true. intros H.
  apply (f_equal length) in H. unfold lower in H. by rewrite !length_map in H.
Qed.

Lemma equalsi_other s n : length s <> length (bytes n) -> htstring_equalsi s (bytes n) = false.
Proof.
  intros Hl. destruct (htstring_equalsi s (bytes n)) eqn:E; [|done].
  by apply equalsi_length in E.
Qed.

Lemma equalsi_trans_false s n m :
  htstring_equalsi s (bytes n) = true -> lower (bytes n) <> lower (bytes m) ->
  htstring_equalsi s (bytes m) = false.
Proof.
  rewrite !equalsi_spec. rewrite bool_decide_eq_true, bool_decide_eq_false. congruence.
Qed.

Lemma agreed_snoc vs v :
  agreed_length (vs ++ [v]) =
  match agreed_length vs with
  | None => None
  | Some None => agreed_length [v]
  | Some (Some n) => if says_length n v then Some (Some n) else None
  end.
Proof.
  destruct vs as [|w vs]; [done|]. cbn [app agreed_length].
  destruct (ht_elements w) as [|e es]; [done|].
  destruct (parse_u64 e) as [n|]; [|done].
  change (w :: vs ++ [v]) with ((w :: vs) ++ [v]). rewrite forallb_app.
  destruct (forallb _ (w :: vs)); [|done]. cbn. by rewrite andb_true_r.
Qed.

Lemma agreed_app_none vs ws : agreed_length vs = None -> agreed_length (vs ++ ws) = None.
Proof.
  revert vs. induction ws as [|w ws IH]; intros vs Hvs; [by rewrite app_nil_r|].
  replace (vs ++ w :: ws) with ((vs ++ [w]) ++ ws) by (by rewrite <- app_assoc).
  apply IH. by rewrite agreed_snoc, Hvs.
Qed.

Lemma misplaced_snoc cs e : chunked_misplaced (cs ++ [e]) = existsb is_chunked cs.
Proof. unfold chunked_misplaced. by rewrite removelast_last. Qed.

Lemma misplaced_chunked cs : chunked_misplaced cs = true -> existsb is_chunked cs = true.
Proof.
  destruct cs as [|e cs _] using rev_ind; [done|].
  rewrite misplaced_snoc, existsb_app. by intros ->.
Qed.

(** ** The code, one field at a time *)

Ltac flag_simpl :=
  unfold flag, set_flag in *; cbn [flags set_field eta_fields eta_htparser] in *;
  autorewrite with flags in *.

(** The five values [note_coding] depends on and changes. *)
Record te_noted (cs : list (list Z)) p : Prop := {
  tn_chunked : flag p F_CHUNKED = existsb is_chunked cs;
  tn_bad : flag p F_TE_BAD = chunked_misplaced cs;
  tn_unknown : flag p F_TE_UNKNOWN = existsb is_unknown cs
}.

(** [note_coding] and [note_connection_token] only set some flags. *)
Record only_flags (m : Z) p p' : Prop := {
  of_same : head_same p p';
  of_len : orig_content_len p' = orig_content_len p;
  of_flags : forall f, Z.land m f = 0 -> flag p' f = flag p f
}.

#[local] Instance only_flags_preorder m : PreOrder (only_flags m).
Proof.
  split; [by split|]. intros p q r [] []. split; [by etransitivity|congruence|].
  intros f Hf. rewrite of_flags1 by done. auto.
Qed.

Lemma only_set_flag m f p :
  Z.land f (Z.lnot m) = 0 -> Z.land m F_SKIP_BODY = 0 -> Z.land m F_PAUSED = 0 -> only_flags m p (set_flag f p).
Proof.
  intros Hf Hm Hm'.
  assert (forall g, Z.land m g = 0 -> flag (set_flag f p) g = flag p g) as Hflags.
  { intros g Hg. unfold flag, set_flag. cbn. apply has_on_ne.
    apply Z.bits_inj'. intros i Hi. rewrite Z.bits_0.
    assert (Z.testbit (Z.land f (Z.lnot m)) i = false) as H1 by (by rewrite Hf, Z.bits_0).
    assert (Z.testbit (Z.land m g) i = false) as H2 by (by rewrite Hg, Z.bits_0).
    rewrite Z.land_spec, Z.lnot_spec in H1 by done. rewrite Z.land_spec in *.
    destruct (Z.testbit f i), (Z.testbit m i), (Z.testbit g i); done. }
  split; [split; try done; by apply Hflags|done|done].
Qed.

Lemma only_set_flag_trans m f p q :
  Z.land f (Z.lnot m) = 0 -> Z.land m F_SKIP_BODY = 0 -> Z.land m F_PAUSED = 0 ->
  only_flags m p q -> only_flags m p (set_flag f q).
Proof. intros Hf Hm Hm' Hq. etransitivity; [exact Hq|by apply only_set_flag]. Qed.

Definition TE_MASK : Z := Z.lor F_CHUNKED (Z.lor F_TE_BAD F_TE_UNKNOWN).

Lemma note_coding_spec cs p e :
  te_noted cs p -> te_noted (cs ++ [e]) (note_coding p e) /\
                   only_flags TE_MASK p (note_coding p e).
Proof.
  intros [Hc Hb Hu]. split.
  - assert (flag p F_TE_BAD = true -> flag p F_CHUNKED = true) as Hbc.
    { rewrite Hb, Hc. apply misplaced_chunked. }
    split; rewrite ?existsb_app, ?misplaced_snoc, <- ?Hc, <- ?Hu; cbn [existsb];
      unfold note_coding, is_unknown, is_chunked; flag_simpl;
      destruct (htstring_equalsi e (bytes "chunked")),
        (has (flags p) F_CHUNKED) eqn:?, (has (flags p) F_TE_BAD) eqn:?,
        (is_known_coding e); flag_simpl; rewrite ?orb_false_r; try done; try congruence;
      first [by rewrite orb_true_r | by specialize (Hbc eq_refl)].
  - unfold note_coding.
    repeat case_match; repeat (apply only_set_flag_trans; [done|done|done|]); reflexivity.
Qed.

Lemma note_codings_spec els cs p :
  te_noted cs p -> te_noted (cs ++ els) (foldl note_coding p els) /\
                   only_flags TE_MASK p (foldl note_coding p els).
Proof.
  revert cs p. induction els as [|e els IH]; intros cs p Hp; cbn.
  { by rewrite app_nil_r. }
  destruct (note_coding_spec cs p e Hp) as [H1 H2].
  destruct (IH _ _ H1) as [H3 H4]. split; [by rewrite <- app_assoc in H3|by etransitivity].
Qed.

(** A field that plays no part in framing, and the flag it sets. *)
Lemma noted_other hs k v p m :
  htstring_equalsi k (bytes "Connection") = false ->
  htstring_equalsi k (bytes "Content-Length") = false ->
  htstring_equalsi k (bytes "Transfer-Encoding") = false ->
  Z.land m framing_flags = 0 -> Z.land m F_MULTIPART = 0 \/ is_multipart (k, v) = true ->
  noted hs p -> noted (hs ++ [(k, v)]) (set_flag m p) /\ head_same p (set_flag m p).
Proof.
  intros H1 H2 H3 Hm Hmp [].
  assert (forall m', Z.land framing_flags m' = m' -> flag (set_flag m p) m' = flag p m') as Hf.
  { intros m' Hm'. unfold flag, set_flag. cbn. apply has_on_ne.
    by rewrite <- Hm', Z.land_assoc, Hm. }
  split; split; unfold closes; rewrite ?named_snoc, ?elements_snoc, ?H1, ?H2, ?H3, ?app_nil_r, ?Hf
    by reflexivity; try done.
  intros Hfl. rewrite existsb_app. cbn [existsb]. destruct Hmp as [Hmp| ->]; [|by rewrite orb_true_r].
  rewrite no_multi0; [done|]. revert Hfl. unfold flag, set_flag. cbn. by rewrite has_on_ne.
Qed.

Definition CONN_MASK : Z := Z.lor F_CONN_CLOSE F_CONN_KEEP_ALIVE.

Lemma note_tokens_spec els p :
  flag (foldl note_connection_token p els) F_CONN_KEEP_ALIVE =
    flag p F_CONN_KEEP_ALIVE ||
    existsb (fun e => negb (htstring_equalsi e (bytes "close")) &&
                      htstring_equalsi e (bytes "keep-alive")) els /\
  flag (foldl note_connection_token p els) F_CONN_CLOSE =
    flag p F_CONN_CLOSE || existsb (fun e => htstring_equalsi e (bytes "close")) els /\
  only_flags CONN_MASK p (foldl note_connection_token p els).
Proof.
  revert p. induction els as [|e els IH]; intros p; cbn [foldl existsb].
  { by rewrite !orb_false_r. }
  destruct (IH (note_connection_token p e)) as (-> & -> & Hof). split_and!.
  1, 2: unfold note_connection_token;
    destruct (htstring_equalsi e (bytes "close")), (htstring_equalsi e (bytes "keep-alive"));
      flag_simpl; cbn; rewrite ?orb_true_r; done.
  - etransitivity; [|exact Hof]. unfold note_connection_token.
    repeat case_match; repeat (apply only_set_flag_trans; [done|done|done|]); reflexivity.
Qed.

Definition refused (s : St W) : Prop :=
  state s.1 = S_ERROR /\ error s.1 = htparse_error_inval_hdr.

(** The length seen so far, [None] before the first element. *)
Definition seen_length p : option Z :=
  if flag p F_HAVE_CL then Some (orig_content_len p) else None.

Record cl_same p p' : Prop := {
  cs_same : head_same p p';
  cs_flags : forall f, Z.land F_HAVE_CL f = 0 -> flag p' f = flag p f
}.

#[local] Instance cl_same_preorder : PreOrder cl_same.
Proof.
  split; [by split|]. intros p q r [] []. split; [by etransitivity|].
  intros f Hf. rewrite cs_flags1 by done. auto.
Qed.

Definition set_length (n : Z) p : htparser := set_flag F_HAVE_CL (p <| orig_content_len := n |>).

Lemma set_length_same n p : cl_same p (set_length n p) /\ seen_length (set_length n p) = Some n.
Proof.
  assert (forall f, Z.land F_HAVE_CL f = 0 -> flag (set_length n p) f = flag p f) as Hf.
  { intros f Hf. unfold flag, set_length, set_flag. cbn. by apply has_on_ne. }
  split; [split; [split; try done; by apply Hf|done]|].
  unfold seen_length, set_length. flag_simpl. done.
Qed.

(** The elements of one field, when a length [n] has been seen. *)
Lemma cl_loop_seen els any n (s : St W) :
  seen_length s.1 = Some n ->
  let '(b, s') := note_content_length_loop els any s in
  b = (any || negb (bool_decide (els = []))) &&
      forallb (fun e => bool_decide (parse_u64 e = Some n)) els /\
  (if b then seen_length s'.1 = Some n /\ cl_same s.1 s'.1 else refused s').
Proof.
  revert any s. induction els as [|e els IH]; intros any s Hs; cbn.
  { rewrite orb_false_r, andb_true_r. unfold orM, bind, ret. by destruct any. }
  rewrite orb_true_r. cbn [andb].
  destruct (parse_u64 e) as [m|]; [|done].
  rewrite (bool_decide_ext (Some m = Some n) (m = n)) by naive_solver.
  unfold bind, gets, updp. cbn.
  unfold seen_length in Hs. destruct (flag s.1 F_HAVE_CL) eqn:Hcl; [|done].
  injection Hs as Hs. rewrite Hs. cbn [andb].
  destruct (Z.eqb_spec m n) as [->|Hne]; cbn [negb].
  2:{ by rewrite bool_decide_eq_false_2 by done. }
  rewrite bool_decide_eq_true_2 by done. cbn [andb].
  destruct (set_length_same n s.1) as [Hsame Hseen].
  specialize (IH true (set_length n s.1, s.2) Hseen). unfold set_length in IH.
  destruct (note_content_length_loop _ _ _) as [b s']. destruct IH as [-> Hb].
  split; [done|]. cbn [orb andb] in *. destruct (forallb _ els); [|done].
  destruct Hb as [H1 H2]. split; [done|]. by etransitivity.
Qed.

(** One Content-Length field. *)
Lemma note_content_length_spec v (s : St W) :
  let '(b, s') := note_content_length v s in
  match (match seen_length s.1 with
         | None => agreed_length [v]
         | Some n => if says_length n v then Some (Some n) else None
         end) with
  | Some o => b = true /\ seen_length s'.1 = o /\ cl_same s.1 s'.1
  | None => b = false /\ refused s'
  end.
Proof.
  unfold note_content_length. destruct (seen_length s.1) as [n|] eqn:Hs.
  - pose proof (cl_loop_seen (ht_elements v) false n s Hs) as H.
    destruct (note_content_length_loop _ _ _) as [b s']. destruct H as [Hb H].
    unfold says_length. cbn [orb] in Hb. rewrite <- Hb. by destruct b.
  - cbn [agreed_length]. destruct (ht_elements v) as [|e els] eqn:Hv; [done|].
    cbn. destruct (parse_u64 e) as [n|] eqn:He; [|done].
    unfold bind, gets, updp. cbn.
    unfold seen_length in Hs. destruct (flag s.1 F_HAVE_CL); [done|]. cbn [andb].
    destruct (set_length_same n s.1) as [Hsame Hseen].
    pose proof (cl_loop_seen els true n (set_length n s.1, s.2) Hseen) as H.
    unfold set_length in H. destruct (note_content_length_loop _ _ _) as [b s'].
    destruct H as [Hb H]. unfold says_length. rewrite Hv. cbn.
    rewrite He, bool_decide_eq_true_2, andb_true_r by done. cbn [andb orb] in *.
    rewrite <- Hb. destruct b; [|done]. destruct H as [H1 H2].
    split; [done|]. split; [done|]. by etransitivity.
Qed.

(** The fields that play a part in framing, and the others. *)
Lemma note_header_cases k v (s : St W) :
  (htstring_equalsi k (bytes "Connection") = true /\
   note_header hooks k v s = (true, (note_connection v s.1, s.2))) \/
  (htstring_equalsi k (bytes "Content-Length") = true /\
   note_header hooks k v s = note_content_length v s) \/
  (htstring_equalsi k (bytes "Transfer-Encoding") = true /\
   note_header hooks k v s = (true, (note_transfer_encoding v s.1, s.2))) \/
  (htstring_equalsi k (bytes "Connection") = false /\
   htstring_equalsi k (bytes "Content-Length") = false /\
   htstring_equalsi k (bytes "Transfer-Encoding") = false /\
   exists p' : St W, note_header hooks k v s = (true, p') /\
     forall hs, noted hs s.1 -> noted (hs ++ [(k, v)]) p'.1 /\ head_same s.1 p'.1).
Proof.
  destruct (htstring_equalsi k (bytes "Connection")) eqn:H1.
  { left. split; [done|]. pose proof (equalsi_length _ _ H1) as Hl.
    unfold note_header, bind, gets. rewrite Hl, H1. done. }
  destruct (htstring_equalsi k (bytes "Content-Length")) eqn:H2.
  { right; left. split; [done|]. pose proof (equalsi_length _ _ H2) as Hl.
    unfold note_header, bind, gets. rewrite Hl, H2. done. }
  destruct (htstring_equalsi k (bytes "Transfer-Encoding")) eqn:H3.
  { right; right; left. split; [done|]. pose proof (equalsi_length _ _ H3) as Hl.
    unfold note_header, bind, gets. rewrite Hl, H3. done. }
  right; right; right. split_and!; [done..|].
  assert (exists (p' : St W) m, note_header hooks k v s = (true, p') /\ p'.1 = set_flag m s.1 /\
    Z.land m framing_flags = 0 /\ (Z.land m F_MULTIPART = 0 \/ is_multipart (k, v) = true))
    as (p' & m & E & Ep & Hm & Hmp).
  { assert (s.1 = set_flag 0 s.1) as H0.
    { unfold set_flag, flag_on. rewrite Z.lor_0_r. by destruct s.1. }
    assert (set_flag F_MULTIPART (set_flag F_HAVE_CT s.1) =
            set_flag (Z.lor F_MULTIPART F_HAVE_CT) s.1) as H4.
    { unfold set_flag, flag_on. cbn. by rewrite <- Z.lor_assoc, (Z.lor_comm F_HAVE_CT). }
    unfold note_header, bind, gets, updp, ret, is_multipart. rewrite H1, H2, H3.
    destruct s as [p w]. cbn -[set_flag htstring_equalsi Nat.leb] in *.
    destruct (passive h_hostname v (set_flag F_HAVE_HOST p, w)) as [w' Hhook].
    repeat case_match; cbn [fst snd]; rewrite ?Hhook; do 2 eexists; (split; [reflexivity|]);
      cbn [fst snd]; (split; [first [exact H0|exact H4|reflexivity]|]); (split; [done|]); auto;
      right; match goal with H : negb _ && ?b = true |- _ => apply andb_prop in H as [_ ->] end;
      done. }
  exists p'. split; [done|]. intros hs Hn. rewrite Ep. by apply noted_other.
Qed.

(** Congruence for [noted]: the fields it reads. *)
Lemma noted_step hs k v (s : St W) :
  noted hs s.1 ->
  let '(b, s') := note_header hooks k v s in
  if b then noted (hs ++ [(k, v)]) s'.1 /\ head_same s.1 s'.1
  else agreed_length (named "Content-Length" (hs ++ [(k, v)])) = None /\ refused s'.
Proof.
  intros Hn. destruct (note_header_cases k v s)
    as [[Hk ->]|[[Hk ->]|[[Hk ->]|(H1 & H2 & H3 & p' & -> & Hp')]]].
  - destruct (note_tokens_spec (ht_elements v) s.1) as (Hka & Hcl & [Hsame Hlen Hfl]).
    fold (note_connection v s.1) in *. split; [|done]. destruct Hn.
    split; unfold closes in *; rewrite ?existsb_app, ?named_snoc, ?elements_snoc, ?Hk,
      ?(equalsi_trans_false k "Connection" "Content-Length"),
      ?(equalsi_trans_false k "Connection" "Transfer-Encoding"), ?app_nil_r by done;
      cbn [fst]; rewrite ?Hlen, ?Hfl by done; try done.
    + by rewrite existsb_app, Hka, no_keep0.
    + by rewrite existsb_app, Hcl, no_close0.
    + intros Hm. by rewrite no_multi0.
  - pose proof (note_content_length_spec v s) as H.
    destruct (note_content_length v s) as [b s'].
    rewrite named_snoc, Hk, agreed_snoc, (no_cl _ _ Hn).
    fold (seen_length s.1).
    destruct (match seen_length s.1 with Some n => _ | None => _ end) as [o|] eqn:Ho;
      [|by destruct H as [-> H]].
    destruct H as (-> & Hseen & [Hsame Hfl]). split; [|done]. destruct Hn.
    split; unfold closes in *; rewrite ?existsb_app, ?named_snoc, ?elements_snoc, ?Hk,
      ?(equalsi_trans_false k "Content-Length" "Connection"),
      ?(equalsi_trans_false k "Content-Length" "Transfer-Encoding"), ?app_nil_r by done;
      rewrite ?Hfl by done; try done.
    + rewrite agreed_snoc, no_cl0. fold (seen_length s'.1) (seen_length s.1).
      by rewrite Hseen, Ho.
    + intros Hm. by rewrite no_multi0.
  - destruct Hn.
    assert (te_noted (elements "Transfer-Encoding" hs) (set_flag F_HAVE_TE s.1)) as Hte.
    { split; flag_simpl; done. }
    destruct (note_codings_spec (ht_elements v) _ _ Hte) as [[Hc Hb Hu] [Hsame Hlen Hfl]].
    fold (note_transfer_encoding v s.1) in *.
    assert (head_same s.1 (set_flag F_HAVE_TE s.1)) as Hsame'.
    { split; flag_simpl; done. }
    split; [|by etransitivity].
    split; unfold closes in *; rewrite ?existsb_app, ?named_snoc, ?elements_snoc, ?Hk,
      ?(equalsi_trans_false k "Transfer-Encoding" "Connection"),
      ?(equalsi_trans_false k "Transfer-Encoding" "Content-Length"), ?app_nil_r by done;
      cbn [fst]; rewrite ?Hlen, ?Hfl by done; try done;
      try (flag_simpl; done).
    + rewrite bool_decide_eq_false_2 by (by intros [_ ?]%app_eq_nil). by flag_simpl.
    + intros Hm. rewrite no_multi0; [done|]. by flag_simpl.
  - by apply Hp'.
Qed.

Lemma noted_all hs' hs (s : St W) :
  noted hs s.1 ->
  let '(b, s') := note_headers hs' s in
  if b then noted (hs ++ hs') s'.1 /\ head_same s.1 s'.1
  else agreed_length (named "Content-Length" (hs ++ hs')) = None /\ refused s'.
Proof.
  revert hs s. induction hs' as [|[k v] hs' IH]; intros hs s Hn; cbn.
  { by rewrite app_nil_r. }
  pose proof (noted_step hs k v s Hn) as Hstep. unfold andM, bind.
  destruct (note_header hooks k v s) as [[] s1].
  - destruct Hstep as [Hn1 Hs1]. specialize (IH _ _ Hn1).
    rewrite <- app_assoc in IH. cbn in IH.
    destruct (note_headers hs' s1) as [[] s2]; [|done].
    destruct IH as [IH1 IH2]. split; [done|by etransitivity].
  - destruct Hstep as [Hno Hre]. cbn. split; [|done].
    replace (hs ++ (k, v) :: hs') with ((hs ++ [(k, v)]) ++ hs') by (by rewrite <- app_assoc).
    revert Hno. unfold named. rewrite (filter_app _ (hs ++ [(k, v)])), map_app.
    apply agreed_app_none.
Qed.

Lemma body_spec_same hs p p' : head_same p p' -> body_spec p' hs = body_spec p hs.
Proof. intros []. unfold body_spec. by rewrite hs_type0, hs_status0, hs_major0, hs_minor0. Qed.

(** [framing], once the fields [hs] have been noted. *)
Lemma framing_noted hs (s : St W) :
  noted hs s.1 -> flag s.1 F_SKIP_BODY = false ->
  framing s =
  match body_spec s.1 hs with
  | Some (bd, len) =>
      (true, (s.1 <| body := bd |> <| content_len := len |> <| chunk := C_SIZE |>, s.2))
  | None => (false, (failed htparse_error_inval_hdr s.1, s.2))
  end.
Proof.
  intros [Hcl Hte Hch Hbad Hunk Hka _ _] Hskip. destruct s as [p w]. cbn [fst snd] in *.
  unfold body_spec, framing, bind, gets, updp, fail, ret. cbn [fst snd].
  rewrite Hcl, <- Hch, <- Hbad, <- Hunk, <- Hka, Hskip, Hte.
  set (none := (status p <? 200) || (status p =? 204) || (status p =? 304)).
  destruct (bool_decide (type p = htp_type_response)), none,
    (named "Transfer-Encoding" hs) as [|te tes], (flag p F_HAVE_CL),
    (flag p F_TE_BAD), (flag p F_CHUNKED) eqn:Ech, (flag p F_TE_UNKNOWN);
    cbn; rewrite ?Ech; try done;
    destruct (orig_content_len p =? 0), (major p * 10 + minor p <? 11),
      (flag p F_CONN_KEEP_ALIVE); cbn; done.
Qed.

End Framing.

(** A request with two agreeing Content-Length fields, one that tries to smuggle
    with Transfer-Encoding, and a response without either. *)
Definition two_lengths : list (list Z * list Z) :=
  [(bytes "Content-Length", bytes "5"); (bytes "content-length", bytes "5, 5")].
Definition both_fields : list (list Z * list Z) :=
  [(bytes "Content-Length", bytes "5"); (bytes "Transfer-Encoding", bytes "chunked")].
