(* ===== verification/MsgParserRoundtrip.v ===== *)
(** * msgparser.c: whole requests

    [render] writes an HTTP/1.x request from its parts; [request_roundtrip]
    shows that [htparser_run], given the rendered bytes (with anything after
    them, such as the next pipelined request), reports exactly those parts
    through its hooks, in order, consumes exactly the rendered bytes and is
    ready for the next message.  Bodies may be absent, sized by
    Content-Length, or chunked with extensions and trailers, as the header
    fields demand ([body_spec]). *)

From stdpp Require Import relations.
From S2P Require Import Prelude HtpTypes HtString MsgParser MsgParserFacts.
From S2P Require Import MsgParserSpec MsgParserFraming.

(** ** Requests *)

Abbreviation field := (list Z * list Z)%type.

Inductive content :=
| no_content
| sized (d : list Z)
| chunks (cs : list (list Z * list Z)) (last : list Z) (trailers : list field).

Record request := {
  rq_method : htp_method;
  rq_path : list Z;
  rq_query : option (list Z);
  rq_major : Z;
  rq_minor : Z;
  rq_fields : list field;
  rq_content : content
}.

Definition crlf (l : list Z) : list Z := l ++ [CR; LF].
Definition method_name (m : htp_method) : list Z := default [] (bytes <$> standard_name m).
Definition target (rq : request) : list Z :=
  rq_path rq ++ match rq_query rq with Some q => "?"%c :: q | None => [] end.
Definition version (rq : request) : list Z :=
  bytes "HTTP/" ++ [rq_major rq + "0"%c; "."%c; rq_minor rq + "0"%c].
Definition request_line (rq : request) : list Z :=
  method_name (rq_method rq) ++ SP :: target rq ++ SP :: version rq.
Definition field_line (f : field) : list Z := f.1 ++ ":"%c :: SP :: f.2.
Definition field_lines (fs : list field) : list Z :=
  concat (map (fun f => crlf (field_line f)) fs).
Definition chunk_bytes (c : list Z * list Z) : list Z := crlf c.1 ++ crlf c.2.
Definition content_bytes (c : content) : list Z :=
  match c with
  | no_content => []
  | sized d => d
  | chunks cs last trailers =>
      concat (map chunk_bytes cs) ++ crlf last ++ field_lines trailers ++ crlf []
  end.
(** A message with this start line. *)
Definition head_bytes (line : list Z) (fs : list field) : list Z :=
  crlf line ++ field_lines fs ++ crlf [].
Definition message_bytes (line : list Z) (fs : list field) (c : content) : list Z :=
  head_bytes line fs ++ content_bytes c.
Definition render (rq : request) : list Z :=
  message_bytes (request_line rq) (rq_fields rq) (rq_content rq).

(** ** The hook calls a request stands for *)

Definition start_events (rq : request) : list event :=
  [(h_method, method_name (rq_method rq)); (h_path, rq_path rq)] ++
  match rq_query rq with Some q => [(h_args, q)] | None => [] end ++
  [(h_uri, target rq); (on_hdrs_begin, [])].

Section Events.
Context `{lib : HtStringLib}.

(** The first Host field is reported once more as [hostname]. *)
Fixpoint field_events (seen_host : bool) (fs : list field) : list event :=
  match fs with
  | [] => []
  | (k, v) :: fs' =>
      let host := htstring_equalsi k (bytes "Host") in
      [(h_hdr_key, k)] ++ (if host && negb seen_host then [(h_hostname, v)] else []) ++
      [(h_hdr_val, v)] ++ field_events (seen_host || host) fs'
  end.

Definition trailer_events (fs : list field) : list event :=
  concat (map (fun f => [(h_hdr_key, f.1); (h_hdr_val, f.2)]) fs).
Definition chunk_events (c : list Z * list Z) : list event :=
  [(on_new_chunk, []); (h_body, c.2); (on_chunk_complete, [])].
Definition content_events (c : content) : list event :=
  match c with
  | no_content => []
  | sized d => [(h_body, d)]
  | chunks cs _ trailers =>
      concat (map chunk_events cs) ++ [(on_chunks_complete, [])] ++ trailer_events trailers
  end.
Definition message_events (start : list event) (fs : list field) (c : content) : list event :=
  [(on_msg_begin, [])] ++ start ++ field_events false fs ++ [(on_hdrs_complete, [])] ++
  content_events c ++ [(on_msg_complete, [])].
Definition events (rq : request) : list event :=
  message_events (start_events rq) (rq_fields rq) (rq_content rq).

(** ** Well-formed requests *)

Definition free_of (cs s : list Z) : Prop := Forall (fun c => Forall (fun d => c <> d) cs) s.
Definition fits (line : list Z) : Prop :=
  Forall (fun c => c <> LF) line /\ Z.of_nat (length line) <= 8192.

Definition field_ok (f : field) : Prop :=
  f.1 <> [] /\ free_of [":"%c; LF] f.1 /\ isblank (nth 0 f.1 0) = false /\
  isblank (nth (length f.1 - 1) f.1 0) = false /\ trim f.2 = f.2 /\ fits (field_line f).
Definition fields_ok (fs : list field) : Prop :=
  Forall field_ok fs /\ (length fs <= 100)%nat.
Definition chunk_ok (c : list Z * list Z) : Prop :=
  fits c.1 /\ c.2 <> [] /\ parse_chunk_size c.1 = Some (Z.of_nat (length c.2)).
(** [spec]: the body the head of the message asks for. *)
Definition content_fits (spec : option (body_t * Z)) (c : content) : Prop :=
  match spec, c with
  | Some (B_NONE, _), no_content => True
  | Some (B_LENGTH, n), sized d => n = Z.of_nat (length d) /\ n <> 0
  | Some (B_CHUNKED, _), chunks cs last trailers =>
      Forall chunk_ok cs /\ fits last /\ parse_chunk_size last = Some 0 /\
      fields_ok trailers
  | _, _ => False
  end.
Definition content_ok (fs : list field) (c : content) : Prop :=
  content_fits (body_spec (p_init htp_type_request) fs) c.

Record request_ok (rq : request) : Prop := {
  ok_method : rq_method rq <> htp_method_UNKNOWN;
  ok_path : nth 0 (rq_path rq) 0 = "/"%c;
  ok_path_chars : free_of ["?"%c; SP; LF] (rq_path rq);
  ok_query : from_option (free_of [SP; LF]) True (rq_query rq);
  ok_major : 1 <= rq_major rq <= 9;
  ok_minor : 0 <= rq_minor rq <= 9;
  ok_line : fits (request_line rq);
  ok_fields : fields_ok (rq_fields rq);
  ok_content : content_ok (rq_fields rq) (rq_content rq)
}.

End Events.

(** ** Tokens of the request line *)

Definition spaceless (t : list Z) : Prop := t <> [] /\ Forall (fun c => c <> SP) t.

Lemma skip_spaces_id s : Forall (fun c => c <> SP) (take 1 s) -> skip_spaces s = s.
Proof.
  destruct s as [|c s]; [done|]. cbn. intros [Hc _]%Forall_cons.
  destruct (Z.eqb_spec c SP); done.
Qed.

Lemma spaceless_take t s : spaceless t -> Forall (fun c => c <> SP) (take 1 (t ++ s)).
Proof.
  intros [Hne Hs]. destruct t as [|c t]; [done|]. inversion Hs. cbn. by constructor.
Qed.

Lemma next_token_cons t s :
  spaceless t -> Forall (fun c => c <> SP) (take 1 s) ->
  next_token (t ++ SP :: s) = (t, s).
Proof.
  intros Ht Hs. unfold next_token.
  rewrite (skip_spaces_id (t ++ SP :: s)) by (by apply spaceless_take).
  rewrite memchr_app_none by apply Ht. cbn [memchr]. rewrite Z.eqb_refl. cbn.
  rewrite Nat.add_0_r, take_app_length, drop_app_length. f_equal. cbn.
  by apply skip_spaces_id.
Qed.

Lemma next_token_last t : spaceless t -> next_token t = (t, []).
Proof.
  intros Ht. unfold next_token. pose proof (spaceless_take t [] Ht) as H.
  rewrite app_nil_r in H. rewrite skip_spaces_id by done.
  rewrite (proj2 (memchr_none SP t)) by apply Ht. cbn.
  rewrite take_ge, drop_ge by lia. done.
Qed.

Lemma method_name_spaceless m : m <> htp_method_UNKNOWN -> spaceless (method_name m).
Proof. intros Hm. destruct m; try done; (split; [done|]); by repeat constructor. Qed.

Lemma method_name_from m : m <> htp_method_UNKNOWN -> method_from (method_name m) = m.
Proof. intros Hm. destruct m; try done; vm_compute; reflexivity. Qed.

Lemma free_of_weaken cs c s : free_of cs s -> In c cs -> Forall (fun x => x <> c) s.
Proof.
  intros H Hin. eapply Forall_impl; [exact H|]. cbn. intros x Hx.
  rewrite Forall_forall in Hx. apply Hx. by apply list_elem_of_In.
Qed.

Section Messages.
Context `{lib : HtStringLib} {laws : HtStringLaws lib}.
Abbreviation LW := (list event * unit)%type.
Abbreviation hooks := (Some (logged (P := htparser) null_hooks)).
Context (ty : htp_type).
Implicit Types (p : htparser) (log : list event) (rest : list Z).

(** ** One line at a time *)

Definition plain_as p : Prop :=
  config p = Some default_config /\ type p = ty /\
  flag p F_PAUSED = false /\ flag p F_SKIP_BODY = false.

Lemma take_line_fits p line rest :
  config p = Some default_config -> fits line ->
  take_line p (line ++ CR :: LF :: rest) = line_ok line (length line + 2).
Proof.
  intros Hc [Hl Hlen]. rewrite take_line_complete by done. unfold cfg. rewrite Hc.
  cbn [default from_option id max_line_length default_config].
  destruct (Z.ltb_spec 8192 (Z.of_nat (length line))); [lia|]. by rewrite andb_false_r.
Qed.

Lemma crlf_app line rest : crlf line ++ rest = line ++ CR :: LF :: rest.
Proof. unfold crlf. by rewrite <- app_assoc. Qed.

Lemma crlf_length line : length (crlf line) = (length line + 2)%nat.
Proof. unfold crlf. by rewrite length_app. Qed.

Lemma parse_head_line line rest (s : St LW) :
  in_head (state s.1) = true -> flag s.1 F_PAUSED = false ->
  config s.1 = Some default_config -> fits line ->
  parse_head hooks (crlf line ++ rest) s =
  (fun '(n, s') => ((length (crlf line) + n)%nat, s')) <$>
    parse_head hooks rest (head_line hooks line s).2.
Proof.
  intros Hst Hpa Hc Hf. rewrite crlf_app, crlf_length. unfold parse_head at 1. cbn.
  rewrite Hst, Hpa. cbn. rewrite drop_0, take_line_fits by done.
  destruct (head_line hooks line s) as [[] s1]. cbn [snd].
  replace (length line + 2)%nat with (length line + 2 + 0)%nat at 1 by lia.
  rewrite parse_head_loop_shift.
  replace (drop (length line + 2) (line ++ CR :: LF :: rest)) with rest.
  2:{ rewrite <- crlf_app, <- crlf_length. by rewrite drop_app_length. }
  destruct (parse_head_total hooks rest s1) as [[n s2] E]. rewrite E. unfold parse_head in E.
  erewrite parse_head_loop_mono; [reflexivity| |exact E].
  rewrite length_app. cbn. lia.
Qed.

Lemma parse_head_stop data (s : St LW) :
  in_head (state s.1) = false -> parse_head hooks data s = Some (0%nat, s).
Proof. intros Hst. unfold parse_head. cbn. by rewrite Hst. Qed.

(** ** The request line *)

Definition started (rq : request) p : htparser :=
  p <| method := rq_method rq |> <| major := rq_major rq |> <| minor := rq_minor rq |>
    <| scheme := htp_scheme_none |> <| state := S_HEADERS |>.

Lemma started_plain rq p : plain_as p -> plain_as (started rq p).
Proof. intros (?&?&?&?). by split_and!. Qed.

Lemma started_fields rq p :
  error (started rq p) = error p /\ method (started rq p) = rq_method rq /\
  major (started rq p) = rq_major rq /\ minor (started rq p) = rq_minor rq.
Proof. done. Qed.

Lemma parse_version_digits ma mi (s : St LW) :
  1 <= ma <= 9 -> 0 <= mi <= 9 ->
  parse_version (bytes "HTTP/" ++ [ma + 48; 46; mi + 48]) s =
    (true, (s.1 <| major := ma |> <| minor := mi |>, s.2)).
Proof.
  intros Hma Hmi. unfold parse_version. cbn [app bytes map String.list_ascii_of_string].
  unfold bytes. cbn -[isdigit Z.eqb Z.add Z.sub bytes_eqb].
  replace (bytes_eqb _ _) with true by done. unfold isdigit.
  replace ((48 <=? ma + 48) && (ma + 48 <=? 57)) with true by lia.
  replace ((48 <=? mi + 48) && (mi + 48 <=? 57)) with true by lia.
  replace (ma + 48 =? 48) with false by lia. cbn.
  replace (ma + 48 - 48) with ma by lia. by replace (mi + 48 - 48) with mi by lia.
Qed.

Lemma target_spaceless rq : request_ok rq -> spaceless (target rq).
Proof.
  intros []. split.
  - unfold target. by destruct (rq_path rq).
  - unfold target. apply Forall_app; split; [eapply free_of_weaken; [done|cbn; auto]|].
    destruct (rq_query rq) as [q|]; [|done]. constructor; [done|].
    eapply free_of_weaken; [exact ok_query0|cbn; auto].
Qed.

Lemma emit_target_ok rq p log :
  request_ok rq ->
  emit_target hooks (target rq) (p, (log, tt)) =
    (true, (p <| scheme := htp_scheme_none |>,
            (log ++ (h_path, rq_path rq) ::
               match rq_query rq with Some q => [(h_args, q)] | None => [] end ++
               [(h_uri, target rq)], tt))).
Proof.
  intros [].
  assert (nth 0 (target rq) 0 = "/"%c) as Hslash.
  { unfold target. by destruct (rq_path rq). }
  unfold emit_target. rewrite Hslash, Z.eqb_refl.
  assert (Forall (fun c => c <> "?"%c) (rq_path rq)) as Hq.
  { eapply free_of_weaken; [exact ok_path_chars0|cbn; auto]. }
  unfold andM, bind, updp, ret. cbn [fst snd].
  unfold target at 1 2 3 4 5. destruct (rq_query rq) as [q|].
  - rewrite memchr_app_none by done. cbn [memchr].
    change (63 =? 63) with true. cbn [fmap option_fmap option_map default from_option id].
    rewrite Nat.add_0_r, take_app_length, HOOK_logged_null.
    replace (drop (length (rq_path rq) + 1) (rq_path rq ++ 63 :: q)) with q.
    2:{ change (63 :: q) with ([63] ++ q). rewrite app_assoc, drop_app_length'; [done|].
        rewrite length_app. done. }
    rewrite !HOOK_logged_null. by rewrite <- !app_assoc.
  - rewrite app_nil_r, (proj2 (memchr_none _ _)) by done.
    cbn [default from_option]. rewrite take_ge by done.
    rewrite !HOOK_logged_null. by rewrite <- !app_assoc.
Qed.

Lemma start_line_ok rq p log :
  request_ok rq -> type p = htp_type_request ->
  start_line hooks (request_line rq) (p, (log, tt)) =
    (tt, (started rq p, (log ++ start_events rq, tt))).
Proof.
  intros Hok Hty. pose proof (target_spaceless rq Hok) as Htg.
  pose proof (emit_target_ok rq) as Hemit. pose proof Hok as Hok'. destruct Hok'.
  pose proof (method_name_spaceless _ ok_method0) as Hm.
  assert (spaceless (version rq)) as Hv.
  { split; [done|]. unfold version. apply Forall_app. split.
    - by apply (bool_decide_unpack _).
    - unfold SP. repeat (apply Forall_cons; split; [lia|]). done. }
  unfold start_line, bind at 1, gets. cbn [fst snd].
  rewrite bool_decide_eq_true_2 by done.
  unfold bind at 1, parse_request_line, request_line.
  rewrite next_token_cons; [|done|by apply spaceless_take].
  rewrite next_token_cons; [|done|rewrite <- (app_nil_r (version rq)); by apply spaceless_take].
  rewrite next_token_last by done. rewrite method_name_from by done.
  unfold bind at 1, updp at 1. cbn [fst snd].
  rewrite bool_decide_eq_false_2 by done.
  destruct (length (target rq) =? 0)%nat eqn:Hlen.
  { apply Nat.eqb_eq, length_zero_iff_nil in Hlen. by destruct Htg. }
  cbn [orb length Nat.eqb negb].
  unfold bind at 1. unfold version. rewrite parse_version_digits by done.
  cbn [fst snd negb]. unfold andM, bind at 1. rewrite HOOK_logged_null, Hemit by done.
  unfold when, bind, updp, ret. cbn [fst snd negb]. rewrite HOOK_logged_null.
  unfold start_events, started. by app_norm.
Qed.

(** ** Header fields *)

Lemma parse_header_ok f trailer (s : St LW) :
  field_ok f ->
  parse_header hooks (field_line f) trailer s =
  (HOOK hooks h_hdr_key f.1 &&>
   (if trailer then ret true else note_header hooks f.1 f.2) &&>
   HOOK hooks h_hdr_val f.2) s.
Proof.
  destruct f as [k v]. intros (Hne & Hk & Hfst & Hlst & Hv & _). cbn [fst snd] in *.
  unfold parse_header, field_line. cbn [fst snd].
  assert (Forall (fun c => c <> ":"%c) k) as Hcolon.
  { eapply free_of_weaken; [exact Hk|cbn; auto]. }
  rewrite memchr_app_none by done. cbn [memchr].
  change (58 =? 58) with true. cbn [fmap option_fmap option_map]. rewrite Nat.add_0_r.
  assert (0 < length k)%nat as Hlen by (destruct k; [done|cbn; lia]).
  rewrite !app_nth1 by lia. rewrite Hfst, Hlst.
  rewrite (proj2 (Nat.eqb_neq (length k) 0)) by lia. cbn [orb].
  rewrite take_app_length.
  replace (drop (length k + 1) (k ++ 58 :: SP :: v)) with (SP :: v).
  2:{ change (58 :: SP :: v) with ([58] ++ SP :: v). rewrite app_assoc, drop_app_length'; [done|].
      rewrite length_app. done. }
  change (trim (SP :: v)) with (trim v). by rewrite Hv.
Qed.

Definition host_event (seen : bool) (k v : list Z) : list event :=
  if htstring_equalsi k (bytes "Host") && negb seen then [(h_hostname, v)] else [].

Lemma cl_loop_world {W} els any (s : St W) :
  (note_content_length_loop els any s).2.2 = s.2.
Proof.
  revert any s. induction els as [|e els IH]; intros any s; cbn; [by destruct any|].
  destruct (parse_u64 e); [|done]. unfold bind, gets. destruct (_ && _); [done|].
  unfold updp. by rewrite IH.
Qed.

Lemma note_header_log hs k v p log :
  noted hs p ->
  let '(b, (p', (log', _))) := note_header hooks k v (p, (log, tt)) in
  log' = log ++ host_event (flag p F_HAVE_HOST) k v /\
  (b = true -> flag p' F_HAVE_HOST =
               flag p F_HAVE_HOST || htstring_equalsi k (bytes "Host")).
Proof.
  intros Hn.
  assert (forall n, htstring_equalsi k (bytes n) = true ->
    lower (bytes n) <> lower (bytes "Host") ->
    host_event (flag p F_HAVE_HOST) k v = [] /\
    htstring_equalsi k (bytes "Host") = false) as Hother.
  { intros n Hk Hneq. unfold host_event.
    by rewrite (equalsi_trans_false k n "Host" Hk Hneq). }
  destruct (note_header_cases hooks k v (p, (log, tt)))
    as [[Hk ->]|[[Hk ->]|[[Hk ->]|(H1 & H2 & H3 & _)]]].
  - destruct (Hother _ Hk ltac:(done)) as [-> ->]. cbn [fst snd].
    rewrite app_nil_r, orb_false_r. split; [done|]. intros _.
    destruct (note_tokens_spec (ht_elements v) p) as (_ & _ & [_ _ Hf]). by apply Hf.
  - destruct (Hother _ Hk ltac:(done)) as [-> ->].
    pose proof (note_content_length_spec v (p, (log, tt))) as H.
    pose proof (cl_loop_world (ht_elements v) false (p, (log, tt))) as Hw.
    unfold note_content_length in *.
    destruct (note_content_length_loop _ _ _) as [b [p' [log' []]]]. cbn in Hw.
    injection Hw as ->. rewrite app_nil_r, orb_false_r. split; [done|]. intros ->.
    destruct (match seen_length _ with Some n => _ | None => _ end); [|by destruct H].
    destruct H as (_ & _ & [_ Hf]). by apply Hf.
  - destruct (Hother _ Hk ltac:(done)) as [-> ->]. cbn [fst snd].
    rewrite app_nil_r, orb_false_r. split; [done|]. intros _.
    destruct Hn.
    assert (te_noted (elements "Transfer-Encoding" hs) (set_flag F_HAVE_TE p)) as Hte.
    { split; unfold flag, set_flag in *; cbn; autorewrite with flags; done. }
    destruct (note_codings_spec (ht_elements v) _ _ Hte) as [_ [_ _ Hf]].
    unfold note_transfer_encoding. rewrite Hf by done.
    unfold flag, set_flag. cbn. by autorewrite with flags.
  - clear Hother. unfold host_event.
    destruct (htstring_equalsi k (bytes "Host")) eqn:Hh.
    + pose proof (equalsi_length _ _ Hh) as Hl. unfold note_header, bind, gets.
      rewrite Hl, Hh. cbn [bytes]. rewrite orb_true_r, andb_true_r.
      change (length (bytes "Host")) with 4%nat. cbn [fst].
      destruct (flag p F_HAVE_HOST) eqn:Hf; cbn; [by rewrite app_nil_r|].
      split; [done|]. intros _. unfold flag, set_flag. cbn. by autorewrite with flags.
    + unfold note_header, bind, gets, updp, ret. rewrite H1, H2, H3, Hh.
      rewrite andb_false_r. cbn [fst snd].
      assert (forall m, m = F_HAVE_CT \/ m = F_MULTIPART ->
        forall q, flag (set_flag m q) F_HAVE_HOST = flag q F_HAVE_HOST) as Hset.
      { intros m [-> | ->] q; unfold flag, set_flag; cbn; by autorewrite with flags. }
      repeat case_match; simplify_eq/=; try done;
        (split; [by rewrite app_nil_r|]); intros _; rewrite ?orb_false_r, ?Hset by auto; done.
Qed.

(** What header fields leave alone. *)
Record kept p p' : Prop := {
  k_config : config p' = config p; k_type : type p' = type p;
  k_error : error p' = error p;
  k_method : method p' = method p; k_scheme : scheme p' = scheme p;
  k_status : status p' = status p;
  k_major : major p' = major p; k_minor : minor p' = minor p;
  k_skip : flag p' F_SKIP_BODY = flag p F_SKIP_BODY;
  k_paused : flag p' F_PAUSED = flag p F_PAUSED
}.

#[local] Instance kept_preorder : PreOrder kept.
Proof. split; [by split|]. intros p q r [] []. split; congruence. Qed.

Lemma kept_plain p p' : kept p p' -> plain_as p -> plain_as p'.
Proof. intros [] (? & ? & ? & ?). unfold plain_as. split_and!; congruence. Qed.

(** ... and what a body leaves alone. *)
Record rested p p' : Prop := { re_kept : kept p p'; re_flags : flags p' = flags p }.

#[local] Instance rested_preorder : PreOrder rested.
Proof. split; [by split|]. intros p q r [] []. split; [by etransitivity|congruence]. Qed.

Lemma rested_upd p p' :
  config p' = config p -> type p' = type p -> error p' = error p -> method p' = method p ->
  scheme p' = scheme p -> status p' = status p -> major p' = major p -> minor p' = minor p ->
  flags p' = flags p -> rested p p'.
Proof. intros. split; [|done]. split; try done; unfold flag; congruence. Qed.

Lemma head_same_kept p p' : head_same p p' -> kept p p'.
Proof. intros []. by split. Qed.

Definition counted p : htparser := p <| header_count := u64 (header_count p + 1) |>.

Lemma counted_kept p : kept p (counted p).
Proof. by split. Qed.

(** The start of [head_line] for a header line that is neither empty nor one
    too many. *)
Lemma head_line_field f p (w : LW) :
  field_ok f -> config p = Some default_config -> in_head (state p) = true ->
  state p <> S_HEAD_LINE -> 0 <= header_count p < 100 ->
  (head_line hooks (field_line f) (p, w)).2 =
  (parse_header hooks (field_line f) (bool_decide (state p = S_TRAILERS)) (counted p, w)).2 /\
  header_count (counted p) = header_count p + 1.
Proof.
  intros Hf Hc Hin Hst Hcount. split.
  - unfold head_line, bind, gets, updp. cbn [fst snd].
    rewrite bool_decide_eq_false_2 by done.
    destruct (length (field_line f) =? 0)%nat eqn:Hlen.
    { apply Nat.eqb_eq, length_zero_iff_nil in Hlen. destruct f as [k v].
      unfold field_line in Hlen. by destruct k. }
    unfold cfg. rewrite Hc. cbn [default from_option id max_header_count default_config].
    destruct (Z.leb_spec 100 (header_count p)); [lia|]. cbn [negb andb].
    rewrite andb_false_r. fold (counted p).
    by destruct (parse_header _ _ _ _) as [b s].
  - cbn. unfold u64. apply Z.mod_small. lia.
Qed.

Lemma field_step f hs p log b :
  field_ok f -> noted hs p -> flag p F_HAVE_HOST = b -> 0 <= header_count p < 100 ->
  plain_as p -> state p = S_HEADERS ->
  agreed_length (named "Content-Length" (hs ++ [f])) <> None ->
  exists p', head_line hooks (field_line f) (p, (log, tt)) =
      (tt, (p', (log ++ field_events b [f], tt))) /\
    noted (hs ++ [f]) p' /\ kept p p' /\ header_count p' = header_count p + 1 /\
    state p' = S_HEADERS /\ flag p' F_HAVE_HOST = b || htstring_equalsi f.1 (bytes "Host").
Proof.
  intros Hf Hn Hhost Hcount Hplain Hst Hag. destruct Hplain as (Hc & Hty & Hpa & Hsk).
  destruct (head_line_field f p (log, tt) Hf Hc ltac:(by rewrite Hst) ltac:(by rewrite Hst)
    Hcount) as [Hline Hcnt].
  rewrite bool_decide_eq_false_2 in Hline by (by rewrite Hst).
  rewrite parse_header_ok in Hline by done. destruct f as [k v]. cbn [fst snd] in *.
  unfold andM, bind in Hline. rewrite HOOK_logged_null in Hline.
  assert (noted hs (counted p)) as Hn' by (destruct Hn; by split).
  pose proof (noted_step hooks hs k v (counted p, (log ++ [(h_hdr_key, k)], tt)) Hn') as Hs.
  pose proof (note_header_log hs k v (counted p) (log ++ [(h_hdr_key, k)]) Hn') as Hl.
  destruct (note_header hooks k v _) as [b' [p' [log' []]]].
  destruct b'; [|by destruct Hs as [Hs _]].
  destruct Hl as [-> Hseen]. destruct Hs as [Hs Hsame]. cbn [fst snd] in *.
  rewrite HOOK_logged_null in Hline. exists p'.
  split_and!; [|done|..].
  - destruct (head_line _ _ _) as [[] s']. cbn in Hline. rewrite Hline.
    do 3 f_equal. cbn [field_events]. rewrite <- Hhost.
    change (flag (counted p) F_HAVE_HOST) with (flag p F_HAVE_HOST).
    fold (host_event (flag p F_HAVE_HOST) k v). by app_norm.
  - etransitivity; [apply counted_kept|by apply head_same_kept].
  - by rewrite (hs_count _ _ Hsame).
  - by rewrite (hs_state _ _ Hsame).
  - rewrite Hseen by done. by rewrite <- Hhost.
Qed.

Lemma field_events_cons b f fs :
  field_events b (f :: fs) =
  field_events b [f] ++ field_events (b || htstring_equalsi f.1 (bytes "Host")) fs.
Proof. destruct f as [k v]. cbn [field_events fst]. by app_norm. Qed.

Lemma field_lines_cons f fs rest :
  field_lines (f :: fs) ++ rest = crlf (field_line f) ++ field_lines fs ++ rest.
Proof. unfold field_lines. cbn. by app_norm. Qed.

Lemma parse_head_fields fs hs p log rest b :
  Forall field_ok fs -> noted hs p -> flag p F_HAVE_HOST = b ->
  0 <= header_count p -> header_count p + Z.of_nat (length fs) <= 100 ->
  plain_as p -> state p = S_HEADERS ->
  agreed_length (named "Content-Length" (hs ++ fs)) <> None ->
  exists p', noted (hs ++ fs) p' /\ kept p p' /\ state p' = S_HEADERS /\
    parse_head hooks (field_lines fs ++ rest) (p, (log, tt)) =
    (fun '(n, s') => ((length (field_lines fs) + n)%nat, s')) <$>
      parse_head hooks rest (p', (log ++ field_events b fs, tt)).
Proof.
  revert hs p log b. induction fs as [|f fs IH]; intros hs p log b Hok Hn Hh H0 H100 Hp Hst Hag.
  { exists p. rewrite !app_nil_r. split_and!; [done..|]. cbn.
    destruct (parse_head _ _ _) as [[n s']|]; done. }
  apply Forall_cons in Hok as [Hf Hok]. cbn [length] in H100.
  replace (hs ++ f :: fs) with ((hs ++ [f]) ++ fs) in * by (by rewrite <- app_assoc).
  destruct (field_step f hs p log b) as (p1 & Hline & Hn1 & Hk1 & Hc1 & Hst1 & Hh1); try done; [lia| |].
  { intros Hno. apply Hag. unfold named in *. rewrite filter_app, map_app.
    by apply agreed_app_none. }
  destruct (IH (hs ++ [f]) p1 (log ++ field_events b [f])
    (b || htstring_equalsi f.1 (bytes "Host"))) as (p' & Hn' & Hk' & Hst' & E); try done.
  - lia.
  - lia.
  - by apply (kept_plain p).
  - exists p'. split_and!; [done|by etransitivity|done|].
    rewrite field_lines_cons, parse_head_line, Hline;
      [|cbn; by rewrite Hst|apply Hp..|apply Hf].
    cbn [snd]. rewrite E, (field_events_cons b f fs), (app_assoc log).
    destruct (parse_head hooks rest _) as [[n s']|]; cbn; [|done].
    f_equal. f_equal. unfold field_lines. cbn. rewrite length_app. lia.
Qed.

(** ** The end of the head *)

Definition ended (bd : body_t) (len : Z) p : htparser :=
  p <| body := bd |> <| content_len := len |> <| chunk := C_SIZE |>
    <| state := if bool_decide (bd = B_NONE) then S_COMPLETE else S_BODY |>.

Lemma head_end_ok fs p log bd len :
  noted fs p -> plain_as p -> state p = S_HEADERS -> body_spec p fs = Some (bd, len) ->
  head_line hooks [] (p, (log, tt)) =
    (tt, (ended bd len p, (log ++ [(on_hdrs_complete, [])], tt))).
Proof.
  intros Hn (Hc & Hty & Hpa & Hsk) Hst Hbd.
  unfold head_line, bind at 1, gets. cbn [fst snd]. rewrite Hst. cbn [length Nat.eqb].
  change (bool_decide (S_HEADERS = S_HEAD_LINE)) with false.
  change (bool_decide (S_HEADERS = S_TRAILERS)) with false. cbn iota.
  unfold head_end, bind at 1. rewrite (framing_noted fs) by done. cbn [fst snd].
  rewrite Hbd. unfold when, bind, updp, gets. cbn [fst snd]. rewrite HOOK_logged_null. cbn [fst snd].
  unfold flag in *. cbn [flags set_field eta_fields eta_htparser andb]. by rewrite Hsk.
Qed.

(** ** Rounds of the run loop *)

Definition step (data : list Z) (c c' : nat * St LW) : Prop :=
  run_step hooks data c.1 c.2 = Some (true, c'.1, c'.2).

Lemma run_steps data s off s1 off' s2 :
  rtc (step data) (0%nat, s) (off, s1) ->
  run_step hooks data off s1 = Some (false, off', s2) ->
  run_loop (run_fuel data) hooks data 0 s = Some (off', s2).
Proof.
  intros Hsteps Hlast.
  assert (exists f, run_loop f hooks data 0 s = Some (off', s2)) as [f Hf].
  { remember (0%nat, s) as c eqn:Hc. remember (off, s1) as c1 eqn:Hc1.
    change 0%nat with (0%nat, s).1. change s with (0%nat, s).2 at 2. rewrite <- Hc.
    clear Hc. induction Hsteps as [c|c c' c'' Hstep _ IH].
    - subst. exists 1%nat. cbn. by rewrite Hlast.
    - destruct (IH Hc1) as [f Hf]. exists (S f). cbn. by rewrite Hstep. }
  destruct (run_loop_total hooks (run_fuel data) data 0 s) as [r Hr]; [lia| |].
  { unfold run_fuel. pose proof (rank_le (state s.1)). lia. }
  rewrite Hr. destruct (Nat.le_ge_cases f (run_fuel data)) as [Hle|Hle].
  - rewrite (run_loop_mono hooks f _ _ _ _ _ Hle Hf) in Hr. done.
  - rewrite (run_loop_mono hooks _ _ _ _ _ _ Hle Hr) in Hf. done.
Qed.

Lemma drop_next {A} off (data x rest : list A) :
  drop off data = x ++ rest -> drop (off + length x) data = rest.
Proof. intros H. rewrite <- drop_drop, H. apply drop_app_length. Qed.

Lemma not_at_end {A} off (data x rest : list A) :
  drop off data = x ++ rest -> x <> [] -> (off =? length data)%nat = false.
Proof.
  intros H Hx. apply Nat.eqb_neq. intros ->. rewrite drop_all in H.
  symmetry in H. apply app_eq_nil in H. tauto.
Qed.

Lemma running_ok p :
  state p <> S_ERROR -> plain_as p ->
  negb (bool_decide (state p = S_ERROR)) && negb (flag p F_PAUSED) = true.
Proof. intros Hst (_ & _ & -> & _). by rewrite bool_decide_eq_false_2. Qed.

Lemma step_head data off p (w : LW) n s' :
  plain_as p -> in_head (state p) = true ->
  parse_head hooks (drop off data) (p, w) = Some (n, s') -> n <> 0%nat ->
  step data (off, (p, w)) ((off + n)%nat, s').
Proof.
  intros Hp Hst Hn Hn0. unfold step, run_step. cbn [fst snd].
  rewrite running_ok by (done || by destruct (state p)). rewrite Hn.
  destruct n; [done|]. by destruct (state p).
Qed.

(** A round in [S_BODY] that consumes something. *)
Lemma step_body data off p (w : LW) x rest s' :
  plain_as p -> state p = S_BODY -> drop off data = x ++ rest -> x <> [] ->
  parse_body hooks (x ++ rest) (p, w) = (length x, s') ->
  step data (off, (p, w)) ((off + length x)%nat, s').
Proof.
  intros Hp Hst Hd Hx Hb. unfold step, run_step. cbn [fst snd].
  rewrite running_ok by (done || by rewrite Hst). rewrite Hst.
  rewrite (not_at_end _ _ _ _ Hd Hx), Hd, Hb. by destruct x.
Qed.

(** ** Bodies *)

Lemma clip_app {A} (d rest : list A) :
  (if Z.of_nat (length d) <? Z.of_nat (length (d ++ rest))
   then Z.to_nat (Z.of_nat (length d)) else length (d ++ rest)) = length d.
Proof.
  rewrite length_app.
  destruct (Z.ltb_spec (Z.of_nat (length d)) (Z.of_nat (length d + length rest))); lia.
Qed.

(** A body of known length is reported in one piece and ends the message. *)
Lemma sized_body p log d rest :
  plain_as p -> state p = S_BODY -> body p = B_LENGTH -> d <> [] ->
  content_len p = Z.of_nat (length d) ->
  parse_body hooks (d ++ rest) (p, (log, tt)) =
    (length d, (p <| content_len := 0 |> <| state := S_COMPLETE |>,
                (log ++ [(h_body, d)], tt))).
Proof.
  intros Hp Hst Hb Hd Hlen. unfold parse_body, bind at 1, gets. cbn [fst]. rewrite Hb.
  unfold parse_body_raw, bind at 1, gets. cbn [fst snd]. rewrite Hb, Hlen.
  change (bool_decide (B_LENGTH = B_LENGTH)) with true. cbn [andb].
  rewrite clip_app.
  destruct (length d =? 0)%nat eqn:H0.
  { by apply Nat.eqb_eq, length_zero_iff_nil in H0. }
  rewrite take_app_length. unfold bind at 1. rewrite HOOK_logged_null. cbn [negb].
  unfold bind, gets, updp, when, ret. cbn [fst snd]. rewrite Hb.
  change (bool_decide (B_LENGTH = B_LENGTH)) with true. cbn iota.
  cbn [content_len set_field eta_fields eta_htparser fst snd].
  rewrite Hlen, Z.sub_diag. by change (u64 0) with 0.
Qed.

Definition in_chunked (c : chunk_t) p : Prop :=
  plain_as p /\ state p = S_BODY /\ body p = B_CHUNKED /\ chunk p = c.

Lemma body_chunked data p (w : LW) c :
  in_chunked c p -> parse_body hooks data (p, w) =
  match c with
  | C_SIZE => chunk_size_step hooks data | C_DATA => chunk_data_step hooks data
  | C_DATA_END => chunk_end_step hooks data
  end (p, w).
Proof.
  intros (_ & _ & Hb & Hc). unfold parse_body, bind, gets. cbn [fst]. rewrite Hb.
  unfold parse_body_chunked, bind, gets. cbn [fst]. rewrite Hc. by destruct c.
Qed.

Lemma chunk_size_ok p log l size rest :
  in_chunked C_SIZE p -> fits l -> parse_chunk_size l = Some size -> size <> 0 ->
  parse_body hooks (crlf l ++ rest) (p, (log, tt)) =
    (length (crlf l), (p <| orig_content_len := size |> <| content_len := size |>
                         <| chunk := C_DATA |>, (log ++ [(on_new_chunk, [])], tt))).
Proof.
  intros Hp Hl Hs H0. rewrite (body_chunked _ _ _ C_SIZE) by done.
  unfold chunk_size_step, bind at 1, gets. cbn [fst].
  rewrite crlf_app, take_line_fits; [|apply Hp|done]. rewrite Hs, crlf_length.
  destruct (Z.eqb_spec size 0); [done|].
  unfold bind, updp. cbn [fst snd]. by rewrite HOOK_logged_null.
Qed.

Lemma chunk_last_ok p log l rest :
  in_chunked C_SIZE p -> fits l -> parse_chunk_size l = Some 0 ->
  parse_body hooks (crlf l ++ rest) (p, (log, tt)) =
    (length (crlf l), (p <| state := S_TRAILERS |> <| header_count := 0 |>,
                       (log ++ [(on_chunks_complete, [])], tt))).
Proof.
  intros Hp Hl Hs. rewrite (body_chunked _ _ _ C_SIZE) by done.
  unfold chunk_size_step, bind at 1, gets. cbn [fst].
  rewrite crlf_app, take_line_fits; [|apply Hp|done]. rewrite Hs, Z.eqb_refl, crlf_length.
  unfold bind, updp. cbn [fst snd]. by rewrite HOOK_logged_null.
Qed.

Lemma chunk_data_ok p log d rest :
  in_chunked C_DATA p -> content_len p = Z.of_nat (length d) ->
  parse_body hooks (d ++ rest) (p, (log, tt)) =
    (length d, (p <| content_len := 0 |> <| chunk := C_DATA_END |>,
                (log ++ [(h_body, d)], tt))).
Proof.
  intros Hp Hlen. rewrite (body_chunked _ _ _ C_DATA) by done.
  unfold chunk_data_step, bind at 1, gets. cbn [fst]. rewrite Hlen.
  rewrite clip_app.
  rewrite take_app_length. unfold bind at 1. rewrite HOOK_logged_null. cbn [negb].
  unfold bind, gets, updp, when, ret. cbn [fst snd].
  cbn [content_len set_field eta_fields eta_htparser fst snd].
  rewrite Hlen, Z.sub_diag. by change (u64 0) with 0.
Qed.

Lemma chunk_end_ok p log rest :
  in_chunked C_DATA_END p ->
  parse_body hooks (crlf [] ++ rest) (p, (log, tt)) =
    (length (crlf []), (p <| chunk := C_SIZE |>, (log ++ [(on_chunk_complete, [])], tt))).
Proof.
  intros Hp. rewrite (body_chunked _ _ _ C_DATA_END) by done.
  unfold chunk_end_step, bind at 1, gets. cbn [fst].
  rewrite crlf_app, take_line_fits; [|apply Hp|by split]. done.
Qed.

(** ** Chunked bodies *)

Lemma crlf_ne l : crlf l <> [].
Proof. by destruct l. Qed.

Lemma chunk_steps data off p log c rest :
  in_chunked C_SIZE p -> chunk_ok c -> drop off data = chunk_bytes c ++ rest ->
  exists p', in_chunked C_SIZE p' /\ rested p p' /\
    rtc (step data) (off, (p, (log, tt)))
      ((off + length (chunk_bytes c))%nat, (p', (log ++ chunk_events c, tt))).
Proof.
  destruct c as [l d]. intros Hp (Hl & Hd & Hsize) Hdrop. cbn [fst snd] in *.
  unfold chunk_bytes in *. cbn [fst snd] in *.
  assert (drop off data = crlf l ++ (d ++ crlf [] ++ rest)) as H1.
  { rewrite Hdrop. unfold crlf. by app_norm. }
  pose proof (drop_next _ _ _ _ H1) as H2. pose proof (drop_next _ _ _ _ H2) as H3.
  assert (Z.of_nat (length d) <> 0) as Hn0 by (destruct d; [done|cbn; lia]).
  set (p1 := p <| orig_content_len := Z.of_nat (length d) |>
               <| content_len := Z.of_nat (length d) |> <| chunk := C_DATA |>).
  set (p2 := p1 <| content_len := 0 |> <| chunk := C_DATA_END |>).
  set (p3 := p2 <| chunk := C_SIZE |>).
  destruct Hp as (Hpl & Hst & Hb & Hc).
  assert (in_chunked C_DATA p1) as Hp1 by (split_and!; try done; by apply (kept_plain p)).
  assert (in_chunked C_DATA_END p2) as Hp2 by (split_and!; try done; by apply (kept_plain p)).
  assert (in_chunked C_SIZE p3) as Hp3 by (split_and!; try done; by apply (kept_plain p)).
  exists p3. split; [done|]. split; [by apply rested_upd|].
  eapply rtc_l; [|eapply rtc_l; [|eapply rtc_l; [|]]].
  - eapply step_body; [done|done|exact H1|apply crlf_ne|]. by apply chunk_size_ok.
  - eapply step_body; [apply Hp1|apply Hp1|exact H2|done|]. by apply (chunk_data_ok p1).
  - eapply step_body; [apply Hp2|apply Hp2|exact H3|apply crlf_ne|]. by apply (chunk_end_ok p2).
  - replace (off + length (crlf l) + length d + length (crlf []))%nat
      with (off + length (crlf l ++ crlf d))%nat.
    2:{ rewrite length_app, !crlf_length. cbn. lia. }
    unfold chunk_events. cbn [snd]. by app_norm.
Qed.

Lemma chunks_steps data off p log cs rest :
  in_chunked C_SIZE p -> Forall chunk_ok cs ->
  drop off data = concat (map chunk_bytes cs) ++ rest ->
  exists p', in_chunked C_SIZE p' /\ rested p p' /\
    rtc (step data) (off, (p, (log, tt)))
      ((off + length (concat (map chunk_bytes cs)))%nat,
       (p', (log ++ concat (map chunk_events cs), tt))).
Proof.
  revert off p log. induction cs as [|c cs IH]; intros off p log Hp Hcs Hd;
    cbn [map concat length app] in *.
  { exists p. rewrite Nat.add_0_r, app_nil_r. split_and!; done. }
  apply Forall_cons in Hcs as [Hc Hcs]. rewrite <- app_assoc in Hd.
  destruct (chunk_steps data off p log c _ Hp Hc Hd) as (p1 & Hp1 & Hk1 & Hr1).
  destruct (IH _ p1 (log ++ chunk_events c) Hp1 Hcs (drop_next _ _ _ _ Hd))
    as (p2 & Hp2 & Hk2 & Hr2).
  exists p2. split; [done|]. split; [by etransitivity|].
  etransitivity; [exact Hr1|]. rewrite length_app, Nat.add_assoc, app_assoc. exact Hr2.
Qed.

(** ** Trailers *)

Lemma trailer_step f p log :
  field_ok f -> 0 <= header_count p < 100 -> plain_as p -> state p = S_TRAILERS ->
  head_line hooks (field_line f) (p, (log, tt)) =
    (tt, (counted p, (log ++ [(h_hdr_key, f.1); (h_hdr_val, f.2)], tt))) /\
  header_count (counted p) = header_count p + 1.
Proof.
  intros Hf Hcount (Hc & _) Hst.
  destruct (head_line_field f p (log, tt) Hf Hc ltac:(by rewrite Hst) ltac:(by rewrite Hst)
    Hcount) as [Hline Hcnt]. split; [|done].
  rewrite bool_decide_eq_true_2, parse_header_ok in Hline by done.
  unfold andM, bind, ret in Hline. rewrite !HOOK_logged_null in Hline.
  destruct (head_line _ _ _) as [[] s']. cbn in Hline. rewrite Hline. by app_norm.
Qed.

Lemma parse_head_trailers fs p log rest :
  Forall field_ok fs -> 0 <= header_count p ->
  header_count p + Z.of_nat (length fs) <= 100 -> plain_as p -> state p = S_TRAILERS ->
  exists p', rested p p' /\ state p' = S_COMPLETE /\
    parse_head hooks (field_lines fs ++ crlf [] ++ rest) (p, (log, tt)) =
      Some (length (field_lines fs ++ crlf []), (p', (log ++ trailer_events fs, tt))).
Proof.
  revert p log. induction fs as [|f fs IH]; intros p log Hok H0 H100 Hp Hst.
  - exists (p <| state := S_COMPLETE |>). split; [by apply rested_upd|]. split; [done|].
    change (field_lines [] ++ crlf [] ++ rest) with (crlf [] ++ rest).
    rewrite parse_head_line; [|cbn; by rewrite Hst|apply Hp..|by split].
    replace (head_line hooks [] (p, (log, tt))) with (tt, (p <| state := S_COMPLETE |>, (log, tt))).
    2:{ unfold head_line, bind, gets. cbn [fst snd]. by rewrite Hst. }
    rewrite parse_head_stop by done. cbn. by rewrite app_nil_r.
  - apply Forall_cons in Hok as [Hf Hok]. cbn [length] in H100.
    destruct (trailer_step f p log Hf ltac:(lia) Hp Hst) as [Hline Hcnt].
    destruct (IH (counted p) (log ++ [(h_hdr_key, f.1); (h_hdr_val, f.2)]))
      as (p' & Hk' & Hst' & E); try done; [lia|lia|].
    exists p'. split; [etransitivity; [|exact Hk']; by apply rested_upd|]. split; [done|].
    rewrite field_lines_cons, parse_head_line, Hline;
      [|cbn; by rewrite Hst|apply Hp..|apply Hf].
    cbn [snd]. rewrite E. cbn [fmap option_fmap option_map]. f_equal. f_equal.
    + unfold field_lines. cbn. rewrite !length_app. lia.
    + unfold trailer_events. cbn. by app_norm.
Qed.

(** ** Whole messages *)

(** What [htparser_run] starts a message with. *)
Definition begun p : htparser := (message_reset p) <| state := S_HEAD_LINE |>.

Lemma begun_ok p : plain_as p -> plain_as (begun p) /\ noted [] (begun p) /\
  flag (begun p) F_HAVE_HOST = false /\ header_count (begun p) = 0 /\
  error (begun p) = htparse_error_none.
Proof.
  intros (Hc & Hty & Hpa & Hsk).
  assert (forall m, Z.land F_PAUSED m = 0 -> flag (begun p) m = false) as Hf.
  { intros m Hm. unfold flag, begun, message_reset. cbn. by apply has_mask_ne. }
  split_and!; try done; [|split; rewrite ?Hf by reflexivity; done|by apply Hf].
  unfold plain_as. split_and!; try done; [|by apply Hf].
  unfold flag, begun, message_reset in *. cbn. by rewrite has_mask_eq.
Qed.

Lemma step_start data off p log c rest :
  plain_as p -> state p = S_START -> drop off data = c :: rest -> c <> CR -> c <> LF ->
  step data (off, (p, (log, tt)))
    (off, (begun p, (log ++ [(on_msg_begin, [])], tt))).
Proof.
  intros Hp Hst Hd Hcr Hlf. unfold step, run_step. cbn [fst snd].
  rewrite running_ok by (done || by rewrite Hst). rewrite Hst, Hd. cbn [skip_empty].
  destruct (Z.eqb_spec c CR), (Z.eqb_spec c LF); try done. cbn [orb ret].
  rewrite (not_at_end off data [c] rest Hd) by done.
  unfold bind, updp. cbn [fst snd]. by rewrite HOOK_logged_null.
Qed.

Definition completed p : htparser := clear_flag F_SKIP_BODY (p <| state := S_START |>).

Lemma step_complete data off p log :
  plain_as p -> state p = S_COMPLETE ->
  run_step hooks data off (p, (log, tt)) =
    Some (false, off, (completed p, (log ++ [(on_msg_complete, [])], tt))).
Proof.
  intros Hp Hst. unfold run_step. cbn [fst snd].
  rewrite running_ok by (done || by rewrite Hst). rewrite Hst.
  unfold bind, updp. cbn [fst snd]. by rewrite HOOK_logged_null.
Qed.

Lemma completed_kept p : plain_as p -> kept p (completed p).
Proof.
  intros (_ & _ & _ & Hsk). split; try done; unfold flag, completed, clear_flag in *; cbn.
  - by rewrite has_off_eq.
  - by apply has_off_ne.
Qed.

Lemma head_line_start line p (w : LW) :
  state p = S_HEAD_LINE -> head_line hooks line (p, w) = start_line hooks line (p, w).
Proof.
  intros Hst. unfold head_line, bind, gets. cbn [fst]. by rewrite bool_decide_eq_true_2.
Qed.

(** The start line [line] takes the parser from [p] to [q] and reports [evs]. *)
Record opens (line : list Z) (evs : list event) p q : Prop := {
  op_line : forall log,
    start_line hooks line (p, (log, tt)) = (tt, (q, (log ++ evs, tt)));
  op_plain : plain_as q;
  op_state : state q = S_HEADERS;
  op_noted : noted [] q;
  op_host : flag q F_HAVE_HOST = false;
  op_count : header_count q = 0;
  op_error : error q = htparse_error_none
}.

(** The head, in one round of the run loop. *)
Lemma parse_head_message line evs p q fs log rest bd len :
  fits line -> opens line evs p q -> plain_as p -> state p = S_HEAD_LINE ->
  fields_ok fs -> body_spec q fs = Some (bd, len) ->
  exists p1, kept q p1 /\ noted fs p1 /\
    parse_head hooks (head_bytes line fs ++ rest) (p, (log, tt)) =
    Some (length (head_bytes line fs),
      (ended bd len p1, (log ++ evs ++ field_events false fs ++ [(on_hdrs_complete, [])], tt))).
Proof.
  intros Hl Hq Hp Hst [Hfs Hnum] Hbd. unfold head_bytes. destruct Hq.
  destruct (parse_head_fields fs [] q (log ++ evs) (crlf [] ++ rest) false)
    as (p1 & Hn1 & Hk1 & Hst1 & E); try done; [by rewrite op_count0|rewrite op_count0; lia| |].
  { cbn [app]. intros Hno. unfold body_spec in Hbd. by rewrite Hno in Hbd. }
  exists p1. split; [done|]. split; [done|]. app_norm.
  rewrite parse_head_line; [|cbn; by rewrite Hst|apply Hp..|done].
  rewrite head_line_start, op_line0 by done. cbn [snd]. rewrite E.
  rewrite parse_head_line; [|cbn; by rewrite Hst1|apply (kept_plain _ _ Hk1 op_plain0)..|by split].
  rewrite (head_end_ok fs p1 _ bd len); [|done|by apply (kept_plain q)|done|].
  2:{ rewrite <- Hbd. unfold body_spec.
      by rewrite (k_type _ _ Hk1), (k_status _ _ Hk1), (k_major _ _ Hk1), (k_minor _ _ Hk1). }
  cbn [snd]. rewrite parse_head_stop by (cbn; by destruct bd).
  cbn [fmap option_fmap option_map]. f_equal. f_equal; [|by app_norm].
  rewrite !length_app. lia.
Qed.

Lemma content_steps c data off p log rest bd len :
  content_fits (Some (bd, len)) c -> plain_as p -> drop off data = content_bytes c ++ rest ->
  exists p', rested p p' /\ state p' = S_COMPLETE /\
    rtc (step data) (off, (ended bd len p, (log, tt)))
      ((off + length (content_bytes c))%nat, (p', (log ++ content_events c, tt))).
Proof.
  intros Hok Hp Hd.
  assert (rested p (ended bd len p)) as Hk by by apply rested_upd.
  assert (plain_as (ended bd len p)) as Hpl by by (apply (kept_plain p); [apply Hk|done]).
  destruct bd, c as [|d|cs last trailers]; try done; cbn [content_bytes content_fits] in *.
  - exists (ended B_NONE len p). cbn. rewrite Nat.add_0_r, app_nil_r. done.
  - destruct Hok as [-> Hne].
    eexists. split; [|split; [|apply rtc_once; eapply step_body; [done|done|exact Hd| |]]].
    4: { apply sized_body; try done. by destruct d. }
    + by apply rested_upd.
    + done.
    + by destruct d.
  - destruct Hok as (Hcs & Hlast & Hzero & Htr & Hnum).
    assert (in_chunked C_SIZE (ended B_CHUNKED len p)) as Hin by done.
    rewrite <- !app_assoc in Hd.
    destruct (chunks_steps data off _ log cs _ Hin Hcs Hd) as (p1 & Hp1 & Hk1 & Hr1).
    apply drop_next in Hd as Hd1.
    set (p2 := p1 <| state := S_TRAILERS |> <| header_count := 0 |>).
    assert (rested p1 p2) as Hk2 by by apply rested_upd.
    assert (plain_as p2) as Hpl2 by (apply (kept_plain p1); [apply Hk2|apply Hp1]).
    apply drop_next in Hd1 as Hd2.
    destruct (parse_head_trailers trailers p2
      (log ++ concat (map chunk_events cs) ++ [(on_chunks_complete, [])]) rest)
      as (p3 & Hk3 & Hst3 & E); try done; [cbn; lia|].
    exists p3. split; [by do 3 (etransitivity; [eassumption|])|]. split; [done|].
    etransitivity; [exact Hr1|]. eapply rtc_l; [|apply rtc_once].
    + eapply step_body; [apply Hp1|apply Hp1|exact Hd1|apply crlf_ne|].
      by apply chunk_last_ok.
    + replace (off + length (concat (map chunk_bytes cs) ++ crlf last ++
                             field_lines trailers ++ crlf []))%nat
        with (off + length (concat (map chunk_bytes cs)) + length (crlf last) +
              length (field_lines trailers ++ crlf []))%nat
        by (rewrite !length_app; lia).
      eapply step_head; [done|done|rewrite Hd2|rewrite length_app, crlf_length; lia].
      rewrite <- app_assoc. etransitivity; [exact E|].
      unfold content_events. by app_norm.
Qed.

(** After a message: what the flags say about the fields of its head. *)
Definition tells fs p : Prop :=
  flag p F_CONN_CLOSE = closes fs /\
  (existsb is_multipart fs = false -> flag p F_MULTIPART = false).

Lemma noted_tells fs p p' :
  noted fs p -> (forall m, Z.land F_SKIP_BODY m = 0 -> flag p' m = flag p m) -> tells fs p'.
Proof.
  intros [] Hf. split; [by rewrite Hf|]. rewrite Hf by done. intros Hm.
  destruct (flag p F_MULTIPART); [|done]. by rewrite Hm in no_multi; specialize (no_multi eq_refl).
Qed.

(** A whole message, whatever its start line: what [htparser_run] makes of the
    rendered bytes. *)
Lemma message_run line evs fs c p q log rest :
  plain_as p -> state p = S_START -> fits line ->
  (exists x l, line = x :: l /\ x <> CR /\ x <> LF) ->
  opens line evs (begun (p <| bytes_read := 0 |>)) q ->
  fields_ok fs -> content_fits (body_spec q fs) c ->
  exists p', htparser_run hooks (message_bytes line fs c ++ rest) (p, (log, tt)) =
    Some (length (message_bytes line fs c), (p', (log ++ message_events evs fs c, tt))) /\
  plain_as p' /\ state p' = S_START /\ error p' = htparse_error_none /\ tells fs p' /\
  method p' = method q /\ status p' = status q /\ major p' = major q /\ minor p' = minor q.
Proof.
  intros Hp Hst Hline (x & l & Hx & Hcr & Hlf) Hq Hfs Hcont.
  set (data := message_bytes line fs c ++ rest). set (p0 := p <| bytes_read := 0 |>) in *.
  assert (plain_as p0) as Hp0 by (destruct Hp as (?&?&?&?); by split_and!).
  destruct (begun_ok p0 Hp0) as (Hpb & _).
  destruct (body_spec q fs) as [[bd len]|] eqn:Hbd; [|done].
  destruct (parse_head_message line evs (begun p0) q fs (log ++ [(on_msg_begin, [])])
    (content_bytes c ++ rest) bd len) as (p1 & Hk1 & Hn1 & Hhead); try done.
  assert (plain_as p1) as Hp1 by (apply (kept_plain q); [done|apply Hq]).
  assert (drop 0 data = head_bytes line fs ++ content_bytes c ++ rest) as Hd0.
  { unfold data, message_bytes. by rewrite drop_0, <- app_assoc. }
  destruct (content_steps c data (length (head_bytes line fs)) p1
    ((log ++ [(on_msg_begin, [])]) ++ evs ++ field_events false fs ++ [(on_hdrs_complete, [])])
    rest bd len)
    as (p2 & [Hk2 Hf2] & Hst2 & Hr2); [done|done|by apply (drop_next 0 data (head_bytes line fs))|].
  assert (plain_as p2) as Hp2 by by apply (kept_plain p1).
  pose proof (completed_kept p2 Hp2) as Hk3.
  pose proof (step_complete data (length (head_bytes line fs) + length (content_bytes c)) p2) as Hlast.
  assert (exists r, drop 0 data = x :: r) as [r Hc].
  { rewrite Hd0. unfold head_bytes, crlf. rewrite Hx. by eexists. }
  pose proof (step_start data 0 p0 log x r Hp0 Hst Hc Hcr Hlf) as Hbegin.
  assert (length (head_bytes line fs) <> 0)%nat as Hne.
  { unfold head_bytes. rewrite length_app, crlf_length. lia. }
  rewrite <- Hd0 in Hhead.
  pose proof (step_head data 0 _ _ _ _ Hpb eq_refl Hhead Hne) as Hheadstep.
  pose proof (run_steps _ _ _ _ _ _ (rtc_l _ _ _ _ Hbegin (rtc_l _ _ _ _ Hheadstep Hr2))
    (Hlast _ Hp2 Hst2)) as Hrun.
  unfold htparser_run, updp. cbn [fst snd]. fold p0. rewrite Hrun.
  pose proof (op_error _ _ _ _ Hq) as He. clear - He Hk1 Hk2 Hf2 Hk3 Hn1 Hp2.
  assert (tells fs (completed p2)) as Ht.
  { apply (noted_tells fs p1); [done|]. intros m Hm. unfold flag, completed, clear_flag. cbn.
    rewrite has_off_ne by done. by rewrite Hf2. }
  destruct Hk1, Hk2, Hk3.
  eexists. split; [unfold message_bytes, message_events; rewrite length_app; app_norm; reflexivity|].
  split; [exact (kept_plain p2 (completed p2) ltac:(by split) Hp2)|].
  split; [reflexivity|]. cbn in *. split_and!; try done; congruence.
Qed.
End Messages.

(** A parser of requests between two messages. *)
Abbreviation plain := (plain_as htp_type_request).

Section Roundtrip.
Context `{lib : HtStringLib} {laws : HtStringLaws lib}.
Abbreviation hooks := (Some (logged (P := htparser) null_hooks)).

Lemma body_spec_request p q fs :
  type p = htp_type_request -> type q = htp_type_request -> body_spec p fs = body_spec q fs.
Proof. intros Hp Hq. unfold body_spec. by rewrite Hp, Hq. Qed.

Lemma request_line_first rq :
  request_ok rq -> exists c r, request_line rq = c :: r /\ c <> CR /\ c <> LF.
Proof.
  intros Hok.
  assert (exists c r, method_name (rq_method rq) = c :: r /\ c <> CR /\ c <> LF) as (c & r & E & H).
  { pose proof (ok_method _ Hok). destruct (rq_method rq); try done;
      (eexists; eexists; split; [vm_compute; reflexivity|done]). }
  exists c. eexists. split; [|exact H]. unfold request_line. by rewrite E.
Qed.

Lemma request_opens rq p :
  request_ok rq -> plain p /\ noted [] p /\ flag p F_HAVE_HOST = false /\
    header_count p = 0 /\ error p = htparse_error_none ->
  opens htp_type_request (request_line rq) (start_events rq) p (started rq p).
Proof.
  intros Hok (Hp & Hn & Hh & Hc & He).
  split; [|by apply started_plain|done|by destruct Hn|done..].
  intros log. apply start_line_ok; [done|apply Hp].
Qed.

(** One request, whatever follows it. *)
Lemma request_run rq p log rest :
  request_ok rq -> plain p -> state p = S_START ->
  exists p', htparser_run hooks (render rq ++ rest) (p, (log, tt)) =
    Some (length (render rq), (p', (log ++ events rq, tt))) /\
  plain p' /\ state p' = S_START /\ error p' = htparse_error_none /\ tells (rq_fields rq) p' /\
  method p' = rq_method rq /\ major p' = rq_major rq /\ minor p' = rq_minor rq.
Proof.
  intros Hok Hp Hst. pose proof Hok as [].
  assert (plain (p <| bytes_read := 0 |>)) as Hp0 by (destruct Hp as (?&?&?&?); by split_and!).
  destruct (message_run _ _ _ (rq_fields rq) (rq_content rq) p _ log rest Hp Hst ok_line0
    (request_line_first rq Hok) (request_opens rq _ Hok (begun_ok _ _ Hp0)) ok_fields0)
    as (p' & E & Hp' & Hst' & He & Ht & Hm & _ & Hma & Hmi).
  { rewrite (body_spec_request _ (p_init htp_type_request)); [exact ok_content0| |done].
    apply (started_plain _ rq), begun_ok, Hp0. }
  exists p'. by split_and!.
Qed.

(** As a connection does: the parser is run again on what a run has left. *)
Fixpoint runs (n : nat) (data : list Z) (s : St (list event * unit)) :
    option (nat * St (list event * unit)) :=
  match n with
  | O => Some (0%nat, s)
  | S n =>
      '(k, s1) ← htparser_run hooks data s;
      '(m, s2) ← runs n (drop k data) s1;
      Some ((k + m)%nat, s2)
  end.

(** C16: pipelined requests are read back exactly.  Given well-formed requests
    rendered one after the other (any method and target in origin form, any
    header fields within the limits, and the body the fields call for, chunked
    with extensions and trailers included), followed by any bytes, the runs of
    the parser consume precisely the requests, one each, report every part of
    each once and in order, and leave the parser between messages, with the
    method and version of the last. *)
Theorem request_roundtrip rqs p log rest :
  Forall request_ok rqs -> plain p -> state p = S_START ->
  exists p', runs (length rqs) (concat (map render rqs) ++ rest) (p, (log, tt)) =
    Some (length (concat (map render rqs)), (p', (log ++ concat (map events rqs), tt))) /\
  plain p' /\ state p' = S_START /\
  (forall rq, last rqs = Some rq -> error p' = htparse_error_none /\
     method p' = rq_method rq /\ major p' = rq_major rq /\ minor p' = rq_minor rq).
Proof.
  intros Hok. revert p log. induction Hok as [|rq rqs Hrq Hrqs IH]; intros p log Hp Hst.
  { exists p. cbn. by rewrite app_nil_r. }
  cbn [map concat length runs]. rewrite <- app_assoc.
  destruct (request_run rq p log (concat (map render rqs) ++ rest) Hrq Hp Hst)
    as (p1 & -> & Hp1 & Hst1 & He1 & _ & Hlast).
  cbn [mbind option_bind]. rewrite drop_app_length.
  destruct rqs as [|rq' rqs].
  { exists p1. cbn. rewrite Nat.add_0_r, !app_nil_r. split_and!; [done..|].
    by intros ? [= <-]. }
  destruct (IH p1 (log ++ events rq) Hp1 Hst1) as (p2 & -> & Hp2 & Hst2 & Hlast2).
  exists p2. cbn [mbind option_bind]. by rewrite length_app, <- app_assoc.
Qed.
End Roundtrip.

(** A chunked POST with an extension and a trailer, followed by the start of
    the next request. *)
Definition sample_request : request := {|
  rq_method := htp_method_POST; rq_path := bytes "/a"; rq_query := Some (bytes "x=1");
  rq_major := 1; rq_minor := 1;
  rq_fields := [(bytes "Host", bytes "h"); (bytes "Transfer-Encoding", bytes "chunked")];
  rq_content := chunks [(bytes "3;n", bytes "abc"); (bytes "2", bytes "de")] (bytes "0")
                  [(bytes "T", bytes "v")] |}.

Lemma sample_request_ok : request_ok (lib := ref_lib) sample_request.
Proof.
  assert (forall l, bool_decide (Forall (fun c => c <> LF) l) = true ->
    bool_decide (Z.of_nat (length l) <= 8192) = true -> fits l) as Hfits.
  { intros l H1%bool_decide_eq_true H2%bool_decide_eq_true. by split. }
  assert (forall cs s, bool_decide (Forall (fun c => Forall (fun d => c <> d) cs) s) = true ->
    free_of cs s) as Hfree.
  { intros cs s H%bool_decide_eq_true. done. }
  assert (forall k v, k <> [] -> free_of [":"%c; LF] k -> isblank (nth 0 k 0) = false ->
    isblank (nth (length k - 1) k 0) = false -> trim v = v -> fits (field_line (k, v)) ->
    field_ok (k, v)) as Hfield by (unfold field_ok; auto 10).
  split; try done; try (apply Hfree; vm_compute; reflexivity);
    try (apply Hfits; vm_compute; reflexivity).
  - split; [|cbn; lia].
    repeat (apply Forall_cons; split; [apply Hfield; try done;
      try (apply Hfree; vm_compute; reflexivity); apply Hfits; vm_compute; reflexivity|]).
    done.
  - split; [|split; [apply Hfits; vm_compute; reflexivity|split; [done|split; [|cbn; lia]]]].
    + repeat (apply Forall_cons; split; [split; [apply Hfits; vm_compute; reflexivity|done]|]).
      done.
    + apply Forall_cons. split; [|done]. apply Hfield; try done;
      try (apply Hfree; vm_compute; reflexivity); apply Hfits; vm_compute; reflexivity.
Qed.

Lemma request_roundtrip_witness :
  exists p', runs 2 (render sample_request ++ (render sample_request ++ []) ++ bytes "GET /")
      (p_init htp_type_request, ([], tt)) =
    Some (length (render sample_request ++ (render sample_request ++ [])),
          (p', (events sample_request ++ (events sample_request ++ []), tt))) /\
  plain p' /\ state p' = S_START /\
  (forall rq, Some sample_request = Some rq -> error p' = htparse_error_none /\
     method p' = rq_method rq /\ major p' = rq_major rq /\ minor p' = rq_minor rq).
Proof.
  rewrite app_assoc.
  exact (request_roundtrip (laws := ref_laws) [sample_request; sample_request]
    (p_init htp_type_request) [] (bytes "GET /")
    (Forall_cons_2 _ _ _ sample_request_ok (Forall_cons_2 _ _ _ sample_request_ok (Forall_nil_2 _)))
    (conj eq_refl (conj eq_refl (conj eq_refl eq_refl))) eq_refl).
Defined.
