(* ===== verification/MsgParserResponse.v ===== *)
(** * msgparser.c: whole responses

    The counterpart of MsgParserRoundtrip.v for a parser of type
    [htp_type_response]: [response_run] shows that the rendered bytes of
    a response are read back part by part and separated from what follows. *)

From S2P Require Import Prelude HtpTypes HtString MsgParser MsgParserFacts MsgParserSpec MsgParserFraming MsgParserRoundtrip.

Record response := {
  rs_major : Z;
  rs_minor : Z;
  rs_status : Z;
  rs_reason : list Z;
  rs_fields : list field;
  rs_content : content
}.

Definition status_digits (c : Z) : list Z :=
  [c / 100 + "0"%c; c / 10 mod 10 + "0"%c; c mod 10 + "0"%c].
Definition status_line (rs : response) : list Z :=
  bytes "HTTP/" ++ [rs_major rs + "0"%c; "."%c; rs_minor rs + "0"%c] ++ SP ::
  status_digits (rs_status rs) ++ SP :: rs_reason rs.
Definition render_response (rs : response) : list Z :=
  message_bytes (status_line rs) (rs_fields rs) (rs_content rs).

(** The parser [p] after the status line. *)
Definition answered (rs : response) (p : htparser) : htparser :=
  p <| major := rs_major rs |> <| minor := rs_minor rs |> <| status := rs_status rs |>
    <| state := S_HEADERS |>.

Section Responses.
Context `{lib : HtStringLib}.

Definition response_events (rs : response) : list event :=
  message_events [(on_hdrs_begin, [])] (rs_fields rs) (rs_content rs).

(** The content is the one the head announces; a response whose body ends
    with the connection is none of these. *)
Record response_ok (rs : response) : Prop := {
  ok_rmajor : 1 <= rs_major rs <= 9;
  ok_rminor : 0 <= rs_minor rs <= 9;
  ok_rstatus : 100 <= rs_status rs <= 999;
  ok_rline : fits (status_line rs);
  ok_rfields : fields_ok (rs_fields rs);
  ok_rcontent : content_fits
    (body_spec (answered rs (p_init htp_type_response)) (rs_fields rs)) (rs_content rs)
}.
End Responses.

Section Roundtrip.
Context `{lib : HtStringLib} {laws : HtStringLaws lib}.
Abbreviation LW := (list event * unit)%type.
Abbreviation hooks := (Some (logged (P := htparser) null_hooks)).

Lemma status_digits_ok c :
  100 <= c <= 999 ->
  Forall (fun d => isdigit d = true) (status_digits c) /\
  (c / 100 + 48 - 48) * 100 + (c / 10 mod 10 + 48 - 48) * 10 + (c mod 10 + 48 - 48) = c.
Proof.
  intros Hc. pose proof (Z.div_mod c 10 ltac:(lia)). pose proof (Z.mod_pos_bound c 10 ltac:(lia)).
  pose proof (Z.div_mod (c / 10) 10 ltac:(lia)). pose proof (Z.mod_pos_bound (c / 10) 10 ltac:(lia)).
  rewrite Z.div_div in * by lia. change (10 * 10) with 100 in *.
  assert (0 <= c / 100 <= 9) by (split; [apply Z.div_pos; lia|apply Z.lt_succ_r, Z.div_lt_upper_bound; lia]).
  split; [|lia]. unfold status_digits, isdigit.
  repeat (apply Forall_cons; split; [lia|]). done.
Qed.

Lemma parse_status_line_ok rs (s : St LW) :
  response_ok rs ->
  parse_status_line (status_line rs) s =
    (true, (s.1 <| major := rs_major rs |> <| minor := rs_minor rs |>
                <| status := rs_status rs |>, s.2)).
Proof.
  intros []. destruct (status_digits_ok _ ok_rstatus0) as [Hd Hv].
  unfold status_digits in Hd. rewrite !Forall_cons in Hd. destruct Hd as (H1 & H2 & H3 & _).
  unfold parse_status_line, bind at 1.
  replace (length (status_line rs) <? 12)%nat with false by (symmetry; apply Nat.ltb_ge;
    change (length (status_line rs)) with (13 + length (rs_reason rs))%nat; lia).
  replace (take 8 (status_line rs)) with
    (bytes "HTTP/" ++ [rs_major rs + "0"%c; "."%c; rs_minor rs + "0"%c]) by done.
  rewrite parse_version_digits by done. cbn [negb].
  replace (nth 8 (status_line rs) 0) with SP by done.
  replace (nth 9 (status_line rs) 0) with (rs_status rs / 100 + 48) by done.
  replace (nth 10 (status_line rs) 0) with (rs_status rs / 10 mod 10 + 48) by done.
  replace (nth 11 (status_line rs) 0) with (rs_status rs mod 10 + 48) by done.
  replace (nth 12 (status_line rs) 0) with SP by done.
  rewrite H1, H2, H3, Hv, Z.eqb_refl, andb_false_r. cbn [orb negb].
  unfold bind, updp. cbn [fst snd]. destruct (Z.ltb_spec (rs_status rs) 100); [lia|done].
Qed.

Lemma response_opens rs p :
  response_ok rs -> plain_as htp_type_response p /\ noted [] p /\ flag p F_HAVE_HOST = false /\
    header_count p = 0 /\ error p = htparse_error_none ->
  opens htp_type_response (status_line rs) [(on_hdrs_begin, [])] p (answered rs p).
Proof.
  intros Hok (Hp & Hn & Hh & Hc & He).
  split; [|by destruct Hp as (?&?&?&?); split_and!|done|by destruct Hn|done..].
  intros log. unfold start_line, bind at 1, gets. cbn [fst snd].
  rewrite bool_decide_eq_false_2 by (destruct Hp as (_ & -> & _); done).
  unfold bind at 1. rewrite parse_status_line_ok by done. cbn [fst snd].
  unfold when, bind, updp, ret. cbn [fst snd]. by rewrite HOOK_logged_null.
Qed.

Lemma body_spec_ext p q fs :
  type p = type q -> status p = status q -> major p = major q -> minor p = minor q ->
  body_spec p fs = body_spec q fs.
Proof. intros H1 H2 H3 H4. unfold body_spec. by rewrite H1, H2, H3, H4. Qed.

(** A rendered response is read back exactly.  Given any well-formed
    response (status 100 to 999, any reason phrase, any header fields within
    the limits, and the body the status and the fields call for), followed by
    any bytes, one call of [htparser_run] on a parser of responses consumes
    precisely the response, reports each field and the de-chunked body in
    order, and leaves the parser ready with the status and version it read. *)
Lemma response_run rs p log rest :
  response_ok rs -> plain_as htp_type_response p -> state p = S_START ->
  exists p', htparser_run hooks (render_response rs ++ rest) (p, (log, tt)) =
    Some (length (render_response rs), (p', (log ++ response_events rs, tt))) /\
  plain_as htp_type_response p' /\ state p' = S_START /\ error p' = htparse_error_none /\
  status p' = rs_status rs /\ major p' = rs_major rs /\ minor p' = rs_minor rs.
Proof.
  intros Hok Hp Hst. pose proof Hok as [].
  assert (plain_as htp_type_response (p <| bytes_read := 0 |>)) as Hp0
    by (destruct Hp as (?&?&?&?); by split_and!).
  destruct (message_run _ _ _ (rs_fields rs) (rs_content rs) p _ log rest Hp Hst ok_rline0
    ltac:(by eexists _, _) (response_opens rs _ Hok (begun_ok _ _ Hp0)) ok_rfields0)
    as (p' & E & Hp' & Hst' & He & _ & _ & Hs & Hma & Hmi).
  { rewrite (body_spec_ext _ (answered rs (p_init htp_type_response))); try done. apply Hp. }
  exists p'. by split_and!.
Qed.
End Roundtrip.
