(* ===== verification/Triples.v ===== *)
(** * What a computation does to the world

    The computations of the library run over the parser and the world of its
    hooks.  [safe I m]: [m] preserves the property [I] of the world; [triple P m
    Q]: after [m], from a world with [P], its result and the world are in [Q].
    The rules follow the monad; the files about connections add those of their
    own operations. *)

From S2P Require Import Prelude HtpTypes HtString MsgParser.

(** [m] preserves the property [I] of the world. *)
Definition safe {W B} (I : W -> Prop) (m : M (St W) B) : Prop :=
  forall s, I s.2 -> I (m s).2.2.

Section Safe.
Context {W : Type} (I : W -> Prop).

Lemma safe_ret {B} (b : B) : safe I (ret b).
Proof. by intros s. Qed.
Lemma safe_bind {B C} (m : M (St W) B) (k : B -> M (St W) C) :
  safe I m -> (forall b, safe I (k b)) -> safe I (bind m k).
Proof. intros Hm Hk s Hs. unfold bind. specialize (Hm s Hs). destruct (m s) as [b s']. by apply Hk. Qed.
Lemma safe_when b (m : M (St W) unit) : (b = true -> safe I m) -> safe I (when b m).
Proof. destruct b; intros Hm; [by apply Hm|apply safe_ret]. Qed.
Lemma safe_gets {B} (f : St W -> B) : safe I (gets f).
Proof. by intros s. Qed.
Lemma safe_updp f : safe I (updp f).
Proof. by intros s. Qed.
End Safe.

(** ** Triples

    [triple P m Q]: what a computation does to properties of the world. *)

Section Triple.
Context {W : Type}.

Definition triple {B} (P : W -> Prop) (m : M (St W) B) (Q : B -> W -> Prop) : Prop :=
  forall s, P s.2 -> Q (m s).1 (m s).2.2.

Lemma t_bind {B C} P R Q (m : M (St W) B) (k : B -> M (St W) C) :
  triple P m R -> (forall b, triple (R b) (k b) Q) -> triple P (bind m k) Q.
Proof. intros Hm Hk s Hs. unfold bind. specialize (Hm s Hs). destruct (m s) as [b s']. by apply Hk. Qed.
Lemma t_ret {B} (P : W -> Prop) (Q : B -> W -> Prop) b :
  (forall w, P w -> Q b w) -> triple P (ret b) Q.
Proof. intros H [p w] Hw. by apply H. Qed.
Lemma t_conseq {B} (P P' : W -> Prop) (Q Q' : B -> W -> Prop) (m : M (St W) B) :
  triple P m Q -> (forall w, P' w -> P w) -> (forall b w, Q b w -> Q' b w) -> triple P' m Q'.
Proof. intros Hm HP HQ s Hs. by apply HQ, Hm, HP. Qed.
Lemma t_pre {B} (P P' : W -> Prop) (Q : B -> W -> Prop) (m : M (St W) B) :
  triple P m Q -> (forall w, P' w -> P w) -> triple P' m Q.
Proof. intros Hm HP. by eapply t_conseq. Qed.
Lemma t_post {B} (P : W -> Prop) (Q Q' : B -> W -> Prop) (m : M (St W) B) :
  triple P m Q -> (forall b w, Q b w -> Q' b w) -> triple P m Q'.
Proof. intros Hm HQ. by eapply t_conseq. Qed.
Lemma t_safe {B} (P : W -> Prop) (m : M (St W) B) : safe P m -> triple P m (fun _ => P).
Proof. intros Hm s Hs. by apply Hm. Qed.
Lemma t_after {B C} (P : W -> Prop) Q (m : M (St W) B) (k : B -> M (St W) C) :
  safe P m -> (forall b, triple P (k b) Q) -> triple P (bind m k) Q.
Proof. intros Hm Hk. eapply t_bind; [by apply t_safe|done]. Qed.
Lemma t_to_safe {B} (P : W -> Prop) (m : M (St W) B) : triple P m (fun _ => P) -> safe P m.
Proof. intros Hm s Hs. by apply Hm. Qed.
Lemma t_when P Q b (m : M (St W) unit) :
  (b = true -> triple P m (fun _ => Q)) -> (forall w, b = false -> P w -> Q w) ->
  triple P (when b m) (fun _ => Q).
Proof. destruct b; intros H1 H2; [by apply H1|apply t_ret; auto]. Qed.
Lemma t_assoc {C D F} (P : W -> Prop) Q (m : M (St W) C) (k : C -> M (St W) D) (k' : D -> M (St W) F) :
  triple P (bind m (fun b => bind (k b) k')) Q -> triple P (bind (bind m k) k') Q.
Proof. intros H s Hs. specialize (H s Hs). unfold bind in *. by destruct (m s). Qed.
Lemma t_unassoc {C D F} (P : W -> Prop) Q (m : M (St W) C) (k : C -> M (St W) D) (k' : D -> M (St W) F) :
  triple P (bind (bind m k) k') Q -> triple P (bind m (fun b => bind (k b) k')) Q.
Proof. intros H s Hs. specialize (H s Hs). unfold bind in *. by destruct (m s). Qed.
Lemma t_ret_bind {C D} (P : W -> Prop) Q (b : C) (k : C -> M (St W) D) :
  triple P (k b) Q -> triple P (bind (ret b) k) Q.
Proof. intros H s Hs. exact (H s Hs). Qed.
Lemma t_getp {C D} (P : W -> Prop) Q (f : St W -> C) (k : C -> M (St W) D) :
  (forall s, P s.2 -> triple P (k (f s)) Q) -> triple P (bind (gets f) k) Q.
Proof. intros Hk s Hs. exact (Hk s Hs s Hs). Qed.
End Triple.
