(* ===== verification/MsgParserReplay.v ===== *)
(** * msgparser.c: running a hook table by replaying the calls

    The parser reads nothing of the hooks' world: what it does depends on the
    input, its own state and the results of the hooks.  So a run under any
    hooks that succeed and leave the parser alone is the run under
    [snap_hooks], which only record the calls together with the parser they
    are made from, with the record replayed on the world ([run_replay]).
    Theorems about the calls a message causes thereby become theorems about
    what a client of the parser does with the message. *)

From S2P Require Import Prelude HtpTypes HtString MsgParser MsgParserFacts.

(** A call and the parser it was made from. *)
Definition snap : Type := hook_name * list Z * htparser.

Definition snap_hooks : htparse_hooks htparser (list snap) := fun n =>
  Some (fun d '(p, L) => (0, (p, L ++ [(n, d, p)]))).

(** The calls [D], made in turn to [hooks], all succeed, leave the parser
    alone and take the world from [w] to [w']. *)
Fixpoint replays {W} (hooks : hook_table W) (D : list snap) (w w' : W) : Prop :=
  match D with
  | [] => w' = w
  | (n, d, p) :: D =>
      exists w1, HOOK hooks n d (p, w) = (true, (p, w1)) /\ replays hooks D w1 w'
  end.

Section Replay.
Context `{lib : HtStringLib} {W : Type} (hooks : hook_table W).

Lemma replays_app D1 D2 w w' :
  replays hooks (D1 ++ D2) w w' <-> exists w1, replays hooks D1 w w1 /\ replays hooks D2 w1 w'.
Proof.
  revert w. induction D1 as [|[[n d] p] D1 IH]; intros w; cbn.
  - split; [by exists w|]. by intros (w1 & -> & H).
  - setoid_rewrite IH. naive_solver.
Qed.

(** [m1] does on the world what replaying the calls [m0] records does. *)
Definition Sim {B} (m0 : M (St (list snap)) B) (m1 : M (St W) B) : Prop :=
  forall p L, exists D, (m0 (p, L)).2.2 = L ++ D /\
    forall w w', replays hooks D w w' ->
      m1 (p, w) = ((m0 (p, L)).1, ((m0 (p, L)).2.1, w')).

Lemma sim_ret {B} (b : B) : Sim (ret b) (ret b).
Proof. intros p L. exists []. cbn. rewrite app_nil_r. by split; [|intros w w' ->]. Qed.

Lemma sim_bind {B C} (m0 : M _ B) m1 (k0 : B -> M _ C) k1 :
  Sim m0 m1 -> (forall b, Sim (k0 b) (k1 b)) -> Sim (bind m0 k0) (bind m1 k1).
Proof.
  intros Hm Hk p L. destruct (Hm p L) as (D1 & E1 & H1). unfold bind.
  destruct (m0 (p, L)) as [b [p1 L1]]. cbn in *.
  destruct (Hk b p1 L1) as (D2 & E2 & H2). exists (D1 ++ D2).
  split; [by rewrite E2, E1, app_assoc|].
  intros w w' Hr. apply replays_app in Hr as (w1 & Hr1 & Hr2).
  rewrite (H1 w w1 Hr1). by apply H2.
Qed.

Lemma sim_andM (m0 : M _ bool) m1 k0 k1 : Sim m0 m1 -> Sim k0 k1 -> Sim (m0 &&> k0) (m1 &&> k1).
Proof. intros Hm Hk. apply sim_bind; [done|]. intros []; [done|apply sim_ret]. Qed.
Lemma sim_orM (m0 : M _ bool) m1 k0 k1 : Sim m0 m1 -> Sim k0 k1 -> Sim (m0 ||> k0) (m1 ||> k1).
Proof. intros Hm Hk. apply sim_bind; [done|]. intros []; [apply sim_ret|done]. Qed.
Lemma sim_when b (m0 : M _ unit) m1 : Sim m0 m1 -> Sim (when b m0) (when b m1).
Proof. destruct b; [done|intros _; apply sim_ret]. Qed.
Lemma sim_gets {B} (k0 : htparser -> M _ B) k1 :
  (forall p, Sim (k0 p) (k1 p)) -> Sim (bind (gets fst) k0) (bind (gets fst) k1).
Proof. intros H p L. apply (H p). Qed.
Lemma sim_getp {B C} (f : htparser -> B) (k0 : B -> M _ C) k1 :
  (forall b, Sim (k0 b) (k1 b)) -> Sim (bind (getp f) k0) (bind (getp f) k1).
Proof. intros H p L. apply (H (f p)). Qed.
Lemma sim_updp f : Sim (updp f) (updp f).
Proof. intros p L. exists []. cbn. rewrite app_nil_r. by split; [|intros w w' ->]. Qed.
Lemma sim_fail e : Sim (fail e) (fail e).
Proof. apply sim_bind; [apply sim_updp|intros; apply sim_ret]. Qed.
Lemma sim_HOOK n d : Sim (HOOK (Some snap_hooks) n d) (HOOK hooks n d).
Proof.
  intros p L. exists [(n, d, p)]. cbn. split; [done|].
  intros w w' (w1 & E & ->). done.
Qed.
End Replay.

Ltac sim tac :=
  repeat first
    [ progress intros
    | lazymatch goal with
      | |- Sim _ (bind (gets fst) _) (bind _ _) => apply sim_gets
      | |- Sim _ (bind (getp _) _) (bind _ _) => apply sim_getp
      | |- Sim _ (bind _ _) (bind _ _) => apply sim_bind
      | |- Sim _ (andM _ _) (andM _ _) => apply sim_andM
      | |- Sim _ (orM _ _) (orM _ _) => apply sim_orM
      | |- Sim _ (when _ _) (when _ _) => apply sim_when
      | |- Sim _ (ret _) (ret _) => apply sim_ret
      | |- Sim _ (updp _) (updp _) => apply sim_updp
      | |- Sim _ (fail _) (fail _) => apply sim_fail
      | |- Sim _ (HOOK _ _ _) (HOOK _ _ _) => apply sim_HOOK
      end
    | tac | progress cbv zeta | case_match ].

Section Run.
Context `{lib : HtStringLib} {W : Type} (hooks : hook_table W).
Abbreviation s0 := (Some snap_hooks).

Lemma sim_start_line line : Sim hooks (start_line s0 line) (start_line hooks line).
Proof.
  unfold start_line, parse_request_line, parse_status_line, parse_version, emit_target,
    emit_host_port.
  sim ltac:(fail 0).
Qed.

Lemma sim_content_length v : Sim hooks (note_content_length v) (note_content_length v).
Proof.
  unfold note_content_length. generalize false.
  induction (ht_elements v) as [|el els IH]; intros any; cbn [note_content_length_loop];
    sim ltac:(apply IH).
Qed.

Lemma sim_header line tr : Sim hooks (parse_header s0 line tr) (parse_header hooks line tr).
Proof. unfold parse_header, note_header. sim ltac:(apply sim_content_length). Qed.

Lemma sim_head_line line : Sim hooks (head_line s0 line) (head_line hooks line).
Proof.
  unfold head_line, head_end, framing.
  sim ltac:(first [apply sim_start_line | apply sim_header]).
Qed.

Lemma sim_body data : Sim hooks (parse_body s0 data) (parse_body hooks data).
Proof.
  unfold parse_body, parse_body_raw, parse_body_chunked, chunk_size_step, chunk_data_step,
    chunk_end_step.
  sim ltac:(fail 0).
Qed.

Lemma sim_skip_empty data off : Sim hooks (skip_empty data off) (skip_empty data off).
Proof. revert off. induction data as [|c data IH]; intros off; cbn [skip_empty]; sim ltac:(apply IH). Qed.

(** The same for the loops, which may run out of fuel. *)
Definition SimO {B} (f0 : St (list snap) -> option (B * St (list snap)))
    (f1 : St W -> option (B * St W)) : Prop :=
  forall p L b p' L', f0 (p, L) = Some (b, (p', L')) ->
    exists D, L' = L ++ D /\ forall w w', replays hooks D w w' -> f1 (p, w) = Some (b, (p', w')).

Lemma sim_head_loop fuel data off :
  SimO (parse_head_loop fuel s0 data off) (parse_head_loop fuel hooks data off).
Proof.
  revert off. induction fuel as [|fuel IH]; intros off p L b p' L'; cbn; [done|].
  destruct (_ && _).
  2:{ intros [= <- <- <-]. exists []. rewrite app_nil_r. split; [done|]. by intros w w' ->. }
  destruct (take_line _ _) as [line used| |].
  - destruct (sim_head_line line p L) as (D1 & E1 & H1).
    destruct (head_line s0 line (p, L)) as [[] [p1 L1]]. cbn in *. intros E.
    destruct (IH _ _ _ _ _ _ E) as (D2 & -> & H2). subst L1. exists (D1 ++ D2).
    split; [by rewrite app_assoc|]. intros w w' Hr.
    apply replays_app in Hr as (w1 & Hr1 & Hr2). rewrite (H1 w w1 Hr1). by apply H2.
  - intros [= <- <- <-]. exists []. rewrite app_nil_r. split; [done|]. by intros w w' ->.
  - intros [= <- <- <-]. exists []. rewrite app_nil_r. split; [done|]. by intros w w' ->.
Qed.

Lemma simo_done (p : htparser) (L : list snap) (b : bool * nat) :
  exists D, L = L ++ D /\ forall w w', replays hooks D w w' ->
    Some (b, (p, w)) = Some (b, (p, w')).
Proof. exists []. rewrite app_nil_r. split; [done|]. by intros w w' ->. Qed.

(** From a simulated computation to what [run_step] returns. *)
Lemma simo_of_sim {B C} (m0 : M _ B) m1 (f : B -> htparser -> C) p L c p' L' :
  Sim hooks m0 m1 ->
  (let '(b, s) := m0 (p, L) in Some (f b s.1, s)) = Some (c, (p', L')) ->
  exists D, L' = L ++ D /\ forall w w', replays hooks D w w' ->
    (let '(b, s) := m1 (p, w) in Some (f b s.1, s)) = Some (c, (p', w')).
Proof.
  intros Hm. destruct (Hm p L) as (D & E & H). destruct (m0 (p, L)) as [b [p1 L1]].
  cbn in *. intros [= <- <- <-]. exists D. split; [done|].
  intros w w' Hr. by rewrite (H w w' Hr).
Qed.

Lemma sim_run_step data off : SimO (run_step s0 data off) (run_step hooks data off).
Proof.
  intros p L b p' L'. unfold run_step. cbn [fst snd].
  destruct (_ && _); [|intros [= <- <- <-]; apply simo_done].
  destruct (state p).
  2,3,5: destruct (parse_head s0 (drop off data) (p, L)) as [[n [p1 L1]]|] eqn:E; [|done];
    destruct (sim_head_loop _ _ _ _ _ _ _ _ E) as (D & -> & H);
    cbn [fst snd]; intros [= <- <- <-]; exists D; split; [done|];
    intros w w' Hr; unfold parse_head; by rewrite (H w w' Hr).
  - destruct (sim_skip_empty (drop off data) off p L) as (D1 & E1 & H1).
    destruct (skip_empty (drop off data) off (p, L)) as [[off1 out] [p1 L1]]. cbn in E1, H1. subst L1.
    destruct (out || _) eqn:Eo.
    + intros [= <- <- <-]. exists D1. split; [done|]. intros w w' Hr. by rewrite (H1 w w' Hr), Eo.
    + intros Hm.
      destruct (simo_of_sim
        (updp (fun p => (message_reset p) <| state := S_HEAD_LINE |>) ;; HOOK s0 on_msg_begin [])
        (updp (fun p => (message_reset p) <| state := S_HEAD_LINE |>) ;; HOOK hooks on_msg_begin [])
        (fun _ _ => (true, off1)) p1 (L ++ D1) b p' L') as (D2 & E2 & H2);
        [sim ltac:(fail 0)|exact Hm|].
      exists (D1 ++ D2). split; [by rewrite app_assoc|].
      intros w w' Hr. apply replays_app in Hr as (w1 & Hr1 & Hr2).
      rewrite (H1 w w1 Hr1), Eo. exact (H2 w1 w' Hr2).
  - destruct (_ =? _)%nat; [intros [= <- <- <-]; apply simo_done|].
    intros Hm. exact (simo_of_sim _ _
      (fun n p => (negb ((n =? 0)%nat && (in_head (state p) || bool_decide (state p = S_BODY))),
                   (off + n)%nat)) _ _ _ _ _ (sim_body (drop off data)) Hm).
  - intros Hm. refine (simo_of_sim
        (updp (fun p => clear_flag F_SKIP_BODY (p <| state := S_START |>)) ;; HOOK s0 on_msg_complete [])
        (updp (fun p => clear_flag F_SKIP_BODY (p <| state := S_START |>)) ;; HOOK hooks on_msg_complete [])
        (fun _ _ => (false, off)) _ _ _ _ _ _ Hm).
    sim ltac:(fail 0).
  - intros [= <- <- <-]. apply simo_done.
Qed.

Lemma sim_run_loop fuel data off : SimO (run_loop fuel s0 data off) (run_loop fuel hooks data off).
Proof.
  revert off. induction fuel as [|fuel IH]; intros off p L n p' L'; cbn; [done|].
  destruct (run_step s0 data off (p, L)) as [[[go off1] [p1 L1]]|] eqn:E; [|done].
  destruct (sim_run_step _ _ _ _ _ _ _ E) as (D1 & -> & H1). destruct go.
  - intros Hl. destruct (IH _ _ _ _ _ _ Hl) as (D2 & -> & H2). exists (D1 ++ D2).
    split; [by rewrite app_assoc|]. intros w w' Hr.
    apply replays_app in Hr as (w1 & Hr1 & Hr2). rewrite (H1 w w1 Hr1). by apply H2.
  - intros [= <- <- <-]. exists D1. split; [done|]. intros w w' Hr. by rewrite (H1 w w' Hr).
Qed.

(** A run under any hooks is the recording run, replayed. *)
Lemma run_replay data p L n p' L' :
  htparser_run s0 data (p, L) = Some (n, (p', L')) ->
  exists D, L' = L ++ D /\ forall w w', replays hooks D w w' ->
    htparser_run hooks data (p, w) = Some (n, (p', w')).
Proof.
  unfold htparser_run, updp. cbn [fst snd].
  destruct (run_loop _ s0 data 0 _) as [[off [p1 L1]]|] eqn:E; [|done].
  destruct (sim_run_loop _ _ _ _ _ _ _ _ E) as (D & -> & H). cbn [fst snd].
  intros [= <- <- <-]. exists D. split; [done|]. intros w w' Hr. by rewrite (H w w' Hr).
Qed.
End Run.

(** The names and data of the calls are those [logged null_hooks] sees. *)
Lemma replays_logged D log (w : unit) :
  replays (Some (logged null_hooks)) D (log, w) (log ++ D.*1, w).
Proof.
  revert log. induction D as [|[[n d] p] D IH]; intros log; cbn; [by rewrite app_nil_r|].
  eexists. split; [reflexivity|]. specialize (IH (log ++ [(n, d)])). by rewrite <- app_assoc in IH.
Qed.

#[export] Instance snap_hooks_frame : HookFrame (Some snap_hooks).
Proof. by intros hs n f d [p L] [= <-] [= <-]. Qed.

Lemma run_snap_exists `{lib : HtStringLib} data p L :
  exists n p' D, htparser_run (Some snap_hooks) data (p, L) = Some (n, (p', L ++ D)).
Proof.
  destruct (run_total (Some snap_hooks) data (p, L)) as [[n [p' L']] E].
  destruct (run_replay (Some snap_hooks) _ _ _ _ _ _ E) as (D & -> & _). by exists n, p', D.
Qed.
