(* ===== verification/MsgParserSnap.v ===== *)
(** * msgparser.c: the parser at the time of each call

    Of the calls recorded during one message (MsgParserReplay.v), the parser
    they are made from agrees with the parser at the end of the message on
    everything a client may ask for by then: from the path on, the start line
    ([line_of]); from the end of the head on, the flags that say how the
    message is framed ([flags_of]). *)

From S2P Require Import Prelude HtpTypes HtString MsgParser MsgParserFacts MsgParserReplay.

(** What the start line settles. *)
Definition line_of (p : htparser) := (type p, method p, scheme p, major p, minor p).
(** What the head settles. *)
Definition flags_of (p : htparser) : Z := flag_off (flags p) F_SKIP_BODY.

Definition early (n : hook_name) : bool :=
  match n with on_msg_begin | h_method => true | _ => false end.
Definition late (n : hook_name) : bool :=
  match n with
  | on_hdrs_complete | on_new_chunk | on_chunk_complete | on_chunks_complete | h_body
  | on_msg_complete => true
  | _ => false
  end.

(** The calls made so far, in the head and after it, from the parser [p]. *)
Definition head_call (p : htparser) (e : snap) : Prop :=
  let '(n, _, q) := e in early n = true \/ line_of q = line_of p /\ late n = false.
Definition settled (p : htparser) (e : snap) : Prop :=
  let '(n, _, q) := e in
  early n = true \/
  line_of q = line_of p /\ (late n = true -> flags_of q = flags_of p) /\
  (n = on_hdrs_complete -> type q = htp_type_request -> body q <> B_IDENTITY).
Definition body_call (p : htparser) (e : snap) : Prop :=
  settled p e /\ e.1.1 <> on_msg_complete.
(** ... and once the message is complete. *)
Definition done_call (p : htparser) (e : snap) : Prop :=
  settled p e /\ (e.1.1 = on_msg_complete -> orig_content_len e.2 = orig_content_len p).

Definition snaps_ok (s : St (list snap)) : Prop :=
  match state s.1 with
  | S_ERROR => True
  | S_START => s.2 = []
  | S_HEAD_LINE => Forall (fun e => early e.1.1 = true) s.2
  | S_HEADERS => Forall (head_call s.1) s.2
  | S_BODY | S_TRAILERS | S_COMPLETE => Forall (body_call s.1) s.2
  end.

Section Snap.
Context `{lib : HtStringLib}.
Abbreviation hooks := (Some snap_hooks).
Abbreviation SS := (St (list snap)).
Implicit Types (s : SS) (P Q : SS -> Prop).

(** A step either gives [Q] or fails the parser. *)
Definition T P (m : M SS bool) Q : Prop :=
  hoare P m (fun b s => if b then Q s else state s.1 = S_ERROR).

Lemma T_ret P Q : (forall s, P s -> Q s) -> T P (ret true) Q.
Proof. intros H s Hs. by apply H. Qed.
Lemma T_fail P e Q : T P (fail e) Q.
Proof. by intros s Hs. Qed.
Lemma T_and P m k R Q : T P m R -> T R k Q -> T P (m &&> k) Q.
Proof. intros Hm Hk. by eapply hoare_andM. Qed.
Lemma T_upd P f k R Q : (forall p L, P (p, L) -> R (f p, L)) -> T R k Q -> T P (updp f ;; k) Q.
Proof. intros Hf Hk [p L] Hs. by apply Hk, Hf. Qed.
Lemma T_gets {B} P (f : SS -> B) k Q :
  (forall b, T (fun s => P s /\ f s = b) (k b) Q) -> T P (bind (gets f) k) Q.
Proof. intros Hk. by apply hoare_gets. Qed.
Lemma T_getp {B} P (f : htparser -> B) k Q : (forall b, T P (k b) Q) -> T P (bind (getp f) k) Q.
Proof. intros Hk [p L] Hs. by apply Hk. Qed.
Lemma T_HOOK P n d Q : (forall p L, P (p, L) -> Q (p, L ++ [(n, d, p)])) -> T P (HOOK hooks n d) Q.
Proof. intros H [p L] Hs. by apply H. Qed.
Lemma T_conseq P P' m Q Q' :
  T P' m Q' -> (forall s, P s -> P' s) -> (forall s, Q' s -> Q s) -> T P m Q.
Proof. intros Hm HP HQ. eapply hoare_conseq; [exact Hm|done|]. intros []; auto. Qed.

(** ** The head *)

(** In state [st], every call so far satisfies [phi] of the parser. *)
Definition In_ (st : state_t) (phi : htparser -> snap -> Prop) s : Prop :=
  state s.1 = st /\ Forall (phi s.1) s.2.
Definition no_line (_ : htparser) (e : snap) : Prop := early e.1.1 = true.

Lemma in_upd st phi p p' L :
  state p' = state p -> (forall e, phi p e -> phi p' e) ->
  In_ st phi (p, L) -> In_ st phi (p', L).
Proof. intros Hst Hphi [H1 H2]. split; [by rewrite <- H1|]. by eapply Forall_impl. Qed.
Lemma in_call st phi n d p L :
  phi p (n, d, p) -> In_ st phi (p, L) -> In_ st phi (p, L ++ [(n, d, p)]).
Proof. intros Hphi [H1 H2]. split; [done|]. by apply Forall_app_2, Forall_singleton. Qed.
Lemma head_call_upd p p' e : line_of p' = line_of p -> head_call p e -> head_call p' e.
Proof. destruct e as [[n d] q]. cbn. by intros ->. Qed.
Lemma settled_upd p p' e :
  line_of p' = line_of p -> flags_of p' = flags_of p -> settled p e -> settled p' e.
Proof. destruct e as [[n d] q]. cbn. by intros -> ->. Qed.
Lemma no_line_head p L : Forall (no_line p) L -> Forall (head_call p) L.
Proof. intros H. eapply Forall_impl; [exact H|]. intros [[n d] q] He. by left. Qed.

Abbreviation Line := (In_ S_HEAD_LINE head_call).

Lemma T_tok n d : late n = false -> T Line (HOOK hooks n d) Line.
Proof. intros Hn. apply T_HOOK. intros p L. apply in_call. by right. Qed.

Lemma T_host_port b u : T Line (emit_host_port hooks b u) Line.
Proof.
  unfold emit_host_port. eapply T_and; [by apply T_tok|].
  repeat case_match; [by apply T_tok|by apply T_ret..].
Qed.

Lemma T_target t : T (In_ S_HEAD_LINE no_line) (emit_target hooks t) Line.
Proof.
  assert (forall f p L, state (f p) = state p ->
    In_ S_HEAD_LINE no_line (p, L) -> Line (f p, L)) as Hupd.
  { intros f p L Hst [H1 H2]. cbn in *. split; [cbn; by rewrite Hst|by apply no_line_head]. }
  unfold emit_target. cbv zeta.
  destruct (nth 0 t 0 =? "/"%c); [|destruct (_ && _)].
  - eapply T_upd; [intros p L; by apply Hupd|].
    eapply T_and; [by apply T_tok|]. eapply T_and; [|by apply T_tok].
    case_match; [by apply T_tok|by apply T_ret].
  - eapply T_upd; [intros p L; by apply Hupd|].
    eapply T_and; by apply T_tok.
  - apply T_getp. intros m. destruct (parsed_uri_has_error _); [apply T_fail|].
    destruct (parsed_uri_is_authority_form _).
    + eapply T_upd; [intros p L; by apply Hupd|].
      eapply T_and; [apply T_host_port|]. eapply T_and; by apply T_tok.
    + eapply T_upd; [intros p L; by apply Hupd|].
      destruct (bool_decide _); [apply T_fail|].
      eapply T_and; [by apply T_tok|]. eapply T_and; [apply T_host_port|].
      eapply T_and; [by apply T_tok|]. eapply T_and; [|by apply T_tok].
      case_match; [by apply T_tok|by apply T_ret].
Qed.

Lemma version_no_line v :
  hoare (In_ S_HEAD_LINE no_line) (parse_version v) (fun _ => In_ S_HEAD_LINE no_line).
Proof.
  intros [p L] Hs. unfold parse_version. repeat case_match; try exact Hs.
Qed.

Lemma T_start line :
  T (In_ S_HEAD_LINE no_line)
    (p <- gets fst ;; if bool_decide (type p = htp_type_request)
                      then parse_request_line hooks line else parse_status_line line) Line.
Proof.
  apply T_gets. intros p. eapply T_conseq; [|by intros s [Hs _]; exact Hs|done].
  destruct (bool_decide _).
  - unfold parse_request_line.
    destruct (next_token line) as [me l1], (next_token l1) as [ta l2], (next_token l2) as [ve l3].
    eapply T_upd; [intros q L; by apply in_upd|].
    destruct (bool_decide _); [apply T_fail|]. destruct (_ || _); [apply T_fail|].
    eapply hoare_bind; [apply version_no_line|]. intros []; cbn [negb]; [|apply T_fail].
    eapply T_and; [|apply T_target]. apply T_HOOK. intros q L. by apply in_call.
  - unfold parse_status_line.
    eapply (hoare_bind _ _ _ (fun _ => In_ S_HEAD_LINE no_line)).
    { destruct (_ <? _)%nat; [by intros s|apply version_no_line]. }
    intros []; cbn [negb]; [|apply T_fail]. destruct (_ || _); [apply T_fail|].
    eapply (T_upd _ _ _ (In_ S_HEAD_LINE no_line)).
    + intros q L. by apply in_upd.
    + destruct (_ <? _); [apply T_fail|]. apply T_ret. intros s [H1 H2].
      split; [done|by apply no_line_head].
Qed.

Lemma start_line_snaps line :
  hoare (In_ S_HEAD_LINE no_line) (start_line hooks line) (fun _ => snaps_ok).
Proof.
  intros s Hs. pose proof (T_start line s Hs) as H. unfold start_line.
  change (snaps_ok
    ((ok <- (p <- gets fst ;; if bool_decide (type p = htp_type_request)
                      then parse_request_line hooks line else parse_status_line line) ;;
      when ok (updp (fun p => p <| state := S_HEADERS |>) ;; HOOK hooks on_hdrs_begin [] ;; ret tt)) s).2).
  unfold bind at 1. destruct ((bind (gets fst) _) s) as [[] [p L]]; cbn in H.
  - destruct H as [H1 H2]. unfold snaps_ok. cbn in *. apply Forall_app. split; [|apply Forall_singleton; by right].
    eapply Forall_impl; [exact H2|]. intros e. by apply head_call_upd.
  - unfold snaps_ok. cbn. by rewrite H.
Qed.

(** ** Header fields and trailers *)

Abbreviation Hdrs := (In_ S_HEADERS head_call).

Lemma T_hdrs_upd f k Q :
  (forall p, state (f p) = state p) -> (forall p, line_of (f p) = line_of p) ->
  T Hdrs k Q -> T Hdrs (updp f ;; k) Q.
Proof.
  intros Hst Hl. apply T_upd. intros p L. apply in_upd; [done|].
  intros e. by apply head_call_upd.
Qed.

Lemma foldl_keeps {B C} (g : htparser -> C) (f : htparser -> B -> htparser) l p :
  (forall p b, g (f p b) = g p) -> g (foldl f p l) = g p.
Proof. intros Hf. revert p. induction l as [|b l IH]; intros p; cbn; [done|]. by rewrite IH. Qed.

Lemma note_connection_keeps {C} (g : htparser -> C) v p :
  (forall m p, g (set_flag m p) = g p) -> g (note_connection v p) = g p.
Proof.
  intros Hg. apply foldl_keeps. intros q b. unfold note_connection_token.
  by repeat case_match; rewrite ?Hg.
Qed.
Lemma note_transfer_encoding_keeps {C} (g : htparser -> C) v p :
  (forall m p, g (set_flag m p) = g p) -> g (note_transfer_encoding v p) = g p.
Proof.
  intros Hg. unfold note_transfer_encoding. rewrite foldl_keeps; [apply Hg|].
  intros q b. unfold note_coding. by repeat case_match; rewrite ?Hg.
Qed.

Lemma T_content_length els any : T Hdrs (note_content_length_loop els any) Hdrs.
Proof.
  revert any. induction els as [|el els IH]; intros any; cbn [note_content_length_loop].
  - destruct any; [by apply T_ret|by intros s Hs].
  - destruct (parse_u64 el); [|apply T_fail].
    apply T_gets. intros p. eapply T_conseq; [|by intros s [Hs _]; exact Hs|done].
    destruct (_ && _); [apply T_fail|]. by apply T_hdrs_upd.
Qed.

Lemma T_note_header name value : T Hdrs (note_header hooks name value) Hdrs.
Proof.
  unfold note_header. apply T_gets. intros p.
  eapply T_conseq; [|by intros s [Hs _]; exact Hs|done].
  assert (T Hdrs (ret true) Hdrs) as Hskip by by apply T_ret.
  assert (T Hdrs (HOOK hooks h_hostname value) Hdrs) as Hhost.
  { apply T_HOOK. intros q L. apply in_call. by right. }
  assert (T Hdrs (note_content_length value) Hdrs) as Hcl by apply T_content_length.
  repeat (case_match; try done);
    (apply T_hdrs_upd;
      [ intros q; first [done | by apply (note_connection_keeps state)
                        | by apply (note_transfer_encoding_keeps state)]
      | intros q; first [done | by apply (note_connection_keeps line_of)
                        | by apply (note_transfer_encoding_keeps line_of)] | ]);
    first [done | by apply T_hdrs_upd].
Qed.

Lemma T_header line tr st phi :
  (forall n d p, late n = false -> phi p (n, d, p)) ->
  (tr = false -> T (In_ st phi) (note_header hooks (take (default 0%nat (memchr ":"%c line)) line)
     (trim (drop (default 0%nat (memchr ":"%c line) + 1) line))) (In_ st phi)) ->
  T (In_ st phi) (parse_header hooks line tr) (In_ st phi).
Proof.
  intros Hphi Hnote. unfold parse_header.
  destruct (memchr _ _) as [colon|]; [|apply T_fail]. destruct (_ || _); [apply T_fail|].
  eapply T_and; [|eapply T_and].
  - apply T_HOOK. intros p L. by apply in_call, Hphi.
  - destruct tr; [by apply T_ret|]. by apply Hnote.
  - apply T_HOOK. intros p L. by apply in_call, Hphi.
Qed.

Lemma in_hdrs_ok s : Hdrs s -> snaps_ok s.
Proof. intros [H1 H2]. unfold snaps_ok. by rewrite H1. Qed.
Lemma in_body_ok st s :
  st = S_BODY \/ st = S_TRAILERS \/ st = S_COMPLETE -> In_ st body_call s -> snaps_ok s.
Proof. intros Hst [H1 H2]. unfold snaps_ok. rewrite H1. by destruct Hst as [-> | [-> | ->]]. Qed.
Lemma error_ok s : state s.1 = S_ERROR -> snaps_ok s.
Proof. unfold snaps_ok. by intros ->. Qed.

Lemma head_to_body p p' e :
  head_call p e -> line_of p' = line_of p -> body_call p' e.
Proof.
  destruct e as [[n d] q]. unfold body_call. cbn. intros [He|[Hl He]] Hp; split;
    try (by left); try (by intros ->).
  right. split; [congruence|]. split; [by rewrite He|by intros ->].
Qed.

(** ** The end of the head *)

(** [framing] chooses no body until EOF for a request. *)
Definition Framed_ (s : SS) : Prop :=
  Hdrs s /\ (type s.1 = htp_type_request -> body s.1 <> B_IDENTITY).

(** The choice of [framing], before the lengths are set. *)
Lemma T_framing : T Hdrs framing Framed_.
Proof.
  unfold framing. apply T_gets. intros p.
  assert (forall f : htparser -> htparser, (forall q, state (f q) = state q) ->
    (forall q, line_of (f q) = line_of q) ->
    (type p = htp_type_request -> body (f p) <> B_IDENTITY) ->
    T (fun s => Hdrs s /\ s.1 = p) (updp f ;; ret true) Framed_) as Hset.
  { intros f Hst Hl Hb. eapply (T_upd _ _ _ Framed_); [|by apply T_ret].
    intros q L [Hs Hq]. cbn in Hq. subst q. split.
    - revert Hs. apply in_upd; [done|]. intros e. by apply head_call_upd.
    - cbn. specialize (Hl p). injection Hl as -> _ _ _ _. done. }
  eapply (hoare_bind _ _ _ (fun (b : bool) s => if b then Framed_ s else state s.1 = S_ERROR)).
  - cbv zeta. fold (T (fun s => Hdrs s /\ s.1 = p)).
    destruct (bool_decide (type p = htp_type_response)) eqn:Ety; cbn [andb negb].
    + apply bool_decide_eq_true in Ety.
      assert (forall A : Prop, type p = htp_type_request -> A) as Habs by (rewrite Ety; done).
      repeat case_match; first [apply T_fail | by apply Hset; try done; intros; apply Habs].
    + destruct (flag p F_SKIP_BODY); [by apply Hset|].
      destruct (flag p F_HAVE_TE).
      * destruct (flag p F_TE_BAD); [apply T_fail|].
        destruct (flag p F_CHUNKED) eqn:Hch; cbn [negb orb]; [|apply T_fail].
        destruct (_ || _); [apply T_fail|]. apply Hset; try done. cbn. by rewrite Hch.
      * destruct (flag p F_HAVE_CL); [|by apply Hset].
        apply Hset; try done. cbn. by case_match.
  - intros []; cbn [negb]; [|by intros s Hs].
    eapply (T_upd _ _ _ Framed_); [|by apply T_ret].
    intros q L [Hs Hb]. split; [|cbn in *; exact Hb]. revert Hs.
    apply in_upd; [done|]. intros e. by apply head_call_upd.
Qed.

Lemma head_end_snaps : hoare Hdrs (head_end hooks) (fun _ => snaps_ok).
Proof.
  intros s Hs. pose proof (T_framing s Hs) as H. unfold head_end, bind at 1.
  destruct (framing s) as [[] [p L]]; cbn in H; [|by apply error_ok].
  destruct H as [[H1 H2] H3]. cbn in H1, H2, H3.
  unfold when, bind, updp, gets, ret. cbn [fst snd HOOK snap_hooks Z.eqb andb].
  set (st := if bool_decide (body p = B_NONE) then S_COMPLETE else S_BODY).
  set (p1 := p <| state := st |>).
  assert (Forall (body_call p1) (L ++ [(on_hdrs_complete, [], p1)])) as Hc.
  { apply Forall_app. split.
    - eapply Forall_impl; [exact H2|]. intros e He. by apply (head_to_body p).
    - apply Forall_singleton. split; [|done]. right. split; [done|]. split; [done|]. by intros _. }
  change (HOOK hooks on_hdrs_complete [] (p1, L))
    with (true, (p1, L ++ [(on_hdrs_complete, [], p1)])). cbn [fst snd andb].
  destruct (flag p1 F_SKIP_BODY); cbn [snd].
  - apply (in_body_ok S_COMPLETE); [tauto|]. split; [done|].
    eapply Forall_impl; [exact Hc|]. intros e [He ?]. split; [by apply (settled_upd p1)|done].
  - apply (in_body_ok st); [unfold st; case_match; tauto|]. by split.
Qed.


Lemma T_trailer line :
  T (In_ S_TRAILERS body_call) (parse_header hooks line true) (In_ S_TRAILERS body_call).
Proof.
  apply T_header; [|done]. intros n d p Hn. split.
  - right. split; [done|]. split; [by intros _|]. by intros ->.
  - cbn. by intros ->.
Qed.

Lemma T_to_ok P m Q :
  T P m Q -> (forall s, Q s -> snaps_ok s) -> hoare P (m ;; ret tt) (fun _ => snaps_ok).
Proof.
  intros Hm HQ s Hs. specialize (Hm s Hs). unfold bind, ret.
  destruct (m s) as [[] s1]; cbn in *; [by apply HQ|by apply error_ok].
Qed.

Lemma head_line_snaps line :
  hoare (fun s => in_head (state s.1) = true /\ snaps_ok s) (head_line hooks line)
    (fun _ => snaps_ok).
Proof.
  intros [p L] [Hst Hs]. cbn in Hst. unfold snaps_ok in Hs. cbn [fst snd] in Hs.
  unfold head_line. unfold bind at 1, gets. cbn [fst snd].
  set (p1 := p <| header_count := u64 (header_count p + 1) |>).
  destruct (state p) eqn:E; try done.
  - rewrite bool_decide_eq_true_2 by done. by apply start_line_snaps.
  - change (bool_decide (S_HEADERS = S_HEAD_LINE)) with false.
    change (bool_decide (S_HEADERS = S_TRAILERS)) with false. cbn iota.
    assert (Hdrs (p, L)) as Hin by done.
    destruct (_ =? _)%nat; [by apply head_end_snaps|].
    destruct (_ && _); [by apply error_ok|].
    change (snaps_ok ((parse_header hooks line false ;; ret tt) (p1, L)).2).
    apply (T_to_ok Hdrs _ Hdrs); [|apply in_hdrs_ok|].
    + apply T_header; [intros; by right|intros _; apply T_note_header].
    + split; [done|]. eapply Forall_impl; [exact Hs|]. intros e. by apply head_call_upd.
  - change (bool_decide (S_TRAILERS = S_HEAD_LINE)) with false.
    change (bool_decide (S_TRAILERS = S_TRAILERS)) with true. cbn iota.
    destruct (_ =? _)%nat; [|destruct (_ && _); [by apply error_ok|]].
    + apply (in_body_ok S_COMPLETE); [tauto|]. split; [done|].
      eapply Forall_impl; [exact Hs|]. intros e [He ?]. split; [by apply (settled_upd p)|done].
    + change (snaps_ok ((parse_header hooks line true ;; ret tt) (p1, L)).2).
      apply (T_to_ok _ _ _ (T_trailer line)); [intros s; apply in_body_ok; tauto|].
      split; [done|]. eapply Forall_impl; [exact Hs|].
      intros e [He ?]. split; [by apply (settled_upd p)|done].
Qed.

(** ** Bodies *)

Definition in_body (s : SS) : Prop := state s.1 <> S_START /\ state s.1 <> S_HEAD_LINE /\
  state s.1 <> S_HEADERS /\ Forall (body_call s.1) s.2.
Lemma in_body_snaps s : in_body s -> snaps_ok s.
Proof. intros (H1 & H2 & H3 & H4). unfold snaps_ok. by destruct (state s.1). Qed.

Lemma B_upd {B} f (k : M SS B) :
  (forall p, state (f p) = state p \/ state (f p) = S_TRAILERS \/ state (f p) = S_COMPLETE \/
             state (f p) = S_ERROR) ->
  (forall p, line_of (f p) = line_of p /\ flags_of (f p) = flags_of p) ->
  hoare in_body k (fun _ => in_body) -> hoare in_body (updp f ;; k) (fun _ => in_body).
Proof.
  intros Hst Hf Hk. apply hoare_modify with (P' := in_body); [|done].
  intros [p L] (H1 & H2 & H3 & H4). cbn in *. destruct (Hf p) as [Hl Hg].
  assert (Forall (body_call (f p)) L) as Hc.
  { eapply Forall_impl; [exact H4|]. intros e [He ?]. split; [by apply (settled_upd p)|done]. }
  unfold in_body. cbn. destruct (Hst p) as [-> | [-> | [-> | ->]]]; by split_and!.
Qed.
Lemma B_ret {B} (b : B) : hoare in_body (ret b) (fun _ => in_body).
Proof. by apply hoare_ret. Qed.
Lemma B_HOOK n d : n <> on_msg_complete -> n <> on_hdrs_complete ->
  hoare in_body (HOOK hooks n d) (fun _ => in_body).
Proof.
  intros Hn Hn' [p L] (H1 & H2 & H3 & H4). split_and!; try done.
  apply Forall_app. split; [done|]. apply Forall_singleton. split; [|done].
  right. by split_and!.
Qed.
Lemma B_bind {B C} (m : M SS B) (k : B -> M SS C) :
  hoare in_body m (fun _ => in_body) -> (forall b, hoare in_body (k b) (fun _ => in_body)) ->
  hoare in_body (bind m k) (fun _ => in_body).
Proof. intros Hm Hk. by eapply hoare_bind. Qed.
Lemma B_gets {B C} (f : SS -> B) (k : B -> M SS C) :
  (forall b, hoare in_body (k b) (fun _ => in_body)) -> hoare in_body (bind (gets f) k) (fun _ => in_body).
Proof. intros Hk s Hs. by apply Hk. Qed.
Lemma B_when b (m : M SS unit) :
  hoare in_body m (fun _ => in_body) -> hoare in_body (when b m) (fun _ => in_body).
Proof. destruct b; [done|intros _; apply B_ret]. Qed.
Lemma B_upd1 f :
  (forall p, state (f p) = state p \/ state (f p) = S_TRAILERS \/ state (f p) = S_COMPLETE \/
             state (f p) = S_ERROR) ->
  (forall p, line_of (f p) = line_of p /\ flags_of (f p) = flags_of p) ->
  hoare in_body (updp f) (fun _ => in_body).
Proof. intros H1 H2. exact (B_upd f (ret tt) H1 H2 (B_ret tt)). Qed.

Lemma body_snaps data : hoare in_body (parse_body hooks data) (fun _ => in_body).
Proof.
  unfold parse_body, parse_body_raw, parse_body_chunked, chunk_size_step, chunk_data_step,
    chunk_end_step, fail.
  repeat first
    [ progress intros
    | lazymatch goal with
      | |- hoare _ (bind (gets _) _) _ => apply B_gets
      | |- hoare _ (bind _ _) _ => apply B_bind
      | |- hoare _ (ret _) _ => apply B_ret
      | |- hoare _ (HOOK _ _ _) _ => by apply B_HOOK
      | |- hoare _ (when _ _) _ => apply B_when
      | |- hoare _ (updp _) _ => apply B_upd1; [intros q; cbn; tauto|done]
      end
    | progress cbv zeta | case_match ].
Qed.

(** ** The run *)

Lemma head_loop_snaps fuel data off s n s' :
  snaps_ok s -> parse_head_loop fuel hooks data off s = Some (n, s') -> snaps_ok s'.
Proof.
  revert off s. induction fuel as [|fuel IH]; intros off s Hs; cbn; [done|].
  destruct (in_head _) eqn:Eh; cbn [andb]; [|by intros [= <- <-]].
  destruct (negb _); [|by intros [= <- <-]].
  destruct (take_line _ _) as [line used| |]; [|by intros [= <- <-]..].
  pose proof (head_line_snaps line s (conj Eh Hs)) as H.
  destruct (head_line hooks line s) as [[] s1]. by apply IH.
Qed.

Lemma skip_empty_snaps data off :
  hoare (fun s => (state s.1 = S_START \/ state s.1 = S_ERROR) /\ s.2 = [])
    (skip_empty data off)
    (fun _ s => (state s.1 = S_START \/ state s.1 = S_ERROR) /\ s.2 = []).
Proof.
  revert off. induction data as [|c data IH]; intros off; cbn [skip_empty].
  - by apply hoare_ret.
  - destruct (_ || _); [|by apply hoare_ret]. intros s Hs. unfold bind, gets, updp.
    cbn [fst snd]. destruct (_ && _); [|exact (IH (S off) s Hs)].
    destruct (_ <=? _); [|by apply (IH (S off))]. cbn. split; [by right|apply Hs].
Qed.

Definition finished s : Prop := state s.1 = S_START /\ Forall (done_call s.1) s.2.

Lemma run_step_snaps data off s go off' s' :
  snaps_ok s -> run_step hooks data off s = Some (go, off', s') ->
  snaps_ok s' \/ go = false /\ finished s'.
Proof.
  destruct s as [p L]. intros Hs. unfold run_step. cbn [fst snd].
  destruct (_ && _); [|intros [= <- <- <-]; by left].
  destruct (state p) eqn:Est.
  2,3,5: unfold parse_head; destruct (parse_head_loop _ _ _ _ _) as [[n s1]|] eqn:E; [|done];
    apply head_loop_snaps in E; [|done]; intros [= <- <- <-]; by left.
  - assert (L = []) as -> by (unfold snaps_ok in Hs; cbn in Hs; by rewrite Est in Hs).
    pose proof (skip_empty_snaps (drop off data) off (p, []) (conj (or_introl Est) eq_refl)) as H.
    destruct (skip_empty _ _ _) as [[off1 out] [p1 L1]]. cbn in H. destruct H as [Hst ->].
    destruct (out || _); intros [= <- <- <-]; left.
    + unfold snaps_ok. cbn. by destruct Hst as [-> | ->].
    + apply Forall_singleton. done.
  - destruct (_ =? _)%nat; [intros [= <- <- <-]; by left|].
    pose proof (body_snaps (drop off data) (p, L)) as H.
    destruct (parse_body _ _ _) as [n s1]. intros [= <- <- <-]. left.
    apply in_body_snaps, H. unfold in_body, snaps_ok in *. cbn in *. rewrite Est in *. done.
  - intros [= <- <- <-]. right. split; [done|]. split; [done|]. cbn.
    unfold snaps_ok in Hs. cbn in Hs. rewrite Est in Hs.
    set (p1 := clear_flag F_SKIP_BODY (p <| state := S_START |>)).
    assert (flags_of p1 = flags_of p) as Hf.
    { unfold flags_of, p1, clear_flag, flag_off. cbn. apply Z.bits_inj'. intros i Hi.
      rewrite !Z.ldiff_spec. by destruct (Z.testbit _ i), (Z.testbit F_SKIP_BODY i). }
    apply Forall_app. split; [|apply Forall_singleton; split; [right; by split_and!|done]].
    eapply Forall_impl; [exact Hs|]. intros e [He Hn]. split; [by apply (settled_upd p)|done].
  - intros [= <- <- <-]. by left.
Qed.

Lemma run_loop_snaps fuel data off s n s' :
  snaps_ok s -> run_loop fuel hooks data off s = Some (n, s') -> snaps_ok s' \/ finished s'.
Proof.
  revert off s. induction fuel as [|fuel IH]; intros off s Hs; cbn; [done|].
  destruct (run_step hooks data off s) as [[[go off1] s1]|] eqn:E; [|done].
  apply run_step_snaps in E as [E|[-> E]]; [|intros [= <- <-]; by right|done].
  destruct go; [by apply IH|]. intros [= <- <-]. by left.
Qed.

(** The calls of a run that read one whole message. *)
Lemma run_snaps data p n p' L :
  state p = S_START -> htparser_run hooks data (p, []) = Some (n, (p', L)) ->
  L <> [] -> state p' = S_START -> Forall (done_call p') L.
Proof.
  intros Hp. unfold htparser_run, updp. cbn [fst snd].
  destruct (run_loop _ _ _ _ _) as [[off [p1 L1]]|] eqn:E; [|done].
  apply run_loop_snaps in E; [|unfold snaps_ok; cbn; by rewrite Hp].
  cbn [fst snd]. intros [= <- <- <-] Hne Hst. cbn in Hst.
  destruct E as [E|[_ E]].
  - unfold snaps_ok in E. cbn in E. by rewrite Hst in E.
  - exact E.
Qed.
End Snap.
