(* ===== verification/Kvs.v ===== *)
(** * evhtp.c: key-value lists (headers and query arguments)

    [evhtp_kvs_t] is a TAILQ of [evhtp_kv_t]; here the list of its elements,
    each with the address malloc gave it ([addr]), by which it is removed.
    Strings are stored without their NUL; [klen] and [vlen] are the struct's
    own fields, kept apart from the strings as in the code.  A malloc is an
    argument: [None] or [false] when it fails. *)

From S2P Require Import Prelude.

(** [strlen]-delimited contents: the bytes before the first NUL. *)
Fixpoint cstr (s : list Z) : list Z :=
  match s with [] => [] | c :: s' => if c =? 0 then [] else c :: cstr s' end.

Record evhtp_kv := {
  addr : Z;
  key : option (list Z);
  val : option (list Z);
  klen : nat;
  vlen : nat;
  k_heaped : Z;
  v_heaped : Z
}.

#[export] Instance eta_kv : EtaFields evhtp_kv := fun r =>
  Build_evhtp_kv (addr r) (key r) (val r) (klen r) (vlen r) (k_heaped r) (v_heaped r).

Definition evhtp_kvs : Type := list evhtp_kv.

(** ** Construction *)

(** [p]: the struct's malloc; [kp], [vp]: the mallocs of the copies. *)
Definition evhtp_kv_new (p : option Z) (kp vp : bool) (k v : option (list Z))
    (key_alloc val_alloc : Z) : option evhtp_kv :=
  match p with
  | None => None
  | Some a =>
      let kv := {| addr := a; key := None; val := None; klen := 0; vlen := 0;
                   k_heaped := key_alloc; v_heaped := val_alloc |} in
      let with_key :=
        match k with
        | None => Some kv
        | Some s => if (key_alloc =? 1) && negb kp then None
                    else Some (kv <| klen := length (cstr s) |> <| key := Some (cstr s) |>)
        end in
      match with_key, v with
      | Some kv, Some s =>
          if (val_alloc =? 1) && negb vp then None
          else Some (kv <| vlen := length (cstr s) |> <| val := Some (cstr s) |>)
      | r, None => r
      | None, Some _ => None
      end
  end.

Definition evhtp_header_new := evhtp_kv_new.

(** [None]: a NULL list. *)
Definition evhtp_kvs_new (alloc : bool) : option evhtp_kvs :=
  if alloc then Some [] else None.

Definition evhtp_kvs_add_kv (kvs : option evhtp_kvs) (kv : option evhtp_kv) :
    option evhtp_kvs :=
  match kvs, kv with
  | Some l, Some x => Some (l ++ [x])
  | _, _ => kvs
  end.

Definition evhtp_headers_add_header := evhtp_kvs_add_kv.

(** [mem i]: the mallocs of the [i]th copy. *)
Fixpoint add_kvs_loop (mem : nat -> option Z * bool * bool) (i : nat)
    (dst : option evhtp_kvs) (src : evhtp_kvs) : option evhtp_kvs :=
  match src with
  | [] => dst
  | kv :: src' =>
      let '(p, kp, vp) := mem i in
      add_kvs_loop mem (S i)
        (evhtp_kvs_add_kv dst
          (evhtp_kv_new p kp vp (key kv) (val kv) (k_heaped kv) (v_heaped kv))) src'
  end.
Definition evhtp_kvs_add_kvs (mem : nat -> option Z * bool * bool)
    (dst src : option evhtp_kvs) : option evhtp_kvs :=
  match dst, src with
  | Some _, Some l => add_kvs_loop mem 0 dst l
  | _, _ => dst
  end.

(** Returns the header added, and the list. *)
Definition evhtp_header_key_add (p : option Z) (kp : bool) (headers : option evhtp_kvs)
    (k : list Z) (key_alloc : Z) : option evhtp_kv * option evhtp_kvs :=
  match evhtp_header_new p kp true (Some k) None key_alloc 0 with
  | None => (None, headers)
  | Some h => (Some h, evhtp_headers_add_header headers (Some h))
  end.

(** Replaces the last element, TAILQ_LAST. *)
Definition set_last (l : evhtp_kvs) (x : evhtp_kv) : evhtp_kvs := removelast l ++ [x].

Definition evhtp_header_val_add (headers : option evhtp_kvs) (v : option (list Z))
    (val_alloc : Z) : option evhtp_kv * option evhtp_kvs :=
  match headers, v with
  | Some l, Some s =>
      match last l with
      | None => (None, headers)
      | Some h =>
          match val h with
          | Some _ => (None, headers)
          | None =>
              let h' := h <| vlen := length (cstr s) |> <| val := Some (cstr s) |>
                          <| v_heaped := val_alloc |> in
              (Some h', Some (set_last l h'))
          end
      end
  | _, _ => (None, headers)
  end.

(** ** Removal *)

Fixpoint remove_addr (a : Z) (l : evhtp_kvs) : evhtp_kvs :=
  match l with
  | [] => []
  | x :: l' => if addr x =? a then l' else x :: remove_addr a l'
  end.

Definition evhtp_kv_rm_and_free (kvs : option evhtp_kvs) (kv : option evhtp_kv) :
    option evhtp_kvs :=
  match kvs, kv with
  | Some l, Some x => Some (remove_addr (addr x) l)
  | _, _ => kvs
  end.

(** The addresses [evhtp_kv_free] hands to free, in order: the strings the
    element owns and the element. *)
Inductive freed := free_key (a : Z) | free_val (a : Z) | free_kv (a : Z).

Definition evhtp_kv_free (kv : option evhtp_kv) : list freed :=
  match kv with
  | None => []
  | Some x =>
      (if (k_heaped x =? 1) && bool_decide (is_Some (key x)) then [free_key (addr x)] else []) ++
      (if (v_heaped x =? 1) && bool_decide (is_Some (val x)) then [free_val (addr x)] else []) ++
      [free_kv (addr x)]
  end.

(** Removes and frees the elements from the head on. *)
Fixpoint clear_loop (l : evhtp_kvs) (out : list freed) : evhtp_kvs * list freed :=
  match l with
  | [] => ([], out)
  | x :: l' => clear_loop l' (out ++ evhtp_kv_free (Some x))
  end.
Definition evhtp_kvs_clear (kvs : option evhtp_kvs) : option evhtp_kvs * list freed :=
  match kvs with
  | None => (None, [])
  | Some l => let '(l', out) := clear_loop l [] in (Some l', out)
  end.
(** As [evhtp_kvs_clear], then the list head is freed. *)
Definition evhtp_kvs_free (kvs : option evhtp_kvs) : list freed :=
  match kvs with None => [] | Some l => snd (clear_loop l []) end.

(** ** Iteration and search *)

Section ForEach.
Context {S : Type}.
Fixpoint for_each_loop (l : evhtp_kvs) (cb : evhtp_kv -> M S Z) : M S Z :=
  match l with
  | [] => ret 0
  | x :: l' => res <- cb x ;; if negb (res =? 0) then ret res else for_each_loop l' cb
  end.
Definition evhtp_kvs_for_each (kvs : option evhtp_kvs) (cb : option (evhtp_kv -> M S Z)) :
    M S Z :=
  match kvs, cb with
  | Some l, Some f => for_each_loop l f
  | _, _ => ret (-1)
  end.
End ForEach.

(** The macro TOLOWER of [match_header_key]. *)
Definition TOLOWER (c : Z) : Z := Z.lor c 32.

Fixpoint fold_eq (s t : list Z) : bool :=
  match s, t with
  | [], [] => true
  | c :: s', d :: t' => (TOLOWER c =? TOLOWER d) && fold_eq s' t'
  | _, _ => false
  end.

(** [k]: the [len] bytes of the key. *)
Definition match_header_key (kv : evhtp_kv) (k : list Z) : bool :=
  if negb (klen kv =? length k)%nat then false else fold_eq (default [] (key kv)) k.

Fixpoint kvs_find_kv_n (l : evhtp_kvs) (k : list Z) : option evhtp_kv :=
  match l with
  | [] => None
  | x :: l' => if match_header_key x k then Some x else kvs_find_kv_n l' k
  end.
Fixpoint kv_find_n (l : evhtp_kvs) (k : list Z) : option (list Z) :=
  match l with
  | [] => None
  | x :: l' => if match_header_key x k then val x else kv_find_n l' k
  end.
Fixpoint kvs_count_kv_n (l : evhtp_kvs) (k : list Z) : Z :=
  match l with
  | [] => 0
  | x :: l' => (if match_header_key x k then 1 else 0) + kvs_count_kv_n l' k
  end.

(** The public variants: [key] is a C string, of which the [_n] variants
    look at the first [len] bytes. *)
Definition evhtp_kv_find_n (kvs : option evhtp_kvs) (k : option (list Z)) (len : nat) :
    option (list Z) :=
  match kvs, k with Some l, Some k => kv_find_n l (take len k) | _, _ => None end.
Definition evhtp_kv_find (kvs : option evhtp_kvs) (k : option (list Z)) : option (list Z) :=
  match kvs, k with Some l, Some k => kv_find_n l (cstr k) | _, _ => None end.
Definition evhtp_kvs_count_kv_n (kvs : option evhtp_kvs) (k : option (list Z)) (len : nat) : Z :=
  match kvs, k with Some l, Some k => kvs_count_kv_n l (cstr k) | _, _ => 0 end.
Definition evhtp_kvs_count_kv (kvs : option evhtp_kvs) (k : option (list Z)) : Z :=
  match kvs, k with Some l, Some k => kvs_count_kv_n l (cstr k) | _, _ => 0 end.
Definition evhtp_kvs_find_kv (kvs : option evhtp_kvs) (k : option (list Z)) : option evhtp_kv :=
  match kvs, k with Some l, Some k => kvs_find_kv_n l (cstr k) | _, _ => None end.
Definition evhtp_kvs_find_kv_n (kvs : option evhtp_kvs) (k : option (list Z)) (len : nat) :
    option evhtp_kv :=
  match kvs, k with Some l, Some k => kvs_find_kv_n l (take len k) | _, _ => None end.
Definition evhtp_header_find := evhtp_kv_find.
Definition evhtp_header_find_n := evhtp_kv_find_n.

(** ** Collapsing repeated headers *)

Definition MAX_RESULTS : nat := 100.

(** The first loop: the matching elements found (at most MAX_RESULTS) and the
    size computed for the joined value. *)
Fixpoint collapse_scan (l : evhtp_kvs) (k : list Z) (results : list evhtp_kv) (vl : nat) :
    list evhtp_kv * nat :=
  match l with
  | [] => (results, vl)
  | x :: l' =>
      if (klen x =? length k)%nat && casecmp_eqb (default [] (key x)) k then
        let vl := if (0 <? length results)%nat then (vl + 2)%nat else vl in
        let results := results ++ [x] in
        if (length results =? MAX_RESULTS)%nat then (results, vl)
        else collapse_scan l' k results vl
      else collapse_scan l' k results vl
  end.

(** The second loop: the bytes written to [val], and the list without the
    elements joined. *)
Fixpoint collapse_join (results : list evhtp_kv) (i : nat) (out : list Z) (l : evhtp_kvs) :
    list Z * evhtp_kvs :=
  match results with
  | [] => (out, l)
  | x :: results' =>
      let out := if (0 <? i)%nat then out ++ [","%c; SP] else out in
      let out := out ++ take (vlen x) (default [] (val x)) in
      collapse_join results' (S i) out (remove_addr (addr x) l)
  end.

(** [val_ok]: the malloc of the joined value; [p], [kp], [vp]: those of the
    header added.  Returns the list, and for the buffer of the joined value
    the bytes allocated and the bytes written, the final NUL included. *)
Definition evhtp_collapse_headers (val_ok : bool) (p : option Z) (kp vp : bool)
    (kvs : option evhtp_kvs) (k : option (list Z)) :
    option evhtp_kvs * option (nat * nat) :=
  match kvs, k with
  | Some l, Some k =>
      let '(results, vl) := collapse_scan l (cstr k) [] 0 in
      if (length results <=? 1)%nat then (kvs, None)
      else if negb val_ok then (kvs, None)
      else
        let '(out, l') := collapse_join results 0 [] l in
        (evhtp_kvs_add_kv (Some l') (evhtp_header_new p kp vp (Some (cstr k)) (Some out) 1 1),
         Some ((vl + 1)%nat, (length out + 1)%nat))
  | _, _ => (kvs, None)
  end.

(** ** Well-formed lists *)

(** What [evhtp_kv_new] and [evhtp_header_val_add] establish: the length
    fields are the strings' lengths, the strings hold no NUL, and an element
    without a value has length 0. *)
Definition kv_wf (x : evhtp_kv) : Prop :=
  klen x = length (default [] (key x)) /\ vlen x = length (default [] (val x)) /\
  cstr (default [] (key x)) = default [] (key x) /\
  cstr (default [] (val x)) = default [] (val x).
Definition kvs_wf (l : evhtp_kvs) : Prop := Forall kv_wf l /\ NoDup (map addr l).

Lemma cstr_idem s : cstr (cstr s) = cstr s.
Proof.
  induction s as [|c s IH]; [done|]. cbn.
  destruct (Z.eqb_spec c 0) as [|Hc]; [done|]. cbn.
  destruct (Z.eqb_spec c 0); [done|]. by rewrite IH.
Qed.

Lemma cstr_id s : Forall (fun c => c <> 0) s -> cstr s = s.
Proof.
  induction 1 as [|c s Hc _ IH]; [done|]. cbn. destruct (Z.eqb_spec c 0); [done|]. by rewrite IH.
Qed.

Lemma cstr_app s t : cstr s = s -> cstr (s ++ t) = s ++ cstr t.
Proof.
  induction s as [|c s IH]; [done|]. cbn. destruct (c =? 0); [done|].
  intros [= Hs]. by rewrite IH.
Qed.

Lemma kv_new_wf p kp vp k v ka va x : evhtp_kv_new p kp vp k v ka va = Some x -> kv_wf x.
Proof.
  unfold evhtp_kv_new, kv_wf. intros H.
  repeat case_match; simplify_eq/=; rewrite ?cstr_idem; done.
Qed.

Lemma kv_new_some a k v ka va :
  evhtp_kv_new (Some a) true true (Some k) v ka va =
  Some {| addr := a; key := Some (cstr k); val := cstr <$> v; klen := length (cstr k);
          vlen := length (cstr (default [] v)); k_heaped := ka; v_heaped := va |}.
Proof. unfold evhtp_kv_new. rewrite andb_false_r. destruct v; [by rewrite andb_false_r|done]. Qed.

(** ** Looking a header up *)

Definition matches (k : list Z) (x : evhtp_kv) : bool := match_header_key x k.

Lemma kv_find_first l k :
  kv_find_n l k = kvs_find_kv_n l k ≫= val /\
  kvs_find_kv_n l k = head (List.filter (matches k) l) /\
  kvs_count_kv_n l k = Z.of_nat (length (List.filter (matches k) l)).
Proof.
  induction l as [|x l (H1 & H2 & H3)]; [done|]. cbn [kv_find_n kvs_find_kv_n kvs_count_kv_n].
  cbn [List.filter]. rewrite H3. change (match_header_key x k) with (matches k x).
  destruct (matches k x); cbn [head length]; split_and!; try done. lia.
Qed.

Lemma fold_eq_length s t : fold_eq s t = true -> length s = length t.
Proof.
  revert t. induction s as [|c s IH]; intros [|d t]; cbn; try done.
  intros [_ H]%andb_true_iff. f_equal. by apply IH.
Qed.

Lemma matches_wf k x : kv_wf x -> matches k x = fold_eq (default [] (key x)) k.
Proof.
  intros [Hk _]. unfold matches, match_header_key. rewrite Hk.
  destruct (Nat.eqb_spec (length (default [] (key x))) (length k)) as [|Hne]; [done|].
  cbn. destruct (fold_eq _ k) eqn:E; [|done]. by apply fold_eq_length in E.
Qed.

Lemma find_snoc l x k :
  kvs_find_kv_n (l ++ [x]) k =
  match kvs_find_kv_n l k with
  | Some y => Some y
  | None => if matches k x then Some x else None
  end.
Proof.
  induction l as [|y l IH]; [done|]. cbn. rewrite IH. by destruct (match_header_key y k).
Qed.

(** C28: storing a header with evhtp_header_key_add and evhtp_header_val_add
    appends it, leaves every lookup that already had an answer unchanged
    (earlier fields win), and makes the new one findable under every spelling
    of its name that [match_header_key] folds together; [evhtp_kvs_count_kv]
    goes up by one for exactly those spellings. *)
Theorem header_store_lookup l a k v q :
  Forall kv_wf l -> cstr k = k -> cstr v = v -> cstr q = q ->
  exists h h' l', evhtp_header_key_add (Some a) true (Some l) k 0 = (Some h, Some (l ++ [h])) /\
    evhtp_header_val_add (Some (l ++ [h])) (Some v) 0 = (Some h', Some l') /\
    l' = l ++ [h'] /\ Forall kv_wf l' /\ key h' = Some k /\ val h' = Some v /\
    evhtp_header_find (Some l') (Some q) =
      match evhtp_kvs_find_kv (Some l) (Some q) with
      | Some y => val y
      | None => if fold_eq k q then Some v else None
      end /\
    evhtp_kvs_count_kv (Some l') (Some q) =
      evhtp_kvs_count_kv (Some l) (Some q) + (if fold_eq k q then 1 else 0).
Proof.
  intros Hl Hk Hv Hq.
  unfold evhtp_header_key_add, evhtp_header_new. rewrite kv_new_some, Hk. cbn [fmap option_fmap option_map].
  eexists _, _, _. split; [reflexivity|].
  unfold evhtp_header_val_add. rewrite last_snoc. cbn [val]. split; [reflexivity|].
  unfold set_last. rewrite removelast_last. rewrite Hv. split; [reflexivity|].
  set (h := _ <| v_heaped := 0 |>).
  assert (kv_wf h) as Hh by (split_and!; done).
  split; [by apply Forall_app; split; [|apply Forall_singleton]|].
  split; [done|]. split; [done|].
  unfold evhtp_header_find, evhtp_kv_find, evhtp_kvs_find_kv, evhtp_kvs_count_kv. rewrite Hq.
  rewrite (proj1 (kv_find_first _ _)), find_snoc, (matches_wf q h Hh).
  change (default [] (key h)) with k.
  split.
  - destruct (kvs_find_kv_n l q) as [y|]; [done|]. by destruct (fold_eq k q).
  - rewrite !(proj2 (proj2 (kv_find_first _ _))), List.filter_app, length_app, Nat2Z.inj_add.
    f_equal. cbn [List.filter]. rewrite (matches_wf q h Hh).
    change (default [] (key h)) with k. by destruct (fold_eq k q).
Qed.

Definition header_store_lookup_sample : evhtp_kvs :=
  [{| addr := 1; key := Some (bytes "Host"); val := Some (bytes "a"); klen := 4; vlen := 1;
      k_heaped := 1; v_heaped := 1 |}].

Lemma header_store_lookup_witness :
  let q := bytes "CONTENT-type" in
  exists h h' l', evhtp_header_key_add (Some 2) true (Some header_store_lookup_sample)
      (bytes "Content-Type") 0 = (Some h, Some (header_store_lookup_sample ++ [h])) /\
    evhtp_header_val_add (Some (header_store_lookup_sample ++ [h])) (Some (bytes "t")) 0 =
      (Some h', Some l') /\
    l' = header_store_lookup_sample ++ [h'] /\ Forall kv_wf l' /\
    key h' = Some (bytes "Content-Type") /\ val h' = Some (bytes "t") /\
    evhtp_header_find (Some l') (Some q) = Some (bytes "t") /\
    evhtp_kvs_count_kv (Some l') (Some q) = 0 + 1.
Proof.
  refine (header_store_lookup header_store_lookup_sample 2 (bytes "Content-Type") (bytes "t")
    (bytes "CONTENT-type") _ _ _ _); [|vm_compute; reflexivity..].
  apply Forall_singleton. split_and!; vm_compute; reflexivity.
Defined.

(** ** Which names are folded together *)

Definition name_char (c : Z) : bool :=
  isdigit c || (("A"%c <=? c) && (c <=? "Z"%c)) || (("a"%c <=? c) && (c <=? "z"%c)) ||
  (c =? "-"%c).

Definition all_bytes : list Z := map Z.of_nat (seq 0 256).
Lemma all_bytes_in c : is_byte c -> In c all_bytes.
Proof.
  unfold is_byte, all_bytes. intros Hc. apply in_map_iff. exists (Z.to_nat c).
  split; [lia|]. apply in_seq. lia.
Qed.

Lemma TOLOWER_tolower c d :
  is_byte c -> 32 <= c -> is_byte d -> name_char d = true ->
  (TOLOWER c =? TOLOWER d) = (tolower c =? tolower d).
Proof.
  intros Hc H32 Hd Hn.
  assert (forallb (fun d => forallb (fun c =>
    implb (name_char d && (32 <=? c))
      (Bool.eqb (TOLOWER c =? TOLOWER d) (tolower c =? tolower d))) all_bytes)
    all_bytes = true) as H by (vm_compute; reflexivity).
  rewrite forallb_forall in H. specialize (H d (all_bytes_in d Hd)).
  rewrite forallb_forall in H. specialize (H c (all_bytes_in c Hc)).
  rewrite Hn, (proj2 (Z.leb_le 32 c) H32) in H. by apply eqb_prop in H.
Qed.

Lemma fold_eq_lower s t :
  Forall (fun c => is_byte c /\ 32 <= c) s ->
  Forall (fun d => is_byte d /\ name_char d = true) t ->
  fold_eq s t = casecmp_eqb s t.
Proof.
  intros Hs. revert t. induction Hs as [|c s [Hc H32] _ IH]; intros t Ht;
    destruct Ht as [|d t [Hd Hn] Ht]; try done.
  cbn [fold_eq]. rewrite TOLOWER_tolower, IH by done. unfold casecmp_eqb, lower. cbn.
  destruct (Z.eqb_spec (tolower c) (tolower d)) as [E|E]; cbn.
  - apply bool_decide_ext. rewrite E. split; [by intros ->|by intros [= ->]].
  - symmetry. apply bool_decide_eq_false. congruence.
Qed.

(** For a lookup of a name made of letters, digits and hyphens, against
    a stored name without control characters, [match_header_key] is exactly
    case-insensitive equality.  Against stored names with control characters
    it is not: it folds by OR-ing 0x20, so a field called Content, CR, Length
    answers a lookup of Content-Length. *)
Theorem match_header_key_caseless x k :
  (kv_wf x -> Forall (fun c => is_byte c /\ 32 <= c) (default [] (key x)) ->
   Forall (fun d => is_byte d /\ name_char d = true) k ->
   match_header_key x k = casecmp_eqb (default [] (key x)) k) /\
  (key x = Some (bytes "Content" ++ [CR] ++ bytes "Length") -> klen x = 14%nat ->
   match_header_key x (bytes "Content-Length") = true /\
   casecmp_eqb (default [] (key x)) (bytes "Content-Length") = false).
Proof.
  split.
  - intros Hx Hs Hk. change (match_header_key x k) with (matches k x).
    rewrite matches_wf by done. by apply fold_eq_lower.
  - intros Hk Hl. unfold match_header_key. rewrite Hk, Hl. by vm_compute.
Qed.

Lemma match_header_key_caseless_witness :
  let x := {| addr := 1; key := Some (bytes "X-Id"); val := None; klen := 4; vlen := 0;
              k_heaped := 1; v_heaped := 0 |} in
  match_header_key x (bytes "x-iD") = casecmp_eqb (bytes "X-Id") (bytes "x-iD").
Proof.
  intros x. apply (proj1 (match_header_key_caseless x (bytes "x-iD"))).
  - split_and!; vm_compute; reflexivity.
  - apply (bool_decide_unpack _). vm_compute. exact I.
  - apply (bool_decide_unpack _). vm_compute. exact I.
Defined.

(** ** Collapsing *)

Definition same_name (k : list Z) (x : evhtp_kv) : bool :=
  (klen x =? length k)%nat && casecmp_eqb (default [] (key x)) k.
Definition value (x : evhtp_kv) : list Z := default [] (val x).
(** The values, separated by a comma and a space. *)
Fixpoint joined (first : bool) (l : list evhtp_kv) : list Z :=
  match l with
  | [] => []
  | x :: l' => (if first then [] else [","%c; SP]) ++ value x ++ joined false l'
  end.

Lemma collapse_scan_spec l k res vl :
  (length res + length (List.filter (same_name k) l) <= MAX_RESULTS)%nat ->
  (length res < MAX_RESULTS)%nat -> vl = (2 * (length res - 1))%nat ->
  collapse_scan l k res vl =
    (res ++ List.filter (same_name k) l,
     (2 * (length res + length (List.filter (same_name k) l) - 1))%nat).
Proof.
  revert res vl. induction l as [|x l IH]; intros res vl Hmax Hlt Hvl.
  { cbn. rewrite app_nil_r, Nat.add_0_r. by rewrite Hvl. }
  cbn [collapse_scan List.filter] in *. fold (same_name k x).
  destruct (same_name k x) eqn:Hx; [|by apply IH].
  cbn [length] in *. rewrite length_app. cbn [length].
  destruct (Nat.eqb_spec (length res + 1) MAX_RESULTS) as [Heq|Hne].
  - assert (List.filter (same_name k) l = []) as -> by (apply length_zero_iff_nil; lia).
    cbn [length]. f_equal. destruct (Nat.ltb_spec 0 (length res)); lia.
  - rewrite IH; rewrite ?length_app; cbn [length]; [|lia..|].
    + rewrite <- app_assoc. cbn [app]. f_equal. lia.
    + destruct (Nat.ltb_spec 0 (length res)); lia.
Qed.

Lemma collapse_join_spec results i out l :
  Forall kv_wf results ->
  collapse_join results i out l =
    (out ++ joined (i =? 0)%nat results,
     foldl (fun l x => remove_addr (addr x) l) l results).
Proof.
  revert i out l. induction results as [|x results IH]; intros i out l Hr.
  { cbn. by rewrite app_nil_r. }
  apply Forall_cons in Hr as [(_ & Hv & _ & _) Hr]. cbn [collapse_join joined foldl].
  rewrite IH by done. fold (value x). rewrite Hv, take_ge by done.
  destruct i; cbn [Nat.ltb Nat.leb Nat.eqb]; by rewrite <- ?app_assoc.
Qed.

Lemma remove_addr_filter a l :
  NoDup (map addr l) -> remove_addr a l = List.filter (fun x => negb (addr x =? a)) l.
Proof.
  induction l as [|x l IH]; [done|]. cbn. intros [Hx Hl]%NoDup_cons.
  destruct (Z.eqb_spec (addr x) a) as [<-|Hne]; cbn; [|by rewrite IH].
  clear IH Hl. induction l as [|y l IH]; [done|]. cbn in *.
  rewrite not_elem_of_cons in Hx. destruct Hx as [Hne Hx].
  destruct (Z.eqb_spec (addr y) (addr x)); [congruence|]. cbn. by rewrite IH at 1.
Qed.

Lemma filter_addr_nodup (P : evhtp_kv -> bool) l :
  NoDup (map addr l) -> NoDup (map addr (List.filter P l)).
Proof.
  induction l as [|x l IH]; [done|]. cbn. intros [Hx Hl]%NoDup_cons.
  destruct (P x); [|by apply IH]. cbn. apply NoDup_cons. split; [|by apply IH].
  intros Hin. apply Hx. apply list_elem_of_In, in_map_iff in Hin as (y & Hy & Hin).
  apply List.filter_In in Hin as [Hin _]. apply list_elem_of_In, in_map_iff. eauto.
Qed.

Lemma remove_all_filter (P : evhtp_kv -> bool) l :
  NoDup (map addr l) ->
  foldl (fun l x => remove_addr (addr x) l) l (List.filter P l) =
  List.filter (fun x => negb (P x)) l.
Proof.
  assert (forall rs m, NoDup (map addr m) ->
    foldl (fun l x => remove_addr (addr x) l) m rs =
    List.filter (fun x => negb (existsb (fun y => addr x =? addr y) rs)) m) as Hgen.
  { induction rs as [|r rs IH]; intros m Hm; cbn.
    - induction m as [|x m IHm]; [done|]. cbn. rewrite <- IHm; [done|].
      by apply NoDup_cons in Hm as [_ Hm].
    - rewrite IH by (rewrite remove_addr_filter by done; by apply filter_addr_nodup).
      rewrite remove_addr_filter by done. clear IH Hm.
      induction m as [|x m IHm]; [done|]. cbn.
      destruct (addr x =? addr r); cbn; [done|]. destruct (existsb _ rs); cbn; by rewrite IHm. }
  intros Hnd. rewrite Hgen by done. apply List.filter_ext_in. intros x Hx. f_equal.
  apply eq_true_iff_eq. rewrite existsb_exists. split.
  - intros (y & Hy & Heq). apply List.filter_In in Hy as [Hy HPy].
    apply Z.eqb_eq in Heq. replace x with y; [done|].
    revert Hnd Hx Hy Heq. clear. induction l as [|z l IH]; [done|]. cbn.
    intros [Hz Hl]%NoDup_cons Hx Hy Heq.
    assert (forall w, In w l -> addr w <> addr z) as Hother.
    { intros w Hw E. apply Hz. rewrite <- E. apply list_elem_of_In. by apply in_map. }
    destruct Hx as [->|Hx], Hy as [->|Hy]; [done| | |by apply IH].
    + by apply Hother in Hy.
    + symmetry in Heq. by apply Hother in Hx.
  - intros HP. exists x. split; [by apply List.filter_In|by rewrite Z.eqb_refl].
Qed.

(** C40: evhtp_collapse_headers joins the fields of a name, of which there are
    two to a hundred, into one at the end of the list holding their values in
    order, separated by a comma and a space, and keeps all others as they
    were; with fewer it does nothing.  But the buffer it allocates for the
    joined value only counts the separators: it writes past its end by
    exactly the total length of the values. *)
Theorem collapse_headers_correct l k a :
  kvs_wf l -> cstr k = k ->
  let same := List.filter (same_name k) l in
  (length same <= MAX_RESULTS)%nat ->
  evhtp_collapse_headers true (Some a) true true (Some l) (Some k) =
  if (length same <=? 1)%nat then (Some l, None)
  else (Some (List.filter (fun x => negb (same_name k x)) l ++
              [{| addr := a; key := Some k; val := Some (joined true same);
                  klen := length k; vlen := length (joined true same);
                  k_heaped := 1; v_heaped := 1 |}]),
        let allocated := (2 * (length same - 1) + 1)%nat in
        Some (allocated, (allocated + length (concat (map value same)))%nat)).
Proof.
  intros [Hwf Hnd] Hk same Hmax.
  unfold evhtp_collapse_headers. rewrite Hk.
  rewrite collapse_scan_spec; [|done|unfold MAX_RESULTS; cbn; lia|done]. cbn [length app Nat.add]. fold same.
  destruct (length same <=? 1)%nat eqn:H1; [done|]. apply Nat.leb_gt in H1. cbn [negb].
  assert (Forall kv_wf same) as Hsame.
  { apply Forall_forall. intros x Hx%list_elem_of_In.
    apply List.filter_In in Hx as [Hx _].
    rewrite Forall_forall in Hwf. apply Hwf. by apply list_elem_of_In. }
  rewrite collapse_join_spec by done. cbn [app Nat.eqb].
  rewrite (remove_all_filter (same_name k) l Hnd : foldl _ l same = _).
  assert (forall b rs, Forall kv_wf rs -> cstr (joined b rs) = joined b rs) as Hcstr.
  { intros b rs Hrs. revert b. induction Hrs as [|x rs (_ & _ & _ & Hx) _ IH]; intros b; [done|].
    cbn [joined]. rewrite cstr_app by (by destruct b). f_equal.
    rewrite cstr_app by done. by rewrite IH. }
  assert (forall rs, length (joined false rs) =
    (2 * length rs + length (concat (map value rs)))%nat) as Hlen.
  { induction rs as [|x rs IH]; [done|]. cbn. rewrite !length_app, IH. lia. }
  unfold evhtp_header_new. rewrite kv_new_some, Hk. cbn [fmap option_fmap option_map default from_option id].
  rewrite Hcstr by done.
  assert (length (joined true same) + 1 =
    2 * (length same - 1) + 1 + length (concat (map value same)))%nat as Hw.
  { destruct same as [|x rs]; [cbn in H1; lia|]. cbn [joined map concat length app].
    rewrite !length_app, Hlen. cbn [length]. lia. }
  by rewrite Hw.
Qed.

Definition two_cookies : evhtp_kvs :=
  [{| addr := 1; key := Some (bytes "Via"); val := Some (bytes "ab"); klen := 3; vlen := 2;
      k_heaped := 1; v_heaped := 1 |};
   {| addr := 2; key := Some (bytes "X"); val := Some (bytes "1"); klen := 1; vlen := 1;
      k_heaped := 1; v_heaped := 1 |};
   {| addr := 3; key := Some (bytes "via"); val := Some (bytes "cd"); klen := 3; vlen := 2;
      k_heaped := 1; v_heaped := 1 |}].

(** 3 bytes are allocated for "ab, cd", and 7 are written. *)
Lemma collapse_headers_correct_witness :
  (evhtp_collapse_headers true (Some 4) true true (Some two_cookies) (Some (bytes "via"))).2
    = Some (3, 7)%nat.
Proof.
  assert (kvs_wf two_cookies) as Hwf.
  { split; [|apply (bool_decide_unpack _); vm_compute; exact I].
    repeat (apply Forall_cons; split; [split_and!; vm_compute; reflexivity|]). done. }
  rewrite (collapse_headers_correct two_cookies (bytes "via") 4 Hwf);
    [vm_compute; reflexivity|vm_compute; reflexivity|].
  change (length (List.filter (same_name (bytes "via")) two_cookies)) with 2%nat.
  unfold MAX_RESULTS. lia.
Defined.
