(* ===== verification/SslUtils.v ===== *)
(** * sslutils.c: what a server may tell of a client's certificate

    One definition per C function.  OpenSSL is the parameter [OpenSSL]: the
    objects it hands out and the texts it makes of them.  The state counts the
    references held ([held]); [mem] says which of the allocations of this file
    succeed and [ssl_ok] which of the calls of OpenSSL that may fail do not.
    [xheaders_report]: the fields htp_sslutil_add_xheaders leaves in a request;
    [cert_header_roundtrip]: a certificate as the value of a field. *)

From S2P Require Import Prelude HtString Kvs.

(** The contents of an extension: an octet string and its type. *)
Record octet_string := { o_data : list Z; o_type : Z }.
Definition V_ASN1_OCTET_STRING : Z := 4.

(** [None]: a NULL pointer.  The texts are those the functions named write. *)
Class OpenSSL := {
  SSL : Type;
  X509 : Type;
  ASN1_OBJECT : Type;
  SSL_get_peer_certificate : SSL -> option X509;
  subject_oneline : X509 -> option (list Z);      (** X509_get_subject_name, X509_NAME_oneline *)
  issuer_oneline : X509 -> option (list Z);
  not_before_print : X509 -> option (list Z);     (** X509_get0_notBefore, ASN1_TIME_print *)
  not_after_print : X509 -> option (list Z);
  serial_print : X509 -> list Z;                  (** i2a_ASN1_INTEGER *)
  has_sha1 : bool;                                (** EVP_sha1 *)
  sha1_digest : X509 -> list Z;
  pem_print : X509 -> list Z;                     (** PEM_write_bio_X509 *)
  cipher_name : SSL -> option (option (list Z));  (** SSL_get_current_cipher, its name *)
  txt2obj : list Z -> option ASN1_OBJECT;
  get_ext : X509 -> ASN1_OBJECT -> option (option octet_string);
  (** ASN1_get_object: its result, the length, the tag and where the contents
      start *)
  ASN1_get_object : list Z -> Z * Z * Z * nat
}.

Definition HTP_SSLUTILS_XHDR_SUBJ : Z := Z.shiftl 1 0.
Definition HTP_SSLUTILS_XHDR_ISSR : Z := Z.shiftl 1 1.
Definition HTP_SSLUTILS_XHDR_NBFR : Z := Z.shiftl 1 2.
Definition HTP_SSLUTILS_XHDR_NAFR : Z := Z.shiftl 1 3.
Definition HTP_SSLUTILS_XHDR_SERL : Z := Z.shiftl 1 4.
Definition HTP_SSLUTILS_XHDR_SHA1 : Z := Z.shiftl 1 5.
Definition HTP_SSLUTILS_XHDR_CERT : Z := Z.shiftl 1 6.
Definition HTP_SSLUTILS_XHDR_CIPH : Z := Z.shiftl 1 7.

Definition SSL_VERIFY_NONE : Z := 0.
Definition SSL_VERIFY_PEER : Z := 1.
Definition SSL_VERIFY_FAIL_IF_NO_PEER_CERT : Z := 2.

(** The references held to certificates, BIOs, strings and objects of OpenSSL,
    the blocks allocated, and whether memory was used out of bounds. *)
Record held := {
  asked : nat; called : nat;
  x509s : Z; bios : Z; names : Z; objs : Z; blocks : Z;
  bad : bool
}.
#[export] Instance eta_held : EtaFields held := fun h =>
  Build_held (asked h) (called h) (x509s h) (bios h) (names h) (objs h) (blocks h) (bad h).

Section SslUtils.
Context `{ossl : OpenSSL} (mem ssl_ok : nat -> bool).
Abbreviation T := (M held (option (list Z))).

(** calloc and strdup. *)
Definition alloc : M held bool := fun h =>
  let ok := mem (asked h) in
  (ok, h <| asked := S (asked h) |> <| blocks := blocks h + (if ok then 1 else 0) |>).
Definition free_block : M held unit := modify (fun h => h <| blocks := blocks h - 1 |>).
(** A call of OpenSSL that may fail. *)
Definition attempt : M held bool := fun h => (ssl_ok (called h), h <| called := S (called h) |>).
Definition hold_x509 (d : Z) : M held unit := modify (fun h => h <| x509s := x509s h + d |>).
Definition hold_bio (d : Z) : M held unit := modify (fun h => h <| bios := bios h + d |>).
Definition hold_name (d : Z) : M held unit := modify (fun h => h <| names := names h + d |>).
Definition hold_obj (d : Z) : M held unit := modify (fun h => h <| objs := objs h + d |>).
Definition X509_free : M held unit := hold_x509 (-1).
Definition BIO_free : M held unit := hold_bio (-1).
Definition wild : T := modify (fun h => h <| bad := true |>) ;; ret None.

(** [SSL_get_peer_certificate], which takes a reference. *)
Definition with_cert (ssl : option SSL) (k : X509 -> T) : T :=
  match ssl ≫= SSL_get_peer_certificate with
  | None => ret None
  | Some cert => hold_x509 1 ;; k cert
  end.
Definition with_bio (k : T) : T :=
  ok <- attempt ;; if negb ok then X509_free ;; ret None else hold_bio 1 ;; k.
Definition strdup (s : list Z) : T := ok <- alloc ;; ret (if ok then Some (cstr s) else None).
(** The contents of a BIO as a string of our own: BIO_pending, calloc and
    BIO_read.  When calloc fails nothing is released. *)
Definition read_bio (text : list Z) (release : M held unit) : T :=
  if (length text =? 0)%nat then BIO_free ;; X509_free ;; ret None
  else
    ok <- alloc ;;
    if negb ok then ret None else release ;; ret (Some (cstr text)).

Definition name_tostr (get : X509 -> option (list Z)) (ssl : option SSL) : T :=
  with_cert ssl (fun cert =>
    match get cert with
    | None => X509_free ;; ret None
    | Some text =>
        ok <- attempt ;;
        if negb ok then X509_free ;; ret None
        else
          hold_name 1 ;; s <- strdup text ;; hold_name (-1) ;; X509_free ;; ret s
    end).
Definition htp_sslutil_subject_tostr : option SSL -> T := name_tostr subject_oneline.
Definition htp_sslutil_issuer_tostr : option SSL -> T := name_tostr issuer_oneline.

Definition time_tostr (get : X509 -> option (list Z)) (ssl : option SSL) : T :=
  with_cert ssl (fun cert =>
    match get cert with
    | None => X509_free ;; ret None
    | Some text =>
        with_bio (
          ok <- attempt ;;
          if negb ok then BIO_free ;; X509_free ;; ret None
          else read_bio text (BIO_free ;; X509_free))
    end).
Definition htp_sslutil_notbefore_tostr : option SSL -> T := time_tostr not_before_print.
Definition htp_sslutil_notafter_tostr : option SSL -> T := time_tostr not_after_print.

(** "%02X" *)
Definition hex_digit (d : Z) : Z := if d <? 10 then "0"%c + d else "A"%c + (d - 10).
Definition hex2 (b : Z) : list Z := [hex_digit (Z.shiftr b 4); hex_digit (Z.land b 15)].

(** snprintf of [s] at [offset] in the buffer. *)
Definition snprintf (buf : list Z) (offset : nat) (s : list Z) : list Z :=
  let room := (length buf - offset)%nat in
  if (room =? 0)%nat then buf
  else
    let out := take (room - 1) s ++ [0] in
    take offset buf ++ out ++ drop (offset + length out) buf.
(** The loop: the digest from byte [i] on; [None] when the buffer is given up. *)
Fixpoint sha1_loop (md : list Z) (buf : list Z) (offset : nat) : option (list Z) :=
  match md with
  | [] => Some buf
  | b :: md =>
      let s := hex2 b ++ [if (length md =? 0)%nat then 0 else ":"%c] in
      let buf := snprintf buf offset s in
      let offset := (offset + length s)%nat in
      if (length buf <=? offset)%nat then None else sha1_loop md buf offset
  end.
Definition htp_sslutil_sha1_tostr (ssl : option SSL) : T :=
  match ssl with
  | None => ret None
  | Some _ =>
      if negb has_sha1 then ret None
      else
        with_cert ssl (fun cert =>
          ok <- attempt ;;
          if negb ok then ret None
          else
            let md := sha1_digest cert in
            let nsz := (3 * length md + 1)%nat in
            ok <- alloc ;;
            buf <- (if ok then
                      match sha1_loop md (replicate nsz 0) 0 with
                      | None => free_block ;; ret None
                      | Some buf => ret (Some (cstr buf))
                      end
                    else ret None) ;;
            X509_free ;; ret buf)
  end.

(** The result of i2a_ASN1_INTEGER is not looked at. *)
Definition htp_sslutil_serial_tostr (ssl : option SSL) : T :=
  with_cert ssl (fun cert =>
    with_bio (
      ok <- attempt ;;
      read_bio (if ok then serial_print cert else []) (X509_free ;; BIO_free))).

Definition htp_sslutil_cipher_tostr (ssl : option SSL) : T :=
  match ssl ≫= cipher_name with Some (Some p) => strdup p | _ => ret None end.

(** [*p++ = c] in a buffer of [size] bytes. *)
Definition put (size : nat) (out : option (list Z)) (c : Z) : option (list Z) :=
  out ≫= (fun o => if (length o <? size)%nat then Some (o ++ [c]) else None).
Definition puts (size : nat) (out : option (list Z)) (s : list Z) : option (list Z) :=
  foldl (put size) out s.
(** The two loops over all but the last byte: the length of the value, and
    its bytes. *)
Definition cert_size (raw : list Z) : nat :=
  foldl (fun n c => if c =? LF then (n + 2)%nat else n) (length raw - 1)%nat (removelast raw).
Definition cert_fold (size : nat) (raw : list Z) : option (list Z) :=
  let out := foldl (fun out c => puts size out (if c =? LF then [CR; LF; HTAB] else [c]))
               (Some []) (removelast raw) in
  let c := List.last raw 0 in
  if negb (c =? LF) then put size out c else out.
Definition htp_sslutil_cert_tostr (ssl : option SSL) : T :=
  with_cert ssl (fun cert =>
    with_bio (
      ok <- attempt ;;
      if negb ok then BIO_free ;; X509_free ;; ret None
      else
        let raw := pem_print cert in
        ok <- alloc ;;
        if negb ok || (length raw =? 0)%nat then wild
        else
          let size := (cert_size raw + 2)%nat in
          ok <- alloc ;;
          if negb ok then wild
          else
            match cert_fold size raw with
            | Some out =>
                (** calloc has put the final NUL *)
                if (length out <? size)%nat then
                  BIO_free ;; X509_free ;; free_block ;; ret (Some (cstr out))
                else wild
            | None => wild
            end)).

Definition htp_sslutil_x509_ext_tostr (ssl : option SSL) (oid : list Z) : T :=
  with_cert ssl (fun cert =>
    match txt2obj oid with
    | None => X509_free ;; ret None
    | Some obj =>
        hold_obj 1 ;;
        let fini (s : option (list Z)) : T := hold_obj (-1) ;; X509_free ;; ret s in
        match get_ext cert obj with
        | Some (Some octet) =>
            let '(err, xlen, xtag, off) := ASN1_get_object (o_data octet) in
            if negb (err =? 0) then fini None
            else if (0 <? xlen) && (xtag =? 12) && (o_type octet =? V_ASN1_OCTET_STRING)
            then s <- strdup (take (Z.to_nat xlen) (drop off (o_data octet))) ;; fini s
            else fini None
        | _ => fini None
        end
    end).

(** [None]: a NULL string. *)
Definition htp_sslutil_verify2opts (opts_str : option (list Z)) : Z :=
  match opts_str with
  | None => SSL_VERIFY_NONE
  | Some s =>
      if casecmp_eqb s (bytes "off") then SSL_VERIFY_NONE
      else if casecmp_eqb s (bytes "optional") then SSL_VERIFY_PEER
      else if casecmp_eqb s (bytes "on")
      then Z.lor SSL_VERIFY_PEER SSL_VERIFY_FAIL_IF_NO_PEER_CERT
      else -1
  end.

(** ** The fields of a request *)

Definition ssl_x_hdrs_ : list (list Z * Z * (option SSL -> T)) :=
  [ (bytes "X-SSL-Subject",     HTP_SSLUTILS_XHDR_SUBJ, htp_sslutil_subject_tostr);
    (bytes "X-SSL-Issuer",      HTP_SSLUTILS_XHDR_ISSR, htp_sslutil_issuer_tostr);
    (bytes "X-SSL-Notbefore",   HTP_SSLUTILS_XHDR_NBFR, htp_sslutil_notbefore_tostr);
    (bytes "X-SSL-Notafter",    HTP_SSLUTILS_XHDR_NAFR, htp_sslutil_notafter_tostr);
    (bytes "X-SSL-Serial",      HTP_SSLUTILS_XHDR_SERL, htp_sslutil_serial_tostr);
    (bytes "X-SSL-Cipher",      HTP_SSLUTILS_XHDR_CIPH, htp_sslutil_cipher_tostr);
    (bytes "X-SSL-Certificate", HTP_SSLUTILS_XHDR_CERT, htp_sslutil_cert_tostr);
    (bytes "X-SSL-SHA1",        HTP_SSLUTILS_XHDR_SHA1, htp_sslutil_sha1_tostr) ].

(** The names removed first. *)
Definition removed_names : list (list Z) :=
  [ bytes "X-SSL-Subject"; bytes "X-SSL-Issuer"; bytes "X-SSL-Notbefore";
    bytes "X-SSL-Notafter"; bytes "X-SSL-Serial"; bytes "X-SSL-Cipher";
    bytes "X-SSL-Certificate" ].
Definition remove_xheaders (hdrs : option evhtp_kvs) : option evhtp_kvs :=
  foldl (fun hdrs name => evhtp_kv_rm_and_free hdrs (evhtp_kvs_find_kv hdrs (Some name)))
    hdrs removed_names.

(** [kv_mem i]: the address of the element of the [i]th field and whether its
    value can be copied. *)
Fixpoint xhdr_loop (kv_mem : nat -> option Z * bool) (i : nat)
    (tbl : list (list Z * Z * (option SSL -> T))) (ssl : SSL) (flags : Z)
    (hdrs : option evhtp_kvs) : M held (option evhtp_kvs) :=
  match tbl with
  | [] => ret hdrs
  | (hdr_str, flag, convfn) :: tbl =>
      if has flags flag then
        o_str <- convfn (Some ssl) ;;
        match o_str with
        | Some s =>
            let '(p, vp) := kv_mem i in
            let hdrs := evhtp_headers_add_header hdrs
              (evhtp_header_new p true vp (Some hdr_str) (Some s) 0 1) in
            free_block ;; xhdr_loop kv_mem (S i) tbl ssl flags hdrs
        | None => xhdr_loop kv_mem (S i) tbl ssl flags hdrs
        end
      else xhdr_loop kv_mem (S i) tbl ssl flags hdrs
  end.

Definition htp_sslutil_add_xheaders (kv_mem : nat -> option Z * bool)
    (hdrs : option evhtp_kvs) (ssl : option SSL) (flags : Z) : M held (Z * option evhtp_kvs) :=
  match hdrs, ssl with
  | Some _, Some ssl =>
      let hdrs := remove_xheaders hdrs in
      if flags =? 0 then ret (0, hdrs)
      else hdrs <- xhdr_loop kv_mem 0 ssl_x_hdrs_ ssl flags hdrs ;; ret (0, hdrs)
  | _, _ => ret (-1, hdrs)
  end.

(** ** Nothing is kept *)

(** The state is as before, but for the block handed to the caller. *)
Definition same_refs (h h' : held) (r : option (list Z)) : Prop :=
  x509s h' = x509s h /\ bios h' = bios h /\ names h' = names h /\ objs h' = objs h /\
  blocks h' = blocks h + (if r is Some _ then 1 else 0) /\ bad h' = bad h.
Definition balanced (m : T) : Prop := forall h, same_refs h (m h).2 (m h).1.

Ltac balance tac :=
  intros [a c x b n o k w];
  unfold with_cert, with_bio, read_bio, strdup, attempt, alloc, free_block, X509_free, BIO_free,
    hold_x509, hold_bio, hold_name, hold_obj, bind, ret, modify; cbn;
  repeat (tac; cbn; case_match; cbn); tac; cbn; simplify_eq; try congruence;
  repeat split; cbn; lia.

(** When no allocation fails, the functions release what they took, whatever
    OpenSSL refuses to do; the digest has to be computed for
    htp_sslutil_sha1_tostr. *)
Lemma tostr_balanced ssl oid (Hmem : forall k, mem k = true) :
  balanced (htp_sslutil_subject_tostr ssl) /\ balanced (htp_sslutil_issuer_tostr ssl) /\
  balanced (htp_sslutil_notbefore_tostr ssl) /\ balanced (htp_sslutil_notafter_tostr ssl) /\
  balanced (htp_sslutil_serial_tostr ssl) /\ balanced (htp_sslutil_cipher_tostr ssl) /\
  balanced (htp_sslutil_x509_ext_tostr ssl oid) /\
  ((forall k, ssl_ok k = true) -> balanced (htp_sslutil_sha1_tostr ssl)).
Proof.
  unfold htp_sslutil_subject_tostr, htp_sslutil_issuer_tostr, htp_sslutil_notbefore_tostr,
    htp_sslutil_notafter_tostr, htp_sslutil_serial_tostr, htp_sslutil_cipher_tostr,
    htp_sslutil_x509_ext_tostr, htp_sslutil_sha1_tostr, name_tostr, time_tostr.
  split_and!; [balance ltac:(rewrite ?Hmem)..|].
  intros Hs. balance ltac:(rewrite ?Hmem, ?Hs).
Qed.

(** ** The values *)

(** The folding of a certificate, and its inverse. *)
Definition fold_char (c : Z) : list Z := if c =? LF then [CR; LF; HTAB] else [c].
Definition cert_value (raw : list Z) : list Z :=
  flat_map fold_char (removelast raw) ++
  (if List.last raw 0 =? LF then [] else [List.last raw 0]).
Fixpoint unfold_value (s : list Z) : list Z :=
  match s with
  | [] => []
  | c :: s' =>
      match s' with
      | 10 :: 9 :: t => if c =? CR then LF :: unfold_value t else c :: unfold_value s'
      | _ => c :: unfold_value s'
      end
  end.
(** Every newline is one of a folded line. *)
Fixpoint folded (s : list Z) : bool :=
  match s with
  | [] => true
  | c :: s' =>
      match s' with
      | 10 :: 9 :: t => if c =? CR then folded t else negb (c =? LF) && folded s'
      | _ => negb (c =? LF) && folded s'
      end
  end.

Lemma fold_char_hd c s : exists d t, fold_char c ++ s = d :: t /\ d <> LF.
Proof.
  unfold fold_char. destruct (Z.eqb_spec c LF); [by exists CR, (LF :: HTAB :: s)|by exists c, s].
Qed.

(** A byte in front of a string that does not start with a newline. *)
Lemma unfold_cons c s : hd 0 s <> LF -> unfold_value (c :: s) = c :: unfold_value s.
Proof.
  intros Hs. destruct s as [|d s]; [done|]. cbn in Hs.
  assert (forall t, d :: s <> 10 :: 9 :: t) as Hd by (intros t [= -> ->]; done).
  cbn [unfold_value]. repeat (case_match; try done); subst; by edestruct Hd.
Qed.
Lemma folded_cons c s : hd 0 s <> LF -> folded (c :: s) = negb (c =? LF) && folded s.
Proof.
  intros Hs. destruct s as [|d s]; [done|]. cbn in Hs.
  assert (forall t, d :: s <> 10 :: 9 :: t) as Hd by (intros t [= -> ->]; done).
  cbn [folded]. repeat (case_match; try done); subst; by edestruct Hd.
Qed.

Lemma flat_fold_hd s e : hd 0 e <> LF -> hd 0 (flat_map fold_char s ++ e) <> LF.
Proof.
  destruct s as [|c s]; [done|]. intros _. cbn [flat_map]. rewrite <- app_assoc.
  destruct (fold_char_hd c (flat_map fold_char s ++ e)) as (d & t & -> & Hd). done.
Qed.

Lemma unfold_fold s e :
  hd 0 e <> LF -> folded e = true ->
  unfold_value (flat_map fold_char s ++ e) = s ++ unfold_value e /\
  folded (flat_map fold_char s ++ e) = true.
Proof.
  intros He Hf. induction s as [|c s [IH1 IH2]]; [done|].
  cbn [flat_map]. rewrite <- app_assoc. unfold fold_char at 1 3.
  destruct (Z.eqb_spec c LF) as [->|Hc].
  - cbn [Datatypes.app]. split; [|exact IH2].
    change (LF :: unfold_value (flat_map fold_char s ++ e) = LF :: s ++ unfold_value e).
    by rewrite IH1.
  - pose proof (flat_fold_hd s e He) as Hh. cbn [Datatypes.app].
    rewrite unfold_cons, folded_cons, IH1, IH2 by done. split; [done|].
    by destruct (Z.eqb_spec c LF).
Qed.

(** The size computed is enough, and no byte is written past it. *)
Lemma puts_ok size o s : (length o + length s <= size)%nat -> puts size (Some o) s = Some (o ++ s).
Proof.
  revert o. induction s as [|c s IH]; intros o Hl; [by rewrite app_nil_r|]. cbn in Hl.
  change (puts size (Some o) (c :: s)) with (puts size (put size (Some o) c) s).
  cbn [put mbind option_bind]. unfold put. cbn [mbind option_bind].
  destruct (Nat.ltb_spec (length o) size); [|lia].
  rewrite IH by (rewrite length_app; cbn; lia). by rewrite <- app_assoc.
Qed.

Lemma fold_loop_ok size o s :
  (length o + length (flat_map fold_char s) <= size)%nat ->
  foldl (fun out c => puts size out (if c =? LF then [CR; LF; HTAB] else [c])) (Some o) s =
  Some (o ++ flat_map fold_char s).
Proof.
  revert o. induction s as [|c s IH]; intros o; cbn [foldl flat_map]; [by rewrite app_nil_r|].
  rewrite length_app. intros Hl. fold (fold_char c).
  rewrite puts_ok by lia. rewrite IH by (rewrite length_app; lia). by rewrite <- app_assoc.
Qed.

Lemma cert_size_eq raw : cert_size raw = length (flat_map fold_char (removelast raw)).
Proof.
  unfold cert_size. assert (length raw - 1 = length (removelast raw))%nat as ->.
  { rewrite removelast_firstn_len, length_firstn. destruct raw; cbn; lia. }
  generalize (removelast raw). intros s.
  assert (forall n, foldl (fun n c => if c =? LF then (n + 2)%nat else n) (n + length s)%nat s =
    (n + length (flat_map fold_char s))%nat) as H; [|exact (H 0%nat)].
  induction s as [|c s IH]; intros n; cbn [foldl flat_map length]; [done|].
  rewrite length_app. unfold fold_char at 1. destruct (c =? LF); cbn [length].
  - replace (n + S (length s) + 2)%nat with (n + 3 + length s)%nat by lia. rewrite IH. lia.
  - replace (n + S (length s))%nat with (n + 1 + length s)%nat by lia. rewrite IH. lia.
Qed.

Lemma cert_fold_ok raw : cert_fold (cert_size raw + 2) raw = Some (cert_value raw) /\
  (length (cert_value raw) < cert_size raw + 2)%nat.
Proof.
  unfold cert_fold, cert_value. rewrite cert_size_eq. rewrite fold_loop_ok by (cbn; lia).
  cbn [Datatypes.app]. destruct (List.last raw 0 =? LF); cbn [negb].
  - rewrite app_nil_r. split; [done|lia].
  - cbn [put mbind option_bind]. unfold put. cbn [mbind option_bind].
    destruct (Nat.ltb_spec (length (flat_map fold_char (removelast raw)))
      (length (flat_map fold_char (removelast raw)) + 2)); [|lia].
    split; [done|]. rewrite length_app. cbn. lia.
Qed.

(** The digest in hexadecimal, its bytes apart by colons. *)
Fixpoint sha1_text (md : list Z) : list Z :=
  match md with
  | [] => []
  | [b] => hex2 b
  | b :: md => hex2 b ++ ":"%c :: sha1_text md
  end.

Lemma sha1_step pre b md n :
  snprintf (pre ++ replicate (S (S (S (S n)))) 0) (length pre) (hex2 b ++ [md]) =
  (pre ++ hex2 b ++ [md]) ++ replicate (S n) 0.
Proof.
  unfold snprintf. rewrite length_app, length_replicate.
  replace (length pre + S (S (S (S n))) - length pre)%nat with (S (S (S (S n)))) by lia.
  cbn [Nat.eqb Nat.sub hex2 Datatypes.app take length]. rewrite take_nil. cbn [Datatypes.app length].
  rewrite take_app_length, drop_app_add. cbn [replicate drop].
  rewrite <- !app_assoc. done.
Qed.

(** What the loop leaves in the buffer, but for the final NUL. *)
Fixpoint sha1_bytes (md : list Z) : list Z :=
  match md with
  | [] => []
  | b :: md => (hex2 b ++ [if (length md =? 0)%nat then 0 else ":"%c]) ++ sha1_bytes md
  end.

Lemma sha1_loop_ok md pre :
  sha1_loop md (pre ++ replicate (3 * length md + 1) 0) (length pre) =
  Some (pre ++ sha1_bytes md ++ [0]).
Proof.
  revert pre. induction md as [|b md IH]; intros pre; [done|]. cbn [sha1_loop].
  replace (3 * length (b :: md) + 1)%nat with (S (S (S (S (3 * length md))))) by (cbn; lia).
  rewrite sha1_step. set (s := hex2 b ++ _).
  rewrite <- Nat.add_1_r. rewrite length_app, length_replicate, length_app.
  assert (length s = 3%nat) as -> by done.
  destruct (Nat.leb_spec (length pre + 3 + (3 * length md + 1)) (length pre + 3)); [lia|].
  replace (length pre + 3)%nat with (length (pre ++ s)) by by rewrite length_app.
  rewrite IH. cbn [sha1_bytes]. fold s. by rewrite <- !app_assoc.
Qed.

Lemma hex_digit_nz d : 0 <= d -> hex_digit d <> 0.
Proof. intros. unfold hex_digit. change ("0"%c : Z) with 48. change ("A"%c : Z) with 65. case_match; lia. Qed.
Lemma hex2_cstr b s : is_byte b -> cstr (hex2 b ++ s) = hex2 b ++ cstr s.
Proof.
  intros Hb. apply cstr_app, cstr_id. unfold hex2. repeat constructor; apply hex_digit_nz.
  - apply Z.shiftr_nonneg. unfold is_byte in Hb. lia.
  - apply Z.land_nonneg. right. lia.
Qed.
Lemma sha1_cstr md : Forall is_byte md -> cstr (sha1_bytes md ++ [0]) = sha1_text md.
Proof.
  induction 1 as [|b md Hb _ IH]; [done|]. cbn [sha1_bytes sha1_text].
  rewrite <- !app_assoc, hex2_cstr by done. destruct md as [|b' md]; [by rewrite app_nil_r|].
  cbn [length Nat.eqb Datatypes.app cstr]. change (":"%c =? 0) with false. cbn iota.
  by rewrite IH.
Qed.

(** ** What the functions return when nothing fails *)

Definition of_cert (f : X509 -> option (list Z)) (ssl : SSL) : option (list Z) :=
  cert ← SSL_get_peer_certificate ssl; f cert.
Definition nonempty (s : list Z) : option (list Z) :=
  if (length s =? 0)%nat then None else Some (cstr s).
(** The texts, in the order of [ssl_x_hdrs_]. *)
Definition reports : list (list Z * Z * (SSL -> option (list Z))) :=
  [ (bytes "X-SSL-Subject",     HTP_SSLUTILS_XHDR_SUBJ, of_cert (fun c => cstr <$> subject_oneline c));
    (bytes "X-SSL-Issuer",      HTP_SSLUTILS_XHDR_ISSR, of_cert (fun c => cstr <$> issuer_oneline c));
    (bytes "X-SSL-Notbefore",   HTP_SSLUTILS_XHDR_NBFR, of_cert (fun c => not_before_print c ≫= nonempty));
    (bytes "X-SSL-Notafter",    HTP_SSLUTILS_XHDR_NAFR, of_cert (fun c => not_after_print c ≫= nonempty));
    (bytes "X-SSL-Serial",      HTP_SSLUTILS_XHDR_SERL, of_cert (fun c => nonempty (serial_print c)));
    (bytes "X-SSL-Cipher",      HTP_SSLUTILS_XHDR_CIPH, fun s => cstr <$> (cipher_name s ≫= id));
    (bytes "X-SSL-Certificate", HTP_SSLUTILS_XHDR_CERT, of_cert (fun c => Some (cstr (cert_value (pem_print c)))));
    (bytes "X-SSL-SHA1",        HTP_SSLUTILS_XHDR_SHA1,
      fun s => if has_sha1 then of_cert (fun c => Some (sha1_text (sha1_digest c))) s else None) ].

Context (Hmem : forall k, mem k = true) (Hssl : forall k, ssl_ok k = true).
(** PEM text is never empty; a digest is made of bytes. *)
Context (Hpem : forall c, pem_print c <> []) (Hmd : forall c, Forall is_byte (sha1_digest c)).

(** [m] returns [v] and releases what it took. *)
Definition returns (m : T) (v : option (list Z)) : Prop :=
  forall h, (m h).1 = v /\ same_refs h (m h).2 v.

Lemma alloc_eq h : alloc h = (true, h <| asked := S (asked h) |> <| blocks := blocks h + 1 |>).
Proof. unfold alloc. by rewrite Hmem. Qed.
Lemma attempt_eq h : attempt h = (true, h <| called := S (called h) |>).
Proof. unfold attempt. by rewrite Hssl. Qed.

Ltac step := cbv beta iota zeta delta [negb orb].

(** Runs a computation in which nothing fails. *)
Ltac run := repeat (first [rewrite attempt_eq | rewrite alloc_eq]; step).
Ltac refs := split; [done|]; repeat match goal with h : held |- _ => destruct h end;
  repeat split; cbn; lia.

Lemma name_returns get ssl :
  returns (name_tostr get (Some ssl)) (of_cert (fun c => cstr <$> get c) ssl).
Proof.
  intros h. unfold name_tostr, with_cert, of_cert. cbn [mbind option_bind].
  destruct (SSL_get_peer_certificate ssl) as [c|]; [|refs]. cbn [mbind option_bind]. destruct (get c) as [s|]; [|refs].
  unfold strdup, bind, hold_x509, hold_name, X509_free, modify. run. refs.
Qed.

Lemma read_bio_returns text release h :
  (forall h', release h' = (tt, h' <| bios := bios h' - 1 |> <| x509s := x509s h' - 1 |>)) ->
  (read_bio text release h).1 = nonempty text /\
  same_refs (h <| bios := bios h - 1 |> <| x509s := x509s h - 1 |>) (read_bio text release h).2
    (nonempty text).
Proof.
  intros Hr. unfold read_bio, nonempty. destruct (length text =? 0)%nat.
  { unfold bind, BIO_free, X509_free, hold_x509, hold_bio, modify. refs. }
  unfold bind. run. rewrite Hr. refs.
Qed.

Lemma time_returns get ssl :
  returns (time_tostr get (Some ssl)) (of_cert (fun c => get c ≫= nonempty) ssl).
Proof.
  intros h. unfold time_tostr, with_cert, of_cert. cbn [mbind option_bind].
  destruct (SSL_get_peer_certificate ssl) as [c|]; [|refs]. cbn [mbind option_bind]. destruct (get c) as [s|]; [|refs].
  set (release := BIO_free ;; X509_free). unfold with_bio, bind, hold_x509, hold_bio, modify. run.
  set (h1 := _ <| called := _ |>). cbn [mbind option_bind].
  destruct (read_bio_returns s release h1) as [-> Hs]; [intros h'; reflexivity|].
  split; [done|]. destruct h, Hs as (?&?&?&?&?&?). cbn in *. repeat split; cbn; lia || congruence.
Qed.

Lemma serial_returns ssl :
  returns (htp_sslutil_serial_tostr (Some ssl)) (of_cert (fun c => nonempty (serial_print c)) ssl).
Proof.
  intros h. unfold htp_sslutil_serial_tostr, with_cert, of_cert. cbn [mbind option_bind].
  destruct (SSL_get_peer_certificate ssl) as [c|]; [|refs].
  set (release := X509_free ;; BIO_free). unfold with_bio, bind, hold_x509, hold_bio, modify. run.
  set (h1 := _ <| called := _ |>). cbn [mbind option_bind].
  destruct (read_bio_returns (serial_print c) release h1) as [-> Hs]; [intros h'; reflexivity|].
  split; [done|]. destruct h, Hs as (?&?&?&?&?&?). cbn in *. repeat split; cbn; lia || congruence.
Qed.

Lemma cipher_returns ssl :
  returns (htp_sslutil_cipher_tostr (Some ssl)) (cstr <$> (cipher_name ssl ≫= id)).
Proof.
  intros h. unfold htp_sslutil_cipher_tostr. cbn [mbind option_bind].
  destruct (cipher_name ssl) as [[s|]|]; [|refs..].
  unfold strdup, bind. run. refs.
Qed.

Lemma cert_returns ssl :
  returns (htp_sslutil_cert_tostr (Some ssl))
    (of_cert (fun c => Some (cstr (cert_value (pem_print c)))) ssl).
Proof.
  unfold htp_sslutil_cert_tostr. intros h. unfold with_cert, of_cert. cbn [mbind option_bind].
  destruct (SSL_get_peer_certificate ssl) as [c|]; [|split; [done|]; repeat split; cbn; lia].
  unfold with_bio, bind, hold_x509, hold_bio, modify. rewrite attempt_eq. step.
  rewrite attempt_eq. step. rewrite alloc_eq. step.
  destruct (Nat.eqb_spec (length (pem_print c)) 0) as [E|_];
    [by destruct (Hpem c); apply nil_length_inv|]. rewrite alloc_eq. step.
  destruct (cert_fold_ok (pem_print c)) as [-> ->%Nat.ltb_lt].
  split; [done|]. destruct h. repeat split; cbn; lia.
Qed.

Lemma sha1_returns ssl :
  returns (htp_sslutil_sha1_tostr (Some ssl))
    (if has_sha1 then of_cert (fun c => Some (sha1_text (sha1_digest c))) ssl else None).
Proof.
  unfold htp_sslutil_sha1_tostr. intros h. destruct has_sha1; cbn [negb].
  2:{ split; [done|]. repeat split; cbn; lia. }
  unfold with_cert, of_cert. cbn [mbind option_bind].
  destruct (SSL_get_peer_certificate ssl) as [c|]; [|split; [done|]; repeat split; cbn; lia].
  unfold bind, hold_x509, modify. rewrite attempt_eq. step. rewrite alloc_eq. step.
  pose proof (sha1_loop_ok (sha1_digest c) []) as E. cbn [Datatypes.app length] in E. rewrite E.
  rewrite sha1_cstr by done.
  split; [done|]. destruct h. repeat split; cbn; lia.
Qed.

(** The function of each field returns its text. *)
Lemma report_returns ssl :
  Forall2 (fun x y => x.1 = y.1 /\ returns (x.2 (Some ssl)) (y.2 ssl)) ssl_x_hdrs_ reports.
Proof.
  unfold ssl_x_hdrs_, reports.
  repeat (constructor; [split; [done|];
    first [apply name_returns | apply time_returns | apply serial_returns
          | apply cipher_returns | apply cert_returns | apply sha1_returns]|]).
  constructor.
Qed.

Lemma cstr_Forall s : cstr s = s -> Forall (fun c => c <> 0) s.
Proof.
  induction s as [|c s IH]; [constructor|]. cbn. destruct (Z.eqb_spec c 0); [done|].
  intros [= E]. constructor; [done|by apply IH].
Qed.
Lemma cert_value_cstr raw : raw <> [] -> cstr raw = raw -> cstr (cert_value raw) = cert_value raw.
Proof.
  intros Hne H. apply cstr_id. apply cstr_Forall in H. unfold cert_value. apply Forall_app. split.
  - assert (Forall (fun c => c <> 0) (removelast raw)) as Hr.
    { destruct raw as [|c r] using rev_ind; [done|]. rewrite removelast_last.
      by apply Forall_app in H as [? _]. }
    induction Hr as [|c s Hc _ IH]; [constructor|]. cbn [flat_map]. apply Forall_app. split; [|done].
    unfold fold_char. destruct (c =? LF); by repeat constructor.
  - destruct raw as [|c r] using rev_ind; [done|].
    rewrite last_last. apply Forall_app in H as [_ H]. destruct (c =? LF); [constructor|done].
Qed.

(** C29: a certificate survives as the value of a field: the value
    htp_sslutil_cert_tostr returns is the PEM text with its lines folded, so that
    undoing the folding gives the text back but for its last newline; every
    newline in it is one of a folded line, so the value cannot end the field;
    the buffer computed for it is never overrun, and no reference is kept. *)
Theorem cert_header_roundtrip ssl c h :
  SSL_get_peer_certificate ssl = Some c -> cstr (pem_print c) = pem_print c ->
  exists v h', htp_sslutil_cert_tostr (Some ssl) h = (Some v, h') /\
    same_refs h h' (Some v) /\ folded v = true /\
    pem_print c = unfold_value v ++ (if List.last (pem_print c) 0 =? LF then [LF] else []).
Proof.
  intros Hc Hz. destruct (cert_returns ssl h) as [Hv Hr]. unfold of_cert in Hv, Hr.
  rewrite Hc in Hv, Hr. cbn [mbind option_bind] in Hv, Hr. set (raw := pem_print c) in *.
  assert (cstr (cert_value raw) = cert_value raw) as Ez
    by by apply cert_value_cstr; [apply Hpem|].
  rewrite Ez in Hv, Hr. exists (cert_value raw), (htp_sslutil_cert_tostr (Some ssl) h).2.
  split; [by rewrite <- Hv; destruct (htp_sslutil_cert_tostr _ _)|]. split; [done|].
  pose proof (app_removelast_last 0 (Hpem c)) as Hl. fold raw in Hl. unfold cert_value.
  destruct (Z.eqb_spec (List.last raw 0) LF) as [E|E].
  - destruct (unfold_fold (removelast raw) []) as [-> ->]; [done..|]. split; [done|].
    rewrite app_nil_r. by rewrite Hl at 1; rewrite E.
  - assert (negb (List.last raw 0 =? LF) = true) as En by by apply negb_true_iff, Z.eqb_neq.
    destruct (unfold_fold (removelast raw) [List.last raw 0]) as [-> ->].
    { done. } { cbn. by rewrite En. }
    split; [done|]. by rewrite app_nil_r.
Qed.

(** ** The fields a request is given *)

Definition upper (s : list Z) : list Z := map TOLOWER s.
Lemma fold_eq_upper s t : fold_eq s t = bool_decide (upper s = upper t).
Proof.
  revert t. induction s as [|c s IH]; intros [|d t]; try done. cbn [fold_eq upper map].
  rewrite IH. destruct (Z.eqb_spec (TOLOWER c) (TOLOWER d)) as [E|E]; cbn [andb].
  - apply bool_decide_ext. unfold upper. rewrite E. split; [by intros ->|by intros [= ->]].
  - symmetry. apply bool_decide_eq_false. by intros [= ? _].
Qed.

(** The list without its first field of a name. *)
Fixpoint drop_first (name : list Z) (l : evhtp_kvs) : evhtp_kvs :=
  match l with
  | [] => []
  | x :: l => if match_header_key x name then l else x :: drop_first name l
  end.
Definition strip (l : evhtp_kvs) : evhtp_kvs := foldl (fun l name => drop_first name l) l removed_names.

Lemma remove_found l name :
  NoDup (map addr l) -> cstr name = name ->
  evhtp_kv_rm_and_free (Some l) (evhtp_kvs_find_kv (Some l) (Some name)) = Some (drop_first name l).
Proof.
  intros Hl Hn. unfold evhtp_kvs_find_kv. rewrite Hn. clear Hn.
  induction l as [|x l IH]; [done|]. cbn [kvs_find_kv_n drop_first].
  destruct (match_header_key x name); cbn [evhtp_kv_rm_and_free remove_addr].
  - by rewrite Z.eqb_refl.
  - inversion Hl as [|a m Hx Hl']; subst. specialize (IH Hl').
    assert (forall a b : evhtp_kvs, Some a = Some b -> Some (x :: a) = Some (x :: b)) as Hs
      by by intros ? ? [= ->].
    destruct (kvs_find_kv_n l name) as [y|] eqn:E; cbn in IH |- *; [|by apply Hs].
    assert (In y l) as Hy.
    { clear -E. induction l as [|z l IH]; [done|]. cbn in E.
      destruct (match_header_key z name); [injection E as ->; by left|right; by apply IH]. }
    destruct (Z.eqb_spec (addr x) (addr y)) as [Ea|_]; [|by apply Hs].
    destruct Hx. rewrite Ea. by apply list_elem_of_In, in_map.
Qed.

Lemma drop_first_sub name l x : In x (drop_first name l) -> In x l.
Proof.
  induction l as [|y l IH]; [done|]. cbn. destruct (match_header_key y name); [by right|].
  intros [->|H]; [by left|right; by apply IH].
Qed.
Lemma drop_first_nodup name l : NoDup (map addr l) -> NoDup (map addr (drop_first name l)).
Proof.
  induction l as [|y l IH]; [done|]. cbn [map drop_first]. intros [Hy Hl]%NoDup_cons.
  destruct (match_header_key y name); [done|]. cbn [map]. apply NoDup_cons. split; [|by apply IH].
  intros [z [Ez Hz]]%list_elem_of_In%in_map_iff. apply Hy, list_elem_of_In, in_map_iff.
  exists z. split; [done|by apply drop_first_sub in Hz].
Qed.

Lemma remove_xheaders_eq l :
  NoDup (map addr l) -> remove_xheaders (Some l) = Some (strip l).
Proof.
  unfold remove_xheaders, strip.
  assert (Forall (fun n => cstr n = n) removed_names) as Hc by by vm_compute; repeat constructor.
  revert l. induction Hc as [|n ns Hn _ IH]; intros l Hl; [done|]. cbn [foldl].
  rewrite remove_found by done. by apply IH, drop_first_nodup.
Qed.

(** *** Lookups after the removals *)

Definition count (l : evhtp_kvs) (k : list Z) : Z := kvs_count_kv_n l k.
Lemma count_nonneg l k : 0 <= count l k.
Proof. unfold count. rewrite (proj2 (proj2 (kv_find_first l k))). lia. Qed.
Lemma find_count l k : kvs_find_kv_n l k = None <-> count l k = 0.
Proof.
  unfold count. destruct (kv_find_first l k) as (_ & -> & ->).
  destruct (List.filter (matches k) l); cbn; split; intros; done || lia.
Qed.
Lemma count_drop l n k :
  count (drop_first n l) k <= count l k /\
  count (drop_first n l) n = Z.max 0 (count l n - 1).
Proof.
  unfold count. induction l as [|x l [IH1 IH2]]; [done|]. cbn [kvs_count_kv_n drop_first].
  pose proof (count_nonneg l n) as Hn. unfold count in Hn.
  destruct (match_header_key x n) eqn:E; cbn [kvs_count_kv_n]; rewrite ?E.
  - destruct (match_header_key x k); lia.
  - destruct (match_header_key x k); lia.
Qed.

Definition strips (ns : list (list Z)) (l : evhtp_kvs) : evhtp_kvs :=
  foldl (fun l name => drop_first name l) l ns.
Lemma strips_count ns l k : count (strips ns l) k <= count l k.
Proof.
  revert l. induction ns as [|n ns IH]; intros l; [done|]. cbn.
  etrans; [apply IH|]. apply count_drop.
Qed.
(** A field that occurs at most once is gone. *)
Lemma strips_once ns l n : In n ns -> count l n <= 1 -> kvs_find_kv_n (strips ns l) n = None.
Proof.
  revert l. induction ns as [|m ns IH]; intros l; [done|]. intros [-> | Hn] Hl; cbn.
  - apply find_count. pose proof (strips_count ns (drop_first n l) n) as H.
    pose proof (count_nonneg (strips ns (drop_first n l)) n). unfold strips in *.
    rewrite (proj2 (count_drop l n n)) in H. lia.
  - apply IH; [done|]. etrans; [apply count_drop|done].
Qed.
(** Another field is found as before. *)
Lemma strips_other ns l q :
  Forall kv_wf l -> Forall (fun n => upper n <> upper q) ns ->
  kvs_find_kv_n (strips ns l) q = kvs_find_kv_n l q.
Proof.
  intros Hl Hns. revert l Hl. induction Hns as [|n ns Hn _ IH]; intros l Hl; [done|]. cbn.
  change (foldl _ (drop_first n l) ns) with (strips ns (drop_first n l)).
  rewrite IH; [|apply Forall_forall; intros x Hx; eapply Forall_forall in Hl; [done|];
    apply list_elem_of_In; apply list_elem_of_In in Hx; by apply drop_first_sub in Hx].
  clear IH. induction Hl as [|x l Hx Hl IH]; [done|]. cbn [drop_first kvs_find_kv_n].
  change (match_header_key x) with (fun k => matches k x). cbn beta.
  rewrite !matches_wf, !fold_eq_upper by done.
  destruct (decide (upper (default [] (key x)) = upper n)) as [En|En].
  - rewrite bool_decide_true, bool_decide_false by congruence. done.
  - rewrite (bool_decide_false (_ = upper n)) by done. cbn [kvs_find_kv_n].
    change (match_header_key x q) with (matches q x). rewrite matches_wf, fold_eq_upper by done.
    by rewrite IH.
Qed.

Lemma find_app l1 l2 k :
  kvs_find_kv_n (l1 ++ l2) k =
  match kvs_find_kv_n l1 k with Some y => Some y | None => kvs_find_kv_n l2 k end.
Proof. induction l1 as [|x l1 IH]; [done|]. cbn. rewrite IH. by destruct (match_header_key x k). Qed.

(** *** The fields added *)

Definition xfield (a : Z) (name s : list Z) : evhtp_kv :=
  {| addr := a; key := Some name; val := Some (cstr s); klen := length name;
     vlen := length (cstr s); k_heaped := 0; v_heaped := 1 |}.
Fixpoint xfields (kv_mem : nat -> option Z * bool) (i : nat)
    (reps : list (list Z * Z * (SSL -> option (list Z)))) (ssl : SSL) (flags : Z) : evhtp_kvs :=
  match reps with
  | [] => []
  | (name, flag, text) :: reps =>
      (if has flags flag then
         match text ssl with Some s => [xfield (default 0 (kv_mem i).1) name s] | None => [] end
       else []) ++ xfields kv_mem (S i) reps ssl flags
  end.
Definition can_copy (kv_mem : nat -> option Z * bool) : Prop :=
  forall i, is_Some (kv_mem i).1 /\ (kv_mem i).2 = true.

Lemma refs_freed h h1 h2 s :
  same_refs h h1 (Some s) -> same_refs (h1 <| blocks := blocks h1 - 1 |>) h2 None ->
  same_refs h h2 None.
Proof.
  intros (?&?&?&?&?&?) (?&?&?&?&?&?). cbn in *. repeat split; congruence || lia.
Qed.

Lemma xhdr_loop_ok kv_mem ssl flags tbl reps :
  can_copy kv_mem ->
  Forall2 (fun x y => x.1 = y.1 /\ returns (x.2 (Some ssl)) (y.2 ssl)) tbl reps ->
  Forall (fun y => cstr y.1.1 = y.1.1) reps ->
  forall i l h,
    (xhdr_loop kv_mem i tbl ssl flags (Some l) h).1 = Some (l ++ xfields kv_mem i reps ssl flags) /\
    same_refs h (xhdr_loop kv_mem i tbl ssl flags (Some l) h).2 None.
Proof.
  intros Hk. induction 1 as [|[[n f] m] [[n' f'] t] tbl reps [E Hm] _ IH]; intros Hc i l h.
  { cbn. rewrite app_nil_r. split; [done|]. repeat split; cbn; lia. }
  apply Forall_cons in Hc as [Hn Hc]. cbn in E, Hm, Hn. injection E as -> ->.
  cbn [xhdr_loop xfields]. destruct (has flags f'); [|by apply IH].
  unfold bind at 1 3. destruct (Hm h) as [Ev Hr]. destruct (m (Some ssl) h) as [o h1].
  cbn in Ev, Hr. subst o. destruct (t ssl) as [s|].
  2:{ destruct (IH Hc (S i) l h1) as [-> Hr2]. split; [done|].
      destruct Hr as (?&?&?&?&?&?), Hr2 as (?&?&?&?&?&?). repeat split; congruence || lia. }
  destruct (Hk i) as [[a Ea] Eb]. destruct (kv_mem i) as [p vp]. cbn in Ea, Eb. subst p vp.
  unfold evhtp_header_new. rewrite kv_new_some, Hn. cbn [evhtp_headers_add_header evhtp_kvs_add_kv].
  unfold bind, free_block, modify. cbn [fmap option_fmap option_map default fst].
  match goal with |- context [xhdr_loop _ _ _ _ _ (Some ?l2) ?h2] =>
    pose proof (IH Hc (S i) l2 h2) as [E Hr2] end.
  split; [etrans; [exact E|]; by rewrite <- app_assoc|]. exact (refs_freed _ _ _ _ Hr Hr2).
Qed.

(** The names are different, in every spelling. *)
Lemma reports_names :
  NoDup (map (fun y => upper y.1.1) reports) /\ Forall (fun y => cstr y.1.1 = y.1.1) reports.
Proof.
  split; [|by repeat constructor].
  change (NoDup (map upper (map (fun y => y.1.1) reports))).
  apply (bool_decide_unpack _). vm_compute. exact I.
Qed.

Lemma reports_cstr :
  Forall (fun y => forall ssl s, y.2 ssl = Some s -> cstr s = s) reports.
Proof.
  assert (forall x s, nonempty x = Some s -> cstr s = s) as Hne.
  { unfold nonempty. intros x s. case_match; [done|]. intros [= <-]. apply cstr_idem. }
  assert (forall (o : option (list Z)) s, cstr <$> o = Some s -> cstr s = s) as Hmap.
  { intros [x|] s; [|done]. intros [= <-]. apply cstr_idem. }
  assert (forall (o : option (list Z)) s, o ≫= nonempty = Some s -> cstr s = s) as Hopt.
  { intros [x|] s; [apply Hne|done]. }
  assert (forall f ssl s, of_cert f ssl = Some s -> exists c, f c = Some s) as Hcert.
  { unfold of_cert. intros f ssl s. destruct (SSL_get_peer_certificate ssl) as [c|]; [|done].
    by exists c. }
  unfold reports. repeat (apply Forall_cons; split; [cbn [snd]; intros ssl s|]).
  1-5: intros [c E]%Hcert; revert E; first [apply Hmap | apply Hopt | apply Hne].
  - apply Hmap.
  - intros [c [= <-]]%Hcert. apply cstr_idem.
  - destruct has_sha1; [|done]. intros [c [= <-]]%Hcert. by rewrite <- sha1_cstr, cstr_idem.
  - by apply Forall_nil.
Qed.

Lemma xfields_other kv_mem i reps ssl flags q :
  Forall (fun y => upper y.1.1 <> upper q) reps ->
  kvs_find_kv_n (xfields kv_mem i reps ssl flags) q = None.
Proof.
  intros H. revert i. induction H as [|[[n f] t] reps Hn _ IH]; intros i; [done|].
  cbn [xfields]. rewrite find_app, IH. destruct (has flags f); [|done].
  destruct (t ssl); [|done]. cbn [kvs_find_kv_n]. unfold match_header_key. cbn [klen key xfield default].
  rewrite fold_eq_upper, bool_decide_false by done. by destruct (negb _).
Qed.

Lemma xfields_find kv_mem i reps ssl flags n f t :
  NoDup (map (fun y => upper y.1.1) reps) ->
  Forall (fun y => forall ssl s, y.2 ssl = Some s -> cstr s = s) reps ->
  In (n, f, t) reps ->
  kvs_find_kv_n (xfields kv_mem i reps ssl flags) n ≫= val =
  if has flags f then t ssl else None.
Proof.
  revert i. induction reps as [|[[n' f'] t'] reps IH]; intros i Hd Hc; [done|].
  cbn [map] in Hd. apply NoDup_cons in Hd as [Hn Hd]. apply Forall_cons in Hc as [Ht Hc].
  cbn [xfields]. rewrite find_app. intros [[= -> -> ->] | Hin].
  - rewrite xfields_other.
    + destruct (has flags f); [|done]. destruct (t ssl) as [s|] eqn:E; [|done].
      cbn [kvs_find_kv_n]. unfold match_header_key. cbn [klen key xfield default].
      rewrite Nat.eqb_refl, fold_eq_upper, bool_decide_true by done. cbn. by rewrite (Ht _ _ E).
    + apply Forall_forall. intros y Hy E. apply Hn.
      change (upper n ∈ map (fun y => upper y.1.1) reps). rewrite <- E.
      by apply list_elem_of_In, (in_map (fun y => upper y.1.1)), list_elem_of_In.
  - assert (upper n' <> upper n) as Hne.
    { intros E. apply Hn. change (upper n' ∈ map (fun y => upper y.1.1) reps). rewrite E.
      apply list_elem_of_In.
      exact (in_map (fun y => upper y.1.1) _ _ Hin). }
    rewrite <- (IH (S i) Hd Hc Hin). destruct (has flags f'); [|done].
    destruct (t' ssl); [|done]. cbn [kvs_find_kv_n]. unfold match_header_key.
    cbn [klen key xfield default]. rewrite fold_eq_upper, bool_decide_false by done.
    by destruct (negb _).
Qed.

(** C24: the fields htp_sslutil_add_xheaders leaves in a request, when flags are
    not 0 and no allocation and no call of OpenSSL fails (dates are what
    ASN1_TIME_print writes).  It then releases all it takes.  Each of the eight fields that is asked for is found with the
    text of the connection's certificate, and one that is not asked for or has no
    text is not found, unless the client's own fields of that name survive the
    removal: of a field sent twice the second one does, and X-SSL-SHA1 is not
    removed at all; such a field is the one a lookup finds.  Fields of other
    names are found as before. *)
Theorem xheaders_report kv_mem l ssl flags h :
  kvs_wf l -> can_copy kv_mem -> flags <> 0 ->
  exists l' h', htp_sslutil_add_xheaders kv_mem (Some l) (Some ssl) flags h = ((0, Some l'), h') /\
    same_refs h h' None /\
    (forall n f t, In (n, f, t) reports ->
       evhtp_header_find (Some l') (Some n) =
         match kvs_find_kv_n (strip l) n with
         | Some forged => val forged
         | None => if has flags f then t ssl else None
         end) /\
    (forall n, In n removed_names -> count l n <= 1 -> kvs_find_kv_n (strip l) n = None) /\
    kvs_find_kv_n (strip l) (bytes "X-SSL-SHA1") = kvs_find_kv_n l (bytes "X-SSL-SHA1") /\
    (forall q, cstr q = q -> Forall (fun y => upper y.1.1 <> upper q) reports ->
       evhtp_header_find (Some l') (Some q) = evhtp_header_find (Some l) (Some q)).
Proof.
  intros [Hwf Had] Hk Hf. destruct reports_names as [Hnd Hcs].
  assert (Forall (fun n => upper n <> upper (bytes "X-SSL-SHA1")) removed_names) as Hsha
    by (repeat constructor; by vm_compute).
  destruct (xhdr_loop_ok kv_mem ssl flags ssl_x_hdrs_ reports Hk (report_returns ssl) Hcs
    0 (strip l) h) as [El Hr].
  unfold htp_sslutil_add_xheaders. rewrite remove_xheaders_eq by done.
  destruct (Z.eqb_spec flags 0) as [|_]; [done|]. unfold bind at 1.
  destruct (xhdr_loop _ _ _ _ _ _ h) as [o h'] eqn:E. cbn in El, Hr. subst o.
  exists (strip l ++ xfields kv_mem 0 reports ssl flags), h'. split; [reflexivity|].
  split; [done|]. unfold evhtp_header_find, evhtp_kv_find. split_and!.
  - intros n f t Hin. assert (cstr n = n) as ->.
    { rewrite Forall_forall in Hcs. by apply (Hcs (n, f, t)), list_elem_of_In. }
    rewrite (proj1 (kv_find_first _ _)), find_app.
    destruct (kvs_find_kv_n (strip l) n) as [y|]; [done|].
    by apply xfields_find; [|apply reports_cstr|].
  - intros n Hn Hl. by apply strips_once.
  - by apply strips_other.
  - intros q -> Hq. rewrite !(proj1 (kv_find_first _ _)), find_app, xfields_other by done.
    assert (Forall (fun n => upper n <> upper q) removed_names) as Hq'.
    { assert (forall n, In n removed_names -> In n (map (fun y => y.1.1) reports)) as Hsub.
      { intros n Hn. rewrite <- (take_drop 7 (map _ _)). apply in_or_app. by left. }
      apply Forall_forall. intros n Hn%list_elem_of_In%Hsub%in_map_iff. destruct Hn as (y & <- & Hy).
      rewrite Forall_forall in Hq. by apply Hq, list_elem_of_In. }
    change (strip l) with (strips removed_names l). rewrite strips_other by done.
    by destruct (kvs_find_kv_n l q).
Qed.
End SslUtils.

(** ** Witnesses *)

(** A connection with the certificate of Eve, 3 bytes of digest. *)
#[local] Instance sample_ssl : OpenSSL := {
  SSL := unit; X509 := unit; ASN1_OBJECT := unit;
  SSL_get_peer_certificate _ := Some tt;
  subject_oneline _ := Some (bytes "/CN=eve");
  issuer_oneline _ := Some (bytes "/CN=ca");
  not_before_print _ := Some (bytes "Jan  1"); not_after_print _ := Some (bytes "Feb  1");
  serial_print _ := bytes "01"; has_sha1 := true; sha1_digest _ := [10; 0; 255];
  pem_print _ := bytes "-----BEGIN" ++ [LF] ++ bytes "AAA" ++ [LF] ++ bytes "-----END" ++ [LF];
  cipher_name _ := Some (Some (bytes "AES"));
  txt2obj _ := Some tt; get_ext _ _ := None; ASN1_get_object _ := (0, 0, 0, 0%nat) }.
Definition no_refs : held :=
  {| asked := 0; called := 0; x509s := 0; bios := 0; names := 0; objs := 0; blocks := 0;
     bad := false |}.

Lemma sample_pem c : pem_print (OpenSSL := sample_ssl) c <> [].
Proof. by vm_compute. Qed.
Lemma sample_digest c : Forall is_byte (sha1_digest (OpenSSL := sample_ssl) c).
Proof. by repeat constructor. Qed.

Lemma cert_header_roundtrip_witness :
  exists v h', htp_sslutil_cert_tostr (fun _ => true) (fun _ => true) (Some tt) no_refs = (Some v, h') /\
    same_refs no_refs h' (Some v) /\ folded v = true /\
    pem_print (OpenSSL := sample_ssl) tt = unfold_value v ++ [LF].
Proof.
  apply (cert_header_roundtrip (fun _ => true) (fun _ => true) (fun _ => eq_refl) (fun _ => eq_refl)
    sample_pem tt tt no_refs eq_refl).
  vm_compute. reflexivity.
Defined.

Example cert_value_sample :
  cert_value (pem_print (OpenSSL := sample_ssl) tt) =
  bytes "-----BEGIN" ++ [CR; LF; HTAB] ++ bytes "AAA" ++ [CR; LF; HTAB] ++ bytes "-----END" /\
  sha1_text [10; 0; 255] = bytes "0A:00:FF".
Proof. vm_compute. done. Qed.

(** A client that sends X-SSL-Subject twice. *)
Definition forged_fields : evhtp_kvs :=
  let f a n v := {| addr := a; key := Some n; val := Some v; klen := length n; vlen := length v;
                    k_heaped := 1; v_heaped := 1 |} in
  [f 1 (bytes "x-ssl-subject") (bytes "/CN=a"); f 2 (bytes "Host") (bytes "h");
   f 3 (bytes "X-SSL-Subject") (bytes "/CN=root"); f 4 (bytes "X-SSL-Issuer") (bytes "/CN=b")].
Definition fresh_fields (i : nat) : option Z * bool := (Some (100 + Z.of_nat i), true).

Lemma xheaders_report_witness :
  exists l' h', htp_sslutil_add_xheaders (fun _ => true) (fun _ => true) fresh_fields
      (Some forged_fields) (Some tt) 3 no_refs = ((0, Some l'), h') /\
    same_refs no_refs h' None /\
    evhtp_header_find (Some l') (Some (bytes "X-SSL-Subject")) = Some (bytes "/CN=root") /\
    evhtp_header_find (Some l') (Some (bytes "X-SSL-Issuer")) = Some (bytes "/CN=ca").
Proof.
  destruct (xheaders_report (fun _ => true) (fun _ => true) (fun _ => eq_refl) (fun _ => eq_refl)
    sample_pem sample_digest
    fresh_fields forged_fields tt 3 no_refs) as (l' & h' & E & Hr & Hf & _).
  - split; [by repeat constructor|]. apply (bool_decide_unpack _). vm_compute. exact I.
  - intros i. split; [by eexists|done].
  - done.
  - exists l', h'. split; [exact E|]. split; [exact Hr|].
    rewrite (Hf _ _ _ (or_introl eq_refl)), (Hf _ _ _ (or_intror (or_introl eq_refl))).
    vm_compute. done.
Defined.
