(* ===== verification/Query.v ===== *)
(** * evhtp.c: query strings

    [evhtp_parse_query_wflags], the state machine that splits a query string
    into arguments; [evhtp_unescape_string], percent-decoding; and
    [htp__uri_set_query_], which separates the fragment from a request
    target's query.  The key and value buffers are the bytes written so far,
    [key_idx] and [val_idx] their lengths; the build is the C99 one (buffers
    on the stack).  [mem i] gives the mallocs of the [i]th argument. *)

From S2P Require Import Prelude Kvs.

(** ** evhtp_parse_query_wflags *)

Definition EVHTP_PARSE_QUERY_FLAG_STRICT : Z := 0.
Definition EVHTP_PARSE_QUERY_FLAG_IGNORE_HEX : Z := Z.shiftl 1 0.
Definition EVHTP_PARSE_QUERY_FLAG_ALLOW_EMPTY_VALS : Z := Z.shiftl 1 1.
Definition EVHTP_PARSE_QUERY_FLAG_ALLOW_NULL_VALS : Z := Z.shiftl 1 2.
Definition EVHTP_PARSE_QUERY_FLAG_TREAT_SEMICOLON_AS_SEP : Z := Z.shiftl 1 3.
Definition EVHTP_PARSE_QUERY_FLAG_IGNORE_FRAGMENTS : Z := Z.shiftl 1 4.
Definition EVHTP_PARSE_QUERY_FLAG_LENIENT : Z :=
  Z.lor EVHTP_PARSE_QUERY_FLAG_IGNORE_HEX
    (Z.lor EVHTP_PARSE_QUERY_FLAG_ALLOW_EMPTY_VALS
      (Z.lor EVHTP_PARSE_QUERY_FLAG_ALLOW_NULL_VALS
             EVHTP_PARSE_QUERY_FLAG_TREAT_SEMICOLON_AS_SEP)).

Inductive query_parser_state :=
| s_query_start | s_query_separator | s_query_key | s_query_val
| s_query_key_hex_1 | s_query_key_hex_2 | s_query_val_hex_1 | s_query_val_hex_2
| s_query_done.

(** The enumerator's value: the end of the function compares states. *)
Definition query_state_index (s : query_parser_state) : nat :=
  match s with
  | s_query_start => 0 | s_query_separator => 1 | s_query_key => 2
  | s_query_val => 3 | s_query_key_hex_1 => 4 | s_query_key_hex_2 => 5
  | s_query_val_hex_1 => 6 | s_query_val_hex_2 => 7 | s_query_done => 8
  end%nat.

Definition evhtp_is_hex_query_char (ch : Z) : bool :=
  (("a"%c <=? ch) && (ch <=? "f"%c)) || (("A"%c <=? ch) && (ch <=? "F"%c)) ||
  (("0"%c <=? ch) && (ch <=? "9"%c)).

(** The function's local state. *)
Record query_st := {
  q_state : query_parser_state;
  key_buf : list Z;
  val_buf : list Z;
  q_args : evhtp_kvs;
  q_news : nat;   (** arguments allocated so far *)
  q_wild : bool   (** a store went before the start of a buffer *)
}.
#[export] Instance eta_query_st : EtaFields query_st := fun r =>
  Build_query_st (q_state r) (key_buf r) (val_buf r) (q_args r) (q_news r) (q_wild r).

Section Parse.
Context (mem : nat -> option Z * bool * bool) (flags : Z).

(** [evhtp_kvs_add_kv(query_args, evhtp_kv_new(key_buf, v, 1, val_alloc))] *)
Definition add_arg (v : option (list Z)) (val_alloc : Z) (q : query_st) : query_st :=
  let '(p, kp, vp) := mem (q_news q) in
  q <| q_args := default (q_args q)
         (evhtp_kvs_add_kv (Some (q_args q))
            (evhtp_kv_new p kp vp (Some (key_buf q)) v 1 val_alloc)) |>
    <| q_news := S (q_news q) |>.

Definition reset_bufs (q : query_st) : query_st :=
  q <| key_buf := [] |> <| val_buf := [] |>.
Definition push_key (ch : Z) (q : query_st) : query_st := q <| key_buf := key_buf q ++ [ch] |>.
Definition push_val (ch : Z) (q : query_st) : query_st := q <| val_buf := val_buf q ++ [ch] |>.
Definition to (s : query_parser_state) (q : query_st) : query_st := q <| q_state := s |>.

(** case s_query_key; [None] is [goto error]. *)
Definition query_key (ch : Z) (q : query_st) : option query_st :=
  let null_value :=
    if negb (has flags EVHTP_PARSE_QUERY_FLAG_ALLOW_NULL_VALS) then None
    else Some (to s_query_key (reset_bufs (add_arg None 1 q))) in
  if ch =? "="%c then Some (to s_query_val q)
  else if ch =? "%"%c then
    let q := push_key ch q in
    Some (if negb (has flags EVHTP_PARSE_QUERY_FLAG_IGNORE_HEX)
          then to s_query_key_hex_1 q else q)
  else if ch =? ";"%c then
    if negb (has flags EVHTP_PARSE_QUERY_FLAG_TREAT_SEMICOLON_AS_SEP)
    then Some (push_key ch q) else null_value
  else if ch =? "&"%c then null_value
  else Some (push_key ch q).

(** case s_query_val *)
Definition query_val (ch : Z) (q : query_st) : option query_st :=
  let next_arg := Some (to s_query_key (reset_bufs (add_arg (Some (val_buf q)) 1 q))) in
  if ch =? ";"%c then
    if negb (has flags EVHTP_PARSE_QUERY_FLAG_TREAT_SEMICOLON_AS_SEP)
    then Some (push_val ch q) else next_arg
  else if ch =? "&"%c then next_arg
  else if ch =? "%"%c then
    let q := push_val ch q in
    Some (if negb (has flags EVHTP_PARSE_QUERY_FLAG_IGNORE_HEX)
          then to s_query_val_hex_1 q else q)
  else Some (push_val ch q).

(** [key_buf[key_idx - 1] = '%'] and [val_buf[val_idx - 1] = '%']: a byte that was
    written already, if there is one. *)
Definition mark_percent (b : list Z) : list Z := <[(length b - 1)%nat := "%"%c]> b.
Definition mark_key (q : query_st) : query_st :=
  if (length (key_buf q) =? 0)%nat then q <| q_wild := true |>
  else q <| key_buf := mark_percent (key_buf q) |>.
Definition mark_val (q : query_st) : query_st :=
  if (length (val_buf q) =? 0)%nat then q <| q_wild := true |>
  else q <| val_buf := mark_percent (val_buf q) |>.

(** case s_query_key_hex_1 and s_query_key_hex_2; [len]: the query's length. *)
Definition query_key_hex_1 (len : nat) (ch : Z) (q : query_st) : option query_st :=
  if negb (evhtp_is_hex_query_char ch) then
    if (len <=? length (key_buf q) + 2)%nat then None
    else Some (to s_query_key (push_key ch (mark_key q)))
  else Some (to s_query_key_hex_2 (push_key ch q)).
Definition query_key_hex_2 (ch : Z) (q : query_st) : option query_st :=
  if negb (evhtp_is_hex_query_char ch) then None
  else Some (to s_query_key (push_key ch q)).

(** case s_query_val_hex_1 and s_query_val_hex_2 *)
Definition query_val_hex_1 (len : nat) (ch : Z) (q : query_st) : option query_st :=
  if negb (evhtp_is_hex_query_char ch) then
    if (len <=? length (val_buf q) + 2)%nat then None
    else if (length (val_buf q) =? 0)%nat then None
    else Some (to s_query_val (push_val ch (mark_val q)))
  else Some (to s_query_val_hex_2 (push_val ch q)).
Definition query_val_hex_2 (ch : Z) (q : query_st) : option query_st :=
  if negb (evhtp_is_hex_query_char ch) then None
  else Some (to s_query_val (push_val ch q)).

(** The body of the loop. *)
Definition query_step (len : nat) (ch : Z) (q : query_st) : option query_st :=
  if (len <=? length (key_buf q))%nat || (len <=? length (val_buf q))%nat then None
  else match q_state q with
       | s_query_start => query_key ch (to s_query_key (reset_bufs q))
       | s_query_key => query_key ch q
       | s_query_key_hex_1 => query_key_hex_1 len ch q
       | s_query_key_hex_2 => query_key_hex_2 ch q
       | s_query_val => query_val ch q
       | s_query_val_hex_1 => query_val_hex_1 len ch q
       | s_query_val_hex_2 => query_val_hex_2 ch q
       | s_query_separator | s_query_done => None
       end.

Fixpoint query_loop (len : nat) (query : list Z) (q : query_st) : option query_st :=
  match query with
  | [] => Some q
  | ch :: query' =>
      match query_step len ch q with
      | Some q' => query_loop len query' q'
      | None => None
      end
  end.

(** What follows the loop: the last argument. *)
Definition query_end (q : query_st) : option query_st :=
  if (length (key_buf q) =? 0)%nat then Some q
  else if negb (length (val_buf q) =? 0)%nat then Some (add_arg (Some (val_buf q)) 1 q)
  else if (query_state_index s_query_val <=? query_state_index (q_state q))%nat then
    if negb (has flags EVHTP_PARSE_QUERY_FLAG_ALLOW_EMPTY_VALS) then None
    else Some (add_arg (Some []) 1 q)
  else if negb (has flags EVHTP_PARSE_QUERY_FLAG_ALLOW_NULL_VALS) then None
  else Some (add_arg None 0 q).

Definition query_init : query_st :=
  {| q_state := s_query_start; key_buf := []; val_buf := []; q_args := []; q_news := 0;
     q_wild := false |}.

Definition SIZE_MAX : Z := 2 ^ 64 - 1.

Definition evhtp_parse_query_wflags (query : list Z) : option evhtp_kvs :=
  let len := length query in
  if u64 (SIZE_MAX - u64 (Z.of_nat len + 2)) <? Z.of_nat len then None
  else match query_loop len query query_init with
       | None => None
       | Some q => q_args <$> query_end q
       end.
End Parse.

Definition evhtp_parse_query (mem : nat -> option Z * bool * bool) (query : list Z) :
    option evhtp_kvs :=
  evhtp_parse_query_wflags mem EVHTP_PARSE_QUERY_FLAG_STRICT query.

(** ** evhtp_unescape_string *)

Inductive unscape_state := unscape_state_start | unscape_state_hex1 | unscape_state_hex2.

(** One byte: the state, the high digit [d], and the byte written, if any. *)
Definition unscape_step (st : unscape_state) (d ch : Z) : unscape_state * Z * list Z :=
  let c := Z.lor ch 32 in
  match st with
  | unscape_state_start =>
      if ch =? "%"%c then (unscape_state_hex1, d, []) else (unscape_state_start, d, [ch])
  | unscape_state_hex1 =>
      if ("0"%c <=? ch) && (ch <=? "9"%c) then (unscape_state_hex2, u8 (ch - "0"%c), [])
      else if ("a"%c <=? c) && (c <=? "f"%c)
      then (unscape_state_hex2, u8 (c - "a"%c + 10), [])
      else (unscape_state_start, d, [ch])
  | unscape_state_hex2 =>
      if ("0"%c <=? ch) && (ch <=? "9"%c)
      then (unscape_state_start, d, [u8 (Z.shiftl d 4 + ch - "0"%c)])
      else if ("a"%c <=? c) && (c <=? "f"%c)
      then (unscape_state_start, d, [u8 (Z.shiftl d 4 + c - "a"%c + 10)])
      else (unscape_state_start, d, [])
  end.

Fixpoint unscape_loop (st : unscape_state) (d : Z) (str : list Z) : list Z :=
  match str with
  | [] => []
  | ch :: str' => let '(st', d', out) := unscape_step st d ch in
                  out ++ unscape_loop st' d' str'
  end.

(** The bytes written to [*out]. *)
Definition evhtp_unescape_string (str : list Z) : list Z :=
  unscape_loop unscape_state_start 0 str.

(** ** What a query string means, leniently

    The pieces between separators, each split at its first equals sign; a
    piece without one has no value; a final piece with an empty name is
    dropped. *)

Definition is_sep (c : Z) : bool := (c =? "&"%c) || (c =? ";"%c).

Fixpoint pieces (s : list Z) : list (list Z) :=
  match s with
  | [] => [[]]
  | c :: s' =>
      if is_sep c then [] :: pieces s'
      else match pieces s' with p :: ps => (c :: p) :: ps | [] => [[c]] end
  end.

Fixpoint arg_of (p : list Z) : list Z * option (list Z) :=
  match p with
  | [] => ([], None)
  | c :: p' => if c =? "="%c then ([], Some p')
               else let '(k, v) := arg_of p' in (c :: k, v)
  end.

Fixpoint args_of (ps : list (list Z)) : list (list Z * option (list Z)) :=
  match ps with
  | [] => []
  | [p] => match arg_of p with ([], _) => [] | a => [a] end
  | p :: ps' => arg_of p :: args_of ps'
  end.

(** An argument as it is found in the list: name and value, as C strings. *)
Definition stored (a : list Z * option (list Z)) : option (list Z) * option (list Z) :=
  (Some (cstr a.1), cstr <$> a.2).
Definition view (x : evhtp_kv) : option (list Z) * option (list Z) := (key x, val x).

(** Allocations that succeed. *)
Definition mem_ok (mem : nat -> option Z * bool * bool) : Prop :=
  forall i, exists a, mem i = (Some a, true, true).

Section Queries.
Context (mem : nat -> option Z * bool * bool) (Hmem : mem_ok mem).

Lemma add_arg_view v va q :
  map view (q_args (add_arg mem v va q)) = map view (q_args q) ++ [stored (key_buf q, v)] /\
  q_state (add_arg mem v va q) = q_state q /\
  key_buf (add_arg mem v va q) = key_buf q /\ val_buf (add_arg mem v va q) = val_buf q.
Proof.
  unfold add_arg. destruct (Hmem (q_news q)) as [a ->]. split_and!; try done.
  rewrite kv_new_some. cbn. rewrite map_app. by destruct v.
Qed.

Lemma pieces_app p s : Forall (fun c => is_sep c = false) p ->
  pieces (p ++ s) = match pieces s with x :: xs => (p ++ x) :: xs | [] => [p] end.
Proof.
  induction 1 as [|c p Hc _ IH]; cbn.
  - destruct s as [|c s]; [done|]. cbn. destruct (is_sep c); [done|]. by destruct (pieces s).
  - rewrite Hc, IH. by destruct (pieces s).
Qed.

Lemma pieces_ne s : pieces s <> [].
Proof. destruct s as [|c s]; [done|]. cbn. destruct (is_sep c); [done|]. by destruct (pieces s). Qed.

Lemma arg_of_app k v : Forall (fun c => c <> "="%c) k ->
  arg_of (k ++ v) = (k ++ (arg_of v).1, (arg_of v).2).
Proof.
  induction 1 as [|c k Hc _ IH]; cbn; [by destruct (arg_of v)|].
  destruct (Z.eqb_spec c 61); [done|]. by rewrite IH.
Qed.

(** The piece being read, as the buffers show it. *)
Definition current (q : query_st) : list Z :=
  key_buf q ++ match q_state q with s_query_val => "="%c :: val_buf q | _ => [] end.

Record lenient_inv (len : nat) (rest : list Z) (q : query_st) : Prop := {
  li_state : q_state q = s_query_key \/ q_state q = s_query_val;
  li_val : q_state q = s_query_key -> val_buf q = [];
  li_room : (length (key_buf q) + length (val_buf q) + length rest <= len)%nat;
  li_key : Forall (fun c => is_sep c = false /\ c <> "="%c) (key_buf q);
  li_vals : Forall (fun c => is_sep c = false) (val_buf q)
}.

Lemma current_arg len rest q : lenient_inv len rest q ->
  Forall (fun c => is_sep c = false) (current q) /\
  arg_of (current q) =
    (key_buf q, match q_state q with s_query_val => Some (val_buf q) | _ => None end).
Proof.
  intros [Hst Hv _ Hk Hvs].
  assert (Forall (fun c => is_sep c = false) (key_buf q)) as Hk1
    by (eapply Forall_impl; [exact Hk|tauto]).
  assert (Forall (fun c => c <> "="%c) (key_buf q)) as Hk2
    by (eapply Forall_impl; [exact Hk|tauto]).
  unfold current. rewrite arg_of_app by done.
  destruct Hst as [-> | ->]; cbn; rewrite ?app_nil_r; split; try done.
  apply Forall_app. split; [done|]. by apply Forall_cons.
Qed.

Abbreviation L := EVHTP_PARSE_QUERY_FLAG_LENIENT.

(** The three kinds of step: a separator, a byte of the name, of the value. *)
Lemma sep_step len c rest q v :
  lenient_inv len (c :: rest) q -> v = (arg_of (current q)).2 ->
  let q' := to s_query_key (reset_bufs (add_arg mem v 1 q)) in
  lenient_inv len rest q' /\ current q' = [] /\
  map view (q_args q') = map view (q_args q) ++ [stored (arg_of (current q))].
Proof.
  intros Hinv ->. destruct (current_arg _ _ _ Hinv) as [_ Harg].
  destruct (add_arg_view (arg_of (current q)).2 1 q) as (Hv & _).
  destruct Hinv as [_ _ Hroom _ _]. cbn [length] in Hroom. rewrite Harg in *.
  cbn [snd] in *. split; [|split; [done|exact Hv]].
  split; cbn; try done; [by left|lia].
Qed.

Lemma key_step len c rest q :
  lenient_inv len (c :: rest) q -> q_state q = s_query_key ->
  is_sep c = false -> c <> "="%c ->
  let q' := push_key c q in
  lenient_inv len rest q' /\ current q' = current q ++ [c] /\
  map view (q_args q') = map view (q_args q).
Proof.
  intros [_ Hv Hroom Hk Hvs] Hst Hsep Heq q'. cbn [length] in Hroom.
  split; [|split; [|done]].
  - split; cbn; try done; [by left| |].
    + rewrite length_app. cbn. lia.
    + apply Forall_app. split; [done|]. by apply Forall_singleton.
  - unfold current, q'. cbn. rewrite Hst. by rewrite !app_nil_r.
Qed.

Lemma val_step len c rest q :
  lenient_inv len (c :: rest) q -> q_state q = s_query_val -> is_sep c = false ->
  let q' := push_val c q in
  lenient_inv len rest q' /\ current q' = current q ++ [c] /\
  map view (q_args q') = map view (q_args q).
Proof.
  intros [_ Hv Hroom Hk Hvs] Hst Hsep q'. cbn [length] in Hroom.
  split; [|split; [|done]].
  - split; cbn; try done; [by right|congruence| |].
    + rewrite length_app. cbn. lia.
    + apply Forall_app. split; [done|]. by apply Forall_singleton.
  - unfold current, q'. cbn. rewrite Hst. by rewrite <- app_assoc.
Qed.

Lemma eq_step len rest q :
  lenient_inv len ("="%c :: rest) q -> q_state q = s_query_key ->
  let q' := to s_query_val q in
  lenient_inv len rest q' /\ current q' = current q ++ ["="%c] /\
  map view (q_args q') = map view (q_args q).
Proof.
  intros [_ Hv Hroom Hk Hvs] Hst q'. specialize (Hv Hst). cbn [length] in Hroom.
  split; [|split; [|done]].
  - split; cbn; try done; [by right|lia].
  - unfold current, q'. cbn. by rewrite Hst, Hv, app_nil_r.
Qed.

(** One byte of a lenient query: it ends the piece, or extends it. *)
Lemma lenient_step len c rest q :
  lenient_inv len (c :: rest) q ->
  exists q', query_step mem L len c q = Some q' /\ lenient_inv len rest q' /\
    current q' = (if is_sep c then [] else current q ++ [c]) /\
    map view (q_args q') = map view (q_args q) ++
      (if is_sep c then [stored (arg_of (current q))] else []).
Proof.
  intros Hinv. destruct (current_arg _ _ _ Hinv) as [_ Harg].
  pose proof (li_room _ _ _ Hinv) as Hroom. cbn [length] in Hroom.
  pose proof (sep_step len c rest q _ Hinv eq_refl) as Hsepstep. rewrite Harg in Hsepstep.
  rewrite Harg. unfold query_step.
  rewrite !(proj2 (Nat.leb_gt len _)) by lia. cbn [orb].
  destruct (li_state _ _ _ Hinv) as [Hst|Hst]; rewrite Hst in *.
  - unfold query_key.
    change (has L EVHTP_PARSE_QUERY_FLAG_ALLOW_NULL_VALS) with true.
    change (has L EVHTP_PARSE_QUERY_FLAG_IGNORE_HEX) with true.
    change (has L EVHTP_PARSE_QUERY_FLAG_TREAT_SEMICOLON_AS_SEP) with true. cbn [negb].
    destruct (Z.eqb_spec c "="%c) as [->|Hne].
    { eexists. split; [reflexivity|]. cbn [is_sep]. rewrite app_nil_r.
      destruct (eq_step len rest q Hinv Hst) as (H1 & H2 & H3). done. }
    destruct (is_sep c) eqn:Hsep; unfold is_sep in Hsep.
    + destruct (Z.eqb_spec c "%"%c) as [->|]; [done|].
      exists (to s_query_key (reset_bufs (add_arg mem None 1 q))).
      destruct Hsepstep as (H1 & H2 & H3). split_and!; try done.
      destruct (c =? ";"%c); [done|]. rewrite orb_false_r in Hsep. by rewrite Hsep.
    + apply orb_false_iff in Hsep as Hsep'. destruct Hsep' as [Ha Hb]. rewrite Ha, Hb.
      rewrite app_nil_r. exists (push_key c q).
      destruct (key_step len c rest q Hinv Hst Hsep Hne) as (H1 & H2 & H3).
      split; [by destruct (c =? "%"%c)|done].
  - unfold query_val.
    change (has L EVHTP_PARSE_QUERY_FLAG_IGNORE_HEX) with true.
    change (has L EVHTP_PARSE_QUERY_FLAG_TREAT_SEMICOLON_AS_SEP) with true. cbn [negb].
    destruct (is_sep c) eqn:Hsep; unfold is_sep in Hsep.
    + exists (to s_query_key (reset_bufs (add_arg mem (Some (val_buf q)) 1 q))).
      destruct Hsepstep as (H1 & H2 & H3). split_and!; try done.
      destruct (c =? ";"%c); [done|]. rewrite orb_false_r in Hsep. by rewrite Hsep.
    + apply orb_false_iff in Hsep as Hsep'. destruct Hsep' as [Ha Hb]. rewrite Ha, Hb.
      rewrite app_nil_r. exists (push_val c q).
      destruct (val_step len c rest q Hinv Hst Hsep) as (H1 & H2 & H3).
      split; [by destruct (c =? "%"%c)|done].
Qed.

Lemma args_of_cons p ps : ps <> [] -> args_of (p :: ps) = arg_of p :: args_of ps.
Proof. by destruct ps. Qed.

Lemma lenient_loop len s q :
  lenient_inv len s q ->
  exists q', query_loop mem L len s q = Some q' /\ lenient_inv len [] q' /\
    map view (q_args q') ++ map stored (args_of [current q']) =
    map view (q_args q) ++ map stored (args_of (pieces (current q ++ s))).
Proof.
  revert q. induction s as [|c s IH]; intros q Hinv.
  { exists q. split; [done|]. split; [done|].
    rewrite pieces_app by apply (current_arg _ _ _ Hinv). cbn. by rewrite app_nil_r. }
  destruct (lenient_step len c s q Hinv) as (q1 & Hs & Hinv1 & Hc & Hv).
  cbn [query_loop]. rewrite Hs.
  destruct (IH q1 Hinv1) as (q2 & Hq2 & Hinv2 & Heq). exists q2.
  split; [done|]. split; [done|]. rewrite Heq, Hv, <- app_assoc.
  destruct (current_arg _ _ _ Hinv) as [Hq _]. destruct (current_arg _ _ _ Hinv1) as [Hq1 _].
  rewrite (pieces_app (current q1)), (pieces_app (current q)) by done. rewrite Hc.
  cbn [pieces]. pose proof (pieces_ne s) as Hne.
  destruct (is_sep c) eqn:Hsep; cbn [app].
  - rewrite app_nil_r, args_of_cons by done. by destruct (pieces s).
  - destruct (pieces s) as [|x xs]; [done|]. by rewrite <- app_assoc.
Qed.

(** C30: with the lenient flags a query string is never refused, and its
    arguments are exactly the pieces between '&' and ';', each split at its
    first '=' (later ones belong to the value), a piece without '=' having no
    value and a last piece without a name being left out. *)
Theorem parse_query_lenient s :
  2 * Z.of_nat (length s) + 2 < 2 ^ 64 ->
  option_map (map view) (evhtp_parse_query_wflags mem L s) =
    Some (map stored (args_of (pieces s))).
Proof.
  intros Hlen. unfold evhtp_parse_query_wflags.
  assert ((u64 (SIZE_MAX - u64 (Z.of_nat (length s) + 2)) <? Z.of_nat (length s)) = false) as ->.
  { unfold u64, SIZE_MAX. rewrite (Z.mod_small (Z.of_nat (length s) + 2)) by lia.
    rewrite Z.mod_small by lia. lia. }
  destruct s as [|c s]; [done|].
  set (q0 := to s_query_key (reset_bufs query_init)).
  assert (query_loop mem L (length (c :: s)) (c :: s) query_init =
          query_loop mem L (length (c :: s)) (c :: s) q0) as -> by done.
  assert (lenient_inv (length (c :: s)) (c :: s) q0) as Hinv by (split; cbn; auto; lia).
  destruct (lenient_loop _ _ _ Hinv) as (q & -> & Hq & Hargs).
  change (current q0) with (@nil Z) in Hargs. change (map view (q_args q0)) with
    (@nil (option (list Z) * option (list Z))) in Hargs. cbn [app] in Hargs.
  rewrite <- Hargs. destruct (current_arg _ _ _ Hq) as [_ Harg].
  cbn [args_of]. rewrite Harg. unfold query_end.
  change (has L EVHTP_PARSE_QUERY_FLAG_ALLOW_EMPTY_VALS) with true.
  change (has L EVHTP_PARSE_QUERY_FLAG_ALLOW_NULL_VALS) with true. cbn [negb].
  destruct (key_buf q) as [|k ks] eqn:Hk; [cbn; by rewrite app_nil_r|]. cbn [length Nat.eqb].
  destruct (li_state _ _ _ Hq) as [Hst|Hst]; rewrite Hst in *.
  - rewrite (li_val _ _ _ Hq Hst). cbn. f_equal.
    destruct (add_arg_view None 0 q) as [-> _]. by rewrite Hk.
  - destruct (val_buf q) as [|v vs] eqn:Hv; cbn; f_equal.
    + destruct (add_arg_view (Some []) 1 q) as [-> _]. by rewrite Hk.
    + destruct (add_arg_view (Some (v :: vs)) 1 q) as [-> _]. by rewrite Hk.
Qed.
End Queries.

Definition mem_good (i : nat) : option Z * bool * bool := (Some (Z.of_nat i), true, true).
Lemma mem_good_ok : mem_ok mem_good.
Proof. intros i. by eexists. Qed.

Lemma parse_query_lenient_witness :
  option_map (map view) (evhtp_parse_query_wflags mem_good EVHTP_PARSE_QUERY_FLAG_LENIENT
    (bytes "a=1&b;c=%zz=&=")) =
  Some [(Some (bytes "a"), Some (bytes "1")); (Some (bytes "b"), None);
        (Some (bytes "c"), Some (bytes "%zz="))].
Proof.
  rewrite (parse_query_lenient mem_good mem_good_ok); [reflexivity|].
  vm_compute. reflexivity.
Defined.

(** ** The buffers *)

(** A state that follows a percent sign has it in its buffer. *)
Definition sane (n : nat) (q : query_st) : Prop :=
  q_wild q = false /\ (length (key_buf q) <= n)%nat /\ (length (val_buf q) <= n)%nat /\
  (q_state q = s_query_key_hex_1 -> key_buf q <> []).

Lemma sane_step mem flags len n c q q' :
  sane n q -> query_step mem flags len c q = Some q' -> sane (S n) q'.
Proof.
  intros (Hw & Hk & Hv & Hh). unfold sane.
  unfold query_step, query_key, query_key_hex_1, query_key_hex_2, query_val, query_val_hex_1,
    query_val_hex_2, add_arg, mark_key, mark_val, mark_percent.
  repeat case_match; intros; simplify_eq/=;
    rewrite ?length_app, ?length_insert; cbn; split_and!; try done; try lia; try congruence.
  all: try (intros _ E; by apply app_eq_nil in E as [_ ?]).
  all: exfalso; apply Hh; [done|]; apply nil_length_inv, Nat.eqb_eq; assumption.
Qed.

(** C31: no store of the query parser leaves the key and value buffers, which have
    one byte more than the query.  Whatever the flags, after any prefix of the
    query no store went before the start of a buffer, and each buffer holds at
    most as many bytes as were read: while there is a byte left, it and its NUL
    fit, and the loop's own bounds check does not trigger. *)
Theorem query_buffers_bounded mem flags p rest q :
  let len := length (p ++ rest) in
  query_loop mem flags len p query_init = Some q ->
  q_wild q = false /\ (length (key_buf q) < len + 1)%nat /\ (length (val_buf q) < len + 1)%nat /\
  (rest <> [] ->
     (length (key_buf q) + 1 < len + 1)%nat /\ (length (val_buf q) + 1 < len + 1)%nat /\
     ((len <=? length (key_buf q))%nat || (len <=? length (val_buf q))%nat) = false).
Proof.
  intros len Hq. assert (sane (length p) q) as (Hw & Hk & Hv & _).
  { revert Hq. generalize len. clear. intros len.
    enough (forall p q0 n, sane n q0 -> query_loop mem flags len p q0 = Some q -> sane (n + length p) q)
      as H by by apply (H p query_init 0%nat).
    clear p. induction p as [|c p IH]; intros q0 n Hn; cbn; [intros [= <-]; by rewrite Nat.add_0_r|].
    destruct (query_step mem flags len c q0) as [q1|] eqn:E; [|done].
    replace (n + S (length p))%nat with (S n + length p)%nat by lia.
    apply IH. by eapply sane_step. }
  assert (len = length p + length rest)%nat as Hlen by (unfold len; by rewrite length_app).
  split; [done|]. split; [lia|]. split; [lia|]. intros Hr.
  assert (0 < length rest)%nat by (destruct rest; [done|cbn; lia]).
  split; [lia|]. split; [lia|]. by rewrite !(proj2 (Nat.leb_gt len _)) by lia.
Qed.

(** A percent sign that starts no escape, overwritten by itself. *)
Lemma query_buffers_bounded_witness :
  let q := default query_init (query_loop mem_good EVHTP_PARSE_QUERY_FLAG_STRICT 6
             (bytes "a%z=b") query_init) in
  key_buf q = bytes "a%z" /\ q_wild q = false /\
  (length (key_buf q) < 6 + 1)%nat /\ (length (val_buf q) < 6 + 1)%nat.
Proof.
  split; [reflexivity|].
  pose proof (query_buffers_bounded mem_good EVHTP_PARSE_QUERY_FLAG_STRICT (bytes "a%z=b") (bytes "c")
    _ eq_refl) as (H1 & H2 & H3 & _). by split_and!.
Defined.

(** ** Strict queries *)

(** Text whose percent signs all start a two-digit escape, and without the
    delimiters [excl]. *)
Inductive escaped (excl : Z -> bool) : list Z -> Prop :=
| esc_nil : escaped excl []
| esc_plain c s : excl c = false -> c <> "%"%c -> escaped excl s -> escaped excl (c :: s)
| esc_hex h1 h2 s :
    evhtp_is_hex_query_char h1 = true -> evhtp_is_hex_query_char h2 = true ->
    escaped excl s -> escaped excl ("%"%c :: h1 :: h2 :: s).

Definition key_delim (c : Z) : bool := (c =? "="%c) || (c =? "&"%c).
Definition val_delim (c : Z) : bool := c =? "&"%c.
Definition pair_ok (a : list Z * list Z) : Prop :=
  escaped key_delim a.1 /\ escaped val_delim a.2.

Fixpoint render_query (ps : list (list Z * list Z)) (l : list Z * list Z) : list Z :=
  match ps with
  | [] => l.1 ++ "="%c :: l.2
  | a :: ps' => a.1 ++ "="%c :: a.2 ++ "&"%c :: render_query ps' l
  end.

Section Strict.
Context (mem : nat -> option Z * bool * bool) (Hmem : mem_ok mem).
Abbreviation STRICT := EVHTP_PARSE_QUERY_FLAG_STRICT.

Lemma key_token len k rest q :
  escaped key_delim k -> q_state q = s_query_key ->
  (length (key_buf q) + length k < len)%nat -> (length (val_buf q) < len)%nat ->
  query_loop mem STRICT len (k ++ rest) q =
  query_loop mem STRICT len rest (q <| key_buf := key_buf q ++ k |>).
Proof.
  intros Hk. revert q. induction Hk as [|c k Hc Hp _ IH|h1 h2 k H1 H2 _ IH];
    intros q Hst Hroom Hval; cbn [length] in Hroom.
  - rewrite app_nil_r. by destruct q.
  - cbn [app query_loop]. unfold query_step.
    rewrite !(proj2 (Nat.leb_gt len _)) by lia. rewrite Hst. cbn [orb]. unfold query_key.
    unfold key_delim in Hc. apply orb_false_iff in Hc as [-> ->].
    destruct (Z.eqb_spec c 37); [done|].
    change (has STRICT EVHTP_PARSE_QUERY_FLAG_TREAT_SEMICOLON_AS_SEP) with false. cbn [negb].
    rewrite (if_same (c =? ";"%c) (Some (push_key c q))).
    rewrite IH by (cbn; rewrite ?length_app; cbn; done || lia).
    cbn. by rewrite <- app_assoc.
  - cbn [app query_loop]. unfold query_step at 1.
    rewrite !(proj2 (Nat.leb_gt len _)) by lia. rewrite Hst. cbn [orb].
    change (query_key mem STRICT "%"%c q) with
      (Some (to s_query_key_hex_1 (push_key "%"%c q))).
    unfold query_step at 1. cbn [key_buf val_buf q_state to push_key set_field eta_fields eta_query_st].
    rewrite !(proj2 (Nat.leb_gt len _)) by (rewrite ?length_app; cbn; lia). cbn [orb].
    unfold query_key_hex_1. rewrite H1. cbn [negb].
    unfold query_step at 1. cbn [key_buf val_buf q_state to push_key set_field eta_fields eta_query_st].
    rewrite !(proj2 (Nat.leb_gt len _)) by (rewrite ?length_app; cbn; lia). cbn [orb].
    unfold query_key_hex_2. rewrite H2. cbn [negb].
    rewrite IH by (cbn; rewrite ?length_app; cbn; done || lia).
    cbn. by rewrite <- !app_assoc, Hst.
Qed.

Lemma val_token len v rest q :
  escaped val_delim v -> q_state q = s_query_val ->
  (length (val_buf q) + length v < len)%nat -> (length (key_buf q) < len)%nat ->
  query_loop mem STRICT len (v ++ rest) q =
  query_loop mem STRICT len rest (q <| val_buf := val_buf q ++ v |>).
Proof.
  intros Hv. revert q. induction Hv as [|c v Hc Hp _ IH|h1 h2 v H1 H2 _ IH];
    intros q Hst Hroom Hkey; cbn [length] in Hroom.
  - rewrite app_nil_r. by destruct q.
  - cbn [app query_loop]. unfold query_step.
    rewrite !(proj2 (Nat.leb_gt len _)) by lia. rewrite Hst. cbn [orb]. unfold query_val.
    unfold val_delim in Hc. rewrite Hc. destruct (Z.eqb_spec c 37); [done|].
    change (has STRICT EVHTP_PARSE_QUERY_FLAG_TREAT_SEMICOLON_AS_SEP) with false. cbn [negb].
    rewrite (if_same (c =? ";"%c) (Some (push_val c q))).
    rewrite IH by (cbn; rewrite ?length_app; cbn; done || lia).
    cbn. by rewrite <- app_assoc.
  - cbn [app query_loop]. unfold query_step at 1.
    rewrite !(proj2 (Nat.leb_gt len _)) by lia. rewrite Hst. cbn [orb].
    change (query_val mem STRICT "%"%c q) with
      (Some (to s_query_val_hex_1 (push_val "%"%c q))).
    unfold query_step at 1. cbn [key_buf val_buf q_state to push_val set_field eta_fields eta_query_st].
    rewrite !(proj2 (Nat.leb_gt len _)) by (rewrite ?length_app; cbn; lia). cbn [orb].
    unfold query_val_hex_1. rewrite H1. cbn [negb].
    unfold query_step at 1. cbn [key_buf val_buf q_state to push_val set_field eta_fields eta_query_st].
    rewrite !(proj2 (Nat.leb_gt len _)) by (rewrite ?length_app; cbn; lia). cbn [orb].
    unfold query_val_hex_2. rewrite H2. cbn [negb].
    rewrite IH by (cbn; rewrite ?length_app; cbn; done || lia).
    cbn. by rewrite <- !app_assoc, Hst.
Qed.

(** A whole pair: its bytes end up in the two buffers. *)
Lemma pair_token len a rest q :
  pair_ok a -> q_state q = s_query_key -> key_buf q = [] -> val_buf q = [] ->
  (length a.1 + length a.2 < len)%nat ->
  query_loop mem STRICT len (a.1 ++ "="%c :: a.2 ++ rest) q =
  query_loop mem STRICT len rest
    (q <| q_state := s_query_val |> <| key_buf := a.1 |> <| val_buf := a.2 |>).
Proof.
  intros [Hk Hv] Hst Hkb Hvb Hroom.
  rewrite key_token by (rewrite ?Hkb, ?Hvb; cbn; done || lia). rewrite Hkb.
  cbn [app query_loop]. unfold query_step.
  cbn [key_buf val_buf q_state set_field eta_fields eta_query_st]. rewrite Hvb, Hst.
  rewrite !(proj2 (Nat.leb_gt len _)) by (cbn; lia). cbn [orb].
  unfold query_key. change ("="%c =? "="%c) with true. cbn iota.
  rewrite val_token by (cbn; rewrite ?Hvb; cbn; done || lia).
  cbn. by rewrite ?Hvb.
Qed.

Lemma strict_loop len ps l q :
  Forall pair_ok ps -> pair_ok l -> q_state q = s_query_key -> key_buf q = [] ->
  val_buf q = [] -> (length (render_query ps l) <= len)%nat ->
  exists q', query_loop mem STRICT len (render_query ps l) q = Some q' /\
    q_state q' = s_query_val /\ key_buf q' = l.1 /\ val_buf q' = l.2 /\
    map view (q_args q') = map view (q_args q) ++ map (fun a => stored (a.1, Some a.2)) ps.
Proof.
  intros Hps Hl. revert q. induction Hps as [|a ps Ha _ IH]; intros q Hst Hk Hv Hlen.
  - cbn [render_query] in *. rewrite length_app in Hlen. cbn [length] in Hlen.
    replace (l.1 ++ "="%c :: l.2) with (l.1 ++ "="%c :: l.2 ++ []) by (by rewrite app_nil_r).
    rewrite pair_token by (done || lia). eexists. split; [reflexivity|]. cbn.
    by rewrite app_nil_r.
  - cbn [render_query] in *.
    rewrite length_app in Hlen. cbn [length] in Hlen. rewrite length_app in Hlen.
    cbn [length] in Hlen.
    rewrite pair_token by (done || lia). cbn [query_loop]. unfold query_step at 1.
    cbn [key_buf val_buf q_state set_field eta_fields eta_query_st].
    rewrite !(proj2 (Nat.leb_gt len _)) by lia. cbn [orb].
    set (q1 := q <| q_state := s_query_val |> <| key_buf := a.1 |> <| val_buf := a.2 |>).
    change (query_val mem STRICT "&"%c q1) with
      (Some (to s_query_key (reset_bufs (add_arg mem (Some a.2) 1 q1)))).
    destruct (add_arg_view mem Hmem (Some a.2) 1 q1) as (Hview & _).
    destruct (IH (to s_query_key (reset_bufs (add_arg mem (Some a.2) 1 q1))))
      as (q' & E & H1 & H2 & H3 & H4); try done; [lia|].
    exists q'. split; [exact E|]. split_and!; try done. rewrite H4.
    change (q_args (to s_query_key (reset_bufs (add_arg mem (Some a.2) 1 q1)))) with
      (q_args (add_arg mem (Some a.2) 1 q1)).
    rewrite Hview, <- app_assoc. done.
Qed.

(** C32: strict round trip.  Any list of name=value pairs, whose names hold no
    '=' or '&', whose values hold no '&', and whose percent signs all start
    well-formed escapes, is read back from the query that joins them by '&':
    same names, same values, same order, escapes kept verbatim (the last pair
    must have a name and a value). *)
Theorem parse_query_strict ps l :
  Forall pair_ok ps -> pair_ok l -> l.1 <> [] -> l.2 <> [] ->
  2 * Z.of_nat (length (render_query ps l)) + 2 < 2 ^ 64 ->
  option_map (map view) (evhtp_parse_query mem (render_query ps l)) =
    Some (map (fun a => stored (a.1, Some a.2)) (ps ++ [l])).
Proof.
  intros Hps Hl Hk Hv Hlen. unfold evhtp_parse_query, evhtp_parse_query_wflags.
  set (s := render_query ps l) in *.
  assert ((u64 (SIZE_MAX - u64 (Z.of_nat (length s) + 2)) <? Z.of_nat (length s)) = false) as ->.
  { unfold u64, SIZE_MAX. rewrite (Z.mod_small (Z.of_nat (length s) + 2)) by lia.
    rewrite Z.mod_small by lia. lia. }
  set (q0 := to s_query_key (reset_bufs query_init)).
  assert (s <> []) as Hne.
  { unfold s. destruct ps as [|[[|? ?] ?] ps]; cbn; try done. by destruct l.1. }
  assert (query_loop mem STRICT (length s) s query_init =
          query_loop mem STRICT (length s) s q0) as -> by (by destruct s).
  destruct (strict_loop (length s) ps l q0) as (q & E & Hst & Hkb & Hvb & Hargs); try done.
  fold s in E. rewrite E. unfold query_end. rewrite Hkb, Hvb.
  destruct l as [[|k ks] [|v vs]]; try done. cbn [fst snd length Nat.eqb negb option_map fmap option_fmap] in *.
  destruct (add_arg_view mem Hmem (Some (v :: vs)) 1 q) as (-> & _).
  rewrite Hargs, Hkb, map_app. done.
Qed.

(** A percent sign and a byte that is no hexadecimal digit, in a name. *)
Lemma percent_step len k rest q :
  escaped key_delim k -> q_state q = s_query_key -> key_buf q = [] -> val_buf q = [] ->
  (length k + 2 <= len)%nat ->
  query_loop mem STRICT len (k ++ bytes "%z" ++ rest) q =
  if (len <=? length k + 3)%nat then None
  else query_loop mem STRICT len rest (q <| key_buf := k ++ bytes "%z" |>).
Proof.
  intros Hk Hst Hkb Hvb Hlen.
  rewrite key_token by (rewrite ?Hkb, ?Hvb; cbn; done || lia). rewrite Hkb.
  change (bytes "%z" ++ rest) with ("%"%c :: "z"%c :: rest). cbn [app query_loop].
  set (q1 := q <| key_buf := k |>).
  assert (query_step mem STRICT len "%"%c q1 =
    Some (to s_query_key_hex_1 (push_key "%"%c q1))) as ->.
  { unfold query_step. cbn [key_buf val_buf q_state set_field eta_fields eta_query_st q1].
    rewrite Hvb, Hst. by rewrite !(proj2 (Nat.leb_gt len _)) by (cbn; lia). }
  unfold query_step. unfold to, push_key, q1.
  cbn [key_buf val_buf q_state set_field eta_fields eta_query_st]. rewrite Hvb.
  rewrite (proj2 (Nat.leb_gt len (length (k ++ ["%"%c])))) by (rewrite ?length_app; cbn; lia).
  rewrite (proj2 (Nat.leb_gt len (length (@nil Z)))) by (cbn; lia). cbn [orb].
  unfold query_key_hex_1. change (evhtp_is_hex_query_char "z"%c) with false. cbn [negb].
  cbn [key_buf val_buf q_state set_field eta_fields eta_query_st].
  rewrite length_app. cbn [length]. replace (length k + 1 + 2)%nat with (length k + 3)%nat by lia.
  destruct (len <=? length k + 3)%nat; [done|].
  unfold mark_key, mark_percent, to, push_key.
  cbn [key_buf val_buf q_state set_field eta_fields eta_query_st].
  rewrite length_app. cbn [length]. rewrite (proj2 (Nat.eqb_neq (length k + 1) 0)) by lia.
  replace (length k + 1 - 1)%nat with (length k + 0)%nat by lia.
  rewrite insert_app_r. cbn -[app]. rewrite Hst, <- app_assoc. by destruct q.
Qed.

(** A percent sign that does not start an escape is taken literally in
    the middle of a name, but makes the whole query be refused when it is one
    byte before the end, although the buffer has room for it. *)
Theorem literal_percent_at_end k v :
  escaped key_delim k -> escaped val_delim v -> v <> [] ->
  2 * Z.of_nat (length k + length v) + 12 < 2 ^ 64 ->
  evhtp_parse_query mem (k ++ bytes "%z") = None /\
  option_map (map view) (evhtp_parse_query mem (k ++ bytes "%z=" ++ v)) =
    Some [stored (k ++ bytes "%z", Some v)].
Proof.
  intros Hk Hv Hne Hlen. unfold evhtp_parse_query, evhtp_parse_query_wflags.
  set (q0 := to s_query_key (reset_bufs query_init)).
  assert (forall s, s <> [] -> 2 * Z.of_nat (length s) + 2 < 2 ^ 64 ->
    (u64 (SIZE_MAX - u64 (Z.of_nat (length s) + 2)) <? Z.of_nat (length s)) = false /\
    query_loop mem STRICT (length s) s query_init = query_loop mem STRICT (length s) s q0) as Hs.
  { intros s Hs Hl. split; [|by destruct s].
    unfold u64, SIZE_MAX. rewrite (Z.mod_small (Z.of_nat (length s) + 2)) by lia.
    rewrite Z.mod_small by lia. lia. }
  split.
  - destruct (Hs (k ++ bytes "%z")) as [-> ->]; [by destruct k|rewrite length_app; change (length (bytes "%z")) with 2%nat; lia|].
    replace (k ++ bytes "%z") with (k ++ bytes "%z" ++ []) at 2 by (by rewrite app_nil_r).
    rewrite length_app. change (length (bytes "%z")) with 2%nat.
    rewrite percent_step by (done || lia). by rewrite (proj2 (Nat.leb_le _ _)) by lia.
  - assert (0 < length v)%nat as Hpos by (destruct v; [done|cbn; lia]).
    destruct (Hs (k ++ bytes "%z=" ++ v)) as [-> ->];
      [by destruct k|rewrite !length_app; change (length (bytes "%z=")) with 3%nat; lia|].
    change (bytes "%z=" ++ v) with (bytes "%z" ++ "="%c :: v).
    set (len := length _).
    assert (len = length k + 3 + length v)%nat as Hl.
    { unfold len. rewrite !length_app. change (length (bytes "%z")) with 2%nat. cbn. lia. }
    rewrite percent_step by (done || lia). rewrite (proj2 (Nat.leb_gt _ _)) by lia.
    set (q1 := q0 <| key_buf := k ++ bytes "%z" |>).
    assert (length (k ++ bytes "%z") = length k + 2)%nat as Hkl.
    { rewrite length_app. done. }
    cbn [query_loop]. unfold query_step at 1, q1.
    cbn [key_buf val_buf q_state set_field eta_fields eta_query_st to q0 reset_bufs].
    rewrite !(proj2 (Nat.leb_gt len _)) by (rewrite ?Hkl; cbn; lia). cbn [orb].
    unfold query_key. change ("="%c =? "="%c) with true. cbn iota.
    rewrite <- (app_nil_r v) at 1.
    rewrite val_token by (try rewrite Hkl; cbn; done || lia). cbn [query_loop].
    unfold query_end.
    cbn [key_buf val_buf q_state set_field eta_fields eta_query_st to q0 reset_bufs app].
    rewrite (proj2 (Nat.eqb_neq _ 0)) by lia. rewrite (proj2 (Nat.eqb_neq (length v) 0)) by lia.
    cbn [negb option_map fmap option_fmap].
    match goal with |- context [add_arg mem _ 1 ?q2] =>
      destruct (add_arg_view mem Hmem (Some v) 1 q2) as (-> & _) end. done.
Qed.
End Strict.

Lemma parse_query_strict_witness :
  option_map (map view) (evhtp_parse_query mem_good (bytes "a%20=1;2&b=c=d")) =
  Some [(Some (bytes "a%20"), Some (bytes "1;2")); (Some (bytes "b"), Some (bytes "c=d"))].
Proof.
  refine (parse_query_strict mem_good mem_good_ok [(bytes "a%20", bytes "1;2")]
    (bytes "b", bytes "c=d") _ _ _ _ _); try done.
  - apply Forall_singleton. split; vm_compute; repeat (apply esc_hex || apply esc_plain || apply esc_nil);
      done.
  - split; vm_compute; repeat (apply esc_hex || apply esc_plain || apply esc_nil); done.
Defined.

Lemma literal_percent_at_end_witness :
  evhtp_parse_query mem_good (bytes "a" ++ bytes "%z") = None /\
  option_map (map view) (evhtp_parse_query mem_good (bytes "a" ++ bytes "%z=" ++ bytes "v")) =
    Some [(Some (bytes "a%z"), Some (bytes "v"))].
Proof.
  refine (literal_percent_at_end mem_good mem_good_ok (bytes "a") (bytes "v") _ _ _ _); try done;
    vm_compute; repeat (apply esc_hex || apply esc_plain || apply esc_nil); done.
Defined.

(** ** Percent-decoding *)

Definition hex_digit (n : Z) : Z := nth (Z.to_nat n) (bytes "0123456789ABCDEF") 0.
(** Percent-encoding of the bytes not in [plain]. *)
Definition escape (plain : Z -> bool) (s : list Z) : list Z :=
  concat (map (fun c => if plain c then [c]
                        else ["%"%c; hex_digit (Z.shiftr c 4); hex_digit (Z.land c 15)]) s).

Lemma unscape_digits c d :
  is_byte c ->
  unscape_step unscape_state_hex1 d (hex_digit (Z.shiftr c 4)) =
    (unscape_state_hex2, Z.shiftr c 4, []) /\
  unscape_step unscape_state_hex2 (Z.shiftr c 4) (hex_digit (Z.land c 15)) =
    (unscape_state_start, Z.shiftr c 4, [c]).
Proof.
  intros Hc%all_bytes_in.
  assert (Forall (fun c => forall d,
    unscape_step unscape_state_hex1 d (hex_digit (Z.shiftr c 4)) =
      (unscape_state_hex2, Z.shiftr c 4, []) /\
    unscape_step unscape_state_hex2 (Z.shiftr c 4) (hex_digit (Z.land c 15)) =
      (unscape_state_start, Z.shiftr c 4, [c])) all_bytes) as Hall.
  { let l := eval vm_compute in all_bytes in change all_bytes with l.
    repeat (apply Forall_cons; split; [intros e; vm_compute; done|]). apply Forall_nil. exact I. }
  rewrite Forall_forall in Hall. apply Hall. by apply list_elem_of_In.
Qed.

Lemma unscape_length st d s :
  (length (unscape_loop st d s) <= length s)%nat.
Proof.
  revert st d. induction s as [|c s IH]; intros st d; cbn [unscape_loop length]; [lia|].
  destruct (unscape_step st d c) as [[st' d'] out] eqn:E. rewrite length_app.
  specialize (IH st' d').
  assert (length out <= 1)%nat; [|lia].
  revert E. unfold unscape_step. repeat case_match; intros; simplify_eq; cbn; lia.
Qed.

(** C33: evhtp_unescape_string undoes percent-encoding: whichever bytes an
    encoder chose to escape (the percent sign among them), the original bytes
    come back; and on any input, malformed escapes included, it writes no more
    bytes than it reads, so it may decode in place. *)
Theorem unescape_escape plain s :
  Forall is_byte s -> plain "%"%c = false ->
  evhtp_unescape_string (escape plain s) = s /\
  (forall t, length (evhtp_unescape_string t) <= length t)%nat.
Proof.
  intros Hs Hp. split; [|intros t; apply unscape_length].
  unfold evhtp_unescape_string. generalize 0.
  induction Hs as [|c s Hc _ IH]; intros d; [done|].
  unfold escape. cbn [map concat]. fold (escape plain s).
  destruct (plain c) eqn:E.
  - cbn [app unscape_loop unscape_step]. destruct (Z.eqb_spec c "%"%c) as [->|]; [congruence|].
    cbn [app]. by rewrite IH.
  - cbn [app unscape_loop]. change (unscape_step unscape_state_start d "%"%c) with
      (unscape_state_hex1, d, @nil Z). cbn [app unscape_loop].
    destruct (unscape_digits c d Hc) as [-> Hd]. cbn [app unscape_loop]. rewrite Hd.
    cbn [app]. by rewrite IH.
Qed.

Lemma unescape_escape_witness :
  evhtp_unescape_string (bytes "a%2Fb%25") = bytes "a/b%" /\
  (forall t, length (evhtp_unescape_string t) <= length t)%nat.
Proof.
  refine (unescape_escape name_char (bytes "a/b%") _ eq_refl).
  apply (bool_decide_unpack _). vm_compute. exact I.
Defined.
