(* ===== verification/Callbacks.v ===== *)
(** * evhtp.c: user hooks, path callbacks and virtual hosts

    The tables an application fills in: the per-object hook tables
    ([htp__set_hook_] and what is built on it), the list of path callbacks
    ([evhtp_set_cb] and friends) with the search [htp__callback_find_], and
    the virtual hosts with their aliases.  A C function or data pointer is a
    number, 0 for NULL.  A [evhtp_t] is found by its identity in a store, so
    that a virtual host is shared, not copied.  The POSIX regular expression
    functions are the parameter [RegexLib]. *)

From stdpp Require Import gmap.
From S2P Require Import Prelude Kvs.

(** ** Hook tables *)

Inductive evhtp_hook_type :=
| evhtp_hook_on_header | evhtp_hook_on_headers | evhtp_hook_on_path
| evhtp_hook_on_read | evhtp_hook_on_request_fini | evhtp_hook_on_connection_fini
| evhtp_hook_on_new_chunk | evhtp_hook_on_chunk_complete
| evhtp_hook_on_chunks_complete | evhtp_hook_on_headers_start
| evhtp_hook_on_error | evhtp_hook_on_hostname | evhtp_hook_on_write
| evhtp_hook_on_event | evhtp_hook_on_conn_error | evhtp_hook__max.

#[export] Instance evhtp_hook_type_eq_dec : EqDecision evhtp_hook_type.
Proof. solve_decision. Defined.

(** [struct evhtp_hooks]: for each type the function and its argument. *)
Definition evhtp_hooks : Type := evhtp_hook_type -> Z * Z.
Definition no_hooks : evhtp_hooks := fun _ => (0, 0).

(** Returns C's result and [*hooks]. *)
Definition htp__set_hook_ (alloc : bool) (hooks : option evhtp_hooks)
    (type : evhtp_hook_type) (cb arg : Z) : Z * option evhtp_hooks :=
  match (match hooks with Some h => Some h | None => if alloc then Some no_hooks else None end) with
  | None => (-1, hooks)
  | Some h =>
      match type with
      | evhtp_hook__max => (-1, Some h)
      | _ => (0, Some (fun t => if decide (t = type) then (cb, arg) else h t))
      end
  end.

Definition htp__unset_hook_ (alloc : bool) (hooks : option evhtp_hooks)
    (type : evhtp_hook_type) : Z * option evhtp_hooks :=
  htp__set_hook_ alloc hooks type 0 0.

Definition hooklist_ : list evhtp_hook_type :=
  [ evhtp_hook_on_header; evhtp_hook_on_headers; evhtp_hook_on_path;
    evhtp_hook_on_read; evhtp_hook_on_request_fini;
    evhtp_hook_on_connection_fini; evhtp_hook_on_new_chunk;
    evhtp_hook_on_chunk_complete; evhtp_hook_on_chunks_complete;
    evhtp_hook_on_headers_start; evhtp_hook_on_error; evhtp_hook_on_hostname;
    evhtp_hook_on_write; evhtp_hook_on_event; evhtp_hook_on_conn_error;
    evhtp_hook__max ].

Fixpoint unset_loop (alloc : bool) (l : list evhtp_hook_type) (hooks : option evhtp_hooks) :
    Z * option evhtp_hooks :=
  match l with
  | [] => (0, hooks)
  | t :: l' =>
      if decide (t = evhtp_hook__max) then (0, hooks)
      else let '(r, hooks') := htp__unset_hook_ alloc hooks t in
           if r =? -1 then (-1, hooks') else unset_loop alloc l' hooks'
  end.

(** [hooks]: [None] when the double pointer itself is NULL. *)
Definition evhtp_unset_all_hooks (alloc : bool) (hooks : option (option evhtp_hooks)) :
    Z * option (option evhtp_hooks) :=
  match hooks with
  | None => (-1, None)
  | Some h => let '(r, h') := unset_loop alloc hooklist_ h in (r, Some h')
  end.

(** ** Glob matching

    [pattern] is a C string (the bytes before its NUL, so [plen] is its
    length); [string] is the memory from the pointer on, of which [str_len]
    bytes are to be matched.  [None]: the match would run past [str_len] (its
    unsigned counter having wrapped). *)

Fixpoint skip_stars (pattern : list Z) : list Z :=
  match pattern with
  | c :: p' => if c =? "*"%c then skip_stars p' else pattern
  | [] => []
  end.

Section Glob.
(** The inner loop [while (str_len)] of case '*': [rec] is the recursive call
    on the pattern after the star. *)
Fixpoint glob_star (rec : list Z -> nat -> option bool) (string : list Z) (str_len : nat) :
    option bool :=
  match str_len with
  | O => Some false
  | S n =>
      match rec string str_len with
      | None => None
      | Some true => Some true
      | Some false => glob_star rec (tail string) n
      end
  end.

Fixpoint htp__glob_match_ (pattern : list Z) (string : list Z) (str_len : nat) : option bool :=
  match pattern with
  | [] => Some (str_len =? 0)%nat
  | c :: p' =>
      if c =? "*"%c then
        match p' with
        | [] => Some true
        | d :: _ =>
            (** [while (pattern[1] == '*')]: the star moves right *)
            if d =? "*"%c then htp__glob_match_ p' string str_len
            else glob_star (htp__glob_match_ p') string str_len
        end
      else if negb (c =? nth 0 string 0) then Some false
      else match str_len with
           | O => None
           | S n =>
               if (n =? 0)%nat
               then Some (bool_decide (skip_stars p' = []))
               else htp__glob_match_ p' (tail string) n
           end
  end.
End Glob.

(** ** Path callbacks *)

Class RegexLib := {
  regex_t : Type;
  (** [regcomp] with REG_EXTENDED; [None] when it does not return 0 *)
  regcomp : list Z -> option regex_t;
  re_nsub : regex_t -> nat;
  (** [regexec]: [None] for no match, else the match offsets [pmatch] *)
  regexec : regex_t -> list Z -> option (nat -> Z * Z)
}.

Section Callbacks.
Context `{RegexLib}.

Inductive evhtp_callback_type :=
| evhtp_callback_type_hash | evhtp_callback_type_glob | evhtp_callback_type_regex.

(** The union [val], with the member its [type] says was stored. *)
Inductive callback_val :=
| val_path (s : list Z) | val_glob (s : list Z) | val_regex (r : regex_t).

Record evhtp_callback := {
  cb_type : evhtp_callback_type;
  cb_cb : Z;
  cb_cbarg : Z;
  cb_hooks : option evhtp_hooks;
  cb_len : nat;
  cb_val : callback_val
}.

(** [m1], [m2]: the two mallocs. *)
Definition evhtp_callback_new (m1 m2 : bool) (path : list Z) (type : evhtp_callback_type)
    (cb arg : Z) : option evhtp_callback :=
  if negb m1 then None
  else if negb m2 then None
  else
    let mk v := Some {| cb_type := type; cb_cb := cb; cb_cbarg := arg; cb_hooks := None;
                        cb_len := length path; cb_val := v |} in
    match type with
    | evhtp_callback_type_hash => mk (val_path path)
    | evhtp_callback_type_regex =>
        match regcomp path with Some r => mk (val_regex r) | None => None end
    | evhtp_callback_type_glob => mk (val_glob path)
    end.

Definition evhtp_callbacks_add_callback (cbs : list evhtp_callback) (cb : evhtp_callback) :
    list evhtp_callback := cbs ++ [cb].

(** evhtp_set_cb, evhtp_set_regex_cb and evhtp_set_glob_cb differ in the type
    only.  Returns the callback and [htp->callbacks]. *)
Definition set_typed_cb (type : evhtp_callback_type) (m0 m1 m2 : bool)
    (cbs : option (list evhtp_callback)) (path : list Z) (cb arg : Z) :
    option evhtp_callback * option (list evhtp_callback) :=
  match (match cbs with Some l => Some l | None => if m0 then Some [] else None end) with
  | None => (None, None)
  | Some l =>
      match evhtp_callback_new m1 m2 path type cb arg with
      | None => (None, Some l)
      | Some hcb => (Some hcb, Some (evhtp_callbacks_add_callback l hcb))
      end
  end.
Definition evhtp_set_cb := set_typed_cb evhtp_callback_type_hash.
Definition evhtp_set_regex_cb := set_typed_cb evhtp_callback_type_regex.
Definition evhtp_set_glob_cb := set_typed_cb evhtp_callback_type_glob.

(** [None]: the search compared the bytes of a compiled regular expression,
    which [val.path] of a regex callback points at. *)
Fixpoint get_cb_loop (l : list evhtp_callback) (path : list Z) :
    option (option evhtp_callback) :=
  match l with
  | [] => Some None
  | cb :: l' =>
      match cb_val cb with
      | val_path s | val_glob s => if bytes_eqb s path then Some (Some cb) else get_cb_loop l' path
      | val_regex _ => None
      end
  end.
Definition evhtp_get_cb (cbs : option (list evhtp_callback)) (path : list Z) :
    option (option evhtp_callback) :=
  match cbs with None => Some None | Some l => get_cb_loop l path end.

(** The callback found with the offsets it reports. *)
Fixpoint callback_find_loop (l : list evhtp_callback) (path : list Z) :
    option (option (evhtp_callback * Z * Z)) :=
  match l with
  | [] => Some None
  | cb :: l' =>
      let whole := Some (Some (cb, 0, Z.of_nat (length path))) in
      match cb_val cb with
      | val_path s =>
          if bytes_eqb (take (cb_len cb) path) (take (cb_len cb) s) then whole
          else callback_find_loop l' path
      | val_regex r =>
          match regexec r path with
          | Some pmatch =>
              let '(so, eo) := pmatch (re_nsub r) in Some (Some (cb, u32 so, u32 eo))
          | None => callback_find_loop l' path
          end
      | val_glob g =>
          match htp__glob_match_ g (path ++ [0]) (length path) with
          | None => None
          | Some true => whole
          | Some false => callback_find_loop l' path
          end
      end
  end.
(** [None]: only if the glob match ran away. *)
Definition htp__callback_find_ (cbs : option (list evhtp_callback)) (path : list Z) :
    option (option (evhtp_callback * Z * Z)) :=
  match cbs with None => Some None | Some l => callback_find_loop l path end.

(** ** Virtual hosts *)

Record evhtp_defaults := {
  d_cb : Z; d_cbarg : Z; d_pre_accept : Z; d_pre_accept_cbarg : Z;
  d_post_accept : Z; d_post_accept_cbarg : Z
}.
#[export] Instance eta_evhtp_defaults : EtaFields evhtp_defaults := fun d =>
  Build_evhtp_defaults (d_cb d) (d_cbarg d) (d_pre_accept d) (d_pre_accept_cbarg d)
    (d_post_accept d) (d_post_accept_cbarg d).

(** The members of [evhtp_t] that request handling reads; [requests], the
    cache of reusable requests, is kept with the requests. *)
Record evhtp := {
  parent : option nat;
  server_name : option (list Z);
  htp_max_body_size : Z;
  max_keepalive_requests : Z;
  htp_bev_flags : Z;
  htp_flags : Z;
  parser_flags : Z;
  callbacks : option (list evhtp_callback);
  defaults : evhtp_defaults;
  recv_timeo : Z * Z;
  send_timeo : Z * Z;
  aliases : list (option (list Z));
  vhosts : list nat;
  ssl_ctx : bool
}.
#[export] Instance eta_evhtp : EtaFields evhtp := fun h =>
  Build_evhtp (parent h) (server_name h) (htp_max_body_size h) (max_keepalive_requests h)
    (htp_bev_flags h) (htp_flags h) (parser_flags h) (callbacks h) (defaults h)
    (recv_timeo h) (send_timeo h) (aliases h) (vhosts h) (ssl_ctx h).

Definition evhtp_set_gencb (cb arg : Z) (h : evhtp) : evhtp :=
  h <| defaults := (defaults h) <| d_cb := cb |> <| d_cbarg := arg |> |>.
Definition evhtp_set_pre_accept_cb (cb arg : Z) (h : evhtp) : evhtp :=
  h <| defaults := (defaults h) <| d_pre_accept := cb |> <| d_pre_accept_cbarg := arg |> |>.
Definition evhtp_set_post_accept_cb (cb arg : Z) (h : evhtp) : evhtp :=
  h <| defaults := (defaults h) <| d_post_accept := cb |> <| d_post_accept_cbarg := arg |> |>.

Definition evhtp_add_alias (m1 m2 : bool) (h : option evhtp) (name : option (list Z)) :
    Z * option evhtp :=
  match h, name with
  | Some x, Some n =>
      if m1 && m2 then (0, Some (x <| aliases := aliases x ++ [Some n] |>)) else (-1, h)
  | _, _ => (-1, h)
  end.

Fixpoint add_aliases_loop (h : option evhtp) (names : list (list Z)) : Z * option evhtp :=
  match names with
  | [] => (0, h)
  | n :: names' =>
      let '(r, h') := evhtp_add_alias true true h (Some n) in
      if r =? -1 then (-1, h') else add_aliases_loop h' names'
  end.
(** The variadic names up to the terminating NULL; mallocs succeed. *)
Definition evhtp_add_aliases (h : option evhtp) (name : option (list Z))
    (names : list (list Z)) : Z * option evhtp :=
  let '(r, h') := evhtp_add_alias true true h name in
  if r =? -1 then (-1, h') else add_aliases_loop h' names.

Definition htps : Type := gmap nat evhtp.

(** [e] and [v]: the identities of the two [evhtp_t], [None] for NULL. *)
Definition evhtp_add_vhost (m : bool) (st : htps) (e : option nat) (name : option (list Z))
    (v : option nat) : Z * htps :=
  match e, name, v with
  | Some e, Some n, Some v =>
      match st !! e, st !! v with
      | Some he, Some hv =>
          if negb (bool_decide (vhosts hv = [])) then (-1, st)
          else if negb m then (-1, <[v := hv <| server_name := None |>]> st)
          else
            let hv := hv <| server_name := Some n |> <| parent := Some e |>
                         <| htp_bev_flags := htp_bev_flags he |>
                         <| htp_max_body_size := htp_max_body_size he |>
                         <| max_keepalive_requests := max_keepalive_requests he |>
                         <| recv_timeo := recv_timeo he |>
                         <| send_timeo := send_timeo he |> in
            let st := <[v := hv]> st in
            (0, match st !! e with
                | Some he => <[e := he <| vhosts := vhosts he ++ [v] |>]> st
                | None => st
                end)
      | _, _ => (-1, st)
      end
  | _, _, _ => (-1, st)
  end.

Fixpoint alias_match (l : list (option (list Z))) (name : list Z) (len : nat) : option bool :=
  match l with
  | [] => Some false
  | None :: l' => alias_match l' name len
  | Some a :: l' =>
      match htp__glob_match_ a name len with
      | None => None
      | Some true => Some true
      | Some false => alias_match l' name len
      end
  end.

(** [name]: the memory from the host name on, of which [len] bytes count. *)
Fixpoint find_vhost_loop (st : htps) (l : list nat) (name : list Z) (len : nat) :
    option (option nat) :=
  match l with
  | [] => Some None
  | v :: l' =>
      match st !! v with
      | None => find_vhost_loop st l' name len
      | Some h =>
          match server_name h with
          | None => find_vhost_loop st l' name len
          | Some s =>
              match htp__glob_match_ s name len with
              | None => None
              | Some true => Some (Some v)
              | Some false =>
                  match alias_match (aliases h) name len with
                  | None => None
                  | Some true => Some (Some v)
                  | Some false => find_vhost_loop st l' name len
                  end
              end
          end
      end
  end.
Definition htp__request_find_vhost_ (st : htps) (h : evhtp) (name : list Z) (len : nat) :
    option (option nat) := find_vhost_loop st (vhosts h) name len.

End Callbacks.

(** ** Glob matching, specified *)

(** A star stands for any string, any other character for itself. *)
Inductive globs : list Z -> list Z -> Prop :=
| globs_nil : globs [] []
| globs_char c p s : c <> "*"%c -> globs p s -> globs (c :: p) (c :: s)
| globs_star p s1 s2 : globs p s2 -> globs ("*"%c :: p) (s1 ++ s2).

Lemma globs_all s : globs ["*"%c] s.
Proof. rewrite <- (app_nil_r s). apply globs_star, globs_nil. Qed.

Lemma globs_star_inv p s : globs ("*"%c :: p) s -> exists s1 s2, s = s1 ++ s2 /\ globs p s2.
Proof. inversion 1; subst; [done|eauto]. Qed.

Lemma globs_stars_nil p : globs p [] <-> skip_stars p = [].
Proof.
  induction p as [|c p IH]; cbn; [split; [done|intros _; constructor]|].
  destruct (Z.eqb_spec c "*"%c) as [->|Hne].
  - rewrite <- IH. split.
    + intros (s1 & s2 & H & Hg)%globs_star_inv. symmetry in H. apply app_eq_nil in H as [-> ->]. done.
    + intros Hg. apply (globs_star p [] []). done.
  - split; [by inversion 1|done].
Qed.

(** A doubled star is as good as one. *)
Lemma globs_double p s : globs ("*"%c :: "*"%c :: p) s <-> globs ("*"%c :: p) s.
Proof.
  split.
  - intros (s1 & s2 & -> & (s3 & s4 & -> & Hg)%globs_star_inv)%globs_star_inv.
    rewrite app_assoc. by constructor.
  - intros Hg. by apply (globs_star _ [] s).
Qed.

Lemma glob_star_spec rec mem s :
  (forall t1 t2, s = t1 ++ t2 -> t2 <> [] -> is_Some (rec (t2 ++ mem) (length t2))) ->
  exists b, glob_star rec (s ++ mem) (length s) = Some b /\
    (b = true <-> exists t1 t2, s = t1 ++ t2 /\ t2 <> [] /\
                               rec (t2 ++ mem) (length t2) = Some true).
Proof.
  induction s as [|c s IH]; intros Hrec.
  { exists false. split; [done|]. split; [done|].
    intros (t1 & t2 & H & Hne & _). destruct t1, t2; done. }
  cbn [length glob_star app].
  destruct (Hrec [] (c :: s) eq_refl ltac:(done)) as [b Hb]. cbn [app length] in Hb.
  rewrite Hb. destruct b.
  - exists true. split; [done|]. split; [|done]. intros _. exists [], (c :: s). done.
  - cbn [tail]. destruct IH as (b & Hb' & Hiff).
    { intros t1 t2 -> Hne. by apply (Hrec (c :: t1) t2). }
    exists b. split; [done|]. rewrite Hiff. split.
    + intros (t1 & t2 & -> & Hne & Ht). by exists (c :: t1), t2.
    + intros (t1 & t2 & H & Hne & Ht). destruct t1 as [|c' t1]; cbn in H.
      * subst t2. cbn in Ht, Hb. congruence.
      * injection H as <- ->. by exists t1, t2.
Qed.

Lemma glob_match_spec pattern s mem :
  s <> [] \/ (forall c, head pattern = Some c -> c <> nth 0 mem 0) ->
  exists b, htp__glob_match_ pattern (s ++ mem) (length s) = Some b /\
            (b = true <-> globs pattern s).
Proof.
  revert s. induction pattern as [|c p IH]; intros s Hs.
  { exists (length s =? 0)%nat. split; [done|]. destruct s; cbn; split; try done.
    - intros _. constructor.
    - by inversion 1. }
  cbn [htp__glob_match_]. destruct (Z.eqb_spec c "*"%c) as [->|Hne].
  - destruct p as [|d p]; [exists true; split; [done|]; split; [intros _; apply globs_all|done]|].
    destruct (Z.eqb_spec d "*"%c) as [->|Hd].
    + destruct (IH s) as (b & Hb & Hiff).
      { destruct Hs as [Hs|Hs]; [by left|]. right. cbn in *. intros c [= <-]. by apply Hs. }
      exists b. split; [done|]. by rewrite Hiff, globs_double.
    + destruct (glob_star_spec (htp__glob_match_ (d :: p)) mem s) as (b & Hb & Hiff).
      { intros t1 t2 -> Hne. destruct (IH t2 (or_introl Hne)) as (b & -> & _). by eexists. }
      exists b. split; [done|]. rewrite Hiff. split.
      * intros (t1 & t2 & -> & Hne & Ht). apply globs_star.
        destruct (IH t2 (or_introl Hne)) as (b' & Hb' & Hiff'). apply Hiff'. congruence.
      * intros (t1 & t2 & -> & Hg)%globs_star_inv. exists t1, t2.
        assert (t2 <> []) as Hne by (intros ->; by inversion Hg).
        split_and!; try done. destruct (IH t2 (or_introl Hne)) as (b' & Hb' & Hiff').
        rewrite Hb'. f_equal. by apply Hiff'.
  - destruct s as [|x s].
    + cbn [app length]. destruct Hs as [|Hs]; [done|].
      destruct (Z.eqb_spec c (nth 0 mem 0)) as [E|_]; [by destruct (Hs c eq_refl)|].
      exists false. split; [done|]. split; [done|by inversion 1].
    + cbn [app nth length tail]. destruct (Z.eqb_spec c x) as [->|Hcx]; cbn [negb].
      2:{ exists false. split; [done|]. split; [done|]. inversion 1; congruence. }
      destruct s as [|y s]; cbn [length Nat.eqb].
      * eexists. split; [done|]. rewrite bool_decide_eq_true, <- globs_stars_nil. split.
        -- intros Hg. by constructor.
        -- by inversion 1.
      * destruct (IH (y :: s)) as (b & Hb & Hiff); [by left|]. exists b.
        split; [done|]. rewrite Hiff. split; [intros Hg; by constructor|by inversion 1].
Qed.

(** C35: glob matching is exact: on a NUL-terminated string the matcher gives
    an answer, which is yes exactly when the pattern, its stars standing for
    any strings, denotes the string. *)
Theorem glob_match_correct pattern s mem :
  Forall (fun c => c <> 0) pattern ->
  exists b, htp__glob_match_ pattern (s ++ 0 :: mem) (length s) = Some b /\
            (b = true <-> globs pattern s).
Proof.
  intros Hp. apply glob_match_spec. right. cbn. intros c Hc.
  destruct Hp; [done|]. by injection Hc as <-.
Qed.

Lemma glob_match_correct_witness :
  htp__glob_match_ (bytes "*.b*a") (bytes "x.bca" ++ [0]) 5 = Some true /\
  globs (bytes "*.b*a") (bytes "x.bca").
Proof.
  destruct (glob_match_correct (bytes "*.b*a") (bytes "x.bca") []) as (b & Hb & Hiff).
  - apply (bool_decide_unpack _). vm_compute. exact I.
  - assert (b = true) as -> by (vm_compute in Hb; congruence).
    split; [exact Hb|by apply Hiff].
Defined.

(** ** Finding a callback *)

Section Find.
Context `{RegexLib}.

(** What a registered callback answers to. *)
Definition answers (cb : evhtp_callback) (path : list Z) : Prop :=
  match cb_val cb with
  | val_path s => exists rest, path = s ++ rest
  | val_regex r => is_Some (regexec r path)
  | val_glob g => globs g path
  end.
Definition cb_wf (cb : evhtp_callback) : Prop :=
  match cb_val cb with
  | val_path s => cb_len cb = length s
  | val_glob g => Forall (fun c => c <> 0) g
  | val_regex _ => True
  end.

Lemma callback_new_wf m1 m2 path type cb arg x :
  Forall (fun c => c <> 0) path ->
  evhtp_callback_new m1 m2 path type cb arg = Some x ->
  cb_wf x /\ cb_cb x = cb /\ cb_cbarg x = arg.
Proof.
  intros Hp. unfold evhtp_callback_new.
  repeat case_match; intros; simplify_eq/=; done.
Qed.

(** One callback: it is taken exactly when it answers. *)
Lemma callback_find_step cb l path :
  cb_wf cb -> Forall (fun c => c <> 0) path ->
  (answers cb path /\ exists so eo, callback_find_loop (cb :: l) path = Some (Some (cb, so, eo)) /\
     match cb_val cb with val_regex _ => True | _ => so = 0 /\ eo = Z.of_nat (length path) end) \/
  (~ answers cb path /\ callback_find_loop (cb :: l) path = callback_find_loop l path).
Proof.
  unfold cb_wf, answers. cbn [callback_find_loop]. intros Hwf Hp.
  destruct (cb_val cb) as [s|g|r].
  - rewrite Hwf, (take_ge s) by done. unfold bytes_eqb. case_bool_decide as E.
    + left. split; [|by eexists _, _]. exists (drop (length s) path).
      by rewrite <- E at 1; rewrite take_drop.
    + right. split; [|done]. intros [rest ->]. by rewrite take_app_length in E.
  - destruct (glob_match_spec g path [0]) as (b & -> & Hiff).
    { right. cbn. intros c Hc. destruct Hwf; [done|]. by injection Hc as <-. }
    destruct b.
    + left. split; [by apply Hiff|by eexists _, _].
    + right. split; [|done]. rewrite <- Hiff. done.
  - destruct (regexec r path) as [pm|].
    + left. split; [done|]. destruct (pm (re_nsub r)) as [so eo]. by eexists _, _.
    + right. split; [|done]. by intros [].
Qed.

(** Callbacks are tried in the order they were registered, and the first
    one that answers is taken: a path callback answers to every path it is a
    prefix of (so one set on /foo also runs for /foobar), a glob callback to
    the paths its pattern denotes, a regex callback to those its expression
    matches. *)
Theorem callback_find_first l path :
  Forall cb_wf l -> Forall (fun c => c <> 0) path ->
  exists r, htp__callback_find_ (Some l) path = Some r /\
  match r with
  | Some (cb, so, eo) =>
      exists l1 l2, l = l1 ++ cb :: l2 /\ answers cb path /\
        Forall (fun x => ~ answers x path) l1 /\
        match cb_val cb with
        | val_regex _ => True | _ => so = 0 /\ eo = Z.of_nat (length path)
        end
  | None => Forall (fun x => ~ answers x path) l
  end.
Proof.
  intros Hwf Hp. cbn [htp__callback_find_].
  induction Hwf as [|cb l Hcb _ (r & IH & Hr)]; [by exists None|].
  destruct (callback_find_step cb l path Hcb Hp) as [(Ha & so & eo & -> & Ho)|(Ha & ->)].
  - exists (Some (cb, so, eo)). split; [done|]. exists [], l. done.
  - exists r. split; [done|]. destruct r as [[[cb' so] eo]|]; [|by constructor].
    destruct Hr as (l1 & l2 & -> & Ha' & Hno & Ho). exists (cb :: l1), l2.
    split_and!; try done. by constructor.
Qed.
End Find.

(** No regular expression compiles: enough for hash and glob callbacks. *)
#[export] Instance no_regex : RegexLib := {
  regex_t := Empty_set; regcomp _ := None; re_nsub _ := 0%nat; regexec _ _ := None }.

Definition sample_callbacks : list evhtp_callback :=
  [ {| cb_type := evhtp_callback_type_glob; cb_cb := 7; cb_cbarg := 0; cb_hooks := None;
       cb_len := 6; cb_val := val_glob (bytes "*.html") |};
    {| cb_type := evhtp_callback_type_hash; cb_cb := 8; cb_cbarg := 0; cb_hooks := None;
       cb_len := 4; cb_val := val_path (bytes "/foo") |} ].

Lemma callback_find_first_witness :
  option_map (option_map (fun x => cb_cb x.1.1))
    (htp__callback_find_ (Some sample_callbacks) (bytes "/foobar")) = Some (Some 8) /\
  Forall cb_wf sample_callbacks.
Proof.
  assert (Forall cb_wf sample_callbacks) as Hwf.
  { repeat (apply Forall_cons; split; [first [reflexivity | apply (bool_decide_unpack _);
      vm_compute; exact I]|]). apply Forall_nil. exact I. }
  split; [|exact Hwf].
  destruct (callback_find_first sample_callbacks (bytes "/foobar") Hwf) as (r & Hr & _).
  - apply (bool_decide_unpack _). vm_compute. exact I.
  - rewrite Hr. vm_compute in Hr. injection Hr as <-. reflexivity.
Defined.

(** ** Virtual hosts *)

Section Vhosts.
Context `{RegexLib}.

(** The names a virtual host goes by. *)
Definition host_names (h : evhtp) : list (list Z) :=
  match server_name h with
  | Some s => s :: omap id (aliases h)
  | None => []
  end.
Definition serves (st : htps) (v : nat) (name : list Z) : Prop :=
  exists h, st !! v = Some h /\ Exists (fun n => globs n name) (host_names h).

Lemma alias_match_spec l name mem :
  name <> [] ->
  exists b, alias_match l (name ++ mem) (length name) = Some b /\
            (b = true <-> Exists (fun n => globs n name) (omap id l)).
Proof.
  intros Hne. induction l as [|[a|] l (b & IH & Hiff)]; cbn.
  - exists false. split; [done|]. by rewrite Exists_nil.
  - destruct (glob_match_spec a name mem (or_introl Hne)) as (b' & -> & Hiff').
    destruct b'; [exists true|exists b]; (split; [done|]); rewrite Exists_cons, <- Hiff'.
    + naive_solver.
    + rewrite <- Hiff. naive_solver.
  - eauto.
Qed.

(** A request is handed to the first virtual host, in the order they were
    added, whose name or one of whose aliases, as glob patterns, denotes the
    host the client asked for; with none, to none.  The bytes that follow the
    host name in memory play no part. *)
Theorem find_vhost_first st h name mem :
  name <> [] ->
  exists r, htp__request_find_vhost_ st h (name ++ mem) (length name) = Some r /\
  match r with
  | Some v => exists l1 l2, vhosts h = l1 ++ v :: l2 /\ serves st v name /\
                            Forall (fun x => ~ serves st x name) l1
  | None => Forall (fun x => ~ serves st x name) (vhosts h)
  end.
Proof.
  intros Hne. unfold htp__request_find_vhost_.
  assert (forall v l r,
    (~ serves st v name /\ match r with
     | Some v => exists l1 l2, l = l1 ++ v :: l2 /\ serves st v name /\
                               Forall (fun x => ~ serves st x name) l1
     | None => Forall (fun x => ~ serves st x name) l end) ->
    match r with
    | Some v' => exists l1 l2, v :: l = l1 ++ v' :: l2 /\ serves st v' name /\
                              Forall (fun x => ~ serves st x name) l1
    | None => Forall (fun x => ~ serves st x name) (v :: l) end) as Hskip.
  { intros v l [v'|] [Hv Hr]; [|by constructor].
    destruct Hr as (l1 & l2 & -> & Hs & Hno). exists (v :: l1), l2.
    split_and!; try done. by constructor. }
  induction (vhosts h) as [|v l (r & IH & Hr)]; [by exists None|]. cbn [find_vhost_loop].
  destruct (st !! v) as [hv|] eqn:Ev.
  2:{ exists r. split; [done|]. apply Hskip. split; [|done]. intros (x & Hx & _). congruence. }
  destruct (server_name hv) as [s|] eqn:Es.
  2:{ exists r. split; [done|]. apply Hskip. split; [|done].
      intros (x & Hx & Hex). assert (x = hv) as -> by congruence.
      unfold host_names in Hex. rewrite Es in Hex. by apply Exists_nil in Hex. }
  destruct (glob_match_spec s name mem (or_introl Hne)) as (b & -> & Hb).
  destruct (alias_match_spec (aliases hv) name mem Hne) as (b' & -> & Hb').
  assert (serves st v name <-> b = true \/ b' = true) as Hserves.
  { rewrite Hb, Hb'. unfold serves, host_names. split.
    - intros (x & Hx & Hex). assert (x = hv) as -> by congruence.
      rewrite Es in Hex. by apply Exists_cons in Hex.
    - intros Hex. exists hv. split; [done|]. rewrite Es. by apply Exists_cons. }
  destruct b; [|destruct b'].
  - exists (Some v). split; [done|]. exists [], l. split_and!; try done. apply Hserves. auto.
  - exists (Some v). split; [done|]. exists [], l. split_and!; try done. apply Hserves. auto.
  - exists r. split; [done|]. apply Hskip. split; [|done]. rewrite Hserves. naive_solver.
Qed.
End Vhosts.

Definition sample_host (name : option (list Z)) (al : list (list Z)) (vs : list nat) : evhtp :=
  {| parent := None; server_name := name; htp_max_body_size := 0; max_keepalive_requests := 0;
     htp_bev_flags := 0; htp_flags := 0; parser_flags := 0; callbacks := None;
     defaults := {| d_cb := 0; d_cbarg := 0; d_pre_accept := 0; d_pre_accept_cbarg := 0;
                   d_post_accept := 0; d_post_accept_cbarg := 0 |}; recv_timeo := (0, 0); send_timeo := (0, 0);
     aliases := map Some al; vhosts := vs; ssl_ctx := false |}.
Definition sample_hosts : htps :=
  <[1%nat := sample_host (Some (bytes "a.org")) [] []]>
    {[2%nat := sample_host (Some (bytes "b.org")) [bytes "*.b.org"] []]}.

Lemma find_vhost_first_witness :
  htp__request_find_vhost_ sample_hosts (sample_host None [] [1; 2]%nat)
    (bytes "www.b.org" ++ [CR; LF]) 9 = Some (Some 2%nat).
Proof.
  destruct (find_vhost_first sample_hosts (sample_host None [] [1; 2]%nat) (bytes "www.b.org")
    [CR; LF] ltac:(discriminate)) as (r & Hr & _).
  change (length (bytes "www.b.org")) with 9%nat in Hr. rewrite Hr.
  vm_compute in Hr. injection Hr as <-. reflexivity.
Defined.

(** ** Hook tables *)

(** Setting a hook changes that hook and no other, and after
    evhtp_unset_all_hooks none is left. *)
Theorem hook_table_laws alloc (h : option evhtp_hooks) t cb arg :
  (alloc = true \/ is_Some h) -> t <> evhtp_hook__max ->
  (exists h', htp__set_hook_ alloc h t cb arg = (0, Some h') /\ h' t = (cb, arg) /\
     forall u, u <> t -> h' u = default no_hooks h u) /\
  (exists h', evhtp_unset_all_hooks alloc (Some h) = (0, Some (Some h')) /\
     forall u, u <> evhtp_hook__max -> h' u = (0, 0)).
Proof.
  intros Ha Ht. split.
  - exists (fun u => if decide (u = t) then (cb, arg) else default no_hooks h u).
    split; [|split; [by rewrite decide_True|intros u Hu; by rewrite decide_False]].
    unfold htp__set_hook_. destruct h as [h|]; [by destruct t|].
    destruct Ha as [->|[? ?]]; [|done]. by destruct t.
  - destruct h as [h|]; [|destruct Ha as [->|[? ?]]; [|done]];
      (eexists; split; [reflexivity|]; intros u Hu; by destruct u).
Qed.

Lemma hook_table_laws_witness :
  exists h', htp__set_hook_ true None evhtp_hook_on_path 5 6 = (0, Some h') /\
    h' evhtp_hook_on_path = (5, 6) /\ h' evhtp_hook_on_read = (0, 0).
Proof.
  destruct (hook_table_laws true None evhtp_hook_on_path 5 6 (or_introl eq_refl)
    ltac:(discriminate)) as [(h' & H1 & H2 & H3) _].
  exists h'. split; [exact H1|]. split; [exact H2|]. apply (H3 evhtp_hook_on_read). discriminate.
Defined.
