(* ===== verification/Numtoa.v ===== *)
(** * numtoa.c: printing unsigned integers in decimal

    The conversion writes the digits in reverse and then turns them round with
    [strreverse].  The buffer is the list of bytes written; pointers into it
    are indices.  The digit loop has fuel, one unit per digit;
    [u64toa_roundtrip] shows that it suffices. *)

From S2P Require Import Prelude MsgParser MsgParserSpec.

(** [while (end > begin)]: one exchange per unit of fuel. *)
Fixpoint strreverse (fuel : nat) (b e : nat) (str : list Z) : list Z :=
  match fuel with
  | O => str
  | S fuel =>
      if (b <? e)%nat then
        let aux := nth e str 0 in
        strreverse fuel (S b) (e - 1) (<[b := aux]> (<[e := nth b str 0]> str))
      else str
  end.

(** The do-while loop: the digits written, in reverse. *)
Fixpoint digits_loop (fuel : nat) (value : Z) : option (list Z) :=
  match fuel with
  | O => None
  | S fuel =>
      let d := 48 + value mod 10 in
      if value / 10 =? 0 then Some [d]
      else (fun ds => d :: ds) <$> digits_loop fuel (value / 10)
  end.

(** The bytes of [str] before its NUL, and the value returned; [None] only if
    the fuel runs out. *)
Definition evhtp_modp_u64toa (value : Z) : option (list Z * Z) :=
  (fun ds => (strreverse (length ds) 0 (length ds - 1) ds, Z.of_nat (length ds))) <$>
    digits_loop 20 value.
Definition evhtp_modp_u32toa (value : Z) : option (list Z * Z) :=
  (fun ds => (strreverse (length ds) 0 (length ds - 1) ds, Z.of_nat (length ds))) <$>
    digits_loop 10 value.
(** EVHTP_SYS_ARCH is 64. *)
Definition evhtp_modp_sizetoa (value : Z) : option (list Z * Z) := evhtp_modp_u64toa value.

(** The macro evhtp_modp_uchartoa. *)
Definition evhtp_modp_uchartoa (v : Z) : Z := u8 ("0"%c + v).

(** ** Reversal *)

Lemma strreverse_spec fuel b l r m :
  length l = b -> (length m <= fuel)%nat ->
  strreverse fuel b (b + length m - 1) (l ++ m ++ r) = l ++ reverse m ++ r.
Proof.
  revert b l r m. induction fuel as [|fuel IH]; intros b l r m Hb Hf.
  { destruct m; [done|cbn in Hf; lia]. }
  cbn [strreverse].
  destruct m as [|x m]; [|destruct m as [|y m _] using rev_ind].
  - rewrite (proj2 (Nat.ltb_ge _ _)) by (cbn; lia). done.
  - rewrite (proj2 (Nat.ltb_ge _ _)) by (cbn; lia). done.
  - cbn [length]. rewrite length_app. cbn [length].
    rewrite (proj2 (Nat.ltb_lt _ _)) by lia.
    set (e := (b + S (length m + 1) - 1)%nat).
    assert (l ++ (x :: m ++ [y]) ++ r = (l ++ x :: m) ++ y :: r) as E.
    { rewrite <- !app_assoc. cbn. by rewrite <- app_assoc. }
    assert (length (l ++ x :: m) = e) as He.
    { rewrite length_app. cbn. lia. }
    rewrite E, (app_nth2 _ _ _ (n := e)) by lia. rewrite He, Nat.sub_diag. cbn [nth].
    rewrite (app_nth1 _ _ _ (n := b)) by (rewrite length_app; cbn; lia).
    rewrite app_nth2 by lia. rewrite Hb, Nat.sub_diag. cbn [nth].
    rewrite insert_app_r_alt by lia. rewrite He, Nat.sub_diag. cbn [insert list_insert].
    rewrite <- app_assoc. rewrite insert_app_r_alt by lia. rewrite Hb, Nat.sub_diag.
    cbn [insert list_insert app].
    replace (l ++ y :: m ++ x :: r) with ((l ++ [y]) ++ m ++ (x :: r)) by (by rewrite <- app_assoc).
    replace (e - 1)%nat with (S b + length m - 1)%nat by lia.
    rewrite IH; [|rewrite length_app; cbn; lia|cbn in Hf; rewrite length_app in Hf; lia].
    rewrite reverse_cons, reverse_app. cbn. by rewrite <- !app_assoc.
Qed.

Lemma strreverse_reverse ds : strreverse (length ds) 0 (length ds - 1) ds = reverse ds.
Proof.
  pose proof (strreverse_spec (length ds) 0 [] [] ds eq_refl ltac:(lia)) as H.
  cbn [app] in H. by rewrite !app_nil_r in H.
Qed.

(** ** The digits *)

Lemma digits_loop_spec fuel v :
  0 <= v < 10 ^ Z.of_nat fuel -> (0 < fuel)%nat ->
  exists ds, digits_loop fuel v = Some ds /\ ds <> [] /\ (length ds <= fuel)%nat /\
    Forall (fun c => isdigit c = true) ds /\ dec_value 0 (reverse ds) = v /\
    (v <> 0 -> nth (length ds - 1) ds 0 <> "0"%c).
Proof.
  revert v. induction fuel as [|fuel IH]; intros v Hv Hf; [lia|]. cbn [digits_loop].
  rewrite Nat2Z.inj_succ, Z.pow_succ_r in Hv by lia.
  pose proof (Z.div_mod v 10 ltac:(lia)) as Hdm.
  pose proof (Z.mod_pos_bound v 10 ltac:(lia)) as Hm.
  assert (isdigit (48 + v mod 10) = true) as Hd by (unfold isdigit; lia).
  destruct (Z.eqb_spec (v / 10) 0) as [E|Hne].
  - exists [48 + v mod 10]. split; [done|]. split; [done|]. split; [cbn; lia|].
    split; [by constructor|]. cbn. split; lia.
  - assert (0 < fuel)%nat as Hf'.
    { destruct fuel; [|lia]. exfalso. apply Hne. apply Z.div_small. cbn in Hv. lia. }
    destruct (IH (v / 10)) as (ds & -> & Hnil & Hlen & Hall & Hval & Htop); [|done|].
    { split; [apply Z.div_pos; lia|apply Z.div_lt_upper_bound; lia]. }
    exists ((48 + v mod 10) :: ds). split; [done|]. split; [done|]. split; [cbn; lia|].
    split; [by constructor|]. split.
    + rewrite reverse_cons. unfold dec_value in *. rewrite foldl_app. cbn. rewrite Hval. lia.
    + intros _. specialize (Htop Hne). destruct ds as [|d ds]; [done|].
      cbn [length] in *. replace (S (S (length ds)) - 1)%nat with (S (length ds)) by lia.
      replace (S (length ds) - 1)%nat with (length ds) in Htop by lia. exact Htop.
Qed.

(** The text printed for [v], read back by the parser's own reader. *)
Record prints (v : Z) (most : nat) (s : list Z) : Prop := {
  pr_length : (1 <= length s <= most)%nat;
  pr_digits : Forall (fun c => isdigit c = true) s;
  pr_first : v <> 0 -> head s <> Some "0"%c;
  pr_value : dec_value 0 s = v;
  pr_parse : parse_u64 s = Some v
}.

Lemma utoa_prints fuel v :
  0 <= v < 10 ^ Z.of_nat fuel -> v < 2 ^ 64 -> (0 < fuel)%nat ->
  exists s, (fun ds => (strreverse (length ds) 0 (length ds - 1) ds, Z.of_nat (length ds))) <$>
      digits_loop fuel v = Some (s, Z.of_nat (length s)) /\ prints v fuel s.
Proof.
  intros Hv H64 Hf.
  destruct (digits_loop_spec fuel v Hv Hf) as (ds & -> & Hnil & Hlen & Hall & Hval & Htop).
  cbn [fmap option_fmap option_map]. rewrite strreverse_reverse.
  exists (reverse ds). rewrite length_reverse. split; [done|].
  assert (0 < length ds)%nat as Hpos by (destruct ds; [done|cbn; lia]).
  split; [rewrite length_reverse; lia|by apply Forall_reverse| |done|].
  - intros Hne. specialize (Htop Hne). intros Hhd. apply Htop.
    destruct ds as [|d ds _] using rev_ind; [done|].
    rewrite reverse_app in Hhd. cbn in Hhd. injection Hhd as ->.
    rewrite length_app, app_nth2 by (cbn; lia). cbn.
    by replace (length ds + 1 - 1 - length ds)%nat with 0%nat by lia.
  - assert (Forall is_byte (reverse ds)) as Hb.
    { apply Forall_reverse. eapply Forall_impl; [exact Hall|].
      unfold isdigit, is_byte. cbn. intros; lia. }
    unfold parse_u64. destruct (reverse ds) as [|d r] eqn:Er.
    { apply (f_equal length) in Er. rewrite length_reverse in Er. cbn in Er. lia. }
    rewrite <- Er in *. apply parse_u64_loop_spec; [done|unfold UINT64_MAX; lia|].
    split_and!; [by apply Forall_reverse|done|unfold UINT64_MAX; lia].
Qed.

Lemma u64toa_prints v :
  0 <= v < 2 ^ 64 -> exists s, evhtp_modp_u64toa v = Some (s, Z.of_nat (length s)) /\ prints v 20 s.
Proof.
  intros Hv. apply utoa_prints; [|lia|lia].
  change (10 ^ Z.of_nat 20) with 100000000000000000000. lia.
Qed.

(** C38: evhtp_modp_u64toa prints every 64-bit value in at most 20 decimal
    digits and evhtp_modp_u32toa every 32-bit value in at most 10, without
    leading zeros; both return the number of digits, and the parser's own
    reader gets the value back: what a reply states as its Content-Length is
    what an HTTP parser will read. *)
Theorem u64toa_roundtrip v :
  0 <= v < 2 ^ 64 ->
  (exists s, evhtp_modp_u64toa v = Some (s, Z.of_nat (length s)) /\ prints v 20 s) /\
  (v < 2 ^ 32 -> exists s, evhtp_modp_u32toa v = Some (s, Z.of_nat (length s)) /\ prints v 10 s).
Proof.
  intros Hv. split; [by apply u64toa_prints|]. intros H32.
  apply utoa_prints; [change (10 ^ Z.of_nat 10) with 10000000000|..]; lia.
Qed.

Lemma u64toa_roundtrip_witness :
  (exists s, evhtp_modp_u64toa 4294967295 = Some (s, Z.of_nat (length s)) /\
     prints 4294967295 20 s) /\
  (4294967295 < 2 ^ 32 -> exists s, evhtp_modp_u32toa 4294967295 = Some (s, Z.of_nat (length s)) /\
     prints 4294967295 10 s).
Proof. apply (u64toa_roundtrip 4294967295). lia. Defined.
