(* ===== verification/Uri.v ===== *)
(** * evhtp.c: request targets

    [htp__path_new_] splits a path into directory and file;
    [htp__uri_set_query_] splits a query from its fragment and parses it;
    the URI and authority structures with their creation and clearing.
    [alloc i] says whether the [i]th allocation a function makes succeeds; the
    build is the one with assertions (NDEBUG not defined). *)

From S2P Require Import Prelude HtpTypes Kvs Query.

(** ** Paths *)

Record evhtp_path := {
  full : list Z;
  path : option (list Z);
  file : option (list Z);
  match_start : option (list Z);
  match_end : option (list Z);
  matched_soff : Z;
  matched_eoff : Z
}.
#[export] Instance eta_path : EtaFields evhtp_path := fun p =>
  Build_evhtp_path (full p) (path p) (file p) (match_start p) (match_end p)
    (matched_soff p) (matched_eoff p).

Definition htp__strdup_ (ok : bool) (s : list Z) : option (list Z) :=
  if ok then Some (cstr s) else None.
Definition htp__strndup_ (ok : bool) (s : list Z) (len : nat) : option (list Z) :=
  if ok then Some (cstr (take len s)) else None.

(** [for (i = len - 1; i != 0; i--)]: the index of the slash found. *)
Fixpoint last_slash (i : nat) (data : list Z) : option nat :=
  match i with
  | O => None
  | S i' => if nth i data 0 =? "/"%c then Some i else last_slash i' data
  end.

(** The path and file of [data]; [None] is [goto error]. *)
Definition split_path (alloc : nat -> bool) (data : list Z) :
    option (list Z * option (list Z)) :=
  let len := length data in
  let both p f :=
    match p with
    | None => None
    | Some p => match f with None => None | Some f => Some (p, Some f) end
    end in
  if (len =? 0)%nat then (fun p => (p, None)) <$> htp__strdup_ (alloc 1%nat) (bytes "/")
  else if negb (nth 0 data 0 =? "/"%c) then
    both (htp__strdup_ (alloc 1%nat) (bytes "/")) (htp__strndup_ (alloc 2%nat) data len)
  else if negb (nth (len - 1) data 0 =? "/"%c) then
    match last_slash (len - 1) data with
    | Some i =>
        both (htp__strndup_ (alloc 1%nat) data (i + 1))
             (htp__strndup_ (alloc 2%nat) (drop (i + 1) data) (len - (i + 1)))
    | None =>
        if (1 <? len)%nat then
          both (htp__strdup_ (alloc 1%nat) (bytes "/"))
               (htp__strndup_ (alloc 2%nat) (drop 1 data) (len - 1))
        else (fun p => (p, None)) <$> htp__strdup_ (alloc 1%nat) (bytes "/")
    end
  else (fun p => (p, None)) <$> htp__strndup_ (alloc 1%nat) data len.

(** [None] is the return value -1. *)
Definition htp__path_new_ (alloc : nat -> bool) (data : list Z) : option evhtp_path :=
  if negb (alloc 0%nat) then None
  else match split_path alloc data with
       | None => None
       | Some (p, f) =>
           match (if negb (length data =? 0)%nat
                  then htp__strndup_ (alloc 3%nat) data (length data)
                  else htp__strdup_ (alloc 3%nat) (bytes "/")) with
           | None => None
           | Some fu => Some {| full := fu; path := Some p; file := f; match_start := None;
                                match_end := None; matched_soff := 0; matched_eoff := 0 |}
           end
       end.

(** ** Authority and URI *)

Record evhtp_authority := {
  username : option (list Z);
  password : option (list Z);
  hostname : option (list Z);
  port : Z
}.
#[export] Instance eta_authority : EtaFields evhtp_authority := fun a =>
  Build_evhtp_authority (username a) (password a) (hostname a) (port a).

Record evhtp_uri := {
  authority : option evhtp_authority;
  uri_path : option evhtp_path;
  fragment : option (list Z);
  query_raw : option (list Z);
  query : option evhtp_kvs;
  uri_scheme : htp_scheme;
  has_query_body : bool
}.
#[export] Instance eta_uri : EtaFields evhtp_uri := fun u =>
  Build_evhtp_uri (authority u) (uri_path u) (fragment u) (query_raw u) (query u)
    (uri_scheme u) (has_query_body u).

(** [calloc] *)
Definition zero_authority : evhtp_authority :=
  {| username := None; password := None; hostname := None; port := 0 |}.

Definition htp__authority_new_ (alloc : bool) : option evhtp_authority :=
  if alloc then Some zero_authority else None.

Definition htp__authority_clear_ (a : option evhtp_authority) : option evhtp_authority :=
  (fun a => a <| username := None |> <| password := None |> <| hostname := None |>
              <| port := 0 |>) <$> a.

Definition htp__uri_clear_ (u : option evhtp_uri) : option evhtp_uri :=
  (fun u => u <| authority := htp__authority_clear_ (authority u) |>
              <| query := None |> <| uri_path := None |> <| fragment := None |>
              <| query_raw := None |> <| has_query_body := false |>
              <| uri_scheme := htp_scheme_none |>) <$> u.

(** [a1], [a2]: the allocations of the URI and of its authority. *)
Definition htp__uri_new_ (a1 a2 : bool) : option evhtp_uri :=
  if negb a1 then None
  else match htp__authority_new_ a2 with
       | None => None
       | Some a => Some {| authority := Some a; uri_path := None; fragment := None;
                           query_raw := None; query := None;
                           uri_scheme := htp_scheme_none; has_query_body := false |}
       end.

(** Returns 0 or -1, and the URI. *)
Definition htp__uri_set_query_ (mem : nat -> option Z * bool * bool) (u : evhtp_uri)
    (data : list Z) (flags : Z) : Z * evhtp_uri :=
  let ignore_fragment := has flags EVHTP_PARSE_QUERY_FLAG_IGNORE_FRAGMENTS in
  let '(u, data) :=
    match (if ignore_fragment then None else memchr "#"%c data) with
    | Some off => (u <| fragment := Some (drop (off + 1) data) |>, take off data)
    | None => (u, data)
    end in
  let u := u <| query := evhtp_parse_query_wflags mem flags data |> in
  match query u with
  | None => (-1, u)
  | Some _ => (0, u <| query_raw := Some data |>)
  end.

(** ** Splitting a path *)

Lemma last_slash_spec i data :
  match last_slash i data with
  | Some j => (0 < j <= i)%nat /\ nth j data 0 = "/"%c /\
              forall k, (j < k <= i)%nat -> nth k data 0 <> "/"%c
  | None => forall k, (0 < k <= i)%nat -> nth k data 0 <> "/"%c
  end.
Proof.
  induction i as [|i IH]; [intros k; lia|]. cbn [last_slash].
  destruct (Z.eqb_spec (nth (S i) data 0) "/"%c) as [E|E].
  - split; [lia|]. split; [done|]. intros k Hk. lia.
  - destruct (last_slash i data) as [j|].
    + destruct IH as (Hj & Hn & Hno). split; [lia|]. split; [done|].
      intros k Hk. destruct (Nat.eq_dec k (S i)) as [->|]; [done|]. apply Hno. lia.
    + intros k Hk. destruct (Nat.eq_dec k (S i)) as [->|]; [done|]. apply IH. lia.
Qed.

Definition slashless (s : list Z) : Prop := Forall (fun c => c <> "/"%c) s.

Lemma slashless_drop n data :
  (forall k, (n <= k < length data)%nat -> nth k data 0 <> "/"%c) -> slashless (drop n data).
Proof.
  intros H. apply Forall_lookup. intros i x Hi. rewrite lookup_drop in Hi.
  apply (nth_lookup_Some _ _ 0) in Hi as Hx. rewrite <- Hx.
  apply lookup_lt_Some in Hi. apply H. lia.
Qed.

Lemma forall_nonzero_cstr s : Forall (fun c => c <> 0) s -> cstr s = s.
Proof. apply cstr_id. Qed.

(** A path is split without loss.  For a target that starts with a slash
    the directory part ends in a slash, the file part has none, and the two
    put together are the target; any other target is all file, in the root
    directory. *)
Theorem path_new_splits alloc data :
  (forall i, alloc i = true) -> Forall (fun c => c <> 0) data ->
  exists p d, htp__path_new_ alloc data = Some p /\ path p = Some d /\
    last d = Some "/"%c /\
    match data with
    | [] => full p = bytes "/" /\ d = bytes "/" /\ file p = None
    | c :: _ =>
        full p = data /\
        if c =? "/"%c then d ++ default [] (file p) = data /\
                           slashless (default [] (file p)) /\ file p <> Some []
        else d = bytes "/" /\ file p = Some data
    end.
Proof.
  intros Ha Hd. unfold htp__path_new_, split_path, htp__strdup_, htp__strndup_. rewrite !Ha.
  cbn [negb]. destruct data as [|c data']; [by eexists _, _|].
  set (data := c :: data') in *. set (len := length data).
  assert (0 < len)%nat as Hlen by (cbn; lia).
  rewrite (proj2 (Nat.eqb_neq len 0)) by lia. cbn [negb].
  rewrite (take_ge data) by (unfold len; lia). rewrite (cstr_id data Hd).
  change (nth 0 data 0) with c. destruct (Z.eqb_spec c "/"%c) as [Hc|Hc]; cbn [negb].
  2:{ eexists _, _. split; [reflexivity|]. done. }
  destruct (Z.eqb_spec (nth (len - 1) data 0) "/"%c) as [Hlast|Hlast]; cbn [negb].
  { eexists _, _. split; [reflexivity|]. cbn [path full file default]. split; [done|].
    split.
    - unfold len in Hlast. destruct data as [|x l _] using rev_ind; [done|].
      rewrite length_app in Hlast. cbn in Hlast.
      rewrite app_nth2 in Hlast by lia.
      replace (length l + 1 - 1 - length l)%nat with 0%nat in Hlast by lia. cbn in Hlast.
      by rewrite last_snoc, Hlast.
    - split; [done|]. rewrite app_nil_r. split_and!; try done. apply Forall_nil. exact I. }
  assert (1 < len)%nat as Hlen1.
  { destruct data' as [|y data'']; [|cbn; lia]. exfalso. by apply Hlast. }
  pose proof (last_slash_spec (len - 1) data) as Hs.
  destruct (last_slash (len - 1) data) as [j|].
  - destruct Hs as (Hj & Hnj & Hno).
    assert (Forall (fun c => c <> 0) (take (j + 1) data)) as Hd1 by (by apply Forall_take).
    assert (Forall (fun c => c <> 0) (drop (j + 1) data)) as Hd2 by (by apply Forall_drop).
    rewrite (cstr_id _ Hd1).
    rewrite (take_ge (drop (j + 1) data)) by (rewrite length_drop; unfold len; lia).
    rewrite (cstr_id _ Hd2).
    eexists _, _. split; [reflexivity|]. cbn [path full file default from_option id].
    split; [done|]. split.
    { replace (j + 1)%nat with (S j) by lia.
      destruct (lookup_lt_is_Some_2 data j) as [x Hx]; [unfold len in *; lia|].
      rewrite (take_S_r _ _ _ Hx), last_snoc.
      by rewrite <- Hnj, (nth_lookup_Some _ _ 0 _ Hx). }
    split; [done|]. split; [apply take_drop|]. split.
    + apply slashless_drop. intros k Hk. apply Hno. unfold len. lia.
    + intros [= Hf]. apply (f_equal length) in Hf. rewrite length_drop in Hf.
      cbn [length] in Hf. destruct (Nat.eq_dec j (len - 1)) as [->|]; [congruence|].
      unfold len in *. lia.
  - rewrite (proj2 (Nat.ltb_lt 1 len)) by lia. change (drop 1 data) with data'.
    assert (len - 1 = length data')%nat as -> by (unfold len, data; cbn; lia).
    rewrite take_ge by done.
    assert (Forall (fun c => c <> 0) data') as Hd' by (by apply Forall_cons in Hd as [_ Hd]).
    rewrite (cstr_id _ Hd').
    eexists _, _. split; [reflexivity|]. cbn [path full file default from_option id].
    split; [done|]. split; [done|]. split; [done|].
    split; [unfold data; by rewrite Hc|]. split.
    + change data' with (drop 1 data). apply slashless_drop. intros k Hk. apply Hs.
      unfold len. lia.
    + intros [= ->]. unfold len, data in Hlen1. cbn in Hlen1. lia.
Qed.

Lemma path_new_splits_witness :
  exists p d, htp__path_new_ (fun _ => true) (bytes "/a/b/c.html") = Some p /\
    path p = Some d /\ last d = Some "/"%c /\ full p = bytes "/a/b/c.html" /\
    d ++ default [] (file p) = bytes "/a/b/c.html" /\
    slashless (default [] (file p)) /\ file p <> Some [].
Proof.
  apply (path_new_splits (fun _ => true) (bytes "/a/b/c.html")); [done|].
  apply (bool_decide_unpack _). vm_compute. exact I.
Defined.

(** A query is separated from its fragment at the first '#' and nothing
    of it is lost: what is kept verbatim, with the fragment put back after a
    '#', is the input, and the arguments are those of the part before it;
    with EVHTP_PARSE_QUERY_FLAG_IGNORE_FRAGMENTS the '#' is ordinary.  The
    call fails exactly when that part cannot be parsed. *)
Theorem uri_set_query_splits mem u data flags :
  let '(r, u') := htp__uri_set_query_ mem u data flags in
  let ignore := has flags EVHTP_PARSE_QUERY_FLAG_IGNORE_FRAGMENTS in
  exists q, query u' = evhtp_parse_query_wflags mem flags q /\
    (r = 0 <-> query u' <> None) /\ (r = -1 <-> query u' = None) /\
    (r = 0 -> query_raw u' = Some q) /\
    ((ignore = true \/ ~ In "#"%c data) /\ q = data /\ fragment u' = fragment u \/
     ignore = false /\ ~ In "#"%c q /\
       exists f, fragment u' = Some f /\ data = q ++ "#"%c :: f).
Proof.
  unfold htp__uri_set_query_.
  set (ignore := has flags EVHTP_PARSE_QUERY_FLAG_IGNORE_FRAGMENTS).
  destruct (if ignore then None else memchr "#"%c data) as [off|] eqn:E.
  - destruct ignore; [done|].
    assert (~ In "#"%c (take off data) /\ data = take off data ++ "#"%c :: drop (off + 1) data)
      as [Hno Hdata].
    { revert off E. induction data as [|c data IH]; intros off; cbn; [done|].
      destruct (Z.eqb_spec c 35) as [->|Hne]; [intros [= <-]; cbn; tauto|].
      destruct (memchr 35 data) as [o|]; [|done]. intros [= <-]. cbn.
      destruct (IH o eq_refl) as [Hno Hd]. split.
      - intros [->|Hin]; [done|]. by apply Hno.
      - f_equal. exact Hd. }
    cbn [query set_field eta_fields eta_uri].
    destruct (evhtp_parse_query_wflags mem flags (take off data)) as [a|] eqn:Eq;
      exists (take off data); cbn; rewrite Eq; split_and!; try done; right;
      split_and!; try done; by eexists.
  - cbn [query set_field eta_fields eta_uri].
    assert (ignore = true \/ ~ In "#"%c data) as Hor.
    { destruct ignore; [by left|right]. apply memchr_none in E.
      rewrite Forall_forall in E. intros Hin%list_elem_of_In. by apply (E _ Hin). }
    destruct (evhtp_parse_query_wflags mem flags data) as [a|] eqn:Eq;
      exists data; cbn; rewrite Eq; split_and!; try done; left; done.
Qed.
