(* ===== verification/Request.v ===== *)
(** * evhtp.c: requests, connections and the calls into the application

    The data a request is made of ([evhtp_request], [evhtp_connection]), the
    store they live in ([world]), the hook runners (HOOK_REQUEST_RUN and the
    htp__hook_*_ functions) and the life cycle of a request: creation,
    clearing, recycling and the cache of reusable requests.

    A request is known by its address, a key of [w_reqs]; the store holds the
    one connection the requests belong to.  The application's functions are
    numbers, run by [app_hook] and [app_cb]: they may change anything in the
    store, and the parser within the setters of parser.h.  The allocator is
    [mem], asked once per allocation; an allocation that the code only guards
    with evhtp_alloc_assert, which aborts, is taken to succeed.  [w_ub] records
    that the code went through a NULL pointer.  Connections that speak HTTP/2
    are outside the model. *)

From S2P Require Import Prelude HtpTypes HtString MsgParser Kvs Query Callbacks Uri.
From stdpp Require Import gmap.
#[local] Open Scope Z_scope.
#[local] Open Scope htp_scope.

Definition EVHTP_RES_ERROR : Z := 0.
Definition EVHTP_RES_PAUSE : Z := 1.
Definition EVHTP_RES_FATAL : Z := 2.
Definition EVHTP_RES_USER : Z := 3.
Definition EVHTP_RES_DATA_TOO_LONG : Z := 4.
Definition EVHTP_RES_OK : Z := 200.
Definition EVHTP_RES_500 : Z := 500.

Definition EVHTP_REQ_FLAG_KEEPALIVE : Z := Z.shiftl 1 0.
Definition EVHTP_REQ_FLAG_FINISHED : Z := Z.shiftl 1 1.
Definition EVHTP_REQ_FLAG_CHUNKED : Z := Z.shiftl 1 2.
Definition EVHTP_REQ_FLAG_ERROR : Z := Z.shiftl 1 3.
Definition EVHTP_REQ_FLAG_HDRS_START : Z := Z.shiftl 1 4.
Definition EVHTP_REQ_FLAG_END_STREAM : Z := Z.shiftl 1 5.

Definition EVHTP_CONN_FLAG_ERROR : Z := Z.shiftl 1 0.
Definition EVHTP_CONN_FLAG_OWNER : Z := Z.shiftl 1 1.
Definition EVHTP_CONN_FLAG_VHOST_VIA_SNI : Z := Z.shiftl 1 2.
Definition EVHTP_CONN_FLAG_PAUSED : Z := Z.shiftl 1 3.
Definition EVHTP_CONN_FLAG_CONNECTED : Z := Z.shiftl 1 4.
Definition EVHTP_CONN_FLAG_WAITING : Z := Z.shiftl 1 5.
Definition EVHTP_CONN_FLAG_FREE_CONN : Z := Z.shiftl 1 6.
Definition EVHTP_CONN_FLAG_KEEPALIVE : Z := Z.shiftl 1 7.

Definition EVHTP_FLAG_ENABLE_100_CONT : Z := Z.shiftl 1 0.

Inductive evhtp_proto := EVHTP_PROTO_INVALID | EVHTP_PROTO_10 | EVHTP_PROTO_11 | EVHTP_PROTO_20.
#[export] Instance evhtp_proto_eq_dec : EqDecision evhtp_proto.
Proof. solve_decision. Defined.

Inductive evhtp_type := evhtp_type_client | evhtp_type_server.
#[export] Instance evhtp_type_eq_dec : EqDecision evhtp_type.
Proof. solve_decision. Defined.

Definition htp__is_http_11_ (major minor : Z) : bool := (1 <=? major) && (1 <=? minor).
Definition htp__is_http_10_ (major minor : Z) : bool := (1 <=? major) && (minor <=? 0).

(** The parameters are of type [char]. *)
Definition char_of (c : Z) : Z := if 128 <=? c then c - 256 else c.
Definition htp__protocol_ (major minor : Z) : evhtp_proto :=
  let major := char_of major in
  let minor := char_of minor in
  if htp__is_http_10_ major minor then EVHTP_PROTO_10
  else if htp__is_http_11_ major minor then EVHTP_PROTO_11
  else EVHTP_PROTO_INVALID.

(** ** Data *)

(** [r_conn]: whether [conn] is set; it is then the store's connection. *)
Record evhtp_request := {
  r_htp : option nat;
  r_conn : bool;
  r_hooks : option evhtp_hooks;
  r_uri : option evhtp_uri;
  buffer_in : option (list Z);
  buffer_out : option (list Z);
  headers_in : option evhtp_kvs;
  headers_out : option evhtp_kvs;
  r_proto : evhtp_proto;
  r_method : htp_method;
  r_status : Z;
  r_flags : Z;
  stream_id : Z;
  r_cb : Z;
  r_cbarg : Z
}.
#[export] Instance eta_request : EtaFields evhtp_request := fun r =>
  Build_evhtp_request (r_htp r) (r_conn r) (r_hooks r) (r_uri r) (buffer_in r)
    (buffer_out r) (headers_in r) (headers_out r) (r_proto r) (r_method r) (r_status r)
    (r_flags r) (stream_id r) (r_cb r) (r_cbarg r).

(** What a bufferevent calls. *)
Inductive bev_cb :=
| cb_null | htp__connection_readcb | htp__connection_writecb | htp__connection_eventcb
| cb_freecb | cb_sslfreecb | cb_ssleventcb | htp__h2_connection_readcb.
#[export] Instance bev_cb_eq_dec : EqDecision bev_cb.
Proof. solve_decision. Defined.

(** [c_bev]: whether [bev] is set; [bev_*]: the bufferevent the connection was
    given, which outlives it when [bev_freed] is false; [bev_sent]: what it has
    written to the socket; [resume_ev]: whether
    the event exists, [resume_pending]: whether it was activated; [c_sni]: the
    name SSL_get_servername gives, if [ssl] is set; [c_freed]: whether the
    connection itself was freed. *)
Record evhtp_connection := {
  c_htp : option nat;
  c_hooks : option evhtp_hooks;
  c_type : evhtp_type;
  c_flags : Z;
  c_request : option nat;
  c_max_body_size : Z;
  c_body_bytes_read : Z;
  c_num_requests : Z;
  scratch_buf : option (list Z);
  c_ssl : bool;
  c_sni : option (list Z);
  c_recv_timeo : Z * Z;
  c_send_timeo : Z * Z;
  c_freed : bool;
  c_bev : bool;
  bev_freed : bool;
  bev_ssl : bool;
  bev_input : list Z;
  bev_output : list Z;
  bev_sent : list Z;
  bev_reading : bool;
  bev_writing : bool;
  bev_timeouts : option (Z * Z) * option (Z * Z);
  bev_readcb : bev_cb;
  bev_writecb : bev_cb;
  bev_eventcb : bev_cb;
  resume_ev : bool;
  resume_pending : bool
}.
#[export] Instance eta_connection : EtaFields evhtp_connection := fun c =>
  Build_evhtp_connection (c_htp c) (c_hooks c) (c_type c) (c_flags c) (c_request c)
    (c_max_body_size c) (c_body_bytes_read c) (c_num_requests c) (scratch_buf c) (c_ssl c)
    (c_sni c) (c_recv_timeo c) (c_send_timeo c) (c_freed c) (c_bev c) (bev_freed c) (bev_ssl c)
    (bev_input c) (bev_output c) (bev_sent c) (bev_reading c) (bev_writing c) (bev_timeouts c) (bev_readcb c)
    (bev_writecb c) (bev_eventcb c) (resume_ev c) (resume_pending c).

Section World.
Context `{RegexLib} {A : Type}.

Record world := {
  w_conn : evhtp_connection;
  w_reqs : gmap nat evhtp_request;
  w_cache : gmap nat (list nat);   (** [htp->requests] of each [evhtp_t] *)
  w_htps : htps;
  w_allocs : nat;                  (** allocations made so far *)
  w_ub : bool;
  w_app : A
}.
#[export] Instance eta_world : EtaFields world := fun w =>
  Build_world (w_conn w) (w_reqs w) (w_cache w) (w_htps w) (w_allocs w) (w_ub w) (w_app w).
End World.
#[global] Arguments world {_} A.

(** What a hook of the application is given besides the request. *)
Inductive hook_data :=
| d_none | d_path | d_header (a : Z) | d_headers | d_buf | d_len (n : Z)
| d_host (s : list Z) | d_errtype (e : Z).

Record App `{RegexLib} (A : Type) := {
  app_hook : evhtp_hook_type -> nat -> Z -> Z -> hook_data -> M (St (world A)) Z;
  app_cb : nat -> Z -> Z -> M (St (world A)) unit;
  (** the hooks of the connection, and the accept callbacks *)
  app_conn : evhtp_hook_type -> Z -> Z -> hook_data -> M (St (world A)) Z;
  app_accept : Z -> Z -> M (St (world A)) Z
}.
#[global] Arguments app_hook {_ A}.
#[global] Arguments app_cb {_ A}.
#[global] Arguments app_conn {_ A}.
#[global] Arguments app_accept {_ A}.

(** ** Access to the store *)

Section Store.
Context `{RegexLib} {A : Type} (mem : nat -> bool).
Abbreviation W := (world A).

Definition getw {B} (f : W -> B) : M (St W) B := fun s => (f s.2, s).
Definition updw (f : W -> W) : M (St W) unit := fun s => (tt, (s.1, f s.2)).
Definition upd_conn (f : evhtp_connection -> evhtp_connection) : M (St W) unit :=
  updw (fun w => w <| w_conn := f (w_conn w) |>).
Definition upd_req (i : nat) (f : evhtp_request -> evhtp_request) : M (St W) unit :=
  updw (fun w => w <| w_reqs := alter f i (w_reqs w) |>).

(** A NULL pointer was followed. *)
Definition ub {B} (b : B) : M (St W) B := fun s => (b, (s.1, s.2 <| w_ub := true |>)).

(** The request at [i], for [k]. *)
Definition with_req (i : nat) (k : evhtp_request -> M (St W) Z) : M (St W) Z :=
  rs <- getw w_reqs ;;
  match rs !! i with Some r => k r | None => ub (-1) end.
(** [c->request], dereferenced. *)
Definition with_cur (k : nat -> evhtp_request -> M (St W) Z) : M (St W) Z :=
  c <- getw w_conn ;;
  match c_request c with Some i => with_req i (k i) | None => ub (-1) end.
(** [c->cr_status = v] *)
Definition set_cr_status (v : Z) : M (St W) Z :=
  with_cur (fun i r => upd_req i (fun r => r <| r_status := v |>) ;; ret v).

(** [n] allocations are made; the first of them has this number. *)
Definition allocs (n : nat) : M (St W) nat :=
  k <- getw w_allocs ;;
  updw (fun w => w <| w_allocs := (w_allocs w + n)%nat |>) ;; ret k.
(** The addresses and copies the [i]th key/value pair made from allocation [k]
    on is built with. *)
Definition kv_mem (k i : nat) : option Z * bool * bool :=
  (if mem (k + 3 * i) then Some (Z.of_nat (k + 3 * i)) else None,
   mem (k + 3 * i + 1)%nat, mem (k + 3 * i + 2)%nat).

(** ** Hook runners *)

Context (app : App A).

Definition hook_set (hs : option evhtp_hooks) (t : evhtp_hook_type) : option (Z * Z) :=
  match hs with
  | Some h => if (h t).1 =? 0 then None else Some (h t)
  | None => None
  end.

(** HOOK_REQUEST_RUN(request, hook, ...); return EVHTP_RES_OK; *)
Definition hook_request_run (i : nat) (t : evhtp_hook_type) (d : hook_data) : M (St W) Z :=
  with_req i (fun r =>
    c <- getw w_conn ;;
    match hook_set (r_hooks r) t with
    | Some (f, arg) => v <- app_hook app t i f arg d ;; ret (v mod 2 ^ 16)
    | None =>
        match (if r_conn r then hook_set (c_hooks c) t else None) with
        | Some (f, arg) => v <- app_hook app t i f arg d ;; ret (v mod 2 ^ 16)
        | None => ret EVHTP_RES_OK
        end
    end).

Definition htp__hook_path_ i := hook_request_run i evhtp_hook_on_path d_path.
Definition htp__hook_header_ i a := hook_request_run i evhtp_hook_on_header (d_header a).
Definition htp__hook_headers_ i := hook_request_run i evhtp_hook_on_headers d_headers.
Definition htp__hook_body_ (i : option nat) : M (St W) Z :=
  match i with
  | None => ret EVHTP_RES_500
  | Some i => hook_request_run i evhtp_hook_on_read d_buf
  end.
Definition htp__hook_request_fini_ (i : option nat) : M (St W) Z :=
  match i with
  | None => ret EVHTP_RES_500
  | Some i => hook_request_run i evhtp_hook_on_request_fini d_none
  end.
Definition htp__hook_chunk_new_ i n := hook_request_run i evhtp_hook_on_new_chunk (d_len n).
Definition htp__hook_chunk_fini_ i := hook_request_run i evhtp_hook_on_chunk_complete d_none.
Definition htp__hook_chunks_fini_ i := hook_request_run i evhtp_hook_on_chunks_complete d_none.
Definition htp__hook_headers_start_ i := hook_request_run i evhtp_hook_on_headers_start d_none.
Definition htp__hook_hostname_ i s := hook_request_run i evhtp_hook_on_hostname (d_host s).

(** ** The life of a request *)

Definition clear_request (r : evhtp_request) : evhtp_request :=
  r <| r_uri := htp__uri_clear_ (r_uri r) |>
    <| headers_in := fst (evhtp_kvs_clear (headers_in r)) |>
    <| headers_out := fst (evhtp_kvs_clear (headers_out r)) |>
    <| buffer_in := (fun _ => []) <$> buffer_in r |>
    <| buffer_out := (fun _ => []) <$> buffer_out r |>
    <| r_hooks := (fun _ => no_hooks) <$> r_hooks r |>
    <| r_conn := false |> <| r_cb := 0 |> <| r_method := htp_method_UNKNOWN |>
    <| r_status := EVHTP_RES_OK |> <| r_proto := EVHTP_PROTO_11 |> <| r_flags := 0 |>
    <| stream_id := 0 |>.
Definition htp__request_clear_ (i : nat) : M (St W) unit := upd_req i clear_request.

(** To the cache of its [evhtp_t], or away. *)
Definition recycle_request (i : nat) (r : evhtp_request) : M (St W) Z :=
  match r_htp r with
  | Some h =>
      htp__request_clear_ i ;;
      updw (fun w => w <| w_cache := <[h := i :: default [] (w_cache w !! h)]> (w_cache w) |>) ;;
      ret 0
  | None => updw (fun w => w <| w_reqs := delete i (w_reqs w) |>) ;; ret 0
  end.

Definition htp__request_free_ (i : option nat) : M (St W) Z :=
  match i with
  | None => ret 0
  | Some i =>
      htp__hook_request_fini_ (Some i) ;;
      with_req i (fun r =>
        (if r_conn r then
           upd_conn (fun c => if bool_decide (c_request c = Some i)
                              then c <| c_request := None |> else c)
         else ret tt) ;;
        recycle_request i r)
  end.

(** calloc, and the members set before anything else is allocated; [i] is the
    new request's address. *)
Definition zero_request (h : option nat) : evhtp_request :=
  {| r_htp := h; r_conn := true; r_hooks := None; r_uri := None; buffer_in := None;
     buffer_out := None; headers_in := None; headers_out := None;
     r_proto := EVHTP_PROTO_INVALID; r_method := htp_method_UNKNOWN;
     r_status := EVHTP_RES_OK; r_flags := 0; stream_id := 0; r_cb := 0; r_cbarg := 0 |}.

(** The allocations of the do-while, in order; the flag is [error == 0]. *)
Definition fill_request (k : nat) (r : evhtp_request) : evhtp_request * bool :=
  if negb (mem k) then (r, false) else
  let r := r <| buffer_in := Some [] |> in
  if negb (mem (k + 1)) then (r, false) else
  let r := r <| buffer_out := Some [] |> in
  if negb (mem (k + 2)) then (r, false) else
  let r := r <| headers_in := Some [] |> in
  if negb (mem (k + 3)) then (r, false) else
  (r <| headers_out := Some [] |>, true).

Definition htp__request_new_ : M (St W) (option nat) :=
  k <- allocs 5 ;;
  if negb (mem k) then ret None
  else
    c <- getw w_conn ;;
    let '(r, ok) := fill_request (k + 1) (zero_request (c_htp c)) in
    updw (fun w => w <| w_reqs := <[k := r]> (w_reqs w) |>) ;;
    if ok then ret (Some k)
    else htp__request_free_ (Some k) ;; ret None.

Definition get_request_from_cache : M (St W) (option nat) :=
  c <- getw w_conn ;;
  match c_htp c with
  | Some h =>
      cache <- getw w_cache ;;
      match default [] (cache !! h) with
      | i :: rest =>
          updw (fun w => w <| w_cache := <[h := rest]> (w_cache w) |>) ;;
          upd_req i (fun r => r <| r_conn := true |> <| r_htp := Some h |>
                                <| r_status := EVHTP_RES_OK |>) ;;
          ret (Some i)
      | [] => ret None
      end
  | None => ret None
  end.

Definition htp__request_new__ : M (St W) (option nat) :=
  r <- get_request_from_cache ;;
  match r with Some i => ret (Some i) | None => htp__request_new_ end.

End Store.
