(* ===== verification/ReqParse.v ===== *)
(** * evhtp.c: building a request from the parser's calls

    The functions of [request_psets], the hook table with which the connection
    runs the parser: each takes the parser and the store, and returns C's
    [int].  [after] gives the bytes of the read buffer that follow the ones a
    hook was called with, which htp__glob_match_ and strtoul may look at. *)

From S2P Require Import Prelude HtpTypes HtString MsgParser MsgParserFacts Kvs Query Callbacks Numtoa Uri Request.
From stdpp Require Import gmap.
#[local] Open Scope Z_scope.
#[local] Open Scope htp_scope.

(** ** strtoul(s, &end, 10): the value and how far it read *)

Definition isspace (c : Z) : bool := (c =? SP) || ((9 <=? c) && (c <=? 13)).
Fixpoint skip_isspace (s : list Z) : nat :=
  match s with c :: s' => if isspace c then S (skip_isspace s') else O | [] => O end.
Fixpoint digits_value (s : list Z) (v : Z) (n : nat) : Z * nat :=
  match s with
  | c :: s' => if isdigit c then digits_value s' (v * 10 + (c - "0"%c)) (S n) else (v, n)
  | [] => (v, n)
  end.
Definition strtoul (s : list Z) : Z * nat :=
  let k := skip_isspace s in
  let '(neg, sg) := match drop k s with
                    | c :: _ => if c =? "-"%c then (true, 1%nat)
                                else if c =? "+"%c then (false, 1%nat) else (false, 0%nat)
                    | [] => (false, 0%nat)
                    end in
  let '(v, n) := digits_value (drop (k + sg) s) 0 0 in
  if (n =? 0)%nat then (0, 0%nat)
  else ((if UINT64_MAX <? v then UINT64_MAX else if neg then u64 (- v) else v),
        (k + sg + n)%nat).

Section Hooks.
Context `{RegexLib} {A : Type} (mem : nat -> bool) (app : App A) (after : list Z -> list Z).
Abbreviation W := (world A).

Definition is_client (c : evhtp_connection) : bool := bool_decide (c_type c = evhtp_type_client).

(** [r->uri], for [k]. *)
Definition with_uri (r : evhtp_request) (k : evhtp_uri -> M (St W) Z) : M (St W) Z :=
  match r_uri r with Some u => k u | None => ub (-1) end.
Definition upd_uri (i : nat) (f : evhtp_uri -> evhtp_uri) : M (St W) unit :=
  upd_req i (fun r => r <| r_uri := f <$> r_uri r |>).
(** A failed hook: -1 to the parser. *)
Definition status_hook (m : nat -> M (St W) Z) : M (St W) Z :=
  with_cur (fun i _ =>
    v <- m i ;; set_cr_status v ;;
    ret (if v =? EVHTP_RES_OK then 0 else -1)).
Definition fatal : M (St W) Z := set_cr_status EVHTP_RES_FATAL ;; ret (-1).

(** ** Message start *)

Definition htp__request_parse_start_ : M (St W) Z :=
  c <- getw w_conn ;;
  if is_client c then ret 0
  else if has (c_flags c) EVHTP_CONN_FLAG_PAUSED then ret (-1)
  else
    let new := r <- htp__request_new__ mem app ;;
               upd_conn (fun c => c <| c_request := r |>) ;;
               match r with Some _ => ret 0 | None => ret (-1) end in
    match c_request c with
    | Some i =>
        with_req i (fun r =>
          if has (r_flags r) EVHTP_REQ_FLAG_FINISHED then
            htp__request_free_ app (Some i) ;;
            upd_conn (fun c => c <| c_request := None |>) ;; new
          else ret (-1))
    | None => new
    end.

(** ** Request line *)

Definition htp__request_parse_args_ (data : list Z) : M (St W) Z :=
  c <- getw w_conn ;;
  with_cur (fun i r =>
    if is_client c then ret 0
    else
      with_uri r (fun u =>
        hs <- getw w_htps ;;
        k <- allocs (3 * S (length data)) ;;
        match c_htp c ≫= (hs !!.) with
        | None => ub (-1)
        | Some h =>
            let '(v, u') := htp__uri_set_query_ (kv_mem mem k) u data (parser_flags h) in
            upd_uri i (fun _ => u') ;;
            if v =? -1 then set_cr_status EVHTP_RES_ERROR ;; ret (-1) else ret 0
        end)).

Definition htp__require_uri__ (i : option nat) : M (St W) Z :=
  match i with
  | None => ret (-1)
  | Some i =>
      with_req i (fun r =>
        match r_uri r with
        | Some _ => ret 0
        | None =>
            k <- allocs 2 ;;
            match htp__uri_new_ (mem k) (mem (k + 1)) with
            | Some u => upd_req i (fun r => r <| r_uri := Some u |>) ;; ret 0
            | None => ret (-1)
            end
        end)
  end.
Definition htp__require_uri_ : M (St W) Z :=
  c <- getw w_conn ;; htp__require_uri__ (c_request c).

(** [memcpy] to the start of a buffer. *)
Definition overlay (src buf : list Z) : list Z := src ++ drop (length src) buf.

(** The path with the callback's offsets and the two copies of what matched. *)
Definition set_matches (so eo : Z) (p : evhtp_path) : evhtp_path :=
  let zeros := replicate (S (length (full p))) 0 in
  let ms := default zeros (match_start p) in
  let me := default zeros (match_end p) in
  let from := drop (Z.to_nat so) (full p) in
  let p := p <| matched_soff := so |> <| matched_eoff := eo |> in
  if so =? 2 ^ 32 - 1 then p <| match_start := Some ms |> <| match_end := Some me |>
  else
    let n := u32 (eo - so) in
    p <| match_start := Some (overlay (if n =? 0 then from else take (Z.to_nat n) from) ms) |>
      <| match_end := Some (overlay (drop (Z.to_nat eo) (full p)) me) |>.

(** The callback, its argument, its hooks and the match offsets; [None]: a
    glob match ran away. *)
Definition select_callback (h : evhtp) (r : evhtp_request) (p : evhtp_path) :
    option (Z * Z * option evhtp_hooks * Z * Z) :=
  let found x := match x with
                 | (cb, so, eo) => (cb_cb cb, cb_cbarg cb, cb_hooks cb, so, eo)
                 end in
  match htp__callback_find_ (callbacks h) (full p) with
  | None => None
  | Some (Some x) => Some (found x)
  | Some None =>
      match htp__callback_find_ (callbacks h) (default [] (path p)) with
      | None => None
      | Some (Some x) => Some (found x)
      | Some None =>
          if negb (r_cb r =? 0)
          then Some (r_cb r, r_cbarg r, None, matched_soff p, matched_eoff p)
          else Some (d_cb (defaults h), d_cbarg (defaults h), None, 0,
                     u32 (Z.of_nat (length (full p))))
      end
  end.

Definition htp__request_set_callbacks_ (i : nat) : M (St W) Z :=
  with_req i (fun r =>
    hs <- getw w_htps ;;
    match r_htp r ≫= (hs !!.) with
    | None => ret (-1)
    | Some h =>
        if negb (r_conn r) then ret (-1)
        else match r_uri r ≫= uri_path with
             | None => ret (-1)
             | Some p =>
                 match select_callback h r p with
                 | None => ub (-1)
                 | Some (cb, arg, hooks, so, eo) =>
                     upd_uri i (fun u => u <| uri_path := Some (set_matches so eo p) |>) ;;
                     upd_req i (fun r =>
                       r <| r_hooks := match hooks with Some _ => hooks | None => r_hooks r end |>
                         <| r_cb := cb |> <| r_cbarg := arg |>) ;;
                     ret 0
                 end
             end
    end).

Definition htp__request_parse_path_ (data : list Z) : M (St W) Z :=
  ok <- htp__require_uri_ ;;
  if ok =? -1 then ret (-1)
  else
    k <- allocs 4 ;;
    match htp__path_new_ (fun n => mem (k + n)) data with
    | None => fatal
    | Some pth =>
        p <- gets fst ;;
        with_cur (fun i _ =>
          upd_uri i (fun u => u <| uri_path := Some pth |>
                                <| uri_scheme := htparser_get_scheme (Some p) |>) ;;
          upd_req i (fun r => r <| r_method := htparser_get_method (Some p) |>) ;;
          htp__request_set_callbacks_ i ;;
          status_hook (htp__hook_path_ app))
    end.

Definition htp__request_parse_host_ (data : list Z) : M (St W) Z :=
  ok <- htp__require_uri_ ;;
  if ok =? -1 then ret (-1)
  else
    k <- allocs 1 ;;
    with_cur (fun i r => with_uri r (fun u =>
      upd_uri i (fun u => u <| authority := (fun a => a <| hostname :=
                              if mem k then Some data else None |>) <$> authority u |>) ;;
      if mem k then ret 0 else fatal)).

Definition htp__request_parse_port_ (data : list Z) : M (St W) Z :=
  ok <- htp__require_uri_ ;;
  if ok =? -1 then ret (-1)
  else
    with_cur (fun i r => with_uri r (fun u =>
      let '(port_, n) := strtoul (data ++ after data) in
      if negb (n =? length data)%nat || (65535 <? port_) then fatal
      else upd_uri i (fun u => u <| authority :=
             (fun a => a <| port := port_ |>) <$> authority u |>) ;; ret 0)).

(** ** Headers *)

Definition htp__request_parse_headers_start_ : M (St W) Z :=
  status_hook (htp__hook_headers_start_ app).

Definition htp__request_parse_header_key_ (data : list Z) : M (St W) Z :=
  k <- allocs 2 ;;
  if negb (mem k) then fatal
  else
    with_cur (fun i r =>
      match evhtp_header_key_add (if mem (k + 1) then Some (Z.of_nat (k + 1)) else None) true
              (headers_in r) data 0 with
      | (None, _) => fatal
      | (Some hdr, hs) =>
          upd_req i (fun r => r <| headers_in :=
            (fun l => set_last l (hdr <| k_heaped := 1 |>)) <$> hs |>) ;; ret 0
      end).

(** The copy [val_s] is only guarded by evhtp_alloc_assert. *)
Definition htp__request_parse_header_val_ (data : list Z) : M (St W) Z :=
  with_cur (fun i r =>
    match evhtp_header_val_add (headers_in r) (Some data) 0 with
    | (None, _) => fatal
    | (Some hdr, hs) =>
        upd_req i (fun r => r <| headers_in :=
          (fun l => set_last l (hdr <| v_heaped := 1 |>)) <$> hs |>) ;;
        status_hook (fun i => htp__hook_header_ app i (addr hdr))
    end).

Definition htp__request_parse_hostname_ (data : list Z) : M (St W) Z :=
  c <- getw w_conn ;;
  match (if has (c_flags c) EVHTP_CONN_FLAG_VHOST_VIA_SNI then c_sni c else None) with
  | Some host => status_hook (fun i => htp__hook_hostname_ app i host)
  | None =>
      hs <- getw w_htps ;;
      match c_htp c ≫= (hs !!.) with
      | None => ub (-1)
      | Some h =>
          match htp__request_find_vhost_ hs h (data ++ after data) (length data) with
          | None => ub (-1)
          | Some v =>
              match v with
              | Some v =>
                  upd_conn (fun c => c <| c_htp := Some v |>) ;;
                  with_cur (fun i _ =>
                    upd_req i (fun r => r <| r_htp := Some v |>) ;;
                    htp__request_set_callbacks_ i)
              | None => ret 0
              end ;;
              status_hook (fun i => htp__hook_hostname_ app i data)
          end
      end
  end.

Definition update_parser (f : htparser -> htparser) : M (St W) unit := updp f.

Definition htp__request_parse_headers_ : M (St W) Z :=
  with_cur (fun i _ =>
    p <- gets fst ;;
    when (htparser_should_keep_alive (Some p))
      (upd_req i (fun r => r <| r_flags := flag_on (r_flags r) EVHTP_REQ_FLAG_KEEPALIVE |>)) ;;
    with_req i (fun r =>
      c <- getw w_conn ;;
      (if is_client c && bool_decide (r_method r = htp_method_HEAD) then
         upd_req i (fun r => r <| r_flags := flag_on (r_flags r) EVHTP_REQ_FLAG_END_STREAM |>) ;;
         update_parser htparser_set_skip_body
       else if htparser_is_chunked (Some p) || htparser_has_content_length (Some p) ||
               htparser_is_identity_response (Some p) then ret tt
       else upd_req i (fun r => r <| r_flags := flag_on (r_flags r) EVHTP_REQ_FLAG_END_STREAM |>)) ;;
      with_cur (fun j _ =>
        upd_req j (fun r => r <| r_proto :=
          htp__protocol_ (htparser_get_major (Some p)) (htparser_get_minor (Some p)) |>) ;;
        v <- htp__hook_headers_ app i ;;
        set_cr_status v ;;
        ok <- (if v =? EVHTP_RES_PAUSE then update_parser htparser_pause ;; ret true
               else ret (v =? EVHTP_RES_OK)) ;;
        if negb ok then ret (-1)
        else
          c <- getw w_conn ;;
          hs <- getw w_htps ;;
          if negb (bool_decide (c_type c = evhtp_type_server)) then ret 0
          else match c_htp c ≫= (hs !!.) with
               | None => ub (-1)
               | Some h =>
                   if negb (has (htp_flags h) EVHTP_FLAG_ENABLE_100_CONT) then ret 0
                   else
                     with_req i (fun r =>
                       match evhtp_header_find_n (headers_in r) (Some (bytes "Expect")) 6 with
                       | None => ret 0
                       | Some _ =>
                           p <- gets fst ;;
                           upd_conn (fun c => c <| bev_output := bev_output c ++
                             bytes "HTTP/" ++ [evhtp_modp_uchartoa (htparser_get_major (Some p))] ++
                             bytes "." ++ [evhtp_modp_uchartoa (htparser_get_minor (Some p))] ++
                             bytes " 100 Continue" ++ [CR; LF; CR; LF] |>) ;;
                           ret 0
                       end)
               end))).

(** ** Body *)

Definition htp__request_parse_body_ (data : list Z) : M (St W) Z :=
  c <- getw w_conn ;;
  let len := Z.of_nat (length data) in
  if (0 <? c_max_body_size c) && (c_max_body_size c <=? u64 (c_body_bytes_read c + len)) then
    upd_conn (fun c => c <| c_flags := flag_on (c_flags c) EVHTP_CONN_FLAG_ERROR |>) ;;
    set_cr_status EVHTP_RES_DATA_TOO_LONG ;; ret (-1)
  else
    match scratch_buf c with
    | None => ret (-1)
    | Some buf =>
        upd_conn (fun c => c <| scratch_buf := Some (buf ++ data) |>) ;;
        v <- htp__hook_body_ app (c_request c) ;;
        set_cr_status v ;;
        res <- (if v =? EVHTP_RES_PAUSE then update_parser htparser_pause ;; ret 0
                else if negb (v =? EVHTP_RES_OK) then ret (-1)
                else
                  c <- getw w_conn ;;
                  match default [] (scratch_buf c) with
                  | [] => ret 0
                  | buf => with_cur (fun i r =>
                      match buffer_in r with
                      | None => ub (-1)
                      | Some b =>
                          upd_req i (fun r => r <| buffer_in := Some (b ++ buf) |>) ;;
                          upd_conn (fun c => c <| scratch_buf := Some [] |>) ;;
                          ret 0
                      end)
                  end) ;;
        upd_conn (fun c => c <| c_body_bytes_read := u64 (c_body_bytes_read c + len) |>) ;;
        ret res
    end.

Definition htp__request_parse_chunk_new_ : M (St W) Z :=
  p <- gets fst ;;
  status_hook (fun i => htp__hook_chunk_new_ app i (htparser_get_content_length (Some p))).
Definition htp__request_parse_chunk_fini_ : M (St W) Z := status_hook (htp__hook_chunk_fini_ app).
Definition htp__request_parse_chunks_fini_ : M (St W) Z := status_hook (htp__hook_chunks_fini_ app).

(** ** Message end *)

(** A request that was built completely has a [buffer_in]. *)
Definition htp__should_parse_query_body_ (p : htparser) (r : evhtp_request) : bool :=
  match r_uri r with
  | None => false
  | Some u =>
      match query u with
      | Some _ => false
      | None =>
          let n := htparser_get_content_length (Some p) in
          if n =? 0 then false
          else if negb (n =? Z.of_nat (length (default [] (buffer_in r)))) then false
          else match evhtp_kv_find_n (headers_in r) (Some (bytes "content-type")) 12 with
               | None => false
               | Some ct => bytes_eqb (lower (take 33 ct))
                              (bytes "application/x-www-form-urlencoded")
               end
      end
  end.

Definition htp__request_query_from_body_ (i : nat) : M (St W) Z :=
  with_req i (fun r => with_uri r (fun _ =>
    let body := default [] (buffer_in r) in
    k <- allocs 1 ;;
    if negb (mem k) then ret (-1)
    else
      k <- allocs (3 * S (length body)) ;;
      upd_uri i (fun u => u <| query_raw := Some body |>
                            <| query := evhtp_parse_query (kv_mem mem k) body |>
                            <| has_query_body := true |>) ;;
      ret 0)).

Definition htp__request_parse_fini_ : M (St W) Z :=
  c <- getw w_conn ;;
  p <- gets fst ;;
  if has (c_flags c) EVHTP_CONN_FLAG_PAUSED then ret (-1)
  else
    rs <- getw w_reqs ;;
    let req := i ← c_request c; r ← rs !! i; Some (i, r) in
    ok <- match req with
          | Some (i, r) =>
              if htp__should_parse_query_body_ p r then
                v <- htp__request_query_from_body_ i ;;
                if v =? -1 then fatal else ret 0
              else ret 0
          | None => ret 0
          end ;;
    if negb (ok =? 0) then ret (-1)
    else
      match req with
      | Some (i, r) => if negb (r_cb r =? 0) then app_cb app i (r_cb r) (r_cbarg r) else ret tt
      | None => ret tt
      end ;;
      c <- getw w_conn ;;
      if has (c_flags c) EVHTP_CONN_FLAG_PAUSED then ret (-1) else ret 0.

(** The hook table of every connection. *)
Definition request_psets : htparse_hooks htparser W := fun n =>
  match n with
  | on_msg_begin => Some (fun _ => htp__request_parse_start_)
  | h_method | h_scheme | h_uri => None
  | h_host => Some htp__request_parse_host_
  | h_port => Some htp__request_parse_port_
  | h_path => Some htp__request_parse_path_
  | h_args => Some htp__request_parse_args_
  | on_hdrs_begin => Some (fun _ => htp__request_parse_headers_start_)
  | h_hdr_key => Some htp__request_parse_header_key_
  | h_hdr_val => Some htp__request_parse_header_val_
  | h_hostname => Some htp__request_parse_hostname_
  | on_hdrs_complete => Some (fun _ => htp__request_parse_headers_)
  | on_new_chunk => Some (fun _ => htp__request_parse_chunk_new_)
  | on_chunk_complete => Some (fun _ => htp__request_parse_chunk_fini_)
  | on_chunks_complete => Some (fun _ => htp__request_parse_chunks_fini_)
  | h_body => Some htp__request_parse_body_
  | on_msg_complete => Some (fun _ => htp__request_parse_fini_)
  end.
End Hooks.
