(* ===== verification/Reply.v ===== *)
(** * evhtp.c: replies

    Building the head of a reply (htp__create_reply_), sending whole and
    chunked replies.  The buffer a reply is built in is the connection's
    [scratch_buf]; what is handed to the bufferevent is appended to
    [bev_output]. *)

From S2P Require Import Prelude HtpTypes HtString MsgParser Kvs Query Callbacks Numtoa Uri Request ReqParse.
From stdpp Require Import gmap.
#[local] Open Scope Z_scope.
#[local] Open Scope htp_scope.

Definition EVHTP_RES_NOCONTENT : Z := 204.
Definition EVHTP_RES_NOTMOD : Z := 304.

(** The cases of the switch. *)
Definition status_strings : list (Z * string) :=
  [(200, "OK"%string); (300, "Redirect"%string); (400, "Bad Request"%string);
   (404, "Not Found"%string); (500, "Internal Server Error"%string); (100, "Continue"%string);
   (403, "Forbidden"%string); (101, "Switching Protocols"%string);
   (301, "Moved Permanently"%string); (102, "Processing"%string); (122, "URI Too Long"%string);
   (201, "Created"%string); (202, "Accepted"%string); (203, "No Auth Info"%string);
   (204, "No Content"%string); (205, "Reset Content"%string); (206, "Partial Content"%string);
   (207, "Multi-Status"%string); (226, "IM Used"%string); (302, "Found"%string);
   (303, "See Other"%string); (304, "Not Modified"%string); (305, "Use Proxy"%string);
   (306, "Switch Proxy"%string); (307, "Temporary Redirect"%string);
   (401, "Unauthorized"%string); (402, "Payment Required"%string);
   (405, "Method Not Allowed"%string); (406, "Not Acceptable"%string);
   (407, "Proxy Authentication Required"%string); (408, "Request Timeout"%string);
   (409, "Conflict"%string); (410, "Gone"%string); (411, "Length Required"%string);
   (412, "Precondition Failed"%string); (413, "Entity Too Large"%string);
   (414, "Request-URI Too Long"%string); (415, "Unsupported Media Type"%string);
   (416, "Requested Range Not Satisfiable"%string); (417, "Expectation Failed"%string);
   (418, "I'm a teapot"%string); (421, "Misdirected Request"%string);
   (422, "Unprocessable Content"%string); (423, "Locked"%string);
   (424, "Failed Dependency"%string); (425, "Too Early"%string);
   (426, "Upgrade Required"%string); (428, "Precondition Required"%string);
   (429, "Too Many Requests"%string); (431, "Request Header Fields Too Large"%string);
   (451, "Unavailable For Legal Reasons"%string); (501, "Not Implemented"%string);
   (502, "Bad Gateway"%string); (503, "Service Unavailable"%string);
   (504, "Gateway Timeout"%string); (505, "HTTP Version Not Supported"%string);
   (509, "Bandwidth Limit Exceeded"%string)].
Fixpoint status_switch (cases : list (Z * string)) (code : Z) : list Z :=
  match cases with
  | [] => bytes "UNKNOWN"
  | (c, s) :: cases => if code =? c then bytes s else status_switch cases code
  end.
Definition status_code_to_str (code : Z) : list Z := status_switch status_strings code.

(** ** Scatter-gather: base and length *)

Definition iovec : Type := option (list Z) * nat.

(** The [copy] bytes at the base; [None] when they are not there. *)
Definition iov_read (v : iovec) (copy : nat) : option (list Z) :=
  let base := default [] v.1 in
  if (copy <=? length base)%nat then Some (take copy base) else None.

Fixpoint iov_copy (vec : list iovec) (to_copy : nat) : option (list Z) :=
  match vec with
  | [] => Some []
  | v :: vec =>
      let copy := Nat.min v.2 to_copy in
      b ← iov_read v copy;
      if (to_copy - copy =? 0)%nat then Some b
      else (fun r => b ++ r) <$> iov_copy vec (to_copy - copy)
  end.
Definition to_alloc (vec : list iovec) : nat := foldl (fun n v => (n + v.2)%nat) 0%nat vec.

Section Reply.
Context `{RegexLib} {A : Type} (mem : nat -> bool).
Abbreviation W := (world A).

(** [evbuffer_add(c->scratch_buf, ...)] *)
Definition scratch_add (data : list Z) : M (St W) Z :=
  upd_conn (fun c => c <| scratch_buf := (fun b => b ++ data) <$> scratch_buf c |>) ;; ret 0.

(** [add]: evbuffer_add to the buffer that is written to. *)
Definition htp__evbuffer_add_iovec_ (add : list Z -> M (St W) Z) (vec : list iovec) : M (St W) Z :=
  match iov_copy vec (to_alloc vec) with
  | Some buffer => add buffer
  | None => ub (-1)
  end.

Definition htp__create_headers_ (add : list Z -> M (St W) Z) (header : evhtp_kv) : M (St W) Z :=
  htp__evbuffer_add_iovec_ add
    [(key header, klen header); (Some (bytes ": "), 2%nat); (val header, vlen header);
     (Some [CR; LF], 2%nat)] ;;
  ret 0.

(** [evhtp_headers_add_header(request->headers_out, evhtp_header_new(...))] *)
Definition add_out (i : nat) (k v : list Z) (key_alloc val_alloc : Z) : M (St W) unit :=
  n <- allocs 3 ;;
  let '(a, kp, vp) := kv_mem mem n 0 in
  upd_req i (fun r => r <| headers_out := evhtp_headers_add_header (headers_out r)
                             (evhtp_header_new a kp vp (Some k) (Some v) key_alloc val_alloc) |>).

Definition find_out (r : evhtp_request) (name : list Z) (len : nat) : bool :=
  bool_decide (is_Some (evhtp_header_find_n (headers_out r) (Some name) len)).

(** Up to the label check_proto. *)
Definition add_length (i : nat) (r : evhtp_request) (out_len : Z) : M (St W) unit :=
  p <- gets fst ;;
  if htparser_get_multipart (Some p) then ret tt
  else
    when (negb (out_len =? 0) && negb (has (r_flags r) EVHTP_REQ_FLAG_CHUNKED) &&
          negb (find_out r (bytes "Content-Length") 14))
      (add_out i (bytes "Content-Length") (default [] (fst <$> evhtp_modp_sizetoa out_len)) 0 1).

(** The label check_proto. *)
Definition check_proto (i : nat) : M (St W) Z :=
  with_req i (fun r =>
    match r_proto r with
    | EVHTP_PROTO_11 =>
        when (negb (has (r_flags r) EVHTP_REQ_FLAG_KEEPALIVE))
          (add_out i (bytes "Connection") (bytes "close") 0 0) ;;
        with_req i (fun r =>
          when (negb (find_out r (bytes "Content-Length") 14) &&
                negb (has (r_flags r) EVHTP_REQ_FLAG_CHUNKED))
            (add_out i (bytes "Content-Length") (bytes "0") 0 0) ;;
          ret 0)
    | EVHTP_PROTO_10 =>
        when (has (r_flags r) EVHTP_REQ_FLAG_KEEPALIVE)
          (add_out i (bytes "Connection") (bytes "keep-alive") 0 0) ;;
        ret 0
    | _ =>
        update_parser (htparser_set_major 1) ;; update_parser (htparser_set_minor 0) ;; ret 0
    end).

(** The status line, the headers and the body into the scratch buffer. *)
Definition write_reply (i : nat) (code : Z) : M (St W) Z :=
  p <- gets fst ;;
  let major := evhtp_modp_uchartoa (htparser_get_major (Some p)) in
  let minor := evhtp_modp_uchartoa (htparser_get_minor (Some p)) in
  let out_buf := default [] (fst <$> evhtp_modp_u32toa (u32 code)) in
  let status_str := status_code_to_str code in
  htp__evbuffer_add_iovec_ scratch_add
    [(Some (bytes "HTTP/1"), 5%nat); (Some [major], 1%nat); (Some (bytes "."), 1%nat);
     (Some [minor], 1%nat); (Some (bytes " "), 1%nat); (Some out_buf, length out_buf);
     (Some (bytes " "), 1%nat); (Some status_str, length status_str);
     (Some [CR; LF], 2%nat)] ;;
  with_req i (fun r =>
    evhtp_kvs_for_each (headers_out r) (Some (htp__create_headers_ scratch_add)) ;;
    scratch_add [CR; LF] ;;
    with_req i (fun r =>
      match default [] (buffer_out r) with
      | [] => ret 0
      | out => scratch_add out ;; upd_req i (fun r => r <| buffer_out := Some [] |>) ;; ret 0
      end)).

(** The buffer returned is the scratch buffer; it is never NULL: without one,
    [buf] stays NULL and evbuffer_drain is given it. *)
Definition htp__create_reply_ (i : nat) (code : Z) : M (St W) Z :=
  with_req i (fun r =>
    if negb (bool_decide (is_Some (headers_out r)) && bool_decide (is_Some (buffer_out r)) &&
             r_conn r)
    then ub (-1)
    else
      upd_req i (fun r => r <| r_status := code |>) ;;
      let content_type := evhtp_header_find_n (headers_out r) (Some (bytes "Content-Type")) 12 in
      let out_len := Z.of_nat (length (default [] (buffer_out r))) in
      c <- getw w_conn ;;
      upd_conn (fun c => c <| scratch_buf := Some [] |>) ;;
      match scratch_buf c with
      | None => ub (-1)
      | Some _ =>
          add_length i r out_len ;;
          check_proto i ;;
          when (bool_decide (content_type = None))
            (add_out i (bytes "Content-Type") (bytes "text/plain") 0 0) ;;
          write_reply i code
      end).

(** ** Sending *)

(** [bufferevent_write_buffer(c->bev, c->scratch_buf); evbuffer_drain(...)] *)
Definition flush_scratch : M (St W) Z :=
  upd_conn (fun c => c <| bev_output := bev_output c ++ default [] (scratch_buf c) |>
                       <| scratch_buf := Some [] |>) ;;
  ret 0.

(** [request->conn], dereferenced. *)
Definition with_conn (i : nat) (k : evhtp_request -> M (St W) Z) : M (St W) Z :=
  with_req i (fun r => if r_conn r then k r else ub (-1)).

Definition evhtp_send_reply_start (i : nat) (code : Z) : M (St W) Z :=
  with_conn i (fun _ => htp__create_reply_ i code ;; flush_scratch).

(** [buf]: the contents of the buffer, which is emptied. *)
Definition evhtp_send_reply_body (i : nat) (buf : list Z) : M (St W) Z :=
  with_conn i (fun _ => upd_conn (fun c => c <| bev_output := bev_output c ++ buf |>) ;; ret 0).

Definition evhtp_send_reply_end (i : nat) : M (St W) Z :=
  with_conn i (fun _ =>
    upd_req i (fun r => r <| r_flags := flag_on (r_flags r) EVHTP_REQ_FLAG_FINISHED |>) ;; ret 0).

(** Without HTTP/2 there is no stream to reset. *)
Definition evhtp_request_reset_stream (request : option nat) : M (St W) Z := ret (-1).

Definition evhtp_send_reply (i : nat) (code : Z) : M (St W) Z :=
  with_conn i (fun _ =>
    upd_req i (fun r => r <| r_flags := flag_on (r_flags r) EVHTP_REQ_FLAG_FINISHED |>) ;;
    htp__create_reply_ i code ;;
    flush_scratch).

Definition evhtp_response_needs_body (code : Z) (m : htp_method) : bool :=
  negb (code =? EVHTP_RES_NOCONTENT) && negb (code =? EVHTP_RES_NOTMOD) &&
  ((code <? 100) || (200 <=? code)) && negb (bool_decide (m = htp_method_HEAD)) &&
  (negb (bool_decide (m = htp_method_CONNECT)) || negb (code =? EVHTP_RES_OK)).

(** ** Chunked replies *)

(** printf's [%x] of an [unsigned]: at most 8 digits. *)
Definition hex_digit (d : Z) : Z := if d <? 10 then "0"%c + d else "a"%c + (d - 10).
Fixpoint hex_digits (fuel : nat) (v : Z) (out : list Z) : list Z :=
  match fuel with
  | O => out
  | S fuel =>
      let out := hex_digit (v mod 16) :: out in
      if v / 16 =? 0 then out else hex_digits fuel (v / 16) out
  end.
Definition chunk_header (len : Z) : list Z := hex_digits 8 (u32 len) [] ++ [CR; LF].

Definition evhtp_send_reply_chunk_start (i : nat) (code : Z) : M (St W) Z :=
  with_req i (fun r =>
    let content_len := evhtp_kvs_find_kv_n (headers_out r) (Some (bytes "Content-Length")) 14 in
    let chunked := evhtp_response_needs_body code (r_method r) &&
                   (bool_decide (r_proto r = EVHTP_PROTO_11) ||
                    bool_decide (r_proto r = EVHTP_PROTO_10)) in
    upd_req i (fun r =>
      if chunked then
        r <| headers_out := evhtp_kv_rm_and_free (headers_out r) content_len |>
          <| r_flags := flag_on (r_flags r) EVHTP_REQ_FLAG_CHUNKED |>
      else r <| r_flags := flag_off (r_flags r) EVHTP_REQ_FLAG_CHUNKED |>) ;;
    when chunked
      (add_out i (bytes "Transfer-Encoding") (bytes "chunked") 0 0 ;;
       upd_req i (fun r =>
         match default [] (buffer_out r) with
         | [] => r
         | out =>
             let lstr := chunk_header (Z.of_nat (length out)) in
             if (128 <=? length lstr)%nat then r
             else r <| buffer_out := Some (lstr ++ out ++ [CR; LF]) |>
         end)) ;;
    evhtp_send_reply_start i code).

Definition output_add (data : list Z) : M (St W) unit :=
  upd_conn (fun c => c <| bev_output := bev_output c ++ data |>).

Definition evhtp_send_reply_chunk (i : nat) (buf : list Z) : M (St W) Z :=
  match buf with
  | [] => ret 0
  | _ =>
      with_conn i (fun r =>
        let chunked := has (r_flags r) EVHTP_REQ_FLAG_CHUNKED in
        when chunked (output_add (chunk_header (Z.of_nat (length buf)))) ;;
        evhtp_send_reply_body i buf ;;
        when chunked (output_add [CR; LF]) ;;
        ret 0)
  end.

Definition evhtp_send_reply_chunk_end (i : nat) : M (St W) Z :=
  with_req i (fun r =>
    when (has (r_flags r) EVHTP_REQ_FLAG_CHUNKED)
      (output_add (bytes "0" ++ [CR; LF; CR; LF])) ;;
    evhtp_send_reply_end i).

End Reply.
