(* ===== verification/ReqFacts.v ===== *)
(** * Requests: the parser's contract, the body limit, recycling

    What holds for the hooks of [request_psets] whatever the application does:
    they use the parser only through its setters ([request_psets_frame]), so
    that every theorem about msgparser.c for well-behaved hooks applies to the
    library itself; bodies stay below the limit; a recycled request is as good
    as a new one. *)

From S2P Require Import Prelude HtpTypes HtString MsgParser MsgParserFacts MsgParserTrace Kvs Query Callbacks Uri Request ReqParse.
From stdpp Require Import gmap.
#[local] Open Scope Z_scope.
#[local] Open Scope htp_scope.

(** ** Computations that stay within the contract of a parser hook *)

Definition Framed {W B} (m : M (St W) B) : Prop := forall s, hook_frame s.1 (m s).2.1.

(** The application's functions use the parser only through the setters. *)
Class AppFrame `{RegexLib} {A} (app : App A) : Prop := {
  app_hook_framed : forall t i f arg d, Framed (app_hook app t i f arg d);
  app_cb_framed : forall i f arg, Framed (app_cb app i f arg);
  app_conn_framed : forall t f arg d, Framed (app_conn app t f arg d);
  app_accept_framed : forall f arg, Framed (app_accept app f arg)
}.

Section Framed.
Context {W : Type}.

Lemma framed_ret {B} (b : B) : Framed (ret (S := St W) b).
Proof. intros s. reflexivity. Qed.
Lemma framed_bind {B C} (m : M (St W) B) (k : B -> M (St W) C) :
  Framed m -> (forall b, Framed (k b)) -> Framed (bind m k).
Proof.
  intros Hm Hk s. unfold bind. specialize (Hm s). destruct (m s) as [b s1]. cbn in Hm.
  etransitivity; [exact Hm|apply Hk].
Qed.
Lemma framed_when b (m : M (St W) unit) : Framed m -> Framed (when b m).
Proof. destruct b; [done|intros _; apply framed_ret]. Qed.
Lemma framed_gets {B} (f : St W -> B) : Framed (gets f).
Proof. intros s. reflexivity. Qed.
Lemma framed_updp f : (forall p, hook_frame p (f p)) -> Framed (updp (W := W) f).
Proof. intros Hf s. apply Hf. Qed.
End Framed.

Section Facts.
Context `{RegexLib} {A : Type} (mem : nat -> bool) (app : App A) (after : list Z -> list Z).
Abbreviation W := (world A).

Lemma framed_getw {B} (f : W -> B) : Framed (getw f).
Proof. intros s. reflexivity. Qed.
Lemma framed_updw f : Framed (updw (A := A) f).
Proof. intros s. reflexivity. Qed.
Lemma framed_ub {B} (b : B) : Framed (ub (A := A) b).
Proof. intros s. reflexivity. Qed.
End Facts.

(** Walks through a computation; [tac] handles the calls it does not know. *)
Ltac framed tac :=
  repeat first
    [ progress intros
    | lazymatch goal with
      | |- Framed (bind _ _) => apply framed_bind; [|intros ?]
      | |- Framed (ret _) => apply framed_ret
      | |- Framed (gets _) => apply framed_gets
      | |- Framed (getw _) => apply framed_getw
      | |- Framed (updw _) => apply framed_updw
      | |- Framed (ub _) => apply framed_ub
      | |- Framed (when _ _) => apply framed_when
      end
    | tac | progress cbv zeta | case_match ].

Section Frame.
Context `{RegexLib} {A : Type} (mem : nat -> bool) (app : App A) (after : list Z -> list Z).
Context `{!AppFrame app}.
Abbreviation W := (world A).

Lemma framed_with_req i k : (forall r, Framed (k r)) -> Framed (with_req (A := A) i k).
Proof. intros Hk. unfold with_req. framed ltac:(apply Hk). Qed.
Lemma framed_with_cur k : (forall i r, Framed (k i r)) -> Framed (with_cur (A := A) k).
Proof. intros Hk. unfold with_cur. framed ltac:(apply framed_with_req, Hk). Qed.
Lemma framed_with_uri r k : (forall u, Framed (k u)) -> Framed (with_uri (A := A) r k).
Proof. intros Hk. unfold with_uri. framed ltac:(apply Hk). Qed.
Lemma framed_set_cr_status v : Framed (set_cr_status (A := A) v).
Proof. apply framed_with_cur. unfold upd_req. framed ltac:(fail 0). Qed.
Lemma framed_fatal : Framed (fatal (A := A)).
Proof. unfold fatal. framed ltac:(apply framed_set_cr_status). Qed.
Lemma framed_hook_run i t d : Framed (hook_request_run app i t d).
Proof. apply framed_with_req. framed ltac:(apply app_hook_framed). Qed.
Lemma framed_status_hook m : (forall i, Framed (m i)) -> Framed (status_hook (A := A) m).
Proof. intros Hm. apply framed_with_cur. framed ltac:(apply Hm || apply framed_set_cr_status). Qed.
Lemma framed_parser f :
  f = htparser_pause \/ f = htparser_set_skip_body -> Framed (update_parser (A := A) f).
Proof. intros Hf. apply framed_updp. intros p. destruct (frame_setters p) as (?&?&?&_), Hf; by subst. Qed.

Lemma framed_allocs n : Framed (allocs (A := A) n).
Proof. unfold allocs. framed ltac:(fail 0). Qed.

Ltac framed_call :=
  lazymatch goal with
  | |- Framed (with_req _ _) => apply framed_with_req
  | |- Framed (with_cur _) => apply framed_with_cur
  | |- Framed (with_uri _ _) => apply framed_with_uri
  | |- Framed (set_cr_status _) => apply framed_set_cr_status
  | |- Framed fatal => apply framed_fatal
  | |- Framed (allocs _) => apply framed_allocs
  | |- Framed (hook_request_run _ _ _ _) => apply framed_hook_run
  | |- Framed (status_hook _) => apply framed_status_hook
  | |- Framed (app_cb _ _ _ _) => apply app_cb_framed
  | |- Framed (update_parser htparser_pause) => apply framed_parser; by left
  | |- Framed (update_parser htparser_set_skip_body) => apply framed_parser; by right
  | |- Framed (upd_req _ _) => apply framed_updw
  | |- Framed (upd_uri _ _) => apply framed_updw
  | |- Framed (upd_conn _) => apply framed_updw
  end.

Lemma framed_free i : Framed (htp__request_free_ app i).
Proof.
  unfold htp__request_free_, recycle_request, htp__request_clear_, htp__hook_request_fini_.
  framed ltac:(idtac; framed_call).
Qed.

Lemma framed_new : Framed (htp__request_new__ mem app).
Proof.
  unfold htp__request_new__, get_request_from_cache, htp__request_new_.
  framed ltac:(first [apply framed_free | framed_call]).
Qed.

Lemma framed_require : Framed (htp__require_uri_ (A := A) mem).
Proof. unfold htp__require_uri_, htp__require_uri__. framed ltac:(idtac; framed_call). Qed.

Lemma framed_set_callbacks i : Framed (htp__request_set_callbacks_ (A := A) i).
Proof. unfold htp__request_set_callbacks_. framed ltac:(idtac; framed_call). Qed.

(** The hooks of [request_psets] use the parser only through its setters. *)
#[export] Instance request_psets_frame : HookFrame (Some (request_psets mem app after)).
Proof.
  intros hs n f d s [= <-] Hf. revert s. change (Framed (f d)).
  assert (forall i, Framed (htp__hook_headers_ app i)) as Hh by (intros i; apply framed_hook_run).
  destruct n; cbn in Hf; try done; injection Hf as <-;
    unfold htp__request_parse_start_, htp__request_parse_host_, htp__request_parse_port_,
      htp__request_parse_path_, htp__request_parse_args_, htp__request_parse_headers_start_,
      htp__request_parse_header_key_, htp__request_parse_header_val_,
      htp__request_parse_hostname_, htp__request_parse_headers_,
      htp__request_parse_chunk_new_, htp__request_parse_chunk_fini_,
      htp__request_parse_chunks_fini_, htp__request_parse_body_,
      htp__request_parse_fini_, htp__request_query_from_body_, htp__hook_headers_, htp__hook_body_,
      htp__hook_path_, htp__hook_header_, htp__hook_headers_start_, htp__hook_hostname_,
      htp__hook_chunk_new_, htp__hook_chunk_fini_, htp__hook_chunks_fini_ in *;
    framed ltac:(first [apply framed_free | apply framed_new | apply framed_require
                       | apply framed_set_callbacks | framed_call]).
Qed.
End Frame.

(** ** Running the store's operations *)

Section Run.
Context `{RegexLib} {A : Type} (mem : nat -> bool) (app : App A) (after : list Z -> list Z).
Abbreviation W := (world A).
Implicit Types (s : St W) (w : W) (i : nat).

Lemma alter_known {V} (f : V -> V) i (m : gmap nat V) r :
  m !! i = Some r -> alter f i m = <[i := f r]> m.
Proof.
  intros Hr. apply map_eq. intros j. destruct (decide (i = j)) as [<-|Hj].
  - by rewrite lookup_alter_eq, lookup_insert_eq, Hr.
  - by rewrite lookup_alter_ne, lookup_insert_ne.
Qed.

Lemma bind_eq {B C} (m : M (St W) B) (k : B -> M (St W) C) s b s1 :
  m s = (b, s1) -> bind m k s = k b s1.
Proof. intros E. unfold bind. by rewrite E. Qed.

Lemma with_req_eq i k s r : w_reqs s.2 !! i = Some r -> with_req i k s = k r s.
Proof. intros Hr. unfold with_req, bind, getw. by rewrite Hr. Qed.

Lemma with_cur_eq k s i r :
  c_request (w_conn s.2) = Some i -> w_reqs s.2 !! i = Some r -> with_cur k s = k i r s.
Proof. intros Hc Hr. unfold with_cur, bind at 1, getw. rewrite Hc. by apply with_req_eq. Qed.

Lemma set_cr_status_eq v s i r :
  c_request (w_conn s.2) = Some i -> w_reqs s.2 !! i = Some r ->
  set_cr_status v s =
    (v, (s.1, s.2 <| w_reqs := <[i := r <| r_status := v |>]> (w_reqs s.2) |>)).
Proof.
  intros Hc Hr. unfold set_cr_status. rewrite (with_cur_eq _ s i r) by done.
  unfold bind, upd_req, updw. by rewrite (alter_known _ i _ r).
Qed.

(** The state after each primitive. *)
Lemma run_getw {B C} (f : W -> B) (k : B -> M (St W) C) s : bind (getw f) k s = k (f s.2) s.
Proof. done. Qed.
Lemma run_gets {B C} (f : St W -> B) (k : B -> M (St W) C) s : bind (gets f) k s = k (f s) s.
Proof. done. Qed.
Lemma run_updw {C} f (k : unit -> M (St W) C) s : bind (updw f) k s = k tt (s.1, f s.2).
Proof. done. Qed.
Lemma run_upd_conn {C} f (k : unit -> M (St W) C) s :
  bind (upd_conn f) k s = k tt (s.1, s.2 <| w_conn := f (w_conn s.2) |>).
Proof. done. Qed.
Lemma run_upd_req {C} i f (k : unit -> M (St W) C) s r :
  w_reqs s.2 !! i = Some r ->
  bind (upd_req i f) k s = k tt (s.1, s.2 <| w_reqs := <[i := f r]> (w_reqs s.2) |>).
Proof. intros Hr. unfold bind, upd_req, updw. by rewrite (alter_known f i _ r). Qed.
Lemma run_ret {B C} (b : B) (k : B -> M (St W) C) s : bind (ret b) k s = k b s.
Proof. done. Qed.
Lemma run_assoc {B C D} (m : M (St W) B) (k : B -> M (St W) C) (k' : C -> M (St W) D) s :
  bind (bind m k) k' s = bind m (fun b => bind (k b) k') s.
Proof. unfold bind. by destruct (m s). Qed.
Lemma run_allocs {C} n (k : nat -> M (St W) C) s :
  bind (allocs n) k s = k (w_allocs s.2) (s.1, s.2 <| w_allocs := (w_allocs s.2 + n)%nat |>).
Proof. done. Qed.

(** No function is registered for the hook, on the request or its connection. *)
Definition unhooked (c : evhtp_connection) (r : evhtp_request) (t : evhtp_hook_type) : Prop :=
  hook_set (r_hooks r) t = None /\ hook_set (c_hooks c) t = None.

Lemma hook_run_none i t d s r :
  w_reqs s.2 !! i = Some r -> unhooked (w_conn s.2) r t ->
  hook_request_run app i t d s = (EVHTP_RES_OK, s).
Proof.
  intros Hr [H1 H2]. unfold hook_request_run. rewrite (with_req_eq _ _ _ r) by done.
  unfold bind, getw. rewrite H1, H2. by destruct (r_conn r).
Qed.

(** A hook that only asks the application, when there is nothing to ask. *)
Lemma status_hook_none t d s i r :
  c_request (w_conn s.2) = Some i -> w_reqs s.2 !! i = Some r ->
  unhooked (w_conn s.2) r t ->
  status_hook (fun i => hook_request_run app i t d) s =
    (0, (s.1, s.2 <| w_reqs := <[i := r <| r_status := EVHTP_RES_OK |>]> (w_reqs s.2) |>)).
Proof.
  intros Hc Hr Hu. unfold status_hook. rewrite (with_cur_eq _ s i r) by done.
  erewrite bind_eq by by eapply hook_run_none.
  erewrite bind_eq by by eapply set_cr_status_eq. done.
Qed.
End Run.

(** ** Running the parser with the hooks *)

Section Session.
Context `{lib : HtStringLib} `{RegexLib} {A : Type} (mem : nat -> bool) (app : App A).
Context (after : list Z -> list Z) `{!AppFrame app}.

(** ** The body limit *)

(** The calls of the body hook for the pieces of a body, up to a failure. *)
Fixpoint feed (ds : list (list Z)) : M (St (world A)) Z :=
  match ds with
  | [] => ret 0
  | d :: ds => v <- htp__request_parse_body_ app d ;; if v =? 0 then feed ds else ret v
  end.

(** The current request [i] receives a body, [b] so far; nobody hooks on_read. *)
Record receiving (i : nat) (b : list Z) (n m : Z) (w : world A) : Prop := {
  rc_cur : c_request (w_conn w) = Some i;
  rc_req : exists r, w_reqs w !! i = Some r /\ buffer_in r = Some b /\
             unhooked (w_conn w) r evhtp_hook_on_read;
  rc_scratch : scratch_buf (w_conn w) = Some [];
  rc_read : c_body_bytes_read (w_conn w) = n;
  rc_max : c_max_body_size (w_conn w) = m
}.

Lemma body_accept i b n m d p w :
  receiving i b n m w -> 0 < m -> 0 <= n -> n + Z.of_nat (length d) < m -> m < 2 ^ 64 ->
  exists w', htp__request_parse_body_ app d (p, w) = (0, (p, w')) /\
    receiving i (b ++ d) (n + Z.of_nat (length d)) m w'.
Proof.
  intros [Hc (r & Hr & Hb & Hu) Hs Hn Hm] Hm0 Hn0 Hlt H64.
  unfold htp__request_parse_body_. rewrite run_getw. cbn [snd]. rewrite Hm, Hn, Hs.
  unfold u64. rewrite Z.mod_small by lia.
  destruct (Z.ltb_spec 0 m); [|lia].
  destruct (Z.leb_spec m (n + Z.of_nat (length d))); [lia|]. cbn [andb].
  rewrite run_upd_conn. cbn [fst snd]. rewrite Hc. unfold htp__hook_body_.
  erewrite bind_eq by (eapply hook_run_none; [exact Hr|exact Hu]).
  erewrite bind_eq by (eapply set_cr_status_eq; [exact Hc|exact Hr]).
  cbn [fst snd]. change (EVHTP_RES_OK =? EVHTP_RES_PAUSE) with false.
  change (negb (EVHTP_RES_OK =? EVHTP_RES_OK)) with false. cbn iota.
  rewrite run_assoc, run_getw. cbn [snd].
  set (r1 := r <| r_status := EVHTP_RES_OK |>).
  
  match goal with |- context [default [] (scratch_buf ?c)] =>
    change (default [] (scratch_buf c)) with d end.
  destruct d as [|x d].
  - rewrite run_ret, run_upd_conn. eexists. split; [reflexivity|].
    cbn [length fst snd]. rewrite app_nil_r, Z.add_0_r.
    split; try done; cbn.
    + exists r1. by rewrite lookup_insert_eq.
    + rewrite Hn. unfold u64. rewrite Z.mod_small; cbn [length] in *; lia.
  - erewrite bind_eq. 2:{ rewrite (with_cur_eq _ _ i r1); [|exact Hc|apply lookup_insert_eq].
      change (buffer_in r1) with (buffer_in r). rewrite Hb.
      erewrite run_upd_req by (cbn; apply lookup_insert_eq). rewrite run_upd_conn. reflexivity. }
    rewrite run_upd_conn. eexists. split; [reflexivity|]. cbn [fst snd].
    split; try done; cbn.
    + exists (r1 <| buffer_in := Some (b ++ x :: d) |>). by rewrite lookup_insert_eq.
    + rewrite Hn. unfold u64. rewrite Z.mod_small; [done|cbn [length] in *; lia].
Qed.

Lemma body_reject i b n m d p w r :
  receiving i b n m w -> w_reqs w !! i = Some r ->
  0 < m -> 0 <= n -> m <= n + Z.of_nat (length d) < 2 ^ 64 ->
  htp__request_parse_body_ app d (p, w) =
    (-1, (p, (w <| w_conn := (w_conn w) <| c_flags :=
                 flag_on (c_flags (w_conn w)) EVHTP_CONN_FLAG_ERROR |> |>)
              <| w_reqs := <[i := r <| r_status := EVHTP_RES_DATA_TOO_LONG |>]> (w_reqs w) |>)).
Proof.
  intros [Hc _ Hs Hn Hm] Hr Hm0 Hn0 Hlt.
  unfold htp__request_parse_body_. rewrite run_getw. cbn [snd]. rewrite Hm, Hn.
  unfold u64. rewrite Z.mod_small by lia.
  destruct (Z.ltb_spec 0 m); [|lia].
  destruct (Z.leb_spec m (n + Z.of_nat (length d))); [|lia]. cbn [andb].
  rewrite run_upd_conn. erewrite bind_eq by (eapply set_cr_status_eq; [exact Hc|exact Hr]).
  reflexivity.
Qed.

(** C19: the body limit.  With a limit of [m] bytes, the pieces of a body are
    taken, in order and into [buffer_in], exactly as long as the total stays
    below [m]; the first piece that would reach it is refused with
    EVHTP_RES_DATA_TOO_LONG and marks the connection, and nothing of it is
    stored.  So what the request holds of its body is always less than [m]
    bytes. *)
Theorem body_limit ds i b n m p w :
  receiving i b n m w -> 0 <= n < m -> m < 2 ^ 63 ->
  Forall (fun d => Z.of_nat (length d) < 2 ^ 63) ds ->
  exists k v w', feed ds (p, w) = (v, (p, w')) /\ (k <= length ds)%nat /\
    let got := concat (take k ds) in
    (buffer_in <$> w_reqs w' !! i) = Some (Some (b ++ got)) /\
    c_body_bytes_read (w_conn w') = n + Z.of_nat (length got) /\
    n + Z.of_nat (length got) < m /\
    (v = 0 /\ k = length ds \/
     v = -1 /\ (exists d, ds !! k = Some d /\ m <= n + Z.of_nat (length (got ++ d))) /\
     (r_status <$> w_reqs w' !! i) = Some EVHTP_RES_DATA_TOO_LONG /\
     has (c_flags (w_conn w')) EVHTP_CONN_FLAG_ERROR = true).
Proof.
  revert b n w. induction ds as [|d ds IH]; intros b n w Hw Hn Hm Hds.
  - exists 0%nat, 0, w. cbn [feed take concat length]. rewrite app_nil_r.
    pose proof (rc_req _ _ _ _ _ Hw) as (r & Hr & Hb & _).
    rewrite Hr. cbn. rewrite Hb, (rc_read _ _ _ _ _ Hw).
    split_and!; try done; try lia.
  - apply Forall_cons in Hds as [Hd Hds]. cbn [feed].
    pose proof (rc_req _ _ _ _ _ Hw) as (r & Hr & Hb & _).
    destruct (Z.lt_ge_cases (n + Z.of_nat (length d)) m) as [Hlt|Hge].
    + destruct (body_accept i b n m d p w) as (w1 & E & Hw1); [done|lia..|].
      erewrite bind_eq by exact E. cbn [Z.eqb].
      destruct (IH (b ++ d) (n + Z.of_nat (length d)) w1 Hw1) as
        (k & v & w' & Ef & Hk & Hbuf & Hread & Hbd & Hv); [lia|done|done|].
      exists (S k), v, w'. rewrite Ef. cbn [take concat length] in *.
      rewrite length_app, app_assoc. rewrite Nat2Z.inj_add, Z.add_assoc.
      split_and!; try done; try lia.
      destruct Hv as [[-> ->]|(-> & (d' & Hd' & Hge) & Hrest)]; [by left|right].
      split; [done|]. split; [|done]. exists d'. split; [done|].
      rewrite length_app in *. rewrite length_app. lia.
    + erewrite bind_eq by (eapply body_reject; [exact Hw|exact Hr|lia..]). cbn [Z.eqb].
      eexists 0%nat, (-1), _. split; [reflexivity|]. cbn [take concat length].
      split; [lia|]. split.
      { cbn. rewrite lookup_insert_eq. cbn. by rewrite Hb, app_nil_r. }
      split; [cbn; rewrite (rc_read _ _ _ _ _ Hw); lia|]. split; [lia|]. right.
      split; [done|]. split; [by exists d|]. cbn. rewrite lookup_insert_eq.
      split; [done|]. by rewrite has_on_eq.
Qed.
End Session.

(** ** What the hooks leave alone *)

Section Apart.
Context `{rx : RegexLib} {A : Type}.
Abbreviation W := (world A).
Implicit Types (w : W).

(** [w'] differs from [w] in the connection and the request at [i] only. *)
Record apart (i : nat) w w' : Prop := {
  ap_htps : w_htps w' = w_htps w;
  ap_cache : w_cache w' = w_cache w;
  ap_ub : w_ub w' = w_ub w;
  ap_app : w_app w' = w_app w;
  ap_reqs : forall j, j <> i -> w_reqs w' !! j = w_reqs w !! j
}.
#[export] Instance apart_preorder i : PreOrder (apart i).
Proof.
  split; [by split|]. intros w1 w2 w3 [] []. split; try congruence.
  intros j Hj. rewrite ap_reqs1, ap_reqs0; done.
Qed.
End Apart.

(** [apart] for explicit updates. *)
Ltac apart := split; cbn; try done; intros ??;
  rewrite ?lookup_insert_ne, ?lookup_alter_ne by done; done.

(** ** The cache of requests *)

Section Recycle.
Context `{RegexLib} {A : Type} (mem : nat -> bool) (app : App A).
Abbreviation W := (world A).

(** Built completely by htp__request_new_; a URI, if any, has its authority. *)
Definition built (r : evhtp_request) : Prop :=
  is_Some (buffer_in r) /\ is_Some (buffer_out r) /\
  is_Some (headers_in r) /\ is_Some (headers_out r) /\
  (forall u, r_uri r = Some u -> is_Some (authority u)).

(** The request htp__request_new_ makes when memory lasts. *)
Definition new_request (h : option nat) : evhtp_request :=
  (zero_request h) <| buffer_in := Some [] |> <| buffer_out := Some [] |>
    <| headers_in := Some [] |> <| headers_out := Some [] |>.

Lemma request_new_fresh p w :
  (forall k, mem k = true) ->
  htp__request_new_ mem app (p, w) =
    (Some (w_allocs w), (p, (w <| w_allocs := (w_allocs w + 5)%nat |>)
       <| w_reqs := <[w_allocs w := new_request (c_htp (w_conn w))]> (w_reqs w) |>)).
Proof.
  intros Hm. unfold htp__request_new_. rewrite run_allocs. cbn [snd fst]. rewrite Hm.
  cbn [negb]. rewrite run_getw. unfold fill_request. by rewrite !Hm.
Qed.

Lemma hook_set_no_hooks t (hs : option evhtp_hooks) :
  hook_set ((fun _ => no_hooks) <$> hs) t = None.
Proof. by destruct hs. Qed.

Lemma kvs_clear_fst kvs : is_Some kvs -> fst (evhtp_kvs_clear kvs) = Some [].
Proof.
  intros [l ->]. unfold evhtp_kvs_clear.
  assert (forall l out, fst (clear_loop l out) = []) as Hl.
  { intros l'. induction l' as [|x l' IH]; intros out; cbn; [done|apply IH]. }
  specialize (Hl l []). destruct (clear_loop l []) as [l' out]. cbn in *. by subst.
Qed.

(** A finished request goes to the head of the cache, cleared. *)
Lemma request_free_eq h i r p (w : W) :
  w_reqs w !! i = Some r -> r_htp r = Some h ->
  unhooked (w_conn w) r evhtp_hook_on_request_fini ->
  exists w', htp__request_free_ app (Some i) (p, w) = (0, (p, w')) /\
    w_reqs w' = <[i := clear_request r]> (w_reqs w) /\
    w_cache w' = <[h := i :: default [] (w_cache w !! h)]> (w_cache w) /\
    c_htp (w_conn w') = c_htp (w_conn w).
Proof.
  intros Hr Hh Hun. unfold htp__request_free_, recycle_request.
  erewrite bind_eq by by (eapply hook_run_none; [exact Hr|]).
  rewrite (with_req_eq _ _ _ r) by done.
  set (f := fun c : evhtp_connection => if bool_decide _ then _ else _).
  set (w1 := if r_conn r then w <| w_conn := f (w_conn w) |> else w).
  assert (w_reqs w1 = w_reqs w /\ w_cache w1 = w_cache w /\
          c_htp (w_conn w1) = c_htp (w_conn w)) as (Er & Ec & Eh).
  { unfold w1. destruct (r_conn r); [|done]. split_and!; try done.
    cbn. unfold f. by case_match. }
  rewrite (bind_eq _ _ _ tt (p, w1)) by (unfold w1; by destruct (r_conn r)).
  rewrite Hh. unfold htp__request_clear_. erewrite run_upd_req by (cbn [snd]; rewrite Er; exact Hr).
  rewrite run_updw. eexists. split; [reflexivity|]. cbn. by rewrite Er, Ec, Eh.
Qed.

Lemma cache_hit h i rest r p (w : W) :
  c_htp (w_conn w) = Some h -> w_cache w !! h = Some (i :: rest) -> w_reqs w !! i = Some r ->
  exists w', get_request_from_cache (p, w) = (Some i, (p, w')) /\
    w_reqs w' = <[i := r <| r_conn := true |> <| r_htp := Some h |>
                         <| r_status := EVHTP_RES_OK |>]> (w_reqs w).
Proof.
  intros Hc Hca Hr. unfold get_request_from_cache. rewrite run_getw. cbn [snd].
  rewrite Hc, run_getw. cbn [snd]. rewrite Hca. cbn [from_option]. unfold id.
  rewrite run_updw. erewrite run_upd_req by exact Hr. by eexists.
Qed.

(** C23: recycling.  A request the library has finished with is cleared and
    kept; taken from the cache for the next message of a connection of the
    same [evhtp_t], it is the request last returned, and in every member but
    [r_cbarg] (which only counts together with [r_cb]) and [r_proto] it is
    what htp__request_new_ would have built: no header, body, hook, callback,
    path, query or flag of the previous exchange survives; a URI that is kept
    is what htp__uri_new_ returns. *)
Theorem recycled_request_fresh h i r p w :
  built r -> w_reqs w !! i = Some r -> r_htp r = Some h ->
  unhooked (w_conn w) r evhtp_hook_on_request_fini -> c_htp (w_conn w) = Some h ->
  let free := htp__request_free_ app (Some i) (p, w) in
  let '(got, (p', w')) := get_request_from_cache free.2 in
  got = Some i /\ p' = p /\
  exists r', w_reqs w' !! i = Some r' /\
    r' = (new_request (Some h)) <| r_hooks := r_hooks r' |> <| r_uri := r_uri r' |>
           <| r_proto := EVHTP_PROTO_11 |> <| r_cbarg := r_cbarg r |> /\
    (forall t, hook_set (r_hooks r') t = None) /\
    (r_uri r' = None \/ r_uri r' = htp__uri_new_ true true).
Proof.
  intros (Hbi & Hbo & Hhi & Hho & Hu) Hr Hh Hun Hc.
  destruct (request_free_eq h i r p w Hr Hh Hun) as (w1 & E1 & Er1 & Ec1 & Eh1).
  cbv zeta. rewrite E1. cbn [snd].
  destruct (cache_hit h i (default [] (w_cache w !! h)) (clear_request r) p w1)
    as (w2 & E2 & Er2); [by rewrite Eh1|rewrite Ec1; apply lookup_insert_eq|
                         rewrite Er1; apply lookup_insert_eq|].
  rewrite E2. split; [done|]. split; [done|].
  eexists. split; [rewrite Er2; apply lookup_insert_eq|].
  split; [|split].
  - destruct Hbi as [? F1], Hbo as [? F2]. unfold clear_request, new_request, zero_request.
    cbn. rewrite F1, F2, !kvs_clear_fst by done. done.
  - intros t. cbn. apply hook_set_no_hooks.
  - cbn. destruct (r_uri r) as [u|] eqn:E; [right|by left].
    destruct (Hu u eq_refl) as [a Ha]. cbn. by rewrite Ha.
Qed.

(** What the failure path of htp__request_new_ leaves behind.  When an
    allocation after the first fails, the half-built request is handed to
    htp__request_free_, which, seeing its [htp], puts it in the cache: the
    caller is told there is no request, and the next message gets one without
    a buffer and without header lists. *)
Theorem failed_request_is_cached h p w :
  let k := w_allocs w in
  mem k = true -> mem (k + 1)%nat = true -> mem (k + 2)%nat = false ->
  c_htp (w_conn w) = Some h -> c_hooks (w_conn w) = None ->
  let '(none, s1) := htp__request_new_ mem app (p, w) in
  let '(next, s2) := htp__request_new__ mem app s1 in
  none = None /\ next = Some k /\
  exists r, w_reqs s2.2 !! k = Some r /\
    buffer_out r = None /\ headers_in r = None /\ headers_out r = None.
Proof.
  intros k H0 H1 H2 Hc Hh. unfold htp__request_new_ at 1. rewrite run_allocs. cbn [snd fst].
  fold k. rewrite H0. cbn [negb]. rewrite run_getw. cbn [snd].
  change (c_htp (w_conn _)) with (c_htp (w_conn w)). rewrite Hc.
  unfold fill_request. rewrite H1. cbn [negb]. replace (k + 1 + 1)%nat with (k + 2)%nat by lia.
  rewrite H2. cbn [negb]. rewrite run_updw. cbn [fst snd].
  set (r0 := (zero_request (Some h)) <| buffer_in := Some [] |>).
  set (w0 := (w <| w_allocs := (k + 5)%nat |>) <| w_reqs := <[k := r0]> (w_reqs w) |>).
  destruct (request_free_eq h k r0 p w0) as (w1 & E1 & Er1 & Ec1 & Eh1);
    [apply lookup_insert_eq|done|split; [done|cbn; by rewrite Hh]|].
  erewrite bind_eq by exact E1. cbn [ret].
  destruct (cache_hit h k (default [] (w_cache w0 !! h)) (clear_request r0) p w1)
    as (w2 & E2 & Er2); [by rewrite Eh1|rewrite Ec1; apply lookup_insert_eq|
                         rewrite Er1; apply lookup_insert_eq|].
  unfold htp__request_new__. erewrite bind_eq by exact E2. cbn [ret].
  split; [done|]. split; [done|]. eexists. split; [cbn; rewrite Er2; apply lookup_insert_eq|].
  done.
Qed.
End Recycle.

(** ** Witnesses *)

(** An application that installs nothing and answers OK. *)
Definition quiet_app {rx : RegexLib} : App unit :=
  {| app_hook := fun _ _ _ _ _ => ret EVHTP_RES_OK; app_cb := fun _ _ _ => ret tt;
     app_conn := fun _ _ _ _ => ret EVHTP_RES_OK; app_accept := fun _ _ => ret EVHTP_RES_OK |}.
#[export] Instance quiet_app_frame {rx : RegexLib} : AppFrame quiet_app.
Proof. split; intros; apply framed_ret. Qed.

(** A server connection with a limit on bodies, and what it belongs to. *)
Definition sample_conn (m : Z) (r : option nat) : evhtp_connection := {|
  c_htp := Some 0%nat; c_hooks := None; c_type := evhtp_type_server;
  c_flags := EVHTP_CONN_FLAG_OWNER; c_request := r; c_max_body_size := m;
  c_body_bytes_read := 0; c_num_requests := 0; scratch_buf := Some [];
  c_ssl := false; c_sni := None; c_recv_timeo := (0, 0); c_send_timeo := (0, 0);
  c_freed := false; c_bev := true; bev_freed := false; bev_ssl := false;
  bev_input := []; bev_output := []; bev_sent := []; bev_reading := true; bev_writing := true;
  bev_timeouts := (None, None); bev_readcb := htp__connection_readcb;
  bev_writecb := htp__connection_writecb; bev_eventcb := htp__connection_eventcb;
  resume_ev := true; resume_pending := false |}.
Definition sample_world (m : Z) (r : option nat) (reqs : gmap nat evhtp_request) :
    world unit := {|
  w_conn := sample_conn m r; w_reqs := reqs; w_cache := ∅;
  w_htps := {[0%nat := sample_host None [] []]}; w_allocs := 0; w_ub := false; w_app := tt |}.

(** A limit of six bytes: "ab" and "cde" are taken, "f" would reach it. *)
Definition sample_body_world := sample_world 6 (Some 0%nat) {[0%nat := new_request (Some 0%nat)]}.
Lemma body_limit_witness :
  exists k v w', feed quiet_app [bytes "ab"; bytes "cde"; bytes "f"; bytes "g"]
      (p_init htp_type_request, sample_body_world) = (v, (p_init htp_type_request, w')) /\
    (k <= 4)%nat /\
    let got := concat (take k [bytes "ab"; bytes "cde"; bytes "f"; bytes "g"]) in
    (buffer_in <$> w_reqs w' !! 0%nat) = Some (Some ([] ++ got)) /\
    c_body_bytes_read (w_conn w') = 0 + Z.of_nat (length got) /\
    0 + Z.of_nat (length got) < 6 /\
    (v = 0 /\ k = 4%nat \/
     v = -1 /\ (exists d, [bytes "ab"; bytes "cde"; bytes "f"; bytes "g"] !! k = Some d /\
                  6 <= 0 + Z.of_nat (length (got ++ d))) /\
     (r_status <$> w_reqs w' !! 0%nat) = Some EVHTP_RES_DATA_TOO_LONG /\
     has (c_flags (w_conn w')) EVHTP_CONN_FLAG_ERROR = true).
Proof.
  apply (body_limit quiet_app [bytes "ab"; bytes "cde"; bytes "f"; bytes "g"] 0 [] 0 6
    (p_init htp_type_request) sample_body_world); [|lia|lia|repeat constructor].
  split; try reflexivity. exists (new_request (Some 0%nat)). by repeat split.
Defined.

(** A request with a header, a query and a flag, recycled. *)
Definition used_request : evhtp_request :=
  (new_request (Some 0%nat)) <| r_flags := EVHTP_REQ_FLAG_KEEPALIVE |>
    <| r_cb := 7 |> <| r_cbarg := 8 |> <| r_method := htp_method_POST |>
    <| buffer_out := Some (bytes "reply") |>
    <| r_uri := htp__uri_new_ true true |>.
Lemma recycled_request_fresh_witness :
  let free := htp__request_free_ quiet_app (Some 3%nat)
    (p_init htp_type_request, sample_world 0 (Some 3%nat) {[3%nat := used_request]}) in
  let '(got, (p', w')) := get_request_from_cache free.2 in
  got = Some 3%nat /\ p' = p_init htp_type_request /\
  exists r', w_reqs w' !! 3%nat = Some r' /\
    r' = (new_request (Some 0%nat)) <| r_hooks := r_hooks r' |> <| r_uri := r_uri r' |>
           <| r_proto := EVHTP_PROTO_11 |> <| r_cbarg := r_cbarg used_request |> /\
    (forall t, hook_set (r_hooks r') t = None) /\
    (r_uri r' = None \/ r_uri r' = htp__uri_new_ true true).
Proof.
  apply (recycled_request_fresh quiet_app 0 3 used_request); try reflexivity; [|done].
  split_and!; try (by eexists). intros u [= <-]. by eexists.
Defined.

(** Memory runs out at the second buffer. *)
Lemma failed_request_is_cached_witness :
  let mem := fun n => negb (n =? 2)%nat in
  let '(none, s1) := htp__request_new_ mem quiet_app
      (p_init htp_type_request, sample_world 0 None ∅) in
  let '(next, s2) := htp__request_new__ mem quiet_app s1 in
  none = None /\ next = Some 0%nat /\
  exists r, w_reqs s2.2 !! 0%nat = Some r /\
    buffer_out r = None /\ headers_in r = None /\ headers_out r = None.
Proof.
  exact (failed_request_is_cached (fun n => negb (n =? 2)%nat) quiet_app 0
    (p_init htp_type_request) (sample_world 0 None ∅) eq_refl eq_refl eq_refl eq_refl eq_refl).
Defined.
