(* ===== verification/ReqEnd.v ===== *)
(** * From the bytes of a request to the application's callback

    The parser's account of a message (MsgParserRoundtrip.v), replayed through
    the hooks of [request_psets] (MsgParserReplay.v, MsgParserSnap.v): what a
    server makes of a rendered request, and that it calls the application with
    it ([request_delivered]). *)

From S2P Require Import Prelude HtpTypes HtString MsgParser MsgParserFacts MsgParserRoundtrip MsgParserReplay MsgParserSnap Kvs Query Callbacks Uri Request ReqParse ReqFacts.
From stdpp Require Import gmap.
#[local] Open Scope Z_scope.
#[local] Open Scope htp_scope.

Section Plays.
Context `{lib : HtStringLib} {laws : HtStringLaws lib} `{rx : RegexLib} {A : Type}.
Context (mem : nat -> bool) (Hmem : forall k, mem k = true).
Context (app : App A) (after : list Z -> list Z).
Context (h : nat) (host : evhtp) (Hvhosts : vhosts host = []).
Abbreviation W := (world A).
Abbreviation psets := (Some (request_psets mem app after)).
Implicit Types (w : W) (r : evhtp_request).

(** A server connection between two calls of the parser: not paused, without
    hooks or limit, its [evhtp_t] without virtual hosts. *)
Record serving w : Prop := {
  sv_hooks : c_hooks (w_conn w) = None;
  sv_type : c_type (w_conn w) = evhtp_type_server;
  sv_running : has (c_flags (w_conn w)) EVHTP_CONN_FLAG_PAUSED = false;
  sv_sni : has (c_flags (w_conn w)) EVHTP_CONN_FLAG_VHOST_VIA_SNI = false;
  sv_chtp : c_htp (w_conn w) = Some h;
  sv_scratch : scratch_buf (w_conn w) = Some [];
  sv_max : c_max_body_size (w_conn w) = 0;
  sv_htp : w_htps w !! h = Some host
}.

(** The store when the message began; whether no "100 Continue" is asked for. *)
Context (w0 : W) (no_continue : Prop).

(** The connection after part of a message: body bytes counted, and output. *)
Definition moved (n : Z) (out : list Z) (c : evhtp_connection) : evhtp_connection :=
  c <| c_body_bytes_read := n |> <| bev_output := bev_output c ++ out |>.

(** ... whose current request, at [i], is [r] so far. *)
Record building i r w : Prop := {
  b_serving : serving w;
  b_apart : apart i w0 w;
  b_from : exists n out, w_conn w = moved n out (w_conn w0) /\ (no_continue -> out = []);
  b_cur : c_request (w_conn w) = Some i;
  b_req : w_reqs w !! i = Some r;
  b_rhtp : r_htp r = Some h;
  b_conn : r_conn r = true;
  b_hooks : forall t, hook_set (r_hooks r) t = None;
  b_status : r_status r = EVHTP_RES_OK;
  b_bufs : is_Some (buffer_in r) /\ is_Some (headers_in r)
}.

(** The calls [D] take the request from [r] to one that satisfies [Q]. *)
Definition plays i (D : list snap) r (Q : evhtp_request -> Prop) : Prop :=
  forall w, building i r w ->
    exists w' r', replays psets D w w' /\ building i r' w' /\ Q r'.

Lemma plays_nil i r (Q : evhtp_request -> Prop) : Q r -> plays i [] r Q.
Proof. intros HQ w Hw. by exists w, r. Qed.

Lemma plays_app i D1 D2 r Q1 Q2 :
  plays i D1 r Q1 -> (forall r1, Q1 r1 -> plays i D2 r1 Q2) -> plays i (D1 ++ D2) r Q2.
Proof.
  intros H1 H2 w Hw. destruct (H1 w Hw) as (w1 & r1 & Hr1 & Hw1 & HQ1).
  destruct (H2 r1 HQ1 w1 Hw1) as (w2 & r2 & Hr2 & Hw2 & HQ2).
  exists w2, r2. split; [|done]. apply replays_app. by exists w1.
Qed.

(** One call, by what the hook does. *)
Lemma plays_hook i n d q r (Q : evhtp_request -> Prop) m :
  request_psets mem app after n = Some m ->
  (forall w, building i r w -> exists w' r', m d (q, w) = (0, (q, w')) /\
    building i r' w' /\ Q r') ->
  plays i [(n, d, q)] r Q.
Proof.
  intros Hm Hk w Hw. destruct (Hk w Hw) as (w' & r' & E & Hw' & HQ).
  exists w', r'. split; [|done]. exists w'. split; [|done].
  unfold HOOK. by rewrite Hm, E.
Qed.

Lemma plays_null i n d q r : request_psets mem app after n = None -> plays i [(n, d, q)] r (eq r).
Proof.
  intros Hn w Hw. exists w, r. split; [|done]. exists w. split; [|done].
  unfold HOOK. by rewrite Hn.
Qed.

(** [w] with the request replaced. *)
Lemma building_upd i r w r' w' :
  building i r w -> w_conn w' = w_conn w -> apart i w w' ->
  w_reqs w' !! i = Some r' -> r_htp r' = r_htp r -> r_conn r' = r_conn r ->
  r_hooks r' = r_hooks r -> r_status r' = EVHTP_RES_OK -> is_Some (buffer_in r') ->
  is_Some (headers_in r') -> building i r' w'.
Proof.
  intros [[] ? ? ? ? ? ? ? ? ?] Hc Ha Hr E1 E2 E3 ? ? ?. pose proof (ap_htps _ _ _ Ha) as Hh.
  split; rewrite ?Hc, ?Hh; try done; try congruence.
  - split; rewrite ?Hc, ?Hh; done.
  - by etransitivity.
Qed.

Lemma unhooked_none i r w t : building i r w -> unhooked (w_conn w) r t.
Proof. intros Hb. split; [apply (b_hooks _ _ _ Hb)|by rewrite (sv_hooks _ (b_serving _ _ _ Hb))]. Qed.

(** Nobody to ask: the hook succeeds and stores EVHTP_RES_OK. *)
Lemma status_hook_ok i r w t d (q : htparser) :
  building i r w ->
  exists w', status_hook (fun i => hook_request_run app i t d) (q, w) = (0, (q, w')) /\
    building i r w' /\ w_allocs w' = w_allocs w.
Proof.
  intros Hb. erewrite (status_hook_none app t d (q, w) i r);
    [|apply Hb|apply Hb|by eapply unhooked_none].
  eexists. split; [reflexivity|]. split; [|done].
  assert (r <| r_status := EVHTP_RES_OK |> = r) as E.
  { rewrite <- (b_status _ _ _ Hb). by destruct r. }
  eapply building_upd; [exact Hb|done|apart| |..]; try apply Hb; try done.
  transitivity (Some (r <| r_status := EVHTP_RES_OK |>)); [apply lookup_insert_eq|by rewrite E].
Qed.

Lemma plays_status i n d q r t x :
  request_psets mem app after n = Some (fun _ => status_hook (fun i => hook_request_run app i t x)) ->
  plays i [(n, d, q)] r (eq r).
Proof.
  intros Hn. eapply plays_hook; [exact Hn|]. intros w Hw.
  destruct (status_hook_ok i r w t x q Hw) as (w' & E & Hw' & _). by exists w', r.
Qed.

Lemma plays_hdrs_begin i d q r : plays i [(on_hdrs_begin, d, q)] r (eq r).
Proof. by apply (plays_status _ _ _ _ _ evhtp_hook_on_headers_start d_none). Qed.
Lemma plays_chunk_complete i d q r : plays i [(on_chunk_complete, d, q)] r (eq r).
Proof. by apply (plays_status _ _ _ _ _ evhtp_hook_on_chunk_complete d_none). Qed.
Lemma plays_chunks_complete i d q r : plays i [(on_chunks_complete, d, q)] r (eq r).
Proof. by apply (plays_status _ _ _ _ _ evhtp_hook_on_chunks_complete d_none). Qed.

Lemma plays_new_chunk i d q r : plays i [(on_new_chunk, d, q)] r (eq r).
Proof.
  eapply plays_hook; [reflexivity|]. intros w Hw. unfold htp__request_parse_chunk_new_.
  rewrite run_gets. cbn [fst].
  destruct (status_hook_ok i r w evhtp_hook_on_new_chunk
    (d_len (htparser_get_content_length (Some q))) q Hw) as (w' & E & Hw' & _).
  by exists w', r.
Qed.

Lemma plays_hostname i d q r : plays i [(h_hostname, d, q)] r (eq r).
Proof.
  eapply plays_hook; [reflexivity|]. intros w Hw. unfold htp__request_parse_hostname_.
  rewrite run_getw. cbn [snd]. destruct (b_serving _ _ _ Hw) as [].
  rewrite sv_sni0, run_getw. cbn [snd]. rewrite sv_chtp0. cbn [mbind option_bind].
  rewrite sv_htp0. unfold htp__request_find_vhost_. rewrite Hvhosts. cbn [find_vhost_loop].
  rewrite run_ret.
  destruct (status_hook_ok i r w evhtp_hook_on_hostname (d_host d) q Hw) as (w' & E & Hw' & _).
  by exists w', r.
Qed.

(** ** A header field *)

Lemma set_last_snoc l x y : set_last (l ++ [x]) y = l ++ [y].
Proof. unfold set_last. by rewrite removelast_last. Qed.

(** What the header list says, addresses aside. *)
Definition header_views r : option (list (option (list Z) * option (list Z))) :=
  map view <$> headers_in r.

Definition with_headers r hs : evhtp_request := r <| headers_in := Some hs |>.

Lemma plays_hdr_key i k q r hs :
  headers_in r = Some hs ->
  plays i [(h_hdr_key, k, q)] r (fun r' => exists x, r' = with_headers r (hs ++ [x]) /\
    key x = Some (cstr k) /\ val x = None).
Proof.
  intros Hhs. eapply plays_hook; [reflexivity|]. intros w Hw.
  unfold htp__request_parse_header_key_. rewrite run_allocs, Hmem. cbn [negb snd fst].
  rewrite (with_cur_eq _ _ i r) by (cbn; apply Hw). rewrite Hmem, Hhs.
  unfold evhtp_header_key_add, evhtp_header_new, evhtp_kv_new.
  cbn [Z.eqb andb evhtp_headers_add_header evhtp_kvs_add_kv].
  erewrite run_upd_req by (cbn; apply Hw). cbn [fst snd fmap option_fmap option_map].
  rewrite set_last_snoc. eexists _, _. split; [reflexivity|]. split.
  - eapply building_upd; [exact Hw|done|apart|cbn; apply lookup_insert_eq|..]; try done;
      try apply Hw.
  - eexists. by split.
Qed.

Lemma plays_hdr_val i v q r hs x :
  headers_in r = Some (hs ++ [x]) -> val x = None ->
  plays i [(h_hdr_val, v, q)] r (fun r' => exists y, r' = with_headers r (hs ++ [y]) /\
    view y = (key x, Some (cstr v))).
Proof.
  intros Hhs Hx. eapply plays_hook; [reflexivity|]. intros w Hw.
  unfold htp__request_parse_header_val_. rewrite (with_cur_eq _ _ i r) by (cbn; apply Hw).
  rewrite Hhs. unfold evhtp_header_val_add. rewrite last_snoc, Hx.
  erewrite run_upd_req by (cbn; apply Hw). cbn [fst snd fmap option_fmap option_map].
  rewrite !set_last_snoc.
  match goal with |- context [status_hook _ (q, ?w1)] => set (w1_ := w1) end.
  match goal with w1_ := context [<[i := ?r1]> _] |- _ => set (r1_ := r1) in w1_ end.
  assert (building i r1_ w1_) as Hw1.
  { eapply building_upd; [exact Hw|done|apart|cbn; apply lookup_insert_eq|..]; try done;
      try apply Hw. }
  match goal with |- context [htp__hook_header_ app _ ?a] =>
    destruct (status_hook_ok i r1_ w1_ evhtp_hook_on_header (d_header a) q Hw1)
      as (w2 & E & Hw2 & _) end.
  exists w2, r1_. split; [exact E|]. split; [done|]. eexists. by split.
Qed.

(** ** The request line *)

Definition new_uri : evhtp_uri :=
  {| authority := Some zero_authority; uri_path := None; fragment := None; query_raw := None;
     query := None; uri_scheme := htp_scheme_none; has_query_body := false |}.

Lemma split_path_ext a a' data : (forall n, a n = a' n) -> split_path a data = split_path a' data.
Proof. intros Ha. unfold split_path. by rewrite !Ha. Qed.
Lemma path_new_ext a a' data :
  (forall n, a n = a' n) -> htp__path_new_ a data = htp__path_new_ a' data.
Proof. intros Ha. unfold htp__path_new_. by rewrite (split_path_ext a a'), !Ha by done. Qed.

(** The path object of a request, before callbacks are looked up. *)
Definition the_path (d : list Z) : option evhtp_path := htp__path_new_ (fun _ => true) d.


Lemma set_callbacks_eq i r u p w q cb arg so eo :
  w_reqs w !! i = Some r -> r_htp r = Some h -> w_htps w !! h = Some host ->
  r_conn r = true -> r_uri r = Some u -> uri_path u = Some p ->
  select_callback host r p = Some (cb, arg, None, so, eo) ->
  exists w', htp__request_set_callbacks_ i (q, w) = (0, (q, w')) /\
    w_conn w' = w_conn w /\ apart i w w' /\
    w_reqs w' !! i = Some (r <| r_uri := Some (u <| uri_path := Some (set_matches so eo p) |>) |>
                             <| r_cb := cb |> <| r_cbarg := arg |>).
Proof.
  intros Hr Hh Hst Hc Hu Hp Hs. unfold htp__request_set_callbacks_.
  erewrite with_req_eq by exact Hr. rewrite run_getw. cbn [snd].
  rewrite Hh. cbn [mbind option_bind]. rewrite Hst, Hc. cbn [negb].
  rewrite Hu. cbn [mbind option_bind]. rewrite Hp, Hs. unfold upd_uri.
  erewrite run_upd_req by exact Hr. erewrite run_upd_req by (cbn; apply lookup_insert_eq).
  eexists. split; [reflexivity|]. split; [done|]. split; [apart|].
  cbn. rewrite lookup_insert_eq. cbn. by rewrite Hu.
Qed.

(** [htp__require_uri_] for a request without a URI, or with a cleared one. *)
Lemma require_uri_eq i r w q :
  building i r w -> r_uri r = None \/ r_uri r = Some new_uri ->
  exists w', htp__require_uri_ mem (q, w) = (0, (q, w')) /\
    building i (r <| r_uri := Some new_uri |>) w'.
Proof.
  intros Hw Hu. unfold htp__require_uri_, htp__require_uri__.
  rewrite run_getw. cbn [snd]. rewrite (b_cur _ _ _ Hw).
  erewrite with_req_eq by apply Hw. destruct Hu as [Hu|Hu]; rewrite Hu; cycle 1.
  { exists w. split; [done|]. rewrite <- Hu. by destruct r. }
  rewrite run_allocs, !Hmem.
  cbn [htp__uri_new_ negb htp__authority_new_].
  erewrite run_upd_req by (cbn; apply Hw). eexists. split; [reflexivity|].
  eapply building_upd; [exact Hw|done|apart|cbn; apply lookup_insert_eq|..]; try apply Hw; done.
Qed.

Lemma plays_path i d q r pth cb arg so eo :
  r_uri r = None \/ r_uri r = Some new_uri -> the_path d = Some pth ->
  select_callback host r pth = Some (cb, arg, None, so, eo) ->
  plays i [(h_path, d, q)] r (fun r' => r' =
    r <| r_uri := Some (new_uri <| uri_path := Some (set_matches so eo pth) |>
                                <| uri_scheme := scheme q |>) |>
      <| r_method := method q |> <| r_cb := cb |> <| r_cbarg := arg |>).
Proof.
  intros Hu Hp Hcb. eapply plays_hook; [reflexivity|]. intros w Hw.
  unfold htp__request_parse_path_.
  destruct (require_uri_eq i r w q Hw Hu) as (w1 & E1 & Hw1).
  erewrite bind_eq by exact E1. change (0 =? -1) with false. cbn iota. rewrite run_allocs.
  rewrite (path_new_ext _ (fun _ => true)) by (intros; apply Hmem).
  unfold the_path in Hp. rewrite Hp, run_gets. cbn [fst snd].
  erewrite with_cur_eq; [|cbn; apply Hw1|cbn; apply Hw1].
  unfold upd_uri. erewrite run_upd_req by (cbn; apply Hw1). cbn [fst snd].
  erewrite run_upd_req by (cbn; apply lookup_insert_eq). cbn [fst snd].
  match goal with |- context [bind (htp__request_set_callbacks_ i) _ (q, ?x)] => set (wx := x) end.
  eassert (w_reqs wx !! i = Some _) as Hrx by (cbn; apply lookup_insert_eq).
  edestruct (set_callbacks_eq i _
    (new_uri <| uri_path := Some pth |> <| uri_scheme := scheme q |>) pth wx q cb arg so eo Hrx) as (w2 & E2 & Hc2 & Hh2 & Hr2);
    [apply Hw|apply Hw1|apply Hw|reflexivity|reflexivity|exact Hcb|].
  erewrite bind_eq by exact E2.
  match type of Hr2 with _ = Some ?x => set (r2 := x) in Hr2 end.
  assert (building i r2 w2) as Hw2.
  { eapply building_upd; [exact Hw1|by rewrite Hc2|etransitivity; [|exact Hh2]; apart|exact Hr2|..];
      try apply Hw; done. }
  destruct (status_hook_ok i r2 w2 evhtp_hook_on_path d_path q Hw2) as (w3 & E3 & Hw3 & _).
  exists w3, r2. split; [exact E3|]. split; [exact Hw3|]. reflexivity.
Qed.

(** The query of the request line. *)
Lemma plays_args i d q r u :
  r_uri r = Some u ->
  (forall k, fst (htp__uri_set_query_ (kv_mem mem k) u d (parser_flags host)) = 0) ->
  plays i [(h_args, d, q)] r (fun r' => exists k u', r' = r <| r_uri := Some u' |> /\
    htp__uri_set_query_ (kv_mem mem k) u d (parser_flags host) = (0, u')).
Proof.
  intros Hu Hq. eapply plays_hook; [reflexivity|]. intros w Hw.
  unfold htp__request_parse_args_. rewrite run_getw. cbn [snd].
  erewrite with_cur_eq; [|apply Hw|apply Hw]. unfold is_client.
  destruct (b_serving _ _ _ Hw) as []. rewrite sv_type0.
  change (bool_decide (evhtp_type_server = evhtp_type_client)) with false. cbn iota.
  unfold with_uri. rewrite Hu, run_getw, run_allocs. cbn [fst snd]. rewrite sv_chtp0.
  cbn [mbind option_bind]. rewrite sv_htp0. specialize (Hq (w_allocs w)).
  destruct (htp__uri_set_query_ _ _ _ _) as [v u'] eqn:E. cbn in Hq. subst v.
  unfold upd_uri. erewrite run_upd_req by (cbn; apply Hw).
  change (0 =? -1) with false. cbn iota. eexists _, _. split; [reflexivity|]. split.
  - eapply building_upd; [exact Hw|done|apart|cbn; apply lookup_insert_eq|..]; try apply Hw; done.
  - exists (w_allocs w), u'. split; [|done]. by rewrite Hu.
Qed.

(** ** The body, and the ends *)

Lemma plays_body i d q r b :
  buffer_in r = Some b ->
  plays i [(h_body, d, q)] r (fun r' => r' = r <| buffer_in := Some (b ++ d) |>).
Proof.
  intros Hb. eapply plays_hook; [reflexivity|]. intros w Hw.
  destruct (b_serving _ _ _ Hw) as [].
  unfold htp__request_parse_body_. rewrite run_getw. cbn [snd]. rewrite sv_max0, sv_scratch0.
  change ((0 <? 0) && _) with false. cbn iota. rewrite run_upd_conn. cbn [fst snd].
  rewrite (b_cur _ _ _ Hw). unfold htp__hook_body_.
  erewrite bind_eq by (eapply hook_run_none; [apply Hw|exact (unhooked_none i r w _ Hw)]).
  erewrite bind_eq by (eapply set_cr_status_eq; [apply Hw|apply Hw]).
  cbn [fst snd]. change (EVHTP_RES_OK =? EVHTP_RES_PAUSE) with false.
  change (negb (EVHTP_RES_OK =? EVHTP_RES_OK)) with false. cbn iota.
  rewrite run_assoc, run_getw. cbn [snd].
  set (r1 := r <| r_status := EVHTP_RES_OK |>).
  match goal with |- context [default [] (scratch_buf ?c)] =>
    change (default [] (scratch_buf c)) with d end.
  assert (forall w', c_hooks (w_conn w') = c_hooks (w_conn w) ->
    c_type (w_conn w') = c_type (w_conn w) -> c_flags (w_conn w') = c_flags (w_conn w) ->
    c_htp (w_conn w') = c_htp (w_conn w) -> c_request (w_conn w') = c_request (w_conn w) ->
    scratch_buf (w_conn w') = Some [] -> c_max_body_size (w_conn w') = 0 ->
    (exists m, w_conn w' = (w_conn w) <| scratch_buf := Some [] |> <| c_body_bytes_read := m |>) ->
    apart i w w' -> w_reqs w' !! i = Some (r <| buffer_in := Some (b ++ d) |>) ->
    building i (r <| buffer_in := Some (b ++ d) |>) w') as Hbuild.
  { intros w' H1 H2 H3 H4 H5 H6 H7 [m Hm] Ha Hr. pose proof (ap_htps _ _ _ Ha) as Hh.
    destruct Hw, b_bufs0.
    split; try done; try congruence; [split; try done; congruence|by etransitivity|].
    destruct b_from0 as (n & out & E & Ho). exists m, out. split; [|done].
    rewrite Hm. rewrite E in sv_scratch0 |- *. destruct (w_conn w0). cbn in *. by subst. }
  destruct d as [|x d].
  - rewrite run_ret, run_upd_conn. eexists _, _. split; [reflexivity|]. split; [|reflexivity].
    apply Hbuild; try reflexivity; try done; [eexists; reflexivity|apart|].
    cbn. rewrite lookup_insert_eq. f_equal. unfold r1. destruct Hw. rewrite app_nil_r.
    rewrite <- Hb, <- b_status0. by destruct r.
  - erewrite bind_eq.
    2:{ erewrite with_cur_eq; [|cbn; apply Hw|cbn; apply lookup_insert_eq].
        change (buffer_in r1) with (buffer_in r). rewrite Hb.
        erewrite run_upd_req by (cbn; apply lookup_insert_eq). rewrite run_upd_conn. reflexivity. }
    rewrite run_upd_conn. eexists _, _. split; [reflexivity|]. split; [|reflexivity].
    apply Hbuild; try reflexivity; try done; [eexists; reflexivity|apart|].
    cbn. rewrite lookup_insert_eq. f_equal. unfold r1. destruct Hw.
    rewrite <- b_status0. by destruct r.
Qed.

(** What the end of the head says about keeping the connection and about a
    body to come. *)
Definition head_flags (p : htparser) (f : Z) : Z :=
  let f := if htparser_should_keep_alive (Some p) then flag_on f EVHTP_REQ_FLAG_KEEPALIVE else f in
  if htparser_is_chunked (Some p) || htparser_has_content_length (Some p) then f
  else flag_on f EVHTP_REQ_FLAG_END_STREAM.

Lemma plays_hdrs_complete i d q r :
  body q <> B_IDENTITY ->
  (no_continue -> has (htp_flags host) EVHTP_FLAG_ENABLE_100_CONT = true ->
   evhtp_header_find_n (headers_in r) (Some (bytes "Expect")) 6 = None) ->
  plays i [(on_hdrs_complete, d, q)] r (fun r' => r' =
    r <| r_flags := head_flags q (r_flags r) |>
      <| r_proto := htp__protocol_ (major q) (minor q) |>).
Proof.
  intros Hid Hexp. eapply plays_hook; [reflexivity|]. intros w Hw.
  unfold htp__request_parse_headers_. erewrite with_cur_eq; [|apply Hw|apply Hw].
  rewrite run_gets. cbn [fst].
  set (f1 := if htparser_should_keep_alive (Some q)
             then flag_on (r_flags r) EVHTP_REQ_FLAG_KEEPALIVE else r_flags r).
  set (r1 := r <| r_flags := f1 |>).
  assert (exists w1, when (htparser_should_keep_alive (Some q))
    (upd_req i (fun r => r <| r_flags := flag_on (r_flags r) EVHTP_REQ_FLAG_KEEPALIVE |>)) (q, w) =
    (tt, (q, w1)) /\ building i r1 w1) as (w1 & E1 & Hw1).
  { unfold when, r1, f1. destruct (htparser_should_keep_alive _).
    - eexists. split; [reflexivity|].
      eapply building_upd; [exact Hw|done|apart|cbn; rewrite lookup_alter_eq, (b_req _ _ _ Hw); reflexivity|..];
        try apply Hw; done.
    - exists w. split; [done|]. by destruct r. }
  erewrite bind_eq by exact E1. erewrite with_req_eq by apply Hw1.
  rewrite run_getw. cbn [snd]. unfold is_client at 1.
  pose proof (sv_type _ (b_serving _ _ _ Hw1)) as Hty. rewrite Hty.
  change (bool_decide (evhtp_type_server = evhtp_type_client)) with false. cbn [andb].
  change (htparser_is_identity_response (Some q)) with (bool_decide (body q = B_IDENTITY)).
  rewrite (bool_decide_eq_false_2 (body q = B_IDENTITY)) by done. rewrite orb_false_r.
  set (r2 := r <| r_flags := head_flags q (r_flags r) |>).
  match goal with |- context [bind (if ?b then _ else _) _ _] =>
    assert (exists w2, (if b then ret tt else upd_req i (fun r => r <| r_flags :=
        flag_on (r_flags r) EVHTP_REQ_FLAG_END_STREAM |>)) (q, w1) = (tt, (q, w2)) /\
      building i r2 w2) as (w2 & E2 & Hw2) end.
  { unfold r2, head_flags. fold f1. cbv zeta. destruct (_ || _).
    - by exists w1.
    - eexists. split; [reflexivity|].
      eapply building_upd; [exact Hw1|done|apart|cbn; rewrite lookup_alter_eq, (b_req _ _ _ Hw1); reflexivity|..];
        (apply Hw || done). }
  erewrite bind_eq by exact E2. erewrite with_cur_eq; [|apply Hw2|apply Hw2].
  erewrite run_upd_req by apply Hw2. cbn [fst snd].
  change (htparser_get_major (Some q)) with (major q).
  change (htparser_get_minor (Some q)) with (minor q).
  set (r3 := r2 <| r_proto := htp__protocol_ (major q) (minor q) |>).
  set (w3 := w2 <| w_reqs := _ |>).
  assert (building i r3 w3) as Hw3.
  { eapply building_upd; [exact Hw2|done|apart|cbn; apply lookup_insert_eq|..]; try apply Hw2; done. }
  unfold htp__hook_headers_.
  erewrite bind_eq by (eapply hook_run_none; [apply Hw3|exact (unhooked_none i r3 w3 _ Hw3)]).
  erewrite bind_eq by (eapply set_cr_status_eq; [apply Hw3|apply Hw3]).
  cbn [fst snd]. change (EVHTP_RES_OK =? EVHTP_RES_PAUSE) with false.
  change (EVHTP_RES_OK =? EVHTP_RES_OK) with true. cbn iota. rewrite run_ret. cbn [negb].
  set (w4 := w3 <| w_reqs := _ |>).
  assert (building i r3 w4) as Hw4.
  { eapply (building_upd i r3 w3 r3); try apply Hw3; try done; [apart|].
    transitivity (Some (r3 <| r_status := EVHTP_RES_OK |>)); [apply lookup_insert_eq|].
    rewrite <- (b_status _ _ _ Hw3). done. }
  clearbody w4. rewrite !run_getw. cbn [snd]. destruct (b_serving _ _ _ Hw4) as [].
  rewrite sv_type0. change (negb (bool_decide (evhtp_type_server = evhtp_type_server))) with false.
  cbn iota. rewrite sv_chtp0. cbn [mbind option_bind]. rewrite sv_htp0.
  destruct (has (htp_flags host) _) eqn:E100; cbn [negb]; [|by exists w4, r3].
  erewrite with_req_eq by apply Hw4. change (headers_in r3) with (headers_in r).
  destruct (evhtp_header_find_n _ _ _) as [v|]; [|by exists w4, r3].
  rewrite run_gets, run_upd_conn. eexists _, r3. split; [reflexivity|]. split; [|done].
  destruct Hw4 as [_ Ha Hfr ? ? ? ? ? ? ?]. split; try done.
  - etransitivity; [exact Ha|apart].
  - destruct Hfr as (n & out & E & Ho). eexists n, (out ++ _). split.
    + cbn. rewrite E. unfold moved. cbn. rewrite <- app_assoc. reflexivity.
    + intros Hnc. by specialize (Hexp Hnc eq_refl).
Qed.

(** A complete message is handed to the callback. *)
Lemma complete_replays d q r i w w' :
  building i r w -> htp__should_parse_query_body_ q r = false -> r_cb r <> 0 ->
  app_cb app i (r_cb r) (r_cbarg r) (q, w) = (tt, (q, w')) ->
  has (c_flags (w_conn w')) EVHTP_CONN_FLAG_PAUSED = false ->
  replays psets [(on_msg_complete, d, q)] w w'.
Proof.
  intros Hw Hq Hcb E Hp.
  exists w'. split; [|done]. unfold HOOK. cbn [request_psets]. unfold htp__request_parse_fini_.
  rewrite run_getw, run_gets. cbn [fst snd]. rewrite (sv_running _ (b_serving _ _ _ Hw)).
  rewrite run_getw. cbn [snd]. rewrite (b_cur _ _ _ Hw). cbn [mbind option_bind].
  rewrite (b_req _ _ _ Hw). cbn [mbind option_bind]. rewrite Hq, run_ret.
  change (negb (0 =? 0)) with false. cbn iota.
  destruct (Z.eqb_spec (r_cb r) 0) as [|_]; [done|]. cbn [negb].
  erewrite bind_eq by exact E. rewrite run_getw. cbn [snd]. by rewrite Hp.
Qed.

(** ** Lists of calls *)

Definition header_view (f : list Z * list Z) : option (list Z) * option (list Z) :=
  (Some (cstr f.1), Some (cstr f.2)).

(** [r] with headers added that read [fs]. *)
Definition more_headers (fs : list (list Z * list Z)) r r' : Prop :=
  exists hs xs, headers_in r = Some hs /\ r' = with_headers r (hs ++ xs) /\
    map view xs = map header_view fs.

Lemma more_headers_nil r : is_Some (headers_in r) -> more_headers [] r r.
Proof.
  intros [hs Hhs]. exists hs, []. split; [done|]. split; [|done].
  rewrite app_nil_r. unfold with_headers. rewrite <- Hhs. by destruct r.
Qed.

Lemma more_headers_trans fs gs r1 r2 r3 :
  more_headers fs r1 r2 -> more_headers gs r2 r3 -> more_headers (fs ++ gs) r1 r3.
Proof.
  intros (hs & xs & Hhs & -> & Hx) (hs' & ys & Hhs' & -> & Hy).
  injection Hhs' as <-. exists hs, (xs ++ ys). split; [done|].
  rewrite app_assoc, !map_app, Hx, Hy. by split.
Qed.

(** A name, perhaps the host name, and the value. *)
Lemma plays_field i f q1 D q2 r :
  (D = [] \/ exists d q, D = [(h_hostname, d, q)]) -> is_Some (headers_in r) ->
  plays i ((h_hdr_key, f.1, q1) :: D ++ [(h_hdr_val, f.2, q2)]) r (more_headers [f] r).
Proof.
  intros HD [hs Hhs].
  change (?a :: D ++ ?b) with ([a] ++ D ++ b).
  eapply plays_app; [by apply plays_hdr_key|]. intros r1 (x & -> & Hk & Hv).
  apply (plays_app i D _ _ (eq (with_headers r (hs ++ [x])))).
  - destruct HD as [->|(d & q & ->)]; [by apply plays_nil|apply plays_hostname].
  - intros r1 <-. intros w Hw.
    destruct (plays_hdr_val i f.2 q2 (with_headers r (hs ++ [x])) hs x eq_refl Hv w Hw) as (w' & r' & Hr & Hw' & y & -> & Hy).
    exists w', (with_headers r (hs ++ [y])). split; [done|]. split; [exact Hw'|].
    exists hs, [y]. split; [done|]. split; [done|]. cbn. by rewrite Hy, Hk.
Qed.

Lemma plays_fields i b fs D r :
  D.*1 = field_events b fs -> is_Some (headers_in r) -> plays i D r (more_headers fs r).
Proof.
  revert b D r. induction fs as [|[k v] fs IH]; intros b D r HD Hr.
  - destruct D; [|done]. by apply plays_nil, more_headers_nil.
  - cbn [field_events] in HD. rewrite !app_assoc in HD.
    apply fmap_app_inv in HD as (D1 & D2 & H1 & H2 & ->).
    eapply plays_app.
    + assert (exists q1 Dh q2, D1 = (h_hdr_key, k, q1) :: Dh ++ [(h_hdr_val, v, q2)] /\
        (Dh = [] \/ exists d q, Dh = [(h_hostname, d, q)])) as (q1 & Dh & q2 & -> & HDh).
      { symmetry in H1. apply fmap_app_inv in H1 as (Da & Db & Ha & Hb & ->).
        symmetry in Ha. apply fmap_app_inv in Ha as (Dk & Dh & Hk & Hh & ->).
        destruct Dk as [|[e1 q1] [|]]; try done. destruct Db as [|[e2 q2] [|]]; try done.
        injection Hk as <-. injection Hb as <-. exists q1, Dh, q2. split; [done|].
        destruct (_ && _).
        - destruct Dh as [|[e3 q3] [|]]; try done. injection Hh as <-. right. by eexists _, _.
        - destruct Dh; [by left|done]. }
      by apply (plays_field i (k, v)).
    + intros r1 Hr1 w Hw. assert (is_Some (headers_in r1)) as Hs.
      { destruct Hr1 as (hs & xs & _ & -> & _). by eexists. }
      destruct (IH _ D2 r1 (eq_sym H2) Hs w Hw) as (w' & r' & ? & ? & ?).
      exists w', r'. split; [done|]. split; [done|]. by apply (more_headers_trans [(k, v)] fs r r1).
Qed.

Lemma plays_trailers i fs D r :
  D.*1 = trailer_events fs -> is_Some (headers_in r) -> plays i D r (more_headers fs r).
Proof.
  revert D r. induction fs as [|f fs IH]; intros D r HD Hr.
  - destruct D; [|done]. by apply plays_nil, more_headers_nil.
  - destruct D as [|[e1 q1] [|[e2 q2] D]]; try done. injection HD as -> -> HD.
    change (plays i (((h_hdr_key, f.1, q1) :: [] ++ [(h_hdr_val, f.2, q2)]) ++ D) r (more_headers (f :: fs) r)).
    eapply plays_app; [apply plays_field; [by left|done]|].
    intros r1 Hr1 w Hw. assert (is_Some (headers_in r1)) as Hs.
    { destruct Hr1 as (hs & xs & _ & -> & _). by eexists. }
    destruct (IH D r1 HD Hs w Hw) as (w' & r' & ? & ? & ?).
    exists w', r'. split; [done|]. split; [done|]. by apply (more_headers_trans [f] fs r r1).
Qed.

(** The data of a content and its trailers. *)
Definition content_data (c : content) : list Z :=
  match c with no_content => [] | sized d => d | chunks cs _ _ => concat (map snd cs) end.
Definition content_trailers (c : content) : list (list Z * list Z) :=
  match c with chunks _ _ ts => ts | _ => [] end.

Lemma plays_chunks i cs D r b :
  D.*1 = concat (map chunk_events cs) -> buffer_in r = Some b ->
  plays i D r (fun r' => r' = r <| buffer_in := Some (b ++ concat (map snd cs)) |>).
Proof.
  revert D r b. induction cs as [|c cs IH]; intros D r b HD Hb.
  - destruct D; [|done]. apply plays_nil. cbn. rewrite app_nil_r, <- Hb. by destruct r.
  - destruct D as [|[e1 q1] [|[e2 q2] [|[e3 q3] D]]]; try done. injection HD as -> -> -> HD.
    change (?x :: ?y :: ?z :: D) with ([x] ++ [y] ++ [z] ++ D).
    eapply plays_app; [apply plays_new_chunk|]. intros r1 <-.
    eapply plays_app; [by apply plays_body|]. intros r1 ->.
    eapply plays_app; [apply plays_chunk_complete|]. intros r1 <- w Hw.
    destruct (IH D (r <| buffer_in := Some (b ++ c.2) |>) (b ++ c.2) HD ltac:(done) w Hw) as (w' & r' & Hr & Hw' & ->).
    eexists w', _. split; [done|]. split; [exact Hw'|]. cbn. by rewrite app_assoc.
Qed.

(** [r] with the content received. *)
Definition with_content (c : content) r r' : Prop :=
  exists b, buffer_in r = Some b /\
    more_headers (content_trailers c) (r <| buffer_in := Some (b ++ content_data c) |>) r'.

Lemma plays_content i c D r :
  D.*1 = content_events c -> is_Some (buffer_in r) -> is_Some (headers_in r) ->
  plays i D r (with_content c r).
Proof.
  intros HD [b Hb] Hh. unfold with_content. destruct c as [|d|cs last ts]; cbn in *.
  - destruct D; [|done]. apply plays_nil. exists b. split; [done|].
    rewrite app_nil_r, <- Hb.
    match goal with |- more_headers [] ?x r => replace x with r by (by destruct r) end.
    by apply more_headers_nil.
  - destruct D as [|[e q] [|]]; try done. injection HD as ->. intros w Hw.
    destruct (plays_body i d q r b Hb w Hw) as (w' & r' & ? & ? & ->).
    eexists w', _. split; [done|]. split; [done|]. exists b. split; [done|].
    by apply more_headers_nil.
  - apply fmap_app_inv in HD as (D1 & D2 & H1 & H2 & ->).
    destruct D2 as [|[e q] D2]; [done|]. injection H2 as <- H2.
    eapply plays_app; [by apply plays_chunks|]. intros r1 ->.
    change (?x :: D2) with ([x] ++ D2).
    eapply plays_app; [apply plays_chunks_complete|]. intros r1 <- w Hw.
    match type of Hw with building _ ?r1 _ =>
      destruct (plays_trailers i ts D2 r1 (eq_sym H2) Hh w Hw) as (w' & r' & ? & ? & ?) end.
    exists w', r'. split; [done|]. split; [done|]. by exists b.
Qed.

(** ** The whole request *)

(** What a message starts from: a new request, or one taken from the cache. *)
Record blank r : Prop := {
  bl_htp : r_htp r = Some h;
  bl_conn : r_conn r = true;
  bl_hooks : forall t, hook_set (r_hooks r) t = None;
  bl_status : r_status r = EVHTP_RES_OK;
  bl_flags : r_flags r = 0;
  bl_cb : r_cb r = 0;
  bl_bufs : buffer_in r = Some [] /\ buffer_out r = Some [];
  bl_headers : headers_in r = Some [] /\ headers_out r = Some [];
  bl_uri : r_uri r = None \/ r_uri r = Some new_uri
}.

Lemma new_request_blank : blank (new_request (Some h)).
Proof. split; try done. by left. Qed.

(** Without a callback of its own a request is routed by its path alone. *)
Lemma select_blank r p :
  r_cb r = 0 -> select_callback host r p = select_callback host (new_request (Some h)) p.
Proof. intros Hr. unfold select_callback. by rewrite Hr. Qed.

(** Two parsers that agree on the flags of the head agree on what the hooks
    ask them at its end. *)
Lemma flags_of_has p q m :
  flags_of q = flags_of p -> Z.land F_SKIP_BODY m = 0 -> has (flags q) m = has (flags p) m.
Proof.
  intros Hf Hm. rewrite <- (has_off_ne (flags q) F_SKIP_BODY m) by done.
  rewrite <- (has_off_ne (flags p) F_SKIP_BODY m) by done.
  unfold flags_of in Hf. by rewrite Hf.
Qed.

Lemma head_flags_settled p q f :
  flags_of q = flags_of p -> line_of q = line_of p -> head_flags q f = head_flags p f.
Proof.
  intros Hf [= _ _ _ Hma Hmi]. unfold head_flags, htparser_should_keep_alive,
    htparser_is_chunked, htparser_has_content_length, flag. cbn.
  rewrite Hma, Hmi. by rewrite !(flags_of_has p q) by done.
Qed.

(** No URL-encoded form is taken from the body: there is a query in the
    target, or no field of that name. *)
Definition no_form (rq : request) : Prop :=
  is_Some (rq_query rq) \/
  Forall (fun f => fold_eq (cstr f.1) (bytes "content-type") = false)
    (rq_fields rq ++ content_trailers (rq_content rq)).

(** What the request object holds of [rq]; [p] is the parser afterwards. *)
Record received (rq : request) (p : htparser) (pth : evhtp_path) (so eo : Z)
    (r : evhtp_request) : Prop := {
  rv_method : r_method r = rq_method rq;
  rv_proto : r_proto r = htp__protocol_ (rq_major rq) (rq_minor rq);
  rv_flags : r_flags r = head_flags p 0;
  rv_status : r_status r = EVHTP_RES_OK;
  rv_headers : header_views r =
    Some (map header_view (rq_fields rq ++ content_trailers (rq_content rq)));
  rv_out : buffer_out r = Some [] /\ headers_out r = Some [];
  rv_body : buffer_in r = Some (content_data (rq_content rq));
  rv_uri : exists u, r_uri r = Some u /\ is_Some (authority u) /\
    uri_path u = Some (set_matches so eo pth) /\
    match rq_query rq with
    | None => query u = None /\ query_raw u = None
    | Some q => exists k u0, htp__uri_set_query_ (kv_mem mem k) u0 q (parser_flags host) = (0, u)
    end
}.

Lemma done_late p n d q :
  done_call p (n, d, q) -> late n = true -> early n = false ->
  line_of q = line_of p /\ flags_of q = flags_of p /\
  (n = on_hdrs_complete -> type q = htp_type_request -> body q <> B_IDENTITY).
Proof. intros [[He|(Hl & Hf & Hi)] _] Hn Hne; [congruence|]. split_and!; auto. Qed.

(** The request line, from the path on. *)
Lemma plays_start i rq p D r pth cb arg so eo :
  D.*1 = start_events rq -> Forall (done_call p) D ->
  r_uri r = None \/ r_uri r = Some new_uri ->
  the_path (rq_path rq) = Some pth ->
  select_callback host r pth = Some (cb, arg, None, so, eo) ->
  (forall q, rq_query rq = Some q -> forall k u,
     fst (htp__uri_set_query_ (kv_mem mem k) u q (parser_flags host)) = 0) ->
  plays i D r (fun r' => exists u,
    r' = r <| r_uri := Some u |> <| r_method := method p |> <| r_cb := cb |> <| r_cbarg := arg |> /\
    is_Some (authority u) /\ uri_path u = Some (set_matches so eo pth) /\
    match rq_query rq with
    | None => query u = None /\ query_raw u = None
    | Some q => exists k u0, htp__uri_set_query_ (kv_mem mem k) u0 q (parser_flags host) = (0, u)
    end).
Proof.
  intros HD Hdone Hu Hp Hcb Hq. unfold start_events in HD.
  destruct D as [|[e1 q1] [|[e2 q2] D]]; try done. injection HD as -> -> HD.
  apply Forall_cons in Hdone as [_ Hdone]. apply Forall_cons in Hdone as [[[Hc|(Hl & _)] _] _]; [done|].
  injection Hl as _ Hm _ _ _.
  change (?x :: ?y :: D) with ([x] ++ [y] ++ D).
  eapply plays_app; [by apply plays_null|]. intros r1 <-.
  eapply plays_app; [by eapply plays_path|]. intros r1 ->. rewrite Hm.
  assert (forall D r1, D.*1 = [(h_uri, target rq); (on_hdrs_begin, [])] -> plays i D r1 (eq r1)) as Hend.
  { intros D0 r0 H0. destruct D0 as [|[e3 q3] [|[e4 q4] [|]]]; try done. injection H0 as -> ->.
    change (plays i ([(h_uri, target rq, q3)] ++ [(on_hdrs_begin, [], q4)]) r0 (eq r0)).
    eapply plays_app; [by apply plays_null|]. intros r1 <-. apply plays_hdrs_begin. }
  destruct (rq_query rq) as [qs|] eqn:Eq.
  - destruct D as [|[e3 q3] D]; [done|]. injection HD as -> HD.
    change (?x :: D) with ([x] ++ D).
    eapply plays_app.
    { eapply plays_args; [reflexivity|]. intros k. by apply (Hq qs). }
    intros r1 (k & u' & -> & E) w Hw.
    destruct (Hend D _ HD w Hw) as (w' & r' & ? & ? & <-). eexists w', _.
    split; [done|]. split; [done|]. exists u'. split; [done|].
    assert (is_Some (authority u') /\ uri_path u' = Some (set_matches so eo pth)) as [Ha Hp'];
      [|split; [done|]; split; [done|]; by eexists _, _].
    pose proof E as E'. unfold htp__uri_set_query_ in E'. revert E'. clear.
    repeat case_match; simplify_eq/=; intros; simplify_eq/=; (split; [by eexists|done]).
  - intros w Hw. destruct (Hend D _ HD w Hw) as (w' & r' & ? & ? & <-). eexists w', _.
    split; [done|]. split; [done|]. eexists. split; [done|]. split; [by eexists|done].
Qed.

Lemma view_find_none hs l n :
  map view hs = map header_view l ->
  Forall (fun f => fold_eq (cstr f.1) n = false) l ->
  Forall (fun x => fold_eq (default [] (key x)) n = false) hs.
Proof.
  revert l. induction hs as [|x hs IH]; intros [|f l] E Hl; try done.
  injection E as Hk _ E. apply Forall_cons in Hl as [Hf Hl]. apply Forall_cons.
  split; [by rewrite Hk|by apply (IH l)].
Qed.

Lemma find_no_header hs n len :
  Forall (fun x => fold_eq (default [] (key x)) n = false) hs -> take len n = n ->
  evhtp_kv_find_n (Some hs) (Some n) len = None.
Proof.
  intros Hf Hn. unfold evhtp_kv_find_n. rewrite Hn. clear Hn.
  induction Hf as [|x hs Hx _ IH]; [done|]. cbn [kv_find_n].
  unfold match_header_key. rewrite Hx. destruct (negb _); exact IH.
Qed.

Lemma no_form_false rq p u r :
  no_form rq -> r_uri r = Some u ->
  (is_Some (rq_query rq) -> is_Some (query u)) ->
  header_views r = Some (map header_view (rq_fields rq ++ content_trailers (rq_content rq))) ->
  htp__should_parse_query_body_ p r = false.
Proof.
  intros Hno Hu Hq Hh. unfold htp__should_parse_query_body_. rewrite Hu.
  destruct (query u) as [a|] eqn:Equ; [done|].
  destruct Hno as [Hs|Hct]; [by destruct (Hq Hs)|].
  destruct (_ =? 0); [done|]. destruct (negb _); [done|].
  unfold header_views in Hh. destruct (headers_in r) as [hs|]; [|done].
  injection Hh as Hh. pose proof (view_find_none _ _ _ Hh Hct) as Hf.
  assert (evhtp_kv_find_n (Some hs) (Some (bytes "content-type")) 12 = None) as ->; [|done].
  by apply find_no_header.
Qed.

Lemma set_query_some k u0 q fl u : htp__uri_set_query_ k u0 q fl = (0, u) -> is_Some (query u).
Proof.
  unfold htp__uri_set_query_. intros E. repeat case_match; simplify_eq/=; eauto.
Qed.

(** Everything between the start and the end of a message. *)
Lemma plays_message i rq p Ds Df qh Dc pth cb arg so eo r0 :
  blank r0 ->
  Ds.*1 = start_events rq -> Df.*1 = field_events false (rq_fields rq) ->
  Dc.*1 = content_events (rq_content rq) ->
  Forall (done_call p) Ds -> done_call p (on_hdrs_complete, [], qh) ->
  type p = htp_type_request -> method p = rq_method rq -> major p = rq_major rq ->
  minor p = rq_minor rq -> the_path (rq_path rq) = Some pth ->
  select_callback host (new_request (Some h)) pth = Some (cb, arg, None, so, eo) ->
  (forall q, rq_query rq = Some q -> forall k u,
     fst (htp__uri_set_query_ (kv_mem mem k) u q (parser_flags host)) = 0) ->
  (no_continue -> has (htp_flags host) EVHTP_FLAG_ENABLE_100_CONT = true ->
   Forall (fun f => fold_eq (cstr f.1) (bytes "Expect") = false) (rq_fields rq)) ->
  plays i (Ds ++ Df ++ [(on_hdrs_complete, [], qh)] ++ Dc) r0
    (fun r => received rq p pth so eo r /\ r_cb r = cb /\ r_cbarg r = arg).
Proof.
  intros Hbl Hs Hf Hc Hds Hdh Hty Hme Hma Hmi Hpath Hsel Hquery Hexp.
  destruct (bl_bufs _ Hbl) as [Hbi Hbo]. destruct (bl_headers _ Hbl) as [Hhi Hho].
  rewrite <- (select_blank r0) in Hsel by apply Hbl.
  destruct (done_late _ _ _ _ Hdh eq_refl eq_refl) as (Hlh & Hfh & Hid).
  assert (type qh = htp_type_request) as Htq by (by injection Hlh as -> _ _ _ _).
  eapply plays_app;
    [eapply (plays_start i rq p); [exact Hs|exact Hds|apply Hbl|exact Hpath|exact Hsel|exact Hquery]|].
  intros r1 (u & -> & Hu0 & Hu1 & Hu2).
  eapply plays_app; [eapply plays_fields; [exact Hf|cbn; rewrite Hhi; by eexists]|].
  intros r2 (hs & xs & Hhs & -> & Hxs). cbn in Hhs. rewrite Hhi in Hhs. injection Hhs as <-.
  eapply plays_app.
  { apply plays_hdrs_complete; [by apply Hid|]. intros Hn H100.
    pose proof (view_find_none xs _ (bytes "Expect") Hxs (Hexp Hn H100)) as Hnone.
    cbn [headers_in with_headers set_field]. apply find_no_header; [exact Hnone|done]. }
  intros r3 -> w3 Hw3.
  match type of Hw3 with building _ ?r3 _ =>
    destruct (plays_content i (rq_content rq) Dc r3 Hc ltac:(by eexists) ltac:(by eexists)
      w3 Hw3) as (w4 & r4 & Hr4 & Hw4 & b & Hb4 & hs4 & ys & Hhs4 & -> & Hys) end.
  cbn in Hb4. rewrite Hbi in Hb4. injection Hb4 as <-. injection Hhs4 as <-.
  eexists w4, _. split; [exact Hr4|]. split; [exact Hw4|]. split; [|done].
  pose proof Hlh as Hlh'. injection Hlh as _ _ _ Hma' Hmi'. rewrite Hma', Hmi' in Hw4 |- *.
  split; cbn; try done.
  - by rewrite Hma, Hmi.
  - rewrite (bl_flags _ Hbl). by apply head_flags_settled.
  - apply Hbl.
  - f_equal. by rewrite !map_app, Hxs, Hys.
  - exists u. by split.
Qed.

End Plays.

Section EndToEnd.
Context `{lib : HtStringLib} {laws : HtStringLaws lib} `{rx : RegexLib} {A : Type}.
Context (mem : nat -> bool) (Hmem : forall k, mem k = true).
Context (app : App A) (after : list Z -> list Z).
Context (h : nat) (host : evhtp) (Hvhosts : vhosts host = []).
Abbreviation W := (world A).
Abbreviation psets := (Some (request_psets mem app after)).
Implicit Types (w : W) (r : evhtp_request).

(** The reusable requests, and what one of them has to be. *)
Definition cached w : list nat := default [] (w_cache w !! h).
Definition spare r : Prop :=
  blank h (r <| r_conn := true |> <| r_htp := Some h |> <| r_status := EVHTP_RES_OK |>).

(** A connection between two messages. *)
Record ready w : Prop := {
  rd_serving : serving h host w;
  rd_idle : c_request (w_conn w) = None;
  rd_spares : Forall (fun i => exists r, w_reqs w !! i = Some r /\ spare r) (cached w);
  rd_nodup : NoDup (cached w)
}.

(** A message was begun with the request at [i]. *)
Record began (i : nat) w w' : Prop := {
  bg_conn : w_conn w' = (w_conn w) <| c_request := Some i |>;
  bg_htps : w_htps w' = w_htps w;
  bg_ub : w_ub w' = w_ub w;
  bg_app : w_app w' = w_app w;
  bg_reqs : forall j, j <> i -> w_reqs w' !! j = w_reqs w !! j;
  bg_cache : cached w' = tail (cached w);
  bg_first : cached w = [] \/ cached w = i :: tail (cached w)
}.

Lemma request_taken q w :
  ready w -> exists i r w', htp__request_new__ mem app (q, w) = (Some i, (q, w')) /\
    began i w (w' <| w_conn := (w_conn w') <| c_request := Some i |> |>) /\
    w_reqs w' !! i = Some r /\ blank h r /\ w_conn w' = w_conn w.
Proof.
  intros [[] Hidle Hsp Hnd]. unfold htp__request_new__, get_request_from_cache.
  rewrite run_assoc, run_getw. cbn [snd]. rewrite sv_chtp0. rewrite run_assoc, run_getw. cbn [snd].
  change (default [] (w_cache w !! h)) with (cached w) in *.
  destruct (cached w) as [|i rest] eqn:Ec.
  - rewrite run_ret, request_new_fresh by exact Hmem.
    exists (w_allocs w), (new_request (Some h)). eexists. split; [reflexivity|].
    split; [|split_and!; [cbn; rewrite sv_chtp0; apply lookup_insert_eq|apply new_request_blank|done]].
    split; try done; [|by rewrite Ec|by left].
    intros j Hj. cbn. by rewrite lookup_insert_ne.
  - apply Forall_cons in Hsp as [(r & Hr & Hs) _].
    rewrite run_assoc, run_updw. cbn [fst snd].
    rewrite run_assoc. erewrite run_upd_req by exact Hr. rewrite !run_ret.
    eexists i, _, _. split; [reflexivity|].
    split; [|split_and!; [cbn; apply lookup_insert_eq|exact Hs|done]].
    split; try done; [| |right; by rewrite Ec].
    + intros j Hj. cbn. by rewrite lookup_insert_ne.
    + unfold cached at 1. cbn. by rewrite lookup_insert_eq, Ec.
Qed.

(** A new message gets a request that holds nothing. *)
Lemma begin_replays d q w nc :
  ready w -> exists i r w', replays psets [(on_msg_begin, d, q)] w w' /\
    building h host w' nc i r w' /\ blank h r /\ began i w w'.
Proof.
  intros Hw. destruct (request_taken q w Hw) as (i & r & w' & E & Hb & Hr & Hbl & Hc).
  exists i, r, (w' <| w_conn := (w_conn w') <| c_request := Some i |> |>).
  destruct Hw as [[] Hidle _ _].
  assert (htp__request_parse_start_ mem app (q, w) =
    (0, (q, w' <| w_conn := (w_conn w') <| c_request := Some i |> |>))) as E'.
  { unfold htp__request_parse_start_. rewrite run_getw. cbn [snd]. unfold is_client.
    rewrite sv_type0. change (bool_decide (evhtp_type_server = evhtp_type_client)) with false.
    cbn iota. rewrite sv_running0, Hidle. erewrite bind_eq by exact E.
    by rewrite run_upd_conn. }
  split; [|split; [|by split]].
  - eexists. split; [|done]. unfold HOOK. cbn [request_psets]. by rewrite E'.
  - destruct (bl_bufs _ _ Hbl), (bl_headers _ _ Hbl). split; try apply Hbl; try done.
    + split; cbn; rewrite ?Hc; try done. by rewrite <- sv_htp0, <- (bg_htps _ _ _ Hb).
    + eexists _, []. split; [|done]. unfold moved. rewrite app_nil_r.
      destruct (w_conn _). reflexivity.
Qed.

(** The bytes of a request, up to the return of the callback; [w0] is the store
    when the message began, [w1] and [w2] those before and after the callback. *)
Lemma request_arrives rq rest p w pth cb arg so eo nc :
  request_ok rq -> plain p -> state p = S_START -> ready w ->
  the_path (rq_path rq) = Some pth ->
  select_callback host (new_request (Some h)) pth = Some (cb, arg, None, so, eo) -> cb <> 0 ->
  (forall q, rq_query rq = Some q -> forall k u,
     fst (htp__uri_set_query_ (kv_mem mem k) u q (parser_flags host)) = 0) ->
  no_form rq ->
  (nc -> has (htp_flags host) EVHTP_FLAG_ENABLE_100_CONT = true ->
   Forall (fun f => fold_eq (cstr f.1) (bytes "Expect") = false) (rq_fields rq)) ->
  exists p' i q w0 w1 r, began i w w0 /\ building h host w0 nc i r w1 /\
    received mem host rq p' pth so eo r /\ line_of q = line_of p' /\ flags_of q = flags_of p' /\
    plain p' /\ state p' = S_START /\ error p' = htparse_error_none /\ tells (rq_fields rq) p' /\
    method p' = rq_method rq /\ major p' = rq_major rq /\ minor p' = rq_minor rq /\
    forall w2, app_cb app i cb arg (q, w1) = (tt, (q, w2)) ->
      has (c_flags (w_conn w2)) EVHTP_CONN_FLAG_PAUSED = false ->
      htparser_run psets (render rq ++ rest) (p, w) = Some (length (render rq), (p', w2)).
Proof.
  intros Hrq Hp Hst Hw Hpath Hsel Hcb Hquery Hform Hexp.
  destruct (request_run rq p [] rest Hrq Hp Hst)
    as (p' & Erun & Hp' & Hst' & Herr & Htells & Hme & Hma & Hmi).
  destruct (run_snap_exists (render rq ++ rest) p []) as (n & p0 & D & Esnap).
  assert (n = length (render rq) /\ p0 = p' /\ D.*1 = events rq) as (-> & -> & HD).
  { destruct (run_replay (Some (logged null_hooks)) _ _ _ _ _ _ Esnap) as (D' & HD' & Hr).
    cbn in HD'. subst D'. specialize (Hr ([], tt) _ (replays_logged D [] tt)).
    rewrite Erun in Hr. by injection Hr. }
  assert (Forall (done_call p') D) as Hdone.
  { eapply run_snaps; [exact Hst|exact Esnap| |exact Hst']. by intros ->. }
  destruct (run_replay psets _ _ _ _ _ _ Esnap) as (D' & HD' & Hreplay).
  cbn in HD'. subst D'.
  (* the calls, part by part *)
  unfold events in HD. apply fmap_app_inv in HD as (Db & D1 & Hb & H1 & ->).
  symmetry in H1. apply fmap_app_inv in H1 as (Ds & D2 & Hs & H2 & ->).
  symmetry in H2. apply fmap_app_inv in H2 as (Df & D3 & Hf & H3 & ->).
  symmetry in H3. apply fmap_app_inv in H3 as (Dh & D4 & Hh & H4 & ->).
  symmetry in H4. apply fmap_app_inv in H4 as (Dc & De & Hc & He & ->).
  destruct Db as [|[eb qb] [|]]; try done. injection Hb as <-.
  destruct Dh as [|[eh qh] [|]]; try done. injection Hh as <-.
  destruct De as [|[ee qe] [|]]; try done. injection He as <-.
  rewrite !Forall_app in Hdone.
  destruct Hdone as (_ & Hds & _ & Hdh & _ & Hde).
  rewrite Forall_singleton in Hdh, Hde.
  destruct (done_late _ _ _ _ Hde eq_refl eq_refl) as (Hle & Hfe & _).
  destruct (begin_replays [] qb w nc Hw) as (i & r0 & w0 & Hr0 & Hw0 & Hbl & Hbegan).
  destruct (plays_message mem Hmem app after h host Hvhosts w0 nc i rq p' Ds Df qh Dc pth cb arg
    so eo r0 Hbl (eq_sym Hs) (eq_sym Hf) (eq_sym Hc) Hds Hdh ltac:(apply Hp') Hme Hma Hmi Hpath
    Hsel Hquery Hexp w0 Hw0) as (w1 & r & Hr1 & Hw1 & Hrv & Hrcb & Hrarg).
  exists p', i, qe, w0, w1, r. repeat (split; [done|]). intros w2 Happ2 Hpaused.
  destruct (rv_uri _ _ _ _ _ _ _ _ Hrv) as (u & Hu & _ & _ & Hqu).
  assert (htp__should_parse_query_body_ qe r = false) as Hnf.
  { apply (no_form_false rq qe u r Hform Hu); [|apply Hrv].
    intros [q Eq]. rewrite Eq in Hqu. destruct Hqu as (k & u0 & E). by eapply set_query_some. }
  rewrite <- Hrcb, <- Hrarg in Happ2.
  pose proof (complete_replays mem app after h host w0 nc [] qe r i w1 w2 Hw1 Hnf
    ltac:(by rewrite Hrcb) Happ2 Hpaused) as Hr2.
  apply Hreplay. apply replays_app. exists w0. split; [done|].
  rewrite !app_assoc, <- (app_assoc Ds), <- (app_assoc (Ds ++ _)), <- !app_assoc.
  rewrite !app_assoc. apply replays_app. exists w1. split; [|done].
  by rewrite <- !app_assoc.
Qed.

(** C7: from the bytes to the application.  A server connection that is ready
    for a message receives a well-formed request, whole, followed by anything.
    The parser, run with the library's hooks, consumes exactly the request
    and calls the callback selected for the path exactly as the last thing it
    does, with a request object - new or recycled - that holds the method, the
    protocol version, the path split and matched, the parsed query, every
    header field and trailer in order, and the body with its chunk framing
    removed, and nothing of an earlier exchange; what the callback leaves is
    the result, and the parser is ready for the next message. *)
Theorem request_delivered rq rest p w pth cb arg so eo :
  request_ok rq -> plain p -> state p = S_START -> ready w ->
  the_path (rq_path rq) = Some pth ->
  select_callback host (new_request (Some h)) pth = Some (cb, arg, None, so, eo) -> cb <> 0 ->
  (forall q, rq_query rq = Some q -> forall k u,
     fst (htp__uri_set_query_ (kv_mem mem k) u q (parser_flags host)) = 0) ->
  no_form rq ->
  (forall i q w, has (c_flags (w_conn w)) EVHTP_CONN_FLAG_PAUSED = false ->
     exists w', app_cb app i cb arg (q, w) = (tt, (q, w')) /\
     has (c_flags (w_conn w')) EVHTP_CONN_FLAG_PAUSED = false) ->
  exists p' i q w1 w2 r,
    htparser_run psets (render rq ++ rest) (p, w) = Some (length (render rq), (p', w2)) /\
    app_cb app i cb arg (q, w1) = (tt, (q, w2)) /\
    c_request (w_conn w1) = Some i /\ w_reqs w1 !! i = Some r /\ w_ub w1 = w_ub w /\
    received mem host rq p' pth so eo r /\
    plain p' /\ state p' = S_START /\ error p' = htparse_error_none.
Proof.
  intros Hrq Hp Hst Hw Hpath Hsel Hcb Hquery Hform Happ.
  destruct (request_arrives rq rest p w pth cb arg so eo False Hrq Hp Hst Hw Hpath Hsel Hcb Hquery
    Hform ltac:(done)) as (p' & i & q & w0 & w1 & r & Hbg & Hb & Hrv & _ & _ & Hp' & Hst' & Herr &
    _ & _ & _ & _ & Hrun).
  destruct (Happ i q w1 (sv_running _ _ _ (b_serving _ _ _ _ _ _ _ Hb))) as (w2 & E & Hpause).
  exists p', i, q, w1, w2, r. split; [by apply Hrun|]. split; [done|].
  split; [apply Hb|]. split; [apply Hb|]. split; [|done].
  by rewrite (ap_ub _ _ _ (b_apart _ _ _ _ _ _ _ Hb)), (bg_ub _ _ _ Hbg).
Qed.
End EndToEnd.

(** ** Witness

    The chunked POST of MsgParserRoundtrip.v, delivered to a callback that
    notes the request it was called with. *)

Definition noting_app : App (H := no_regex) (option evhtp_request) := {|
  app_hook := fun _ _ _ _ _ => ret EVHTP_RES_OK;
  app_cb := fun i _ _ => rs <- getw w_reqs ;; updw (fun w => w <| w_app := rs !! i |>);
  app_conn := fun _ _ _ _ => ret EVHTP_RES_OK; app_accept := fun _ _ => ret EVHTP_RES_OK
|}.
Definition noting_host : evhtp :=
  (sample_host None [] []) <| callbacks :=
    Some [{| cb_type := evhtp_callback_type_hash; cb_cb := 7; cb_cbarg := 8; cb_hooks := None;
             cb_len := 2; cb_val := val_path (bytes "/a") |}] |>
    <| parser_flags := EVHTP_PARSE_QUERY_FLAG_LENIENT |>.
Definition noting_world : world (option evhtp_request) := {|
  w_conn := sample_conn 0 None; w_reqs := ∅; w_cache := ∅; w_htps := {[0%nat := noting_host]};
  w_allocs := 0; w_ub := false; w_app := None |}.
Definition sample_path : evhtp_path :=
  {| full := bytes "/a"; path := Some (bytes "/"); file := Some (bytes "a"); match_start := None;
     match_end := None; matched_soff := 0; matched_eoff := 0 |}.

Lemma request_delivered_witness :
  exists p' i q w1 w2 r,
    htparser_run (Some (request_psets (fun _ => true) noting_app (fun _ => [CR; LF])))
      (render sample_request ++ bytes "GET /") (p_init htp_type_request, noting_world) =
      Some (length (render sample_request), (p', w2)) /\
    app_cb noting_app i 7 8 (q, w1) = (tt, (q, w2)) /\
    c_request (w_conn w1) = Some i /\ w_reqs w1 !! i = Some r /\ w_ub w1 = false /\
    received (fun _ => true) noting_host sample_request p' sample_path 0 2 r /\
    plain p' /\ state p' = S_START /\ error p' = htparse_error_none.
Proof.
  apply (request_delivered (laws := ref_laws) (fun _ => true) (fun _ => eq_refl) noting_app
    (fun _ => [CR; LF]) 0 noting_host eq_refl sample_request (bytes "GET /")
    (p_init htp_type_request) noting_world sample_path 7 8 0 2); try reflexivity.
  - exact sample_request_ok.
  - repeat split.
  - split; [by split|done|constructor|constructor].
  - done.
  - intros q [= <-] k u. vm_compute. reflexivity.
  - left. by eexists.
  - intros i q w Hw. eexists. split; [reflexivity|exact Hw].
Defined.
