(* ===== verification/ReplyFacts.v ===== *)
(** * What htp__create_reply_ writes

    The reply's header list as a function of the application's
    ([reply_fields]), and the bytes put into the scratch buffer: status line,
    fields and body ([create_reply_spec]). *)

From S2P Require Import Prelude HtpTypes HtString MsgParser MsgParserFacts MsgParserSpec MsgParserFraming MsgParserRoundtrip MsgParserResponse Kvs Query Callbacks Numtoa Uri Request ReqParse ReqFacts Reply.
From stdpp Require Import gmap.
#[local] Open Scope Z_scope.
#[local] Open Scope htp_scope.

(** ** Scatter-gather *)

Lemma to_alloc_sum vec : to_alloc vec = sum_list (map snd vec).
Proof.
  unfold to_alloc. assert (forall n, foldl (fun n (v : iovec) => (n + v.2)%nat) n vec =
    (n + sum_list (map snd vec))%nat) as H.
  { induction vec as [|v vec IH]; intros n; cbn; [lia|]. rewrite IH. unfold sum_list. lia. }
  by rewrite H.
Qed.

Definition iov_bytes (v : iovec) : list Z := take v.2 (default [] v.1).
Definition iov_ok (v : iovec) : Prop := (v.2 <= length (default [] v.1))%nat.

(** With every length within its base, all of it is copied. *)
Lemma iov_copy_all vec :
  Forall iov_ok vec -> iov_copy vec (to_alloc vec) = Some (concat (map iov_bytes vec)).
Proof.
  rewrite to_alloc_sum. induction 1 as [|v vec Hv Hvec IH]; [done|]. unfold iov_ok in Hv.
  change (sum_list (map snd (v :: vec))) with (v.2 + sum_list (map snd vec))%nat.
  cbn [iov_copy map concat]. rewrite Nat.min_l by lia. unfold iov_read at 1.
  rewrite (proj2 (Nat.leb_le _ _)) by lia. cbn [mbind option_bind].
  replace (v.2 + sum_list (map snd vec) - v.2)%nat with (sum_list (map snd vec)) by lia.
  destruct (Nat.eqb_spec (sum_list (map snd vec)) 0) as [E|_]; [|by rewrite IH].
  assert (concat (map iov_bytes vec) = []) as ->; [|by rewrite app_nil_r].
  clear IH Hvec. induction vec as [|u vec IH]; [done|]. cbn in E |- *.
  rewrite IH by lia. unfold iov_bytes. by replace u.2 with 0%nat by lia.
Qed.

(** ** Header lists as fields *)

Definition field_of (x : evhtp_kv) : field := (default [] (key x), default [] (val x)).
Definition full_kv (x : evhtp_kv) : Prop := kv_wf x /\ is_Some (val x).

(** Whether evhtp finds a header of this name. *)
Definition names (n : string) (fs : list field) : bool :=
  existsb (fun f => fold_eq f.1 (bytes n)) fs.

Lemma find_names hs n :
  Forall full_kv hs ->
  bool_decide (is_Some (kv_find_n hs (bytes n))) = names n (map field_of hs).
Proof.
  induction 1 as [|x hs [Hwf [v Hv]] _ IH]; [done|]. cbn [kv_find_n map]. unfold names in *.
  cbn [existsb]. change (match_header_key x (bytes n)) with (matches (bytes n) x).
  rewrite matches_wf by done. cbn [field_of fst].
  destruct (fold_eq (default [] (key x)) (bytes n)); [by rewrite Hv|exact IH].
Qed.

Lemma find_none hs n :
  Forall full_kv hs -> bool_decide (kv_find_n hs (bytes n) = None) = negb (names n (map field_of hs)).
Proof.
  intros Hhs. rewrite <- find_names by done.
  destruct (kv_find_n hs (bytes n)); by cbn.
Qed.

(** ** The fields of a reply *)

Definition decimal (n : Z) : list Z := default [] (fst <$> evhtp_modp_sizetoa n).

Definition keeps (r : evhtp_request) : bool := has (r_flags r) EVHTP_REQ_FLAG_KEEPALIVE.
Definition chunks_on (r : evhtp_request) : bool := has (r_flags r) EVHTP_REQ_FLAG_CHUNKED.

(** Content-Length, from the length [len] of buffer_out. *)
Definition length_fields (multipart : bool) (r : evhtp_request) (len : Z) (fs : list field) : list field :=
  if negb multipart && (negb (len =? 0) && negb (chunks_on r) && negb (names "Content-Length" fs))
  then [(bytes "Content-Length", decimal len)] else [].
Definition proto_fields (r : evhtp_request) (fs : list field) : list field :=
  match r_proto r with
  | EVHTP_PROTO_11 =>
      (if negb (keeps r) then [(bytes "Connection", bytes "close")] else []) ++
      (if negb (names "Content-Length" fs) && negb (chunks_on r)
       then [(bytes "Content-Length", bytes "0")] else [])
  | EVHTP_PROTO_10 =>
      if keeps r then [(bytes "Connection", bytes "keep-alive")] else []
  | _ => []
  end.
Definition type_fields (fs : list field) : list field :=
  if negb (names "Content-Type" fs) then [(bytes "Content-Type", bytes "text/plain")] else [].

(** The reply's fields; [fs] are the application's. *)
Definition reply_fields (multipart : bool) (r : evhtp_request) (len : Z) (fs : list field) : list field :=
  let l := length_fields multipart r len fs in
  fs ++ l ++ proto_fields r (fs ++ l) ++ type_fields fs.

(** The parser, whose version the status line repeats. *)
Definition reply_parser (r : evhtp_request) (p : htparser) : htparser :=
  match r_proto r with
  | EVHTP_PROTO_10 | EVHTP_PROTO_11 => p
  | _ => htparser_set_minor 0 (htparser_set_major 1 p)
  end.

Definition reply_line (p : htparser) (code : Z) : list Z :=
  bytes "HTTP/" ++ [evhtp_modp_uchartoa (major p)] ++ bytes "." ++
  [evhtp_modp_uchartoa (minor p)] ++ bytes " " ++
  default [] (fst <$> evhtp_modp_u32toa (u32 code)) ++ bytes " " ++ status_code_to_str code.

Lemma names_app n fs gs : names n (fs ++ gs) = names n fs || names n gs.
Proof. apply existsb_app. Qed.

Section Facts.
Context `{RegexLib} {A : Type} (mem : nat -> bool) (Hmem : forall k, mem k = true).
Abbreviation W := (world A).
Implicit Types (w : W) (r : evhtp_request) (i : nat) (hs : evhtp_kvs).

(** [w'] is [w] with [r] the request at [i] (and more allocations made). *)
Record now i r w w' : Prop := {
  n_conn : w_conn w' = w_conn w;
  n_reqs : w_reqs w' = <[i := r]> (w_reqs w);
  n_cache : w_cache w' = w_cache w;
  n_htps : w_htps w' = w_htps w;
  n_ub : w_ub w' = w_ub w;
  n_app : w_app w' = w_app w
}.

Lemma now_trans i r1 r2 w w1 w2 : now i r1 w w1 -> now i r2 w1 w2 -> now i r2 w w2.
Proof. intros [] []. split; try congruence. by rewrite n_reqs1, n_reqs0, insert_insert_eq. Qed.

Lemma now_apart i r w w' : now i r w w' -> apart i w w'.
Proof. intros []. split; try done. intros j Hj. by rewrite n_reqs0, lookup_insert_ne. Qed.

Lemma now_refl i r w : w_reqs w !! i = Some r -> now i r w w.
Proof. intros Hr. split; try done. by rewrite insert_id. Qed.

Lemma now_lookup i r w w' : now i r w w' -> w_reqs w' !! i = Some r.
Proof. intros []. rewrite n_reqs0. apply lookup_insert_eq. Qed.

Lemma now_upd i f r p w :
  w_reqs w !! i = Some r -> exists w', upd_req i f (p, w) = (tt, (p, w')) /\ now i (f r) w w'.
Proof.
  intros Hr. eexists. split; [reflexivity|]. split; try done. cbn. by apply alter_known.
Qed.

Definition with_out r hs : evhtp_request := r <| headers_out := Some hs |>.

Lemma with_out_id r hs : headers_out r = Some hs -> with_out r hs = r.
Proof. destruct r. cbn. by intros ->. Qed.

(** A step that adds the fields [add]. *)
Definition adds (m : M (St W) unit) i r (add : list field) : Prop :=
  forall p w hs fs, w_reqs w !! i = Some (with_out r hs) -> Forall full_kv hs ->
    map field_of hs = fs ->
    exists hs' w', m (p, w) = (tt, (p, w')) /\ now i (with_out r hs') w w' /\
      Forall full_kv hs' /\ map field_of hs' = fs ++ add.

Lemma add_out_adds i k v ka va r :
  cstr k = k -> cstr v = v -> adds (add_out mem i k v ka va) i r [(k, v)].
Proof.
  intros Hk Hv p w hs fs Hr Hhs <-. unfold add_out. rewrite run_allocs. cbn [fst snd].
  unfold kv_mem. rewrite !Hmem.
  unfold evhtp_header_new. rewrite kv_new_some. cbn [fmap option_fmap option_map default].
  rewrite Hk, Hv.
  match goal with |- context [evhtp_headers_add_header _ (Some ?x)] =>
    exists (hs ++ [x]) end.
  eexists. split; [reflexivity|]. split; [|split].
  - split; try done. cbn [w_reqs set_field eta_fields eta_world].
    rewrite (alter_known _ i _ (with_out r hs)) by done. done.
  - apply Forall_app. split; [done|]. apply Forall_singleton. split; [|by eexists].
    unfold kv_wf. cbn. by rewrite Hk, Hv.
  - by rewrite map_app.
Qed.

Lemma when_adds b m i r add : adds m i r add -> adds (when b m) i r (if b then add else []).
Proof.
  intros Hm. destruct b; [done|]. intros p w hs fs Hr Hhs Hfs. exists hs, w.
  split; [done|]. split; [by apply now_refl|]. by rewrite app_nil_r.
Qed.

Lemma find_out_names r hs n :
  headers_out r = Some hs -> Forall full_kv hs ->
  find_out r (bytes n) (length (bytes n)) = names n (map field_of hs).
Proof.
  intros Hr Hhs. unfold find_out, evhtp_header_find_n, evhtp_kv_find_n. rewrite Hr.
  rewrite <- find_names, (take_ge (bytes n)) by done. done.
Qed.

Lemma decimal_prints n : 0 <= n < 2 ^ 64 -> prints n 20 (decimal n).
Proof. intros Hn. unfold decimal, evhtp_modp_sizetoa. by destruct (u64toa_prints n Hn) as (s & -> & Hs). Qed.

Lemma digits_cstr s : Forall (fun c => isdigit c = true) s -> cstr s = s.
Proof.
  intros Hs. apply cstr_id. eapply Forall_impl; [exact Hs|]. cbn. unfold isdigit. intros; lia.
Qed.

Lemma add_length_spec i r0 r hs fs len p w :
  w_reqs w !! i = Some (with_out r hs) -> Forall full_kv hs -> map field_of hs = fs ->
  headers_out r0 = Some hs -> r_flags r0 = r_flags r -> 0 <= len < 2 ^ 64 ->
  exists hs' w', add_length mem i r0 len (p, w) = (tt, (p, w')) /\
    now i (with_out r hs') w w' /\ Forall full_kv hs' /\
    map field_of hs' = fs ++ length_fields (htparser_get_multipart (Some p)) r len fs.
Proof.
  intros Hr Hhs Hfs Hr0 Hfl Hlen. unfold add_length. rewrite run_gets. cbn [fst].
  unfold length_fields. destruct (htparser_get_multipart (Some p)); cbn [negb andb].
  { exists hs, w. rewrite app_nil_r. split; [done|]. split; [by apply now_refl|done]. }
  change 14%nat with (length (bytes "Content-Length")).
  rewrite (find_out_names _ hs), Hfs, Hfl by done.
  change (has (r_flags r) EVHTP_REQ_FLAG_CHUNKED) with (chunks_on r).
  refine (when_adds _ _ i r _ (add_out_adds i _ (decimal len) 0 1 r eq_refl _) p w hs fs Hr Hhs Hfs).
  apply digits_cstr, decimal_prints, Hlen.
Qed.

Lemma check_proto_spec i r hs fs p w :
  w_reqs w !! i = Some (with_out r hs) -> Forall full_kv hs -> map field_of hs = fs ->
  exists hs' w', check_proto mem i (p, w) = (0, (reply_parser r p, w')) /\
    now i (with_out r hs') w w' /\ Forall full_kv hs' /\
    map field_of hs' = fs ++ proto_fields r fs.
Proof.
  intros Hr Hhs Hfs. unfold check_proto. rewrite (with_req_eq _ _ _ (with_out r hs)) by done.
  unfold proto_fields, reply_parser. change (r_proto (with_out r hs)) with (r_proto r).
  change (has (r_flags (with_out r hs)) EVHTP_REQ_FLAG_KEEPALIVE) with (keeps r).
  destruct (r_proto r).
  - exists hs, w. rewrite app_nil_r. split; [done|]. split; [by apply now_refl|done].
  - destruct (when_adds (keeps r) _ i r _
      (add_out_adds i (bytes "Connection") (bytes "keep-alive") 0 0 r eq_refl eq_refl) p w hs fs)
      as (hs' & w' & E & Hn & Hf & Hm); try done.
    exists hs', w'. by erewrite bind_eq by exact E.
  - destruct (when_adds (negb (keeps r)) _ i r _
      (add_out_adds i (bytes "Connection") (bytes "close") 0 0 r eq_refl eq_refl) p w hs fs)
      as (hs1 & w1 & E & Hn & Hf & Hm); try done.
    erewrite bind_eq by exact E. rewrite (with_req_eq _ _ _ (with_out r hs1))
      by (by eapply now_lookup). cbn beta.
    change 14%nat with (length (bytes "Content-Length")). rewrite (find_out_names _ hs1), Hm by done.
    change (has (r_flags (with_out r hs1)) EVHTP_REQ_FLAG_CHUNKED) with (chunks_on r).
    rewrite names_app. replace (names "Content-Length" (if _ : bool then _ else _)) with false
      by (by destruct (keeps r)). rewrite orb_false_r.
    destruct (when_adds (negb (names "Content-Length" fs) && negb (chunks_on r)) _ i r _
      (add_out_adds i (bytes "Content-Length") (bytes "0") 0 0 r eq_refl eq_refl) p w1 hs1 _
      (now_lookup _ _ _ _ Hn) Hf Hm) as (hs2 & w2 & E2 & Hn2 & Hf2 & Hm2).
    exists hs2, w2. erewrite bind_eq by exact E2.
    split; [done|]. split; [by eapply now_trans|]. split; [done|]. by rewrite Hm2, <- app_assoc.
  - exists hs, w. rewrite app_nil_r. split; [done|]. split; [by apply now_refl|done].
Qed.

(** ** Writing *)

Definition scr (b : list Z) w : W := w <| w_conn := (w_conn w) <| scratch_buf := Some b |> |>.

Lemma scratch_add_spec d b p w :
  scratch_buf (w_conn w) = Some b -> scratch_add d (p, w) = (0, (p, scr (b ++ d) w)).
Proof.
  intros Hb. unfold scratch_add. rewrite run_upd_conn. unfold ret, scr. cbn [fst snd].
  do 3 f_equal. destruct (w_conn w). cbn in *. by subst.
Qed.

Lemma add_iovec_eq add vec s :
  Forall iov_ok vec ->
  htp__evbuffer_add_iovec_ (A := A) add vec s = add (concat (map iov_bytes vec)) s.
Proof. intros Hvec. unfold htp__evbuffer_add_iovec_. by rewrite iov_copy_all. Qed.
Lemma add_iovec_spec vec b p w :
  scratch_buf (w_conn w) = Some b -> Forall iov_ok vec ->
  htp__evbuffer_add_iovec_ scratch_add vec (p, w) =
    (0, (p, scr (b ++ concat (map iov_bytes vec)) w)).
Proof. intros Hb Hvec. rewrite add_iovec_eq by done. by apply scratch_add_spec. Qed.

Lemma create_headers_eq add x s :
  full_kv x ->
  htp__create_headers_ (A := A) add x s = (add (crlf (field_line (field_of x))) ;; ret 0) s.
Proof.
  intros [(Hk & Hv & _) _]. unfold htp__create_headers_, bind at 1. rewrite add_iovec_eq.
  2:{ unfold iov_ok. repeat (apply Forall_cons; split; [first [cbn; lia|vm_compute; lia]|]). done. }
  unfold crlf, field_line, field_of, iov_bytes. cbn [map concat fst snd default from_option id].
  rewrite (take_ge (default [] (key x))), (take_ge (default [] (val x))) by lia.
  change (take 2 (bytes ": ")) with [":"%c; SP]. change (take 2 [CR; LF]) with [CR; LF].
  unfold bind. match goal with |- context [add ?l s] => set (l1 := l) end.
  match goal with |- _ = (let '(_, _) := add ?l s in _) => replace l with l1 end; [done|].
  unfold l1. by app_norm.
Qed.
Lemma create_headers_spec x b p w :
  scratch_buf (w_conn w) = Some b -> full_kv x ->
  htp__create_headers_ scratch_add x (p, w) =
    (0, (p, scr (b ++ crlf (field_line (field_of x))) w)).
Proof.
  intros Hb Hx. rewrite create_headers_eq by done. erewrite bind_eq by by apply scratch_add_spec.
  done.
Qed.

Lemma for_each_spec hs b p w :
  scratch_buf (w_conn w) = Some b -> Forall full_kv hs ->
  for_each_loop hs (htp__create_headers_ scratch_add) (p, w) =
    (0, (p, scr (b ++ field_lines (map field_of hs)) w)).
Proof.
  intros Hb Hhs. revert b w Hb. induction Hhs as [|x hs Hx Hhs IH]; intros b w Hb.
  { cbn. rewrite app_nil_r. unfold ret, scr. destruct w as [c]. destruct c. cbn in *. by subst. }
  cbn [for_each_loop]. erewrite bind_eq by by apply create_headers_spec.
  change (negb (0 =? 0)) with false. cbn iota. erewrite IH by done.
  unfold field_lines. cbn [map concat]. by rewrite <- app_assoc.
Qed.

(** What the scratch buffer holds in the end. *)
Definition reply_bytes p code (fs : list field) (out : list Z) : list Z :=
  crlf (reply_line p code) ++ field_lines fs ++ crlf [] ++ out.

Lemma write_reply_spec i r hs out code p w :
  w_reqs w !! i = Some r -> headers_out r = Some hs -> Forall full_kv hs ->
  buffer_out r = Some out -> scratch_buf (w_conn w) = Some [] ->
  exists w', write_reply i code (p, w) = (0, (p, w')) /\
    w_conn w' = (w_conn w) <| scratch_buf := Some (reply_bytes p code (map field_of hs) out) |> /\
    w_reqs w' = <[i := r <| buffer_out := Some [] |>]> (w_reqs w) /\ apart i w w'.
Proof.
  intros Hr Hho Hhs Hbo Hs. unfold write_reply. rewrite run_gets. cbn [fst].
  erewrite bind_eq.
  2:{ apply add_iovec_spec; [exact Hs|]. unfold iov_ok.
      repeat (apply Forall_cons; split; [first [cbn; lia|vm_compute; lia]|]). done. }
  unfold iov_bytes at 1. cbn [map concat fst snd default from_option id app].
  rewrite !(take_ge (default [] _)), !(take_ge (status_code_to_str code)) by done.
  rewrite (with_req_eq _ _ _ r) by done. rewrite Hho. unfold evhtp_kvs_for_each.
  erewrite bind_eq by (apply for_each_spec; [done|done]).
  erewrite bind_eq by by apply scratch_add_spec.
  rewrite (with_req_eq _ _ _ r) by done. rewrite Hbo. cbn [default from_option id].
  destruct out as [|c out].
  - eexists. split; [reflexivity|]. split_and!; [| |apart].
    + unfold scr. cbn. unfold reply_bytes, reply_line, crlf. rewrite app_nil_r. by app_norm.
    + cbn. rewrite insert_id; [done|]. rewrite Hr. f_equal. destruct r. cbn in *. by subst.
  - erewrite bind_eq by by apply scratch_add_spec.
    erewrite run_upd_req by exact Hr. eexists. split; [reflexivity|]. split_and!; [| |apart].
    + unfold scr. cbn. unfold reply_bytes, reply_line, crlf. by app_norm.
    + done.
Qed.

(** ** The whole reply *)

(** A request a reply can be made for: [fs] the application's header fields,
    [out] the body in [buffer_out]. *)
Record answerable i r fs (out : list Z) w : Prop := {
  an_req : w_reqs w !! i = Some r;
  an_conn : r_conn r = true;
  an_out : exists hs, headers_out r = Some hs /\ Forall full_kv hs /\ map field_of hs = fs;
  an_body : buffer_out r = Some out;
  an_len : Z.of_nat (length out) < 2 ^ 64;
  an_scratch : is_Some (scratch_buf (w_conn w))
}.

(** The request after its reply was made. *)
Record answered_by code r r' : Prop := {
  ab_status : r_status r' = code;
  ab_flags : r_flags r' = r_flags r;
  ab_body : buffer_out r' = Some [];
  ab_proto : r_proto r' = r_proto r;
  ab_method : r_method r' = r_method r;
  ab_conn : r_conn r' = true;
  ab_rest : exists hs, r' = r <| r_status := code |> <| headers_out := Some hs |>
                              <| buffer_out := Some [] |>
}.

Lemma create_reply_spec i r fs out code p w :
  answerable i r fs out w ->
  let len := Z.of_nat (length out) in
  let fs' := reply_fields (htparser_get_multipart (Some p)) r len fs in
  exists r' w', htp__create_reply_ mem i code (p, w) = (0, (reply_parser r p, w')) /\
    w_conn w' = (w_conn w) <| scratch_buf :=
      Some (reply_bytes (reply_parser r p) code fs' out) |> /\
    w_reqs w' = <[i := r']> (w_reqs w) /\ answered_by code r r' /\ apart i w w'.
Proof.
  intros [Hr Hc (hs & Hho & Hhs & Hfs) Hbo Hlen [b Hb]] len fs'.
  unfold htp__create_reply_. rewrite (with_req_eq _ _ _ r) by done.
  rewrite Hho, Hbo, Hc. rewrite !bool_decide_eq_true_2 by by eexists.
  cbn [negb andb]. erewrite run_upd_req by exact Hr. cbv zeta. rewrite run_getw, run_upd_conn.
  cbn [fst snd]. replace (scratch_buf (w_conn _)) with (Some b) by (by rewrite <- Hb).
  cbn iota.
  set (r0 := r <| r_status := code |>).
  match goal with |- context [(p, ?w1)] => set (w0 := w1) end.
  assert (w_reqs w0 !! i = Some (with_out r0 hs)) as Hr0.
  { unfold w0. cbn. rewrite lookup_insert_eq. f_equal. by rewrite with_out_id. }
  change (Z.of_nat (length (default [] (Some out)))) with len.
  destruct (add_length_spec i r r0 hs fs len p w0) as (h1 & w1 & E1 & N1 & F1 & M1);
    try done; [lia|]. erewrite bind_eq by exact E1.
  destruct (check_proto_spec i r0 h1 _ p w1 (now_lookup _ _ _ _ N1) F1 M1)
    as (h2 & w2 & E2 & N2 & F2 & M2). erewrite bind_eq by exact E2.
  unfold evhtp_header_find_n, evhtp_kv_find_n.
  change (take 12 (bytes "Content-Type")) with (bytes "Content-Type").
  rewrite find_none, Hfs by done.
  destruct (when_adds (negb (names "Content-Type" fs)) _ i r0 _
    (add_out_adds i (bytes "Content-Type") (bytes "text/plain") 0 0 r0 eq_refl eq_refl)
    (reply_parser r0 p) w2 h2 _ (now_lookup _ _ _ _ N2) F2 M2) as (h3 & w3 & E3 & N3 & F3 & M3).
  erewrite bind_eq by exact E3.
  pose proof (now_trans _ _ _ _ _ _ N1 (now_trans _ _ _ _ _ _ N2 N3)) as N.
  destruct (write_reply_spec i (with_out r0 h3) h3 out code (reply_parser r p) w3)
    as (w4 & E4 & C4 & R4 & A4); try done.
  { by eapply now_lookup. }
  { by rewrite (n_conn _ _ _ _ N). }
  eexists _, w4. split; [exact E4|]. split_and!; [|rewrite R4, (n_reqs _ _ _ _ N)| |].
  - rewrite C4, (n_conn _ _ _ _ N), M3. unfold fs', reply_fields.
    rewrite <- !app_assoc. unfold w0. cbn. by destruct (w_conn w).
  - unfold w0. cbn. by rewrite !insert_insert_eq.
  - split; try done. by exists h3.
  - etransitivity; [|exact A4]. etransitivity; [|exact (now_apart _ _ _ _ N)]. unfold w0. apart.
Qed.
End Facts.
