(* ===== verification/ReplyEnd.v ===== *)
(** * What a client makes of a reply

    The bytes of a reply (ReplyFacts.v) are those of a well-formed response
    (MsgParserResponse.v) with the framing its body needs, so a parser of
    responses reads back what the application sent ([reply_delivered],
    [chunked_reply_delivered]); and the case where it does not
    ([multipart_reply_desync]). *)

From S2P Require Import Prelude HtpTypes HtString MsgParser MsgParserFacts MsgParserSpec MsgParserFraming MsgParserRoundtrip MsgParserResponse Kvs Query Callbacks Numtoa Uri Request ReqParse ReqFacts Reply ReplyFacts.
From stdpp Require Import gmap.
#[local] Open Scope Z_scope.
#[local] Open Scope htp_scope.

(** ** The status line *)

Lemma u32toa_status c :
  100 <= c <= 999 -> default [] (fst <$> evhtp_modp_u32toa (u32 c)) = status_digits c.
Proof.
  intros Hc. unfold u32. rewrite Z.mod_small by lia. unfold evhtp_modp_u32toa.
  assert (digits_loop 10 c = Some (reverse (status_digits c))) as ->.
  { cbn [digits_loop]. rewrite !Z.div_div by lia. change (10 * 10 * 10) with 1000.
    change (10 * 10) with 100.
    destruct (Z.eqb_spec (c / 10) 0) as [E|_].
    { pose proof (Z.div_le_lower_bound c 10 10). lia. }
    destruct (Z.eqb_spec (c / 100) 0) as [E|_].
    { pose proof (Z.div_le_lower_bound c 100 1). lia. }
    rewrite (Z.div_small c 1000) by lia.
    rewrite (Z.mod_small (c / 100)); [|split; [apply Z.div_pos; lia|apply Z.div_lt_upper_bound; lia]].
    cbn. by rewrite !(Z.add_comm 48). }
  cbn [fmap option_fmap option_map default fst]. rewrite strreverse_reverse.
  by rewrite reverse_involutive.
Qed.

Lemma status_strings_ok :
  Forall (fun cs => Forall (fun c => c <> LF) (bytes cs.2) /\ (length (bytes cs.2) <= 64)%nat)
    status_strings.
Proof. apply (bool_decide_unpack _). vm_compute. exact I. Qed.

Lemma status_str_ok code :
  Forall (fun c => c <> LF) (status_code_to_str code) /\
  (length (status_code_to_str code) <= 64)%nat.
Proof.
  unfold status_code_to_str. induction status_strings_ok as [|[c s] l Hs _ IH]; cbn [status_switch].
  - split; [apply (bool_decide_unpack _); vm_compute; exact I|vm_compute; lia].
  - by destruct (code =? c).
Qed.

Lemma reply_line_status p code fs c :
  1 <= major p <= 9 -> 0 <= minor p <= 9 -> 100 <= code <= 999 ->
  reply_line p code = status_line {| rs_major := major p; rs_minor := minor p; rs_status := code;
    rs_reason := status_code_to_str code; rs_fields := fs; rs_content := c |}.
Proof.
  intros Hma Hmi Hc. unfold reply_line, status_line. cbn [rs_major rs_minor rs_status rs_reason].
  rewrite u32toa_status by done. unfold evhtp_modp_uchartoa, u8. rewrite !Z.mod_small by lia.
  change (bytes " ") with [SP]. app_norm. do 2 f_equal; [lia|]. cbn [app]. do 2 f_equal. lia.
Qed.

Lemma status_line_fits rs :
  1 <= rs_major rs <= 9 -> 0 <= rs_minor rs <= 9 -> 100 <= rs_status rs <= 999 ->
  rs_reason rs = status_code_to_str (rs_status rs) -> fits (status_line rs).
Proof.
  intros Hma Hmi Hs Hr. destruct (status_str_ok (rs_status rs)) as [H1 H2].
  destruct (status_digits_ok _ Hs) as [Hd _]. unfold status_line. split.
  - repeat rewrite ?Forall_app, ?Forall_cons. rewrite Hr. unfold LF, SP. split_and!; try done; try lia;
      try (apply (bool_decide_unpack _); vm_compute; exact I).
    eapply Forall_impl; [exact Hd|]. cbn. unfold isdigit. intros x Hx. lia.
  - change (Z.of_nat (13 + length (rs_reason rs)) <= 8192). rewrite Hr. lia.
Qed.

(** ** The header fields *)

Lemma fold_eq_equalsi s t : lower s = lower t -> fold_eq s t = true.
Proof.
  assert (forall c, TOLOWER (tolower c) = TOLOWER c) as Hl.
  { intros c. unfold tolower. destruct (_ && _) eqn:E; [|done].
    assert (In c (map Z.of_nat (seq 65 26))) as Hin.
    { apply in_map_iff. exists (Z.to_nat c). rewrite in_seq. lia. }
    cbn in Hin. repeat (destruct Hin as [<-|Hin]; [done|]). done. }
  revert t. induction s as [|c s IH]; intros [|d t]; cbn; try done.
  intros [= Hc Ht]. rewrite (IH _ Ht), andb_true_r. apply Z.eqb_eq.
  by rewrite <- Hl, Hc, Hl.
Qed.

(** The fields an application may set without interfering with the framing. *)
Definition unframed (fs : list field) : Prop :=
  Forall (fun f => fold_eq f.1 (bytes "Content-Length") = false /\
                   fold_eq f.1 (bytes "Transfer-Encoding") = false /\
                   fold_eq f.1 (bytes "Connection") = false) fs.
Definition app_fields (fs : list field) : Prop :=
  Forall field_ok fs /\ (length fs <= 96)%nat.

Lemma unframed_names fs :
  unframed fs -> names "Content-Length" fs = false /\ names "Transfer-Encoding" fs = false /\
                 names "Connection" fs = false.
Proof.
  induction 1 as [|f fs (H1 & H2 & H3) _ (IH1 & IH2 & IH3)]; [done|].
  unfold names in *. cbn [existsb]. by rewrite H1, H2, H3, IH1, IH2, IH3.
Qed.

Section Framed.
Context `{lib : HtStringLib} {laws : HtStringLaws lib}.

Lemma named_app n fs gs : named n (fs ++ gs) = named n fs ++ named n gs.
Proof. unfold named. by rewrite filter_app, map_app. Qed.

Lemma named_names n fs : names n fs = false -> named n fs = [].
Proof.
  unfold names, named. induction fs as [|f fs IH]; [done|]. cbn [existsb].
  intros [Hf Hfs]%orb_false_iff. rewrite filter_cons. case_decide as Hd; [|by apply IH].
  rewrite equalsi_spec in Hd. apply Is_true_true, bool_decide_eq_true in Hd.
  by rewrite (fold_eq_equalsi _ _ Hd) in Hf.
Qed.

Lemma named_cons n k v fs :
  named n ((k, v) :: fs) =
  (if bool_decide (lower k = lower (bytes n)) then [v] else []) ++ named n fs.
Proof.
  unfold named. rewrite filter_cons. cbn [fst].
  case_decide as Hd; rewrite equalsi_spec in Hd; by case_bool_decide.
Qed.

Definition token (s : list Z) : Prop :=
  s <> [] /\ Forall (fun c => c <> ","%c /\ c <> ";"%c /\ c <> "="%c /\ c <> SP /\
                              c <> HTAB /\ c <> DQUOTE) s.

Lemma digits_token s : s <> [] -> Forall (fun c => isdigit c = true) s -> token s.
Proof.
  intros Hne Hs. split; [done|]. eapply Forall_impl; [exact Hs|]. cbn.
  unfold isdigit, SP, HTAB, DQUOTE. intros c Hc. lia.
Qed.

Lemma agreed_token v n :
  token v -> parse_u64 v = Some n -> agreed_length [v] = Some (Some n).
Proof.
  intros [Hne Hv] Hn. unfold agreed_length, says_length. cbn [forallb].
  rewrite (elements_token v Hne Hv), Hn. cbn [forallb].
  by rewrite (bool_decide_eq_false_2 ([v] = [])), bool_decide_eq_true_2.
Qed.

(** Status codes that allow a body. *)
Definition has_body (code : Z) : bool :=
  negb ((code <? 200) || (code =? 204) || (code =? 304)).

Lemma body_spec_length p fs v n :
  type p = htp_type_response -> named "Transfer-Encoding" fs = [] ->
  named "Content-Length" fs = [v] -> token v -> parse_u64 v = Some n ->
  body_spec p fs = Some (if has_body (status p) && negb (n =? 0) then (B_LENGTH, n) else (B_NONE, 0)).
Proof.
  intros Ht Hte Hcl Hv Hn. unfold body_spec. rewrite Ht, Hcl, (agreed_token v n) by done.
  rewrite bool_decide_eq_true_2 by done. unfold has_body. rewrite Hte. cbn [andb].
  destruct (_ || _); cbn; [done|]. by destruct (n =? 0).
Qed.

Lemma body_spec_keep_alive p fs :
  type p = htp_type_response -> named "Transfer-Encoding" fs = [] ->
  named "Content-Length" fs = [] -> named "Connection" fs = [bytes "keep-alive"] ->
  body_spec p fs = Some (B_NONE, 0).
Proof.
  intros Ht Hte Hcl Hco. unfold body_spec, MsgParserFraming.elements. rewrite Ht, Hcl, Hte, Hco.
  rewrite bool_decide_eq_true_2 by done. cbn [map concat agreed_length].
  rewrite (elements_token (bytes "keep-alive")); [|done|apply (bool_decide_unpack _); vm_compute; exact I].
  cbn [existsb app]. rewrite !equalsi_spec.
  rewrite bool_decide_eq_false_2 by done. rewrite bool_decide_eq_true_2 by done.
  cbn. rewrite andb_false_r. by destruct (_ || _).
Qed.

Lemma body_spec_chunked p fs :
  type p = htp_type_response -> has_body (status p) = true ->
  named "Transfer-Encoding" fs = [bytes "chunked"] -> named "Content-Length" fs = [] ->
  body_spec p fs = Some (B_CHUNKED, 0).
Proof.
  intros Ht Hs Hte Hcl. unfold body_spec, MsgParserFraming.elements. unfold has_body in Hs.
  apply negb_true_iff in Hs. rewrite Ht, Hcl, Hte, Hs.
  rewrite bool_decide_eq_true_2 by done. cbn [map concat agreed_length andb].
  rewrite (elements_token (bytes "chunked")); [|done|apply (bool_decide_unpack _); vm_compute; exact I].
  cbn [app existsb]. unfold chunked_misplaced, is_chunked. cbn [removelast existsb].
  by rewrite equalsi_spec, bool_decide_eq_true_2.
Qed.
End Framed.

(** ** The response a reply is *)

Definition reply_content (out : list Z) : content :=
  match out with [] => no_content | _ => sized out end.

Definition as_response (multipart : bool) (r : evhtp_request) (fs : list field) (len : Z)
    (c : content) (code : Z) (p : htparser) : response := {|
  rs_major := major (reply_parser r p); rs_minor := minor (reply_parser r p);
  rs_status := code; rs_reason := status_code_to_str code;
  rs_fields := reply_fields multipart r len fs; rs_content := c |}.

(** What holds of the request, the parser and the code whatever the body. *)
Record sendable (r : evhtp_request) (fs : list field) (code : Z) (p : htparser) : Prop := {
  sn_fields : app_fields fs;
  sn_code : 100 <= code <= 999;
  sn_major : 1 <= major (reply_parser r p) <= 9;
  sn_minor : 0 <= minor (reply_parser r p) <= 9
}.

Lemma own_field k v :
  field_ok (k, []) -> Forall (fun c => isblank c = false /\ c <> LF) v ->
  (length v <= 100)%nat -> (length k <= 100)%nat -> field_ok (k, v).
Proof.
  intros (Hne & Hk & H0 & H1 & _ & Hf & _) Hv Hlen Hlk. unfold field_ok. cbn [fst snd] in *.
  split_and!; try done.
  - assert (Forall (fun x => isblank x = false) v) as Hb.
    { eapply Forall_impl; [exact Hv|]. by intros c []. }
    unfold trim, rtrim. rewrite (ltrim_none v) by done.
    by rewrite (ltrim_none (reverse v)), reverse_involutive by (by apply Forall_reverse).
  - unfold field_line in *. cbn [fst snd] in *. apply Forall_app in Hf as [Hf1 Hf2]. split.
    + apply Forall_app. split; [done|]. repeat (apply Forall_cons; split; [done|]).
      eapply Forall_impl; [exact Hv|]. by intros c [].
    + rewrite length_app. cbn [length]. lia.
Qed.

Lemma own_names :
  Forall (fun k => field_ok (bytes k, []) /\ (length (bytes k) <= 100)%nat)
    ["Content-Length"; "Connection"; "Content-Type"; "Transfer-Encoding"]%string.
Proof.
  unfold field_ok, free_of, fits. apply (bool_decide_unpack _). vm_compute. exact I.
Qed.

(** The values the library writes. *)
Definition plain_value (v : list Z) : Prop :=
  Forall (fun c => isblank c = false /\ c <> LF) v /\ (length v <= 100)%nat.

Lemma own_field_ok k v :
  In k ["Content-Length"; "Connection"; "Content-Type"; "Transfer-Encoding"]%string ->
  plain_value v -> field_ok (bytes k, v).
Proof.
  intros Hk [Hv Hl]. pose proof (proj1 (Forall_forall _ _) own_names k
    (proj2 (list_elem_of_In _ _) Hk)) as [H1 H2].
  by apply own_field.
Qed.

Lemma plain_value_dec v :
  bool_decide (Forall (fun c => isblank c = false /\ c <> LF) v) = true ->
  bool_decide (length v <= 100)%nat = true -> plain_value v.
Proof. intros H1%bool_decide_eq_true H2%bool_decide_eq_true. by split. Qed.

Lemma decimal_value n : 0 <= n < 2 ^ 64 -> plain_value (decimal n).
Proof.
  intros Hn. destruct (decimal_prints n Hn) as [Hl Hd _ _ _]. split; [|lia].
  eapply Forall_impl; [exact Hd|]. cbn. unfold isdigit, isblank, LF, SP, HTAB. intros c Hc. lia.
Qed.

Ltac own_field := apply own_field_ok; [cbn; tauto|by apply plain_value_dec].

Lemma reply_fields_ok multipart r fs len :
  app_fields fs -> 0 <= len < 2 ^ 64 -> fields_ok (reply_fields multipart r len fs).
Proof.
  intros (Hfs & Hn) Hlen. unfold reply_fields, length_fields, proto_fields, type_fields. split.
  - rewrite !Forall_app. split_and!; [done|..]; repeat case_match;
      repeat (apply Forall_app; split); repeat (apply Forall_cons; split); try done; try own_field.
    apply own_field_ok; [cbn; tauto|by apply decimal_value].
  - rewrite !length_app. repeat case_match; rewrite ?length_app; cbn; lia.
Qed.

Section Sending.
Context `{lib : HtStringLib} {laws : HtStringLaws lib}.

Lemma named_unframed fs :
  unframed fs -> named "Content-Length" fs = [] /\ named "Transfer-Encoding" fs = [] /\
                 named "Connection" fs = [].
Proof. intros H. destruct (unframed_names fs H) as (?&?&?). split_and!; by apply named_names. Qed.

(** Looks a name up in a list of known fields. *)
Ltac named_simpl fs :=
  unfold type_fields; destruct (names "Content-Type" fs); cbn [negb andb];
  rewrite ?named_app, ?named_cons;
  repeat match goal with H : named _ _ = [] |- _ => rewrite H; clear H end; done.

(** The framing fields of a reply that is not chunked. *)
Lemma reply_framing r fs len p :
  type p = htp_type_response -> unframed fs -> 0 <= len < 2 ^ 64 -> chunks_on r = false ->
  len <> 0 \/ r_proto r = EVHTP_PROTO_11 \/ r_proto r = EVHTP_PROTO_10 /\ keeps r = true ->
  body_spec p (reply_fields false r len fs) =
    Some (if has_body (status p) && negb (len =? 0) then (B_LENGTH, len) else (B_NONE, 0)).
Proof.
  intros Ht Hun Hlen Hch Hwhen.
  destruct (unframed_names fs Hun) as (N1 & _), (named_unframed fs Hun) as (M1 & M2 & M3).
  unfold reply_fields, length_fields. rewrite Hch, N1. cbn [negb andb].
  rewrite !app_assoc. destruct (Z.eqb_spec len 0) as [->|Hne]; cbn [negb andb].
  - rewrite app_nil_r, andb_false_r. destruct Hwhen as [?|[Hpr|[Hpr Hk]]]; [done|..].
    + rewrite (body_spec_length p _ (bytes "0") 0); try done; [by rewrite andb_false_r|..];
        try (unfold proto_fields; rewrite Hpr, Hch, N1; destruct (keeps r); named_simpl fs).
      split; [done|apply (bool_decide_unpack _); vm_compute; exact I].
    + apply body_spec_keep_alive; [done|..]; unfold proto_fields; rewrite Hpr, Hk; named_simpl fs.
  - destruct (decimal_prints len Hlen) as [Hl Hd _ _ Hp].
    rewrite (body_spec_length p _ (decimal len) len); try done;
      [by rewrite (proj2 (Z.eqb_neq len 0) Hne)|..|apply digits_token; [|done]].
    3:{ intros E. rewrite E in Hl. cbn in Hl. lia. }
    all: unfold proto_fields; rewrite names_app, N1, Hch;
      change (names "Content-Length" [(bytes "Content-Length", decimal len)]) with true;
      destruct (r_proto r), (keeps r); named_simpl fs.
Qed.

Context `{rx : RegexLib} {A : Type} (mem : nat -> bool) (Hmem : forall k, mem k = true).
Abbreviation W := (world A).
Abbreviation hooks := (Some (logged (P := htparser) null_hooks)).
Implicit Types (w : W) (r : evhtp_request).

Definition finished r : evhtp_request :=
  r <| r_flags := flag_on (r_flags r) EVHTP_REQ_FLAG_FINISHED |>.

Lemma finished_fields multipart r len fs :
  reply_fields multipart (finished r) len fs = reply_fields multipart r len fs.
Proof.
  unfold reply_fields, length_fields, proto_fields, chunks_on, keeps, finished. cbn.
  by rewrite !has_on_ne.
Qed.

(** Making a reply and handing it over. *)
Lemma reply_flushed i r fs out code p w :
  answerable i r fs out w ->
  let bs := reply_bytes (reply_parser r p) code
              (reply_fields (htparser_get_multipart (Some p)) r (Z.of_nat (length out)) fs) out in
  exists r' w', (htp__create_reply_ mem i code ;; flush_scratch) (p, w) =
      (0, (reply_parser r p, w')) /\
    w_conn w' = (w_conn w) <| bev_output := bev_output (w_conn w) ++ bs |>
                           <| scratch_buf := Some [] |> /\
    w_reqs w' = <[i := r']> (w_reqs w) /\ answered_by code r r' /\ apart i w w'.
Proof.
  intros Han bs. destruct (create_reply_spec mem Hmem i r fs out code p w Han)
    as (r' & w1 & E & C & R & Hr' & Ha). fold bs in C.
  erewrite bind_eq by exact E. unfold flush_scratch. rewrite run_upd_conn. cbn [fst snd].
  eexists r', _. split; [reflexivity|]. cbn. rewrite C. split; [by destruct (w_conn w)|].
  split_and!; [done..|]. etransitivity; [exact Ha|apart].
Qed.

Lemma reply_bytes_render multipart r fs len out c code p :
  sendable r fs code p ->
  content_bytes c = out ->
  reply_bytes (reply_parser r p) code (reply_fields multipart r len fs) out =
  render_response (as_response multipart r fs len c code p).
Proof.
  intros [_ Hc Hma Hmi] <-. unfold reply_bytes, render_response, message_bytes, head_bytes.
  erewrite reply_line_status by done. by rewrite <- !app_assoc.
Qed.

Lemma as_response_ok multipart r fs len c code p :
  sendable r fs code p -> 0 <= len < 2 ^ 64 ->
  content_fits (body_spec (answered (as_response multipart r fs len c code p)
    (p_init htp_type_response)) (reply_fields multipart r len fs)) c ->
  response_ok (as_response multipart r fs len c code p).
Proof.
  intros [Hf Hc Hma Hmi] Hlen Hcont. split; try done.
  - by apply status_line_fits.
  - by apply reply_fields_ok.
Qed.

(** evhtp_send_reply writes a well-formed response, and leaves everything but
    the request and the two buffers as it was. *)
Lemma reply_sent i r fs out code p w :
  answerable i r fs out w -> sendable r fs code p -> unframed fs -> chunks_on r = false ->
  htparser_get_multipart (Some p) = false ->
  out = [] \/ has_body code = true ->
  out <> [] \/ r_proto r = EVHTP_PROTO_11 \/ r_proto r = EVHTP_PROTO_10 /\ keeps r = true ->
  let rs := as_response false r fs (Z.of_nat (length out)) (reply_content out) code p in
  response_ok rs /\
  exists r' w', evhtp_send_reply mem i code (p, w) = (0, (reply_parser r p, w')) /\
    w_conn w' = (w_conn w) <| bev_output := bev_output (w_conn w) ++ render_response rs |>
                           <| scratch_buf := Some [] |> /\
    w_reqs w' !! i = Some r' /\ answered_by code (finished r) r' /\ apart i w w'.
Proof.
  intros Han Hsn Hun Hch Hmp Hbody Hwhen rs. pose proof Han as [Hr Hc _ _ Hlen _].
  set (len := Z.of_nat (length out)) in *. split.
  { apply as_response_ok; [done|lia|]. rewrite reply_framing; try done; [|lia|].
    2:{ unfold len. destruct Hwhen as [Ho|?]; [left|by right]. by destruct out. }
    cbn [status answered as_response rs_status]. unfold len. destruct out as [|c out]; cbn -[Z.of_nat].
    - by rewrite andb_false_r.
    - destruct Hbody as [?|Hb]; [done|].
      replace (has_body _) with true by (symmetry; exact Hb). cbn -[Z.of_nat]. split; lia. }
  unfold evhtp_send_reply, with_conn. rewrite (with_req_eq _ _ _ r), Hc by done.
  erewrite run_upd_req by exact Hr.
  match goal with |- context [(?m ;; flush_scratch) (_, ?w1)] => set (w0 := w1) end.
  assert (answerable i (finished r) fs out w0) as Han0.
  { destruct Han as [_ _ Ho Hb _ Hs]. split; try done. apply lookup_insert_eq. }
  destruct (reply_flushed i (finished r) fs out code p w0 Han0) as (r' & w' & E & C & R & Hr' & Ha).
  rewrite finished_fields, Hmp in C. fold len in C.
  change (reply_parser (finished r) p) with (reply_parser r p) in *.
  rewrite (reply_bytes_render false r fs len out (reply_content out) code p Hsn) in C
    by (by destruct out). fold rs in C.
  exists r', w'. split; [exact E|]. split; [by rewrite C|]. split; [rewrite R; apply lookup_insert_eq|].
  split; [done|]. etransitivity; [|exact Ha]. unfold w0. apart.
Qed.


(** ** Chunks *)

Lemma hexval_digit d : 0 <= d < 16 -> hexval (hex_digit d) = d /\ is_byte (hex_digit d).
Proof.
  intros Hd. assert (In d (map Z.of_nat (seq 0 16))) as Hin.
  { apply in_map_iff. exists (Z.to_nat d). rewrite in_seq. lia. }
  cbn in Hin. repeat (destruct Hin as [<-|Hin]; [by split|]). done.
Qed.

Lemma hex_digits_spec fuel v out :
  0 <= v < 16 ^ Z.of_nat fuel -> (0 < fuel)%nat ->
  exists ds, hex_digits fuel v out = ds ++ out /\ (1 <= length ds <= fuel)%nat /\
    Forall is_byte ds /\ Forall (fun c => is_hex c = true) ds /\ hex_value 0 ds = v.
Proof.
  revert v out. induction fuel as [|fuel IH]; intros v out Hv Hf; [lia|]. cbn [hex_digits].
  rewrite Nat2Z.inj_succ, Z.pow_succ_r in Hv by lia.
  pose proof (Z.div_mod v 16 ltac:(lia)) as Hdm. pose proof (Z.mod_pos_bound v 16 ltac:(lia)) as Hm.
  destruct (hexval_digit _ Hm) as [Hd Hb]. set (h := hex_digit (v mod 16)) in *.
  assert (is_hex h = true) as Hh by (unfold is_hex; lia).
  destruct (Z.eqb_spec (v / 16) 0) as [E|Hne].
  - exists [h]. split_and!; try done; [cbn; lia..|by constructor|by constructor|].
    unfold hex_value. cbn [foldl]. lia.
  - destruct fuel as [|fuel].
    { exfalso. apply Hne, Z.div_small. cbn in Hv. lia. }
    destruct (IH (v / 16) (h :: out)) as (ds & -> & Hl & Hbs & Hhs & Hval); [|lia|].
    { split; [apply Z.div_pos; lia|apply Z.div_lt_upper_bound; lia]. }
    exists (ds ++ [h]). rewrite <- app_assoc, length_app, !Forall_app. cbn [length app].
    split_and!; try done; [lia..|by constructor|by constructor|].
    unfold hex_value in *. rewrite foldl_app, Hval. cbn [foldl]. lia.
Qed.

(** What is printed before a chunk of [d]. *)
Definition chunk_line (d : list Z) : list Z := hex_digits 8 (u32 (Z.of_nat (length d))) [].
Definition short (d : list Z) : Prop := Z.of_nat (length d) < 2 ^ 32.

Lemma chunk_line_ok d : short d -> d <> [] -> chunk_ok (chunk_line d, d).
Proof.
  intros Hd Hne. unfold chunk_line, short in *. unfold u32. rewrite Z.mod_small by lia.
  destruct (hex_digits_spec 8 (Z.of_nat (length d)) []) as (ds & -> & Hl & Hb & Hh & Hv);
    [change (16 ^ Z.of_nat 8) with (2 ^ 32); lia|lia|].
  rewrite app_nil_r. split_and!; try done; cbn [fst snd].
  - split; [|lia]. eapply Forall_impl; [exact Hh|]. cbn. unfold is_hex. by intros c Hc ->.
  - unfold parse_chunk_size. rewrite (proj2 (chunk_digits_spec ds 0 0 (hex_value 0 ds) (length ds) [] Hb
      ltac:(lia) ltac:(cbn; lia))).
    2:{ exists ds. rewrite app_nil_r. split_and!; done || lia. }
    destruct (Nat.eqb_spec (length ds) 0); [lia|]. cbn. by rewrite Hv.
Qed.

Definition chunk_of (d : list Z) : list Z * list Z := (chunk_line d, d).
Definition nonempty (d : list Z) : Prop := d <> [].
#[local] Instance nonempty_dec d : Decision (nonempty d) := _.

Lemma chunk_bytes_eq d : chunk_bytes (chunk_of d) = chunk_header (Z.of_nat (length d)) ++ d ++ [CR; LF].
Proof. done. Qed.

Definition first_chunk (out : list Z) : list Z :=
  match out with [] => [] | _ => chunk_bytes (chunk_of out) end.

Lemma first_chunk_length out : short out -> Z.of_nat (length (first_chunk out)) < 2 ^ 64.
Proof.
  intros Hs. unfold short in Hs. destruct out as [|c out]; [cbn; lia|].
  destruct (chunk_line_ok (c :: out) Hs ltac:(done)) as [[_ Hl] _]. cbn [fst] in Hl.
  unfold first_chunk, chunk_bytes, crlf, chunk_of. cbn [fst snd]. rewrite !length_app. cbn [length] in *. lia.
Qed.

(** The request when the head of a chunked reply is made. *)
Record chunking r r' : Prop := {
  ck_on : chunks_on r' = true;
  ck_keeps : keeps r' = keeps r;
  ck_proto : r_proto r' = r_proto r
}.

Lemma chunk_start_spec i r fs out code p w :
  answerable i r fs out w -> unframed fs -> short out ->
  evhtp_response_needs_body code (r_method r) = true ->
  r_proto r = EVHTP_PROTO_11 \/ r_proto r = EVHTP_PROTO_10 ->
  exists r1 w1, evhtp_send_reply_chunk_start mem i code (p, w) = evhtp_send_reply_start mem i code (p, w1) /\
    answerable i r1 (fs ++ [(bytes "Transfer-Encoding", bytes "chunked")]) (first_chunk out) w1 /\
    chunking r r1 /\ w_conn w1 = w_conn w.
Proof.
  intros [Hr Hc (hs & Hho & Hhs & Hfs) Hbo Hlen Hs] Hun Hsh Hnb Hpr.
  unfold evhtp_send_reply_chunk_start. rewrite (with_req_eq _ _ _ r), Hnb by done.
  replace (bool_decide (r_proto r = EVHTP_PROTO_11) || bool_decide (r_proto r = EVHTP_PROTO_10))
    with true by (destruct Hpr as [-> | ->]; done).
  cbn [andb]. rewrite Hho. unfold evhtp_kvs_find_kv_n.
  change (take 14 (bytes "Content-Length")) with (bytes "Content-Length").
  assert (kvs_find_kv_n hs (bytes "Content-Length") = None) as ->.
  { destruct (unframed_names fs Hun) as (Hcl & _). rewrite <- Hfs in Hcl.
    clear - Hcl Hhs. induction Hhs as [|x hs [Hwf _] _ IH]; [done|]. unfold names in Hcl.
    cbn [existsb map] in Hcl. apply orb_false_iff in Hcl as [H1 H2]. cbn [kvs_find_kv_n].
    change (match_header_key x (bytes "Content-Length")) with (matches (bytes "Content-Length") x).
    rewrite matches_wf by done. cbn [field_of fst] in H1. rewrite H1. by apply IH. }
  erewrite run_upd_req by exact Hr. cbn [when fst snd].
  match goal with |- context [(p, ?w1)] => set (w0 := w1) end.
  set (r0 := r <| r_flags := flag_on (r_flags r) EVHTP_REQ_FLAG_CHUNKED |>).
  assert (w_reqs w0 !! i = Some (with_out r0 hs)) as Hr0.
  { unfold w0. cbn. by rewrite lookup_insert_eq, Hho. }
  destruct (add_out_adds mem Hmem i (bytes "Transfer-Encoding") (bytes "chunked") 0 0 r0 eq_refl
    eq_refl p w0 hs fs Hr0 Hhs Hfs) as (hs1 & w1 & E & N & Hhs1 & Hfs1).
  rewrite run_assoc. erewrite bind_eq by exact E. erewrite run_upd_req by (by eapply now_lookup).
  cbn [fst snd]. rewrite <- Hfs1.
  assert (buffer_out (with_out r0 hs1) = Some out) as Hb1 by done. 
  assert (length (chunk_header (Z.of_nat (length out))) < 128)%nat as Hh.
  { unfold short in Hsh. unfold chunk_header, u32. rewrite Z.mod_small by lia.
    destruct (hex_digits_spec 8 (Z.of_nat (length out)) []) as (ds & -> & Hl & _);
      [change (16 ^ Z.of_nat 8) with (2 ^ 32); lia|lia|].
    rewrite !length_app. cbn [length]. lia. }
  rewrite Hb1. cbn [default from_option id].
  match goal with |- context [evhtp_send_reply_start mem i code (p, ?w2) = _] => set (w2' := w2) end.
  assert (exists r1, w_reqs w2' !! i = Some r1 /\ r_conn r1 = true /\ headers_out r1 = Some hs1 /\
    buffer_out r1 = Some (first_chunk out) /\ r_flags r1 = r_flags r0 /\ r_proto r1 = r_proto r)
    as (r1 & H1 & H2 & H3 & H4 & H5 & H6).
  { unfold w2'. cbn -[chunk_header Z.of_nat Nat.leb first_chunk]. rewrite lookup_insert_eq.
    eexists. split; [reflexivity|]. destruct out as [|c out]; [by split_and!|].
    cbn [length] in Hh. rewrite (proj2 (Nat.leb_gt _ _) Hh). by split_and!. }
  exists r1, w2'. split; [done|].
  assert (w_conn w2' = w_conn w) as Hconn by exact (n_conn _ _ _ _ N).
  split; [|split; [|done]].
  - split; try done; [by exists hs1|by apply first_chunk_length|by rewrite Hconn].
  - split; [..|done]; [unfold chunks_on|unfold keeps]; rewrite H5; cbn.
    + by rewrite has_on_eq.
    + by rewrite has_on_ne.
Qed.

(** More output. *)
Definition outs (bs : list Z) w : W :=
  w <| w_conn := (w_conn w) <| bev_output := bev_output (w_conn w) ++ bs |> |>.

Lemma outs_app a b w : outs b (outs a w) = outs (a ++ b) w.
Proof. unfold outs. cbn. by rewrite app_assoc. Qed.
Lemma outs_nil w : outs [] w = w.
Proof. unfold outs. destruct w as [c]. destruct c. cbn. by rewrite app_nil_r. Qed.

Lemma send_chunk_spec i r d p w :
  w_reqs w !! i = Some r -> r_conn r = true -> chunks_on r = true ->
  evhtp_send_reply_chunk i d (p, w) = (0, (p, outs (first_chunk d) w)).
Proof.
  intros Hr Hc Hk. destruct d as [|c d]; [by rewrite outs_nil|].
  unfold evhtp_send_reply_chunk, with_conn. rewrite (with_req_eq _ _ _ r), Hc by done.
  cbv zeta. unfold chunks_on in Hk. rewrite Hk. cbn [when]. unfold output_add at 1.
  rewrite run_upd_conn. cbn [fst snd].
  erewrite bind_eq.
  2:{ unfold evhtp_send_reply_body, with_conn. rewrite (with_req_eq _ _ _ r) by done. rewrite Hc.
      rewrite run_upd_conn. reflexivity. }
  unfold output_add. rewrite run_upd_conn. unfold ret, outs, first_chunk. cbn [fst snd].
  rewrite chunk_bytes_eq. do 2 f_equal. cbn -[chunk_header Z.of_nat]. by rewrite <- !app_assoc.
Qed.

(** One call of evhtp_send_reply_chunk per buffer. *)
Fixpoint send_chunks (i : nat) (ds : list (list Z)) : M (St W) Z :=
  match ds with
  | [] => ret 0
  | d :: ds => evhtp_send_reply_chunk i d ;; send_chunks i ds
  end.

Lemma send_chunks_spec i r ds p w :
  w_reqs w !! i = Some r -> r_conn r = true -> chunks_on r = true ->
  send_chunks i ds (p, w) = (0, (p, outs (concat (map first_chunk ds)) w)).
Proof.
  intros Hr Hc Hk. revert w Hr. induction ds as [|d ds IH]; intros w Hr; cbn [send_chunks map concat].
  { by rewrite outs_nil. }
  erewrite bind_eq by by eapply send_chunk_spec. by rewrite IH, outs_app.
Qed.

Lemma chunk_end_spec i r p w :
  w_reqs w !! i = Some r -> r_conn r = true -> chunks_on r = true ->
  exists w', evhtp_send_reply_chunk_end i (p, w) = (0, (p, w')) /\
    w_conn w' = w_conn (outs (crlf (bytes "0") ++ crlf []) w) /\
    w_reqs w' = <[i := finished r]> (w_reqs w).
Proof.
  intros Hr Hc Hk. unfold evhtp_send_reply_chunk_end. rewrite (with_req_eq _ _ _ r) by done.
  unfold chunks_on in Hk. rewrite Hk. cbn [when]. unfold output_add. rewrite run_upd_conn.
  cbn [fst snd]. unfold evhtp_send_reply_end, with_conn.
  rewrite (with_req_eq _ _ _ r), Hc by done. erewrite run_upd_req by exact Hr.
  eexists. split; [reflexivity|]. by split.
Qed.

(** The chunks of a reply: a buffer without bytes makes none. *)
Definition chunks_of (ds : list (list Z)) : list (list Z * list Z) :=
  map chunk_of (List.filter (fun d => negb (bool_decide (d = []))) ds).

Lemma chunks_of_bytes ds : concat (map first_chunk ds) = concat (map chunk_bytes (chunks_of ds)).
Proof.
  induction ds as [|d ds IH]; [done|]. unfold chunks_of in *. cbn [map concat List.filter].
  rewrite IH. by destruct d.
Qed.

Lemma chunks_of_ok ds : Forall short ds -> Forall chunk_ok (chunks_of ds).
Proof.
  induction 1 as [|d ds Hd _ IH]; [constructor|]. unfold chunks_of. cbn [List.filter].
  case_bool_decide; cbn [negb map]; [exact IH|]. constructor; [by apply chunk_line_ok|exact IH].
Qed.

Lemma chunks_of_data ds : concat (map snd (chunks_of ds)) = concat ds.
Proof.
  induction ds as [|d ds IH]; [done|]. unfold chunks_of in *. cbn [List.filter].
  case_bool_decide; cbn [negb map concat snd chunk_of]; subst; [exact IH|]. by rewrite IH.
Qed.

Definition chunked_content (ds : list (list Z)) : content := chunks (chunks_of ds) (bytes "0") [].

Lemma chunked_framing multipart r fs len p :
  type p = htp_type_response -> has_body (status p) = true -> unframed fs -> chunks_on r = true ->
  body_spec p (reply_fields multipart r len
    (fs ++ [(bytes "Transfer-Encoding", bytes "chunked")])) = Some (B_CHUNKED, 0).
Proof.
  intros Ht Hb Hun Hch. destruct (named_unframed fs Hun) as (M1 & M2 & M3).
  set (fs' := fs ++ _). assert (names "Content-Length" fs' = false) as N1.
  { unfold fs'. rewrite names_app. by destruct (unframed_names fs Hun) as (-> & _). }
  unfold reply_fields, length_fields. rewrite Hch, N1, andb_false_r. cbn [negb andb].
  rewrite andb_false_r. unfold proto_fields. rewrite app_nil_r, Hch, N1. cbn [negb andb].
  apply body_spec_chunked; [done|done|..]; unfold fs';
    destruct (r_proto r), (keeps r); unfold type_fields;
    destruct (names "Content-Type" _); cbn [negb app];
    rewrite ?named_app, ?named_cons, ?M1, ?M2; done.
Qed.

Lemma needs_has_body code m :
  100 <= code -> evhtp_response_needs_body code m = true -> has_body code = true.
Proof.
  intros Hc. unfold evhtp_response_needs_body, has_body, EVHTP_RES_NOCONTENT, EVHTP_RES_NOTMOD.
  rewrite !andb_true_iff, orb_true_iff. intros ((((H1 & H2) & H3) & _) & _).
  destruct (Z.eqb_spec code 204), (Z.eqb_spec code 304); try done.
  destruct (Z.ltb_spec code 200); [lia|done].
Qed.

Lemma sendable_chunked r r' fs code p :
  sendable r fs code p -> (length fs <= 95)%nat -> r_proto r' = r_proto r ->
  sendable r' (fs ++ [(bytes "Transfer-Encoding", bytes "chunked")]) code p.
Proof.
  intros [[Hf _] Hc Hma Hmi] Hlen Hp.
  assert (reply_parser r' p = reply_parser r p) as E by (unfold reply_parser; by rewrite Hp).
  split; [|by rewrite ?E..].
  split.
  - apply Forall_app. split; [done|]. apply Forall_singleton. own_field.
  - rewrite length_app. cbn. lia.
Qed.

Definition chunked_reply (i : nat) (code : Z) (ds : list (list Z)) : M (St W) Z :=
  evhtp_send_reply_chunk_start mem i code ;; send_chunks i ds ;; evhtp_send_reply_chunk_end i.

Lemma chunked_reply_bytes i r fs out ds code p w :
  answerable i r fs out w -> sendable r fs code p -> unframed fs -> short out ->
  evhtp_response_needs_body code (r_method r) = true ->
  r_proto r = EVHTP_PROTO_11 \/ r_proto r = EVHTP_PROTO_10 -> (length fs <= 95)%nat ->
  let te := [(bytes "Transfer-Encoding", bytes "chunked")] in
  exists r1 r' w', chunking r r1 /\ chunked_reply i code ds (p, w) = (0, (p, w')) /\
    bev_output (w_conn w') = bev_output (w_conn w) ++ render_response
      (as_response (htparser_get_multipart (Some p)) r1 (fs ++ te)
         (Z.of_nat (length (first_chunk out))) (chunked_content (out :: ds)) code p) /\
    scratch_buf (w_conn w') = Some [] /\ w_reqs w' !! i = Some r' /\
    r_status r' = code /\ has (r_flags r') EVHTP_REQ_FLAG_FINISHED = true.
Proof.
  intros Han Hsn Hun Hsh Hnb Hpr Hlen te.
  destruct (chunk_start_spec i r fs out code p w Han Hun Hsh Hnb Hpr)
    as (r1 & w1 & E1 & Han1 & [K1 K2 K3] & C1). exists r1.
  assert (reply_parser r1 p = p) as Hrp.
  { unfold reply_parser. rewrite K3. by destruct Hpr as [-> | ->]. }
  destruct (reply_flushed i r1 _ _ code p w1 Han1) as (r2 & w2 & E2 & C2 & R2 & [A1 A2 _ _ _ A6 _] & _).
  rewrite Hrp in E2.
  unfold chunked_reply. erewrite bind_eq.
  2:{ rewrite E1. unfold evhtp_send_reply_start, with_conn.
      rewrite (with_req_eq _ _ _ r1) by apply Han1. rewrite (an_conn _ _ _ _ _ Han1). exact E2. }
  assert (w_reqs w2 !! i = Some r2) as Hr2 by (rewrite R2; apply lookup_insert_eq).
  assert (chunks_on r2 = true) as Hk2 by (unfold chunks_on in *; by rewrite A2).
  erewrite bind_eq by by apply (send_chunks_spec i r2).
  match goal with |- context [evhtp_send_reply_chunk_end i (p, ?w3)] =>
    destruct (chunk_end_spec i r2 p w3) as (w4 & E4 & C4 & R4) end; try done.
  exists (finished r2), w4. split; [done|]. split; [exact E4|].
  rewrite C4, R4. cbn [outs w_conn set_field eta_fields eta_world eta_connection bev_output scratch_buf].
  rewrite C2, C1. cbn [set_field eta_fields eta_connection bev_output scratch_buf].
  split_and!; try done; [|by apply lookup_insert_eq|by cbn; rewrite has_on_eq].
  assert (sendable r1 (fs ++ te) code p) as Hsn1 by by apply (sendable_chunked r).
  erewrite <- (reply_bytes_render _ _ _ _ _ _ _ _ Hsn1 eq_refl). unfold reply_bytes.
  cbn [content_bytes chunked_content]. rewrite <- chunks_of_bytes. cbn [map concat].
  by rewrite <- !app_assoc.
Qed.

(** C13: a chunked reply reaches the client as the application made it.  A
    reply started with evhtp_send_reply_chunk_start, continued with one
    evhtp_send_reply_chunk per buffer (an empty one sends nothing) and closed
    with evhtp_send_reply_chunk_end is read by a client's parser as one
    message whose chunks are the body already in [buffer_out] and the buffers
    that have bytes, in order: concatenated, the data sent.  Holds for HTTP/1.1
    and HTTP/1.0 requests and for buffers below 2^32 bytes, the width of the
    length that is printed. *)
Theorem chunked_reply_delivered i r fs out ds code p w q log rest :
  answerable i r fs out w -> sendable r fs code p -> unframed fs -> (length fs <= 95)%nat ->
  evhtp_response_needs_body code (r_method r) = true ->
  r_proto r = EVHTP_PROTO_11 \/ r_proto r = EVHTP_PROTO_10 ->
  short out -> Forall short ds ->
  plain_as htp_type_response q -> state q = S_START ->
  exists bs added r' w' q',
    chunked_reply i code ds (p, w) = (0, (p, w')) /\
    bev_output (w_conn w') = bev_output (w_conn w) ++ bs /\
    scratch_buf (w_conn w') = Some [] /\ w_reqs w' !! i = Some r' /\
    r_status r' = code /\ has (r_flags r') EVHTP_REQ_FLAG_FINISHED = true /\
    htparser_run hooks (bs ++ rest) (q, (log, tt)) =
      Some (length bs, (q', (log ++ message_events [(on_hdrs_begin, [])] (fs ++ added)
                                      (chunked_content (out :: ds)), tt))) /\
    concat (map snd (chunks_of (out :: ds))) = out ++ concat ds /\
    plain_as htp_type_response q' /\ state q' = S_START /\ status q' = code.
Proof.
  intros Han Hsn Hun Hlen Hnb Hpr Hsh Hds Hq Hst.
  destruct (chunked_reply_bytes i r fs out ds code p w Han Hsn Hun Hsh Hnb Hpr Hlen)
    as (r1 & r' & w' & [K1 K2 K3] & E & C & S & R & St & Fi).
  match type of C with _ = _ ++ render_response ?x => set (rs := x) in C end.
  assert (response_ok rs) as Hrs.
  { apply as_response_ok; [by apply (sendable_chunked r)|pose proof (first_chunk_length out Hsh); lia|].
    rewrite chunked_framing; try done.
    2:{ eapply needs_has_body; [|exact Hnb]. destruct Hsn as [_ Hc _ _]. cbn. lia. }
    cbn [content_fits chunked_content]. split; [apply chunks_of_ok; by constructor|].
    split; [split; [apply (bool_decide_unpack _); vm_compute; exact I|vm_compute; done]|].
    split; [done|]. split; [constructor|cbn; lia]. }
  destruct (response_run rs q log rest Hrs Hq Hst)
    as (q' & Erun & Hq' & Hst' & _ & Hs' & _).
  eexists (render_response rs), _, r', w', q'.
  split_and!; try done; [|by rewrite chunks_of_data].
  rewrite Erun. unfold response_events. cbn [rs rs_fields rs_content as_response].
  unfold reply_fields. by rewrite <- !app_assoc.
Qed.

(** The reply to a multipart request.  When the request being answered
    came with a multipart body, the length of the reply's body is not noted,
    and over HTTP/1.1 the reply then states a length of zero; the body is sent
    all the same.  The client reads a response without a body and is left with
    the body's bytes in front of whatever comes next. *)
Theorem multipart_reply_desync i r fs out code p w q log rest :
  answerable i r fs out w -> sendable r fs code p -> unframed fs -> chunks_on r = false ->
  htparser_get_multipart (Some p) = true -> r_proto r = EVHTP_PROTO_11 -> out <> [] ->
  plain_as htp_type_response q -> state q = S_START ->
  exists head added w' q',
    evhtp_send_reply mem i code (p, w) = (0, (reply_parser r p, w')) /\
    bev_output (w_conn w') = bev_output (w_conn w) ++ head ++ out /\
    htparser_run hooks (head ++ out ++ rest) (q, (log, tt)) =
      Some (length head, (q', (log ++ message_events [(on_hdrs_begin, [])] (fs ++ added)
                                        no_content, tt))) /\
    state q' = S_START /\ error q' = htparse_error_none.
Proof.
  intros Han Hsn Hun Hch Hmp Hpr Hne Hq Hst. pose proof Han as [Hr Hc _ _ Hlen _].
  unfold evhtp_send_reply, with_conn. rewrite (with_req_eq _ _ _ r), Hc by done.
  erewrite run_upd_req by exact Hr.
  match goal with |- context [(?m ;; flush_scratch) (_, ?w1)] => set (w0 := w1) end.
  assert (answerable i (finished r) fs out w0) as Han0.
  { destruct Han as [_ _ Ho Hb _ Hs]. split; try done. apply lookup_insert_eq. }
  destruct (reply_flushed i (finished r) fs out code p w0 Han0) as (r' & w' & E & C & _).
  rewrite finished_fields, Hmp in C.
  change (reply_fields true r (Z.of_nat (length out)) fs) with (reply_fields false r 0 fs) in C.
  set (rs := as_response false r fs 0 no_content code p).
  assert (response_ok rs) as Hrs.
  { apply as_response_ok; [done|lia|]. rewrite reply_framing; try done; [|by right; left].
    cbn [negb Z.eqb]. by rewrite andb_false_r. }
  destruct (response_run rs q log (out ++ rest) Hrs Hq Hst)
    as (q' & Erun & Hq' & Hst' & He & _).
  eexists (render_response rs), _, w', q'. split; [exact E|]. rewrite C.
  cbn [bev_output scratch_buf set_field eta_fields eta_connection].
  split_and!; try done; [|rewrite Erun; reflexivity].
  unfold rs. rewrite <- (reply_bytes_render false r fs 0 [] no_content code p Hsn eq_refl).
  unfold reply_bytes. change (reply_parser (finished r) p) with (reply_parser r p).
  by rewrite <- !app_assoc.
Qed.
End Sending.

(** ** Witnesses *)

Definition sample_header : evhtp_kv :=
  {| addr := 1; key := Some (bytes "X"); val := Some (bytes "y"); klen := 1; vlen := 1;
     k_heaped := 0; v_heaped := 0 |}.
Definition sample_answer : evhtp_request :=
  (new_request (Some 0%nat)) <| r_proto := EVHTP_PROTO_11 |>
    <| r_flags := EVHTP_REQ_FLAG_KEEPALIVE |> <| buffer_out := Some (bytes "hello") |>
    <| headers_out := Some [sample_header] |>.
Definition answer_world : world (H := no_regex) unit :=
  sample_world 0 (Some 0%nat) {[0%nat := sample_answer]}.
Definition asked (mp : bool) : htparser :=
  (p_init htp_type_request) <| major := 1 |> <| minor := 1 |>
    <| flags := if mp then F_MULTIPART else 0 |>.

Lemma sample_answerable :
  answerable 0 sample_answer [(bytes "X", bytes "y")] (bytes "hello") answer_world.
Proof.
  split; try done. exists [sample_header]. split_and!; try done.
  apply Forall_singleton. split; [by split_and!|by eexists].
Qed.

Lemma sample_sendable mp : sendable sample_answer [(bytes "X", bytes "y")] 200 (asked mp).
Proof.
  split; try (cbn; lia). split; [|cbn; lia]. apply Forall_singleton.
  unfold field_ok, free_of, fits. apply (bool_decide_unpack _). vm_compute. exact I.
Qed.

Lemma sample_unframed : unframed [(bytes "X", bytes "y")].
Proof. by apply Forall_singleton. Qed.


Lemma chunked_reply_delivered_witness :
  exists bs added r' w' q',
    chunked_reply (fun _ => true) 0 200 [bytes "abc"; []; bytes "d"] (asked false, answer_world) =
      (0, (asked false, w')) /\
    bev_output (w_conn w') = bev_output (w_conn answer_world) ++ bs /\
    scratch_buf (w_conn w') = Some [] /\ w_reqs w' !! 0%nat = Some r' /\
    r_status r' = 200 /\ has (r_flags r') EVHTP_REQ_FLAG_FINISHED = true /\
    htparser_run (Some (logged null_hooks)) (bs ++ []) (p_init htp_type_response, ([], tt)) =
      Some (length bs, (q', ([] ++ message_events (lib := ref_lib) [(on_hdrs_begin, [])]
                               ([(bytes "X", bytes "y")] ++ added)
                               (chunked_content [bytes "hello"; bytes "abc"; []; bytes "d"]), tt))) /\
    concat (map snd (chunks_of [bytes "hello"; bytes "abc"; []; bytes "d"])) =
      bytes "hello" ++ concat [bytes "abc"; []; bytes "d"] /\
    plain_as htp_type_response q' /\ state q' = S_START /\ status q' = 200.
Proof.
  apply (chunked_reply_delivered (laws := ref_laws) (fun _ => true) (fun _ => eq_refl) 0 sample_answer);
    try done;
    [exact sample_answerable|apply sample_sendable|exact sample_unframed|cbn; lia|by left|].
  by repeat (apply Forall_cons; split).
Defined.

Lemma multipart_reply_desync_witness :
  exists head added w' q',
    evhtp_send_reply (fun _ => true) 0 200 (asked true, answer_world) =
      (0, (reply_parser sample_answer (asked true), w')) /\
    bev_output (w_conn w') = bev_output (w_conn answer_world) ++ head ++ bytes "hello" /\
    htparser_run (Some (logged null_hooks)) (head ++ bytes "hello" ++ [])
        (p_init htp_type_response, ([], tt)) =
      Some (length head, (q', ([] ++ message_events (lib := ref_lib) [(on_hdrs_begin, [])]
                                 ([(bytes "X", bytes "y")] ++ added) no_content, tt))) /\
    state q' = S_START /\ error q' = htparse_error_none.
Proof.
  apply (multipart_reply_desync (laws := ref_laws) (fun _ => true) (fun _ => eq_refl) 0 sample_answer);
    try done; [exact sample_answerable|apply sample_sendable|exact sample_unframed].
Defined.
