(* ===== verification/Conn.v ===== *)
(** * evhtp.c: connections

    Making a connection (htp__connection_new_, htp__connection_accept_, the
    client's evhtp_connection_new_dns), what its bufferevent calls
    (htp__connection_readcb_, _writecb_, _eventcb_, and _resumecb_ for the
    resume event), pausing, resuming, giving it away and freeing it, for
    HTTP/1.

    A bufferevent is its two byte buffers, the directions it is enabled for
    and the callbacks it was given; [deliver] is what the event loop does to
    it: bytes arrive, the output has been written, an event is reported, the
    resume event fires.  [getc] is a use of the connection: it sets [w_ub]
    when the connection has been freed.  [after buf d] gives the bytes that
    follow [d] in the read buffer [buf]. *)

From S2P Require Import Prelude HtpTypes HtString MsgParser Kvs Query Callbacks Numtoa Uri Request ReqParse Reply.
From stdpp Require Import gmap.
#[local] Open Scope Z_scope.
#[local] Open Scope htp_scope.

(** The event flags of libevent (event2/bufferevent.h) and [EAGAIN]. *)
Definition BEV_EVENT_READING : Z := 1.
Definition BEV_EVENT_WRITING : Z := 2.
Definition BEV_EVENT_EOF : Z := 16.
Definition BEV_EVENT_ERROR : Z := 32.
Definition BEV_EVENT_TIMEOUT : Z := 64.
Definition BEV_EVENT_CONNECTED : Z := 128.
Definition EAGAIN : Z := 11.

Definition EVHTP_RES_NOTFOUND : Z := 404.

Section Conn.
Context `{lib : HtStringLib} `{rx : RegexLib} {A : Type} (mem : nat -> bool) (app : App A).
Context (after : list Z -> list Z -> list Z).
Abbreviation W := (world A).

(** The connection, used. *)
Definition getc : M (St W) evhtp_connection :=
  c <- getw w_conn ;; if c_freed c then ub c else ret c.
(** [c->bev], used: NULL once the connection was given away. *)
Definition getbev : M (St W) evhtp_connection :=
  c <- getc ;; if c_bev c then ret c else ub c.
(** [c->cr_status] *)
Definition cr_status : M (St W) Z := with_cur (fun _ r => ret (r_status r)).
(** [c->request != NULL] *)
Definition has_request (c : evhtp_connection) : bool := bool_decide (is_Some (c_request c)).
Definition ignore {B} (m : M (St W) B) : M (St W) unit := m ;; ret tt.

(** ** Hooks of the connection *)

Definition conn_hook_run (t : evhtp_hook_type) (d : hook_data) : M (St W) Z :=
  c <- getc ;;
  match hook_set (c_hooks c) t with
  | Some (f, arg) => v <- app_conn app t f arg d ;; ret (v mod 2 ^ 16)
  | None => ret EVHTP_RES_OK
  end.
Definition htp__hook_connection_fini_ : M (St W) Z :=
  conn_hook_run evhtp_hook_on_connection_fini d_none.
Definition htp__hook_connection_write_ : M (St W) Z := conn_hook_run evhtp_hook_on_write d_none.

(** The error flags are an [uint8_t]. *)
Definition htp__hook_error_ (request : option nat) (errtype : Z) : M (St W) unit :=
  match request with
  | None => ret tt
  | Some i =>
      ignore (with_req i (fun r =>
        match hook_set (r_hooks r) evhtp_hook_on_error with
        | Some (f, arg) => app_hook app evhtp_hook_on_error i f arg (d_errtype (u8 errtype))
        | None => ret 0
        end))
  end.
Definition htp__hook_connection_error_ (errtype : Z) : M (St W) Z :=
  c <- getc ;;
  htp__hook_error_ (c_request c) errtype ;;
  ret EVHTP_RES_OK.

(** ** The bufferevent *)

Definition bufferevent_free : M (St W) unit :=
  upd_conn (fun c => c <| bev_freed := true |> <| bev_readcb := cb_null |>
                       <| bev_writecb := cb_null |> <| bev_eventcb := cb_null |>).
(** An operation on the bufferevent, which must not have been freed. *)
Definition upd_bev (f : evhtp_connection -> evhtp_connection) : M (St W) unit :=
  c <- getw w_conn ;; if bev_freed c then ub tt else upd_conn f.
Definition bufferevent_setcb (r w e : bev_cb) : M (St W) unit :=
  upd_bev (fun c => c <| bev_readcb := r |> <| bev_writecb := w |> <| bev_eventcb := e |>).
Definition enable_read : M (St W) unit := upd_bev (fun c => c <| bev_reading := true |>).
Definition disable_read : M (St W) unit := upd_bev (fun c => c <| bev_reading := false |>).
Definition enable_write : M (St W) unit := upd_bev (fun c => c <| bev_writing := true |>).
Definition evbuffer_drain (n : nat) : M (St W) unit :=
  upd_bev (fun c => c <| bev_input := drop n (bev_input c) |>).

(** ** Freeing *)

Definition sslfreecb : M (St W) unit :=
  c <- getw w_conn ;;
  when (length (bev_output c) =? 0)%nat (bufferevent_setcb cb_null cb_null cb_ssleventcb).
Definition freecb : M (St W) unit :=
  c <- getw w_conn ;; when (length (bev_output c) =? 0)%nat bufferevent_free.
Definition ssleventcb (events : Z) : M (St W) unit :=
  when (has events (Z.lor BEV_EVENT_EOF BEV_EVENT_ERROR)) bufferevent_free.

(** What evhtp_connection_free does after the hook (and the HTTP/2 part). *)
Definition connection_release : M (St W) unit :=
  c <- getc ;;
  ignore (htp__request_free_ app (c_request c)) ;;
  upd_conn (fun c => c <| c_request := None |> <| c_hooks := None |> <| scratch_buf := None |>
                       <| resume_ev := false |> <| resume_pending := false |>) ;;
  c <- getc ;;
  when (c_bev c)
    (if negb (length (bev_output c) =? 0)%nat then
       if bev_ssl c then bufferevent_setcb cb_null cb_sslfreecb cb_null
       else bufferevent_setcb cb_null cb_freecb cb_null
     else bufferevent_free) ;;
  upd_conn (fun c => c <| c_freed := true |>).
Definition evhtp_connection_free : M (St W) unit :=
  htp__hook_connection_fini_ ;; connection_release.

(** [evhtp_safe_free(request, htp__request_free_)] on the caller's pointer. *)
Definition evhtp_request_free (request : option nat) : M (St W) unit :=
  match request with None => ret tt | Some _ => ignore (htp__request_free_ app request) end.

(** ** Pausing and resuming *)

Definition evhtp_connection_pause : M (St W) unit :=
  c <- getc ;;
  if has (c_flags c) EVHTP_CONN_FLAG_PAUSED then ret tt
  else
    upd_conn (fun c => c <| c_flags := flag_on (c_flags c) EVHTP_CONN_FLAG_PAUSED |>) ;;
    c <- getbev ;;
    when (bev_reading c) disable_read.

(** event_active on an event that was never made follows a NULL pointer. *)
Definition evhtp_connection_resume : M (St W) unit :=
  c <- getc ;;
  if negb (has (c_flags c) EVHTP_CONN_FLAG_PAUSED) then ret tt
  else
    upd_conn (fun c => c <| c_flags := flag_off (c_flags c) EVHTP_CONN_FLAG_PAUSED |>) ;;
    c <- getc ;;
    if resume_ev c then upd_conn (fun c => c <| resume_pending := true |>) else ub tt.

Definition evhtp_request_pause (i : nat) : M (St W) unit :=
  ignore (with_req i (fun r =>
    upd_req i (fun r => r <| r_status := EVHTP_RES_PAUSE |>) ;;
    if r_conn r then evhtp_connection_pause ;; ret 0 else ub 0)).
Definition evhtp_request_resume (i : nat) : M (St W) unit :=
  ignore (with_req i (fun r => if r_conn r then evhtp_connection_resume ;; ret 0 else ub 0)).

(** ** The read callback *)

(** htparser_run always returns (run_terminates); the [None] case is not met. *)
Definition run_parser (data : list Z) : M (St W) nat := fun s =>
  match htparser_run (Some (request_psets mem app (after data))) data s with
  | Some r => r
  | None => (0%nat, s)
  end.

Definition htp__connection_readcb_ : M (St W) unit :=
  c <- getc ;;
  let avail := length (bev_input c) in
  idle <- (if (avail =? 0)%nat && has_request c
           then v <- cr_status ;; ret (negb (v =? EVHTP_RES_PAUSE)) else ret false) ;;
  if idle then ret tt
  else if has (c_flags c) EVHTP_CONN_FLAG_PAUSED then ret tt
  else
    when (has_request c) (ignore (set_cr_status EVHTP_RES_OK)) ;;
    nread <- run_parser (bev_input c) ;;
    c <- getc ;;
    if negb (has (c_flags c) EVHTP_CONN_FLAG_OWNER) then
      evbuffer_drain nread ;; evhtp_connection_free
    else
      v <- (if has_request c then cr_status else ret EVHTP_RES_OK) ;;
      if has_request c && (v =? EVHTP_RES_DATA_TOO_LONG) then
        htp__hook_connection_error_ (-1) ;; evhtp_connection_free
      else
        evbuffer_drain nread ;;
        p <- gets fst ;;
        match c_request c with
        | Some i =>
            if v =? EVHTP_RES_PAUSE then evhtp_request_pause i
            else if negb (bool_decide (htparser_get_error (Some p) = htparse_error_none)) then
              htp__hook_error_ (Some i) BEV_EVENT_ERROR ;; evhtp_connection_free
            else when (nread <? avail)%nat evhtp_connection_resume
        | None =>
            if negb (bool_decide (htparser_get_error (Some p) = htparse_error_none))
            then evhtp_connection_free
            else when (nread <? avail)%nat evhtp_connection_resume
        end.

(** ** The write callback *)

Definition parser_type (t : evhtp_type) : htp_type :=
  match t with evhtp_type_client => htp_type_response | evhtp_type_server => htp_type_request end.

(** The connection goes back to the [evhtp_t] a virtual host belongs to. *)
Definition leave_vhost (hs : htps) (c : evhtp_connection) : evhtp_connection :=
  match c_htp c ≫= (hs !!.) with
  | Some h =>
      match parent h with
      | Some p => if has (c_flags c) EVHTP_CONN_FLAG_VHOST_VIA_SNI then c
                  else c <| c_htp := Some p |>
      | None => c
      end
  | None => c
  end.

(** The request is complete and its reply written: make way for the next. *)
Definition next_request : M (St W) unit :=
  c <- getc ;;
  ignore (htp__request_free_ app (c_request c)) ;;
  upd_conn (fun c => c <| c_request := None |>
                       <| c_flags := flag_on (c_flags c) EVHTP_CONN_FLAG_KEEPALIVE |>
                       <| c_body_bytes_read := 0 |>) ;;
  c <- getc ;;
  hs <- getw w_htps ;;
  when (bool_decide (c_type c = evhtp_type_server)) (upd_conn (leave_vhost hs)) ;;
  update_parser (htparser_init (parser_type (c_type c))).

Definition goodbye : M (St W) unit :=
  htparser_run_eof (Some (request_psets mem app (after []))) ;; evhtp_connection_free.

(** [++conn->num_requests >= keepalive_max]. *)
Definition count_request (keepalive_max : Z) : M (St W) unit :=
  if 0 <? keepalive_max then
    upd_conn (fun c => c <| c_num_requests := u64 (c_num_requests c + 1) |>) ;;
    c <- getc ;;
    when (keepalive_max <=? c_num_requests c)
      (ignore (with_cur (fun i _ =>
         upd_req i (fun r => r <| r_flags := flag_off (r_flags r) EVHTP_REQ_FLAG_KEEPALIVE |>) ;;
         ret 0)))
  else ret tt.

(** A connection always has its parser until it is freed. *)
Definition htp__connection_writecb_ : M (St W) unit :=
  c <- getc ;;
  hs <- getw w_htps ;;
  let is_server := bool_decide (c_type c = evhtp_type_server) in
  if negb (has_request c) || is_server && bool_decide (c_htp c = None)
  then evhtp_connection_free
  else
    let keepalive_max :=
      if is_server then from_option max_keepalive_requests 0 (c_htp c ≫= (hs !!.)) else 0 in
    if has (c_flags c) EVHTP_CONN_FLAG_PAUSED then ret tt
    else
      htp__hook_connection_write_ ;;
      c <- getc ;;
      waited <- (if has (c_flags c) EVHTP_CONN_FLAG_WAITING then
                   upd_conn (fun c => c <| c_flags := flag_off (c_flags c)
                                                        EVHTP_CONN_FLAG_WAITING |>) ;;
                   enable_read ;;
                   ret (negb (length (bev_input c) =? 0)%nat)
                 else ret false) ;;
      if waited then htp__connection_readcb_
      else
        flags <- with_cur (fun _ r => ret (r_flags r)) ;;
        c <- getc ;;
        if negb (has flags EVHTP_REQ_FLAG_FINISHED) || negb (length (bev_output c) =? 0)%nat
        then ret tt
        else
          count_request keepalive_max ;;
          flags <- with_cur (fun _ r => ret (r_flags r)) ;;
          if has flags EVHTP_REQ_FLAG_KEEPALIVE then next_request else goodbye.

(** ** The event callback *)

Definition set_bufferevent_cbs : M (St W) unit :=
  upd_bev (fun c =>
    c <| bev_readcb := if bool_decide (bev_readcb c = cb_null) then htp__connection_readcb
                       else bev_readcb c |>
      <| bev_writecb := if bool_decide (bev_writecb c = cb_null) then htp__connection_writecb
                        else bev_writecb c |>).

Definition htp__connection_eventcb_ (events err : Z) : M (St W) unit :=
  conn_hook_run evhtp_hook_on_event (d_len events) ;;
  c <- getc ;;
  if has events BEV_EVENT_CONNECTED then
    when (bool_decide (c_type c = evhtp_type_client))
      (upd_conn (fun c => c <| c_flags := flag_on (c_flags c) EVHTP_CONN_FLAG_CONNECTED |>)) ;;
    set_bufferevent_cbs
  else
    when (c_ssl c && negb (has events BEV_EVENT_EOF))
      (upd_conn (fun c => c <| c_flags := flag_on (c_flags c) EVHTP_CONN_FLAG_ERROR |>) ;;
       when (has_request c)
         (ignore (with_cur (fun i _ =>
            upd_req i (fun r => r <| r_flags := flag_on (r_flags r) EVHTP_REQ_FLAG_ERROR |>) ;;
            ret 0)))) ;;
    let at_eof := events =? Z.lor BEV_EVENT_EOF BEV_EVENT_READING in
    if at_eof && (err =? EAGAIN) then enable_read
    else
      when at_eof (ignore (htparser_run_eof (Some (request_psets mem app (after []))))) ;;
      upd_conn (fun c => c <| c_flags := flag_off (flag_on (c_flags c) EVHTP_CONN_FLAG_ERROR)
                                           EVHTP_CONN_FLAG_CONNECTED |>) ;;
      htp__hook_connection_error_ events ;;
      c <- getc ;;
      if has (c_flags c) EVHTP_CONN_FLAG_PAUSED then
        upd_conn (fun c => c <| c_flags := flag_on (c_flags c) EVHTP_CONN_FLAG_FREE_CONN |>)
      else evhtp_connection_free.

(** ** The resume event *)

(** The bytes a paused body hook left in the scratch buffer go to the request. *)
Definition take_scratch : M (St W) Z :=
  with_cur (fun i r =>
    upd_req i (fun r => r <| r_status := EVHTP_RES_OK |>) ;;
    c <- getc ;;
    match default [] (scratch_buf c) with
    | [] => ret 0
    | buf =>
        match buffer_in r with
        | None => ub 0
        | Some b =>
            upd_req i (fun r => r <| buffer_in := Some (b ++ buf) |>) ;;
            upd_conn (fun c => c <| scratch_buf := Some [] |>) ;;
            ret 0
        end
    end).

Definition htp__connection_resumecb_ : M (St W) unit :=
  c <- getc ;;
  upd_conn (fun c => c <| c_flags := flag_off (c_flags c) EVHTP_CONN_FLAG_PAUSED |>) ;;
  when (has_request c) (ignore take_scratch) ;;
  if has (c_flags c) EVHTP_CONN_FLAG_FREE_CONN then evhtp_connection_free
  else
    c <- getbev ;;
    if negb (length (bev_output c) =? 0)%nat then
      upd_conn (fun c => c <| c_flags := flag_on (c_flags c) EVHTP_CONN_FLAG_WAITING |>) ;;
      enable_write
    else
      when (negb (bev_reading c)) (enable_read ;; enable_write) ;;
      p <- gets fst ;;
      if htparser_is_paused (Some p) then
        update_parser htparser_resume ;;
        when (has_request c) (ignore (set_cr_status EVHTP_RES_PAUSE)) ;;
        htp__connection_readcb_
      else when (negb (length (bev_input c) =? 0)%nat) htp__connection_readcb_.

(** ** Making a connection *)

Definition timeo_set (t : Z * Z) : bool := negb (t.1 =? 0) || negb (t.2 =? 0).
Definition pick_timeo (own host : Z * Z) : option (Z * Z) :=
  if timeo_set own then Some own else if timeo_set host then Some host else None.

Definition evhtp_connection_set_timeouts (r w : option (Z * Z)) : M (St W) unit :=
  getbev ;; upd_bev (fun c => c <| bev_timeouts := (r, w) |>).

Definition run_accept (cb arg : Z) : M (St W) Z :=
  if cb =? 0 then ret 0
  else v <- app_accept app cb arg ;; ret (if v mod 2 ^ 16 =? EVHTP_RES_OK then 0 else -1).
Definition htp__run_pre_accept_ (h : evhtp) : M (St W) Z :=
  run_accept (d_pre_accept (defaults h)) (d_pre_accept_cbarg (defaults h)).
Definition htp__run_post_accept_ (h : evhtp) : M (St W) Z :=
  run_accept (d_post_accept (defaults h)) (d_post_accept_cbarg (defaults h)).

(** A new bufferevent: enabled for writing, without callbacks. *)
Definition fresh_bev (ssl : bool) (c : evhtp_connection) : evhtp_connection :=
  c <| c_bev := true |> <| bev_freed := false |> <| bev_ssl := ssl |> <| bev_input := [] |>
    <| bev_output := [] |> <| bev_sent := [] |> <| bev_reading := false |> <| bev_writing := true |>
    <| bev_timeouts := (None, None) |> <| bev_readcb := cb_null |> <| bev_writecb := cb_null |>
    <| bev_eventcb := cb_null |>.

(** [conn->bev = bufferevent_..._socket_new(...)] *)
Definition new_bev (ssl : bool) : M (St W) unit := getc ;; upd_conn (fresh_bev ssl).

(** The [evhtp_t] of the connection, for [k]. *)
Definition with_htp (k : evhtp -> M (St W) Z) : M (St W) Z :=
  c <- getc ;;
  hs <- getw w_htps ;;
  match c_htp c ≫= (hs !!.) with Some h => k h | None => ub (-1) end.

(** The allocations of the bufferevent and of the event are not checked. *)
Definition htp__connection_accept_ : M (St W) Z :=
  with_htp (fun h =>
    ok <- htp__run_pre_accept_ h ;;
    if ok <? 0 then ret (-1)
    else
      k <- allocs 2 ;;
      if negb (mem k && mem (k + 1)) then ub (-1)
      else
        when (ssl_ctx h) (upd_conn (fun c => c <| c_ssl := true |>)) ;;
        new_bev (ssl_ctx h) ;;
        c <- getc ;;
        evhtp_connection_set_timeouts (pick_timeo (c_recv_timeo c) (recv_timeo h))
          (pick_timeo (c_send_timeo c) (send_timeo h)) ;;
        upd_conn (fun c => c <| resume_ev := true |>) ;;
        bufferevent_setcb htp__connection_readcb htp__connection_writecb
          htp__connection_eventcb ;;
        enable_read ;;
        ret 0).

Definition htp__default_request_cb_ (i : nat) : M (St W) Z :=
  add_out mem i (bytes "Content-Length") (bytes "0") 0 0 ;;
  evhtp_send_reply mem i EVHTP_RES_NOTFOUND.

(** calloc, and what htp__connection_new_ sets. *)
Definition zero_connection (htp : option nat) (max : Z) (type : evhtp_type) : evhtp_connection := {|
  c_htp := htp; c_hooks := None; c_type := type; c_flags := EVHTP_CONN_FLAG_OWNER;
  c_request := None; c_max_body_size := max; c_body_bytes_read := 0; c_num_requests := 0;
  scratch_buf := Some []; c_ssl := false; c_sni := None; c_recv_timeo := (0, 0);
  c_send_timeo := (0, 0); c_freed := false; c_bev := false; bev_freed := false;
  bev_ssl := false; bev_input := []; bev_output := []; bev_sent := []; bev_reading := false;
  bev_writing := false; bev_timeouts := (None, None); bev_readcb := cb_null;
  bev_writecb := cb_null; bev_eventcb := cb_null; resume_ev := false;
  resume_pending := false |}.

(** Whether there is a connection, which is then the store's. *)
Definition htp__connection_new_ (htp : option nat) (type : evhtp_type) : M (St W) bool :=
  k <- allocs 3 ;;
  hs <- getw w_htps ;;
  if negb (mem k) then ret false
  else if negb (mem (k + 1)) then ret false
  else
    let max := from_option htp_max_body_size 0 (htp ≫= (hs !!.)) in
    updw (fun w => w <| w_conn := zero_connection htp max type |>) ;;
    match htparser_new (mem (k + 2)%nat) with
    | None => evhtp_connection_free ;; ret false
    | Some p => updp (fun _ => htparser_init (parser_type type) p) ;; ret true
    end.

Definition htp__run_in_thread_ : M (St W) unit :=
  v <- htp__connection_accept_ ;;
  if v <? 0 then evhtp_connection_free
  else
    v <- with_htp htp__run_post_accept_ ;;
    when (v <? 0) evhtp_connection_free.

(** [defer]: with a thread pool, what evthr_pool_defer returns; 0 is
    EVTHR_RES_OK, and htp__run_in_thread_ then runs in the worker. *)
Definition htp__accept_cb_ (htp : nat) (defer : option Z) : M (St W) unit :=
  ok <- htp__connection_new_ (Some htp) evhtp_type_server ;;
  if negb ok then ret tt
  else
    k <- allocs 1 ;;
    if negb (mem k) then evhtp_connection_free
    else
      match defer with
      | Some v => when (negb (v =? 0)) evhtp_connection_free
      | None =>
          v <- htp__connection_accept_ ;;
          if v =? -1 then evhtp_connection_free
          else
            v <- with_htp htp__run_post_accept_ ;;
            when (v =? -1) evhtp_connection_free
      end.

(** ** Client connections *)

(** [numeric]: whether inet_pton takes the address; [err]: what libevent
    returns for the connect. *)
Definition evhtp_connection_connect (dns numeric : bool) (err : Z) : M (St W) Z :=
  getbev ;;
  if dns then ret err
  else if numeric then ret err
  else evhtp_connection_free ;; ret (-1).

Definition evhtp_connection_new_dns (dns numeric : bool) (err : Z) : M (St W) bool :=
  ok <- htp__connection_new_ None evhtp_type_client ;;
  if negb ok then ret false
  else
    k <- allocs 1 ;;
    if negb (mem k) then evhtp_connection_free ;; ret false
    else
      new_bev false ;;
      enable_read ;;
      bufferevent_setcb cb_null cb_null htp__connection_eventcb ;;
      err <- evhtp_connection_connect dns numeric err ;;
      ret (err =? 0).
Definition evhtp_connection_new (numeric : bool) (err : Z) : M (St W) bool :=
  evhtp_connection_new_dns false numeric err.

(** [ssl], [bev]: whether the SSL object and the bufferevent were made;
    [enabled]: what bufferevent_enable returns. *)
Definition evhtp_connection_ssl_new_dns (evbase ssl bev : bool) (enabled : Z)
    (dns numeric : bool) (err : Z) : M (St W) bool :=
  if negb evbase then ret false
  else
    ok <- htp__connection_new_ None evhtp_type_client ;;
    if negb ok then ret false
    else
      failed <- (if negb ssl then ret true
                 else
                   upd_conn (fun c => c <| c_ssl := true |>) ;;
                   if negb bev then ret true
                   else
                     new_bev true ;;
                     if enabled =? -1 then ret true
                     else
                       enable_read ;;
                       bufferevent_setcb cb_null cb_null htp__connection_eventcb ;;
                       v <- evhtp_connection_connect dns numeric err ;;
                       ret (v =? -1)) ;;
      if failed : bool then evhtp_connection_free ;; ret false else ret true.
Definition evhtp_connection_ssl_new (evbase ssl bev : bool) (enabled : Z) (numeric : bool) (err : Z) :
    M (St W) bool :=
  evhtp_connection_ssl_new_dns evbase ssl bev enabled false numeric err.

(** ** Members *)

Definition evhtp_connection_get_bev : M (St W) bool := c <- getc ;; ret (c_bev c).
Definition evhtp_connection_set_bev (bev : bool) : M (St W) unit :=
  getc ;; upd_conn (fun c => c <| c_bev := bev |>).

(** [if (hooks) evhtp_unset_all_hooks(&hooks)] *)
Definition unset_hooks (hooks : option evhtp_hooks) : option evhtp_hooks :=
  match hooks with
  | Some _ => default None (snd (evhtp_unset_all_hooks true (Some hooks)))
  | None => None
  end.

(** The bufferevent is the caller's from now on. *)
Definition evhtp_connection_take_ownership : M (St W) bool :=
  bev <- evhtp_connection_get_bev ;;
  upd_conn (fun c => c <| c_hooks := unset_hooks (c_hooks c) |>) ;;
  c <- getc ;;
  match c_request c with
  | Some i =>
      upd_req i (fun r => r <| r_hooks := unset_hooks (r_hooks r) |>)
  | None => ret tt
  end ;;
  evhtp_connection_set_bev false ;;
  upd_conn (fun c => c <| c_flags := flag_off (c_flags c) EVHTP_CONN_FLAG_OWNER |>) ;;
  if bev then
    disable_read ;;
    bufferevent_setcb cb_null cb_null cb_null ;;
    ret true
  else ub false.

Definition evhtp_connection_set_max_body_size (len : Z) : M (St W) unit :=
  if len =? 0 then
    ignore (with_htp (fun h =>
      upd_conn (fun c => c <| c_max_body_size := htp_max_body_size h |>) ;; ret 0))
  else getc ;; upd_conn (fun c => c <| c_max_body_size := len |>).

Definition evhtp_request_set_keepalive (i : nat) (val : Z) : M (St W) unit :=
  upd_req i (fun r => r <| r_flags := if negb (val =? 0)
                                      then flag_on (r_flags r) EVHTP_REQ_FLAG_KEEPALIVE
                                      else flag_off (r_flags r) EVHTP_REQ_FLAG_KEEPALIVE |>).

(** The same, through [request->conn]. *)
Definition request_conn (i : nat) (k : evhtp_request -> M (St W) Z) : M (St W) Z :=
  with_req i (fun r => if r_conn r then k r else ub (-1)).
Definition evhtp_request_get_bev (i : nat) : M (St W) Z :=
  request_conn i (fun _ => b <- evhtp_connection_get_bev ;; ret (Z.b2z b)).
Definition evhtp_request_take_ownership (i : nat) : M (St W) Z :=
  request_conn i (fun _ => b <- evhtp_connection_take_ownership ;; ret (Z.b2z b)).
Definition evhtp_request_set_bev (i : nat) (bev : bool) : M (St W) unit :=
  ignore (request_conn i (fun _ => evhtp_connection_set_bev bev ;; ret 0)).
Definition evhtp_request_set_max_body_size (i : nat) (len : Z) : M (St W) unit :=
  ignore (request_conn i (fun _ => evhtp_connection_set_max_body_size len ;; ret 0)).

Definition evhtp_request_get_connection (r : evhtp_request) : bool := r_conn r.
Definition evhtp_request_get_proto (r : evhtp_request) : evhtp_proto := r_proto r.
Definition evhtp_request_get_status_code (r : evhtp_request) : Z := r_status r.
Definition evhtp_request_get_status_code_str (r : evhtp_request) : list Z :=
  status_code_to_str (r_status r).
(** The method of the parser of the connection. *)
Definition evhtp_request_get_method (i : nat) : M (St W) Z :=
  request_conn i (fun _ => p <- gets fst ;; ret (Z.of_nat (htp_method_index (htparser_get_method (Some p))))).

(** ** The event loop *)

Inductive io_event :=
| io_data (d : list Z)        (** bytes arrived *)
| io_flushed                  (** all of the output has been written *)
| io_eof (err : Z)            (** the peer closed; [err] is [errno] *)
| io_event_ (events err : Z)  (** another event was reported *)
| io_resume.                  (** the resume event fires *)

Definition run_bev_cb (cb : bev_cb) (events err : Z) : M (St W) unit :=
  match cb with
  | cb_null => ret tt
  | htp__connection_readcb => htp__connection_readcb_
  | htp__connection_writecb => htp__connection_writecb_
  | htp__connection_eventcb => htp__connection_eventcb_ events err
  | cb_freecb => freecb
  | cb_sslfreecb => sslfreecb
  | cb_ssleventcb => ssleventcb events
  | htp__h2_connection_readcb => ub tt   (** H2.v: [h2_deliver] *)
  end.

(** The bufferevent acts only in the directions it is enabled for; it stops
    reading before it reports the end of the input. *)
Definition deliver (e : io_event) : M (St W) unit :=
  c <- getw w_conn ;;
  match e with
  | io_data d =>
      if bev_freed c || negb (bev_reading c) then ret tt
      else upd_conn (fun c => c <| bev_input := bev_input c ++ d |>) ;;
           run_bev_cb (bev_readcb c) 0 0
  | io_flushed =>
      if bev_freed c || negb (bev_writing c) then ret tt
      else upd_conn (fun c => c <| bev_sent := bev_sent c ++ bev_output c |>
                                <| bev_output := [] |>) ;;
           run_bev_cb (bev_writecb c) 0 0
  | io_eof err =>
      if bev_freed c || negb (bev_reading c) then ret tt
      else upd_conn (fun c => c <| bev_reading := false |>) ;;
           run_bev_cb (bev_eventcb c) (Z.lor BEV_EVENT_EOF BEV_EVENT_READING) err
  | io_event_ events err =>
      if bev_freed c then ret tt else run_bev_cb (bev_eventcb c) events err
  | io_resume =>
      if resume_ev c && resume_pending c
      then upd_conn (fun c => c <| resume_pending := false |>) ;; htp__connection_resumecb_
      else ret tt
  end.

Fixpoint deliver_all (es : list io_event) : M (St W) unit :=
  match es with
  | [] => ret tt
  | e :: es => deliver e ;; deliver_all es
  end.
End Conn.
