(* ===== verification/ConnFacts.v ===== *)
(** * Running the operations of a connection *)

From S2P Require Import Prelude HtpTypes HtString MsgParser Kvs Query Callbacks Numtoa Uri Request ReqParse ReqFacts Reply Conn.
From stdpp Require Import gmap.
#[local] Open Scope Z_scope.
#[local] Open Scope htp_scope.

Section ConnRun.
Context `{lib : HtStringLib} `{rx : RegexLib} {A : Type} (mem : nat -> bool) (app : App A).
Context (after : list Z -> list Z -> list Z).
Abbreviation W := (world A).
Implicit Types (w : W).

Lemma getc_eq {B} (k : evhtp_connection -> M (St W) B) p w :
  c_freed (w_conn w) = false -> bind getc k (p, w) = k (w_conn w) (p, w).
Proof. intros Hf. unfold getc. rewrite run_assoc, run_getw. cbn [snd]. by rewrite Hf, run_ret. Qed.

Lemma getbev_eq {B} (k : evhtp_connection -> M (St W) B) p w :
  c_freed (w_conn w) = false -> c_bev (w_conn w) = true ->
  bind getbev k (p, w) = k (w_conn w) (p, w).
Proof. intros Hf Hb. unfold getbev. by rewrite run_assoc, getc_eq, Hb, run_ret. Qed.
Lemma has_request_some c i : c_request c = Some i -> has_request c = true.
Proof. intros Hc. unfold has_request. rewrite Hc. by apply bool_decide_eq_true_2; eexists. Qed.
Lemma has_request_none c : c_request c = None -> has_request c = false.
Proof. intros Hc. unfold has_request. rewrite Hc. by apply bool_decide_eq_false_2; intros []. Qed.

Lemma bev_op_eq {B} (g : evhtp_connection -> evhtp_connection) (k : unit -> M (St W) B) p w :
  bev_freed (w_conn w) = false ->
  bind (upd_bev g) k (p, w) = k tt (p, w <| w_conn := g (w_conn w) |>).
Proof. intros Hf. unfold upd_bev. rewrite run_assoc, run_getw. cbn [snd]. by rewrite Hf, run_upd_conn. Qed.
Lemma resume_running p w :
  c_freed (w_conn w) = false -> has (c_flags (w_conn w)) EVHTP_CONN_FLAG_PAUSED = false ->
  evhtp_connection_resume (p, w) = (tt, (p, w)).
Proof. intros Hf Hp. unfold evhtp_connection_resume. by rewrite getc_eq, Hp. Qed.

Lemma deliver_all_app es fs s :
  deliver_all mem app after (es ++ fs) s =
  (deliver_all mem app after es ;; deliver_all mem app after fs) s.
Proof.
  revert s. induction es as [|e es IH]; intros s; cbn [List.app deliver_all]; [done|].
  unfold bind in *. destruct (deliver _ _ _ _ s) as [[] s']. apply IH.
Qed.
End ConnRun.
