(* ===== verification/Serve.v ===== *)
(** * A keep-alive connection serves its requests

    The composition of the components: the bytes of a request arrive at the
    bufferevent of a server connection, the read callback runs the parser, the
    library's hooks build the request and call the application, the
    application replies, the write callback recycles the request and readies
    the parser.  [keepalive_served]: a client that sends one request after the
    other reads back the answers of the application, in order
    ([server_answers] is the specification: one response per request).
    [pipelined_request_waits]: a second request that comes in the same piece as
    the first is not served until more bytes come. *)

From S2P Require Import Prelude HtpTypes HtString MsgParser MsgParserFacts MsgParserFraming MsgParserRoundtrip MsgParserResponse MsgParserSnap Kvs Query Callbacks Numtoa Uri Request ReqParse ReqFacts ReqEnd Reply ReplyFacts ReplyEnd Conn ConnFacts.
From stdpp Require Import gmap.
#[local] Open Scope Z_scope.
#[local] Open Scope htp_scope.

(** What an application answers. *)
Record answer := { ans_code : Z; ans_fields : list (list Z * list Z); ans_body : list Z }.

Section Respond.
Context `{rx : RegexLib} {A : Type} (mem : nat -> bool).
Abbreviation W := (world A).

(** An application's callback that answers at once: evhtp_headers_add_header
    for each field, evbuffer_add to [buffer_out], evhtp_send_reply. *)
Fixpoint add_fields (i : nat) (fs : list (list Z * list Z)) : M (St W) unit :=
  match fs with
  | [] => ret tt
  | f :: fs => add_out mem i f.1 f.2 1 1 ;; add_fields i fs
  end.
Definition respond (a : answer) (i : nat) : M (St W) unit :=
  add_fields i (ans_fields a) ;;
  upd_req i (fun r => r <| buffer_out := (fun b => b ++ ans_body a) <$> buffer_out r |>) ;;
  ignore (evhtp_send_reply mem i (ans_code a)).
End Respond.

(** An answer that leaves the framing to the library. *)
Record answer_ok (a : answer) : Prop := {
  ao_fields : app_fields (ans_fields a);
  ao_plain : unframed (ans_fields a);
  ao_text : Forall (fun f => cstr f.1 = f.1 /\ cstr f.2 = f.2) (ans_fields a);
  ao_code : 100 <= ans_code a <= 999;
  ao_body : ans_body a = [] \/ has_body (ans_code a) = true;
  ao_len : Z.of_nat (length (ans_body a)) < 2 ^ 64
}.

Section Serve.
Context `{lib : HtStringLib} {laws : HtStringLaws lib} `{rx : RegexLib} {A : Type}.
Context (mem : nat -> bool) (Hmem : forall k, mem k = true).
Context (app : App A) (after : list Z -> list Z -> list Z).
Context (h : nat) (host : evhtp) (Hvhosts : vhosts host = []).
Abbreviation W := (world A).
Implicit Types (w : W) (r : evhtp_request).

(** ** The application's answer *)

Lemma add_fields_adds i r fs :
  Forall (fun f => cstr f.1 = f.1 /\ cstr f.2 = f.2) fs -> adds (A := A) (add_fields mem i fs) i r fs.
Proof.
  induction 1 as [|f fs [Hk Hv] _ IH]; intros p w hs gs Hr Hhs Hgs; cbn [add_fields].
  - exists hs, w. rewrite app_nil_r. split; [done|]. split; [by apply now_refl|done].
  - destruct (add_out_adds mem Hmem i f.1 f.2 1 1 r Hk Hv p w hs gs Hr Hhs Hgs)
      as (hs1 & w1 & E1 & N1 & F1 & M1).
    destruct (IH p w1 hs1 _ (now_lookup _ _ _ _ N1) F1 M1) as (hs2 & w2 & E2 & N2 & F2 & M2).
    exists hs2, w2. erewrite bind_eq by exact E1. split; [done|]. split; [by eapply now_trans|].
    split; [done|]. rewrite M2, <- app_assoc. by destruct f.
Qed.

Lemma respond_sent a i r p w :
  answer_ok a -> w_reqs w !! i = Some r -> r_conn r = true -> headers_out r = Some [] ->
  buffer_out r = Some [] -> is_Some (scratch_buf (w_conn w)) -> chunks_on r = false ->
  r_proto r = EVHTP_PROTO_11 -> 1 <= major p <= 9 -> 0 <= minor p <= 9 ->
  htparser_get_multipart (Some p) = false ->
  exists rs r' w', respond mem a i (p, w) = (tt, (p, w')) /\ response_ok rs /\
    rs_status rs = ans_code a /\ (exists added, rs_fields rs = ans_fields a ++ added) /\
    rs_content rs = reply_content (ans_body a) /\
    w_conn w' = (w_conn w) <| bev_output := bev_output (w_conn w) ++ render_response rs |>
                           <| scratch_buf := Some [] |> /\
    w_reqs w' !! i = Some r' /\ apart i w w' /\
    exists hs, r' = (finished r) <| r_status := ans_code a |> <| headers_out := Some hs |>
                      <| buffer_out := Some [] |>.
Proof.
  intros [Hf Hun Htx Hcode Hbody Hlen] Hr Hc Hho Hbo Hs Hch Hpr Hma Hmi Hmp. unfold respond.
  destruct (add_fields_adds i r _ Htx p w [] [] ltac:(by rewrite with_out_id) ltac:(done) eq_refl)
    as (hs & w1 & E1 & N1 & F1 & M1).
  erewrite bind_eq by exact E1. pose proof (now_lookup _ _ _ _ N1) as Hr1.
  erewrite run_upd_req by exact Hr1. cbn [fst snd].
  set (r2 := (with_out r hs) <| buffer_out := Some (ans_body a) |>).
  match goal with |- context [(p, ?x)] => set (w2 := x) end.
  assert (w_reqs w2 !! i = Some r2) as Hr2.
  { unfold w2. cbn. rewrite lookup_insert_eq. unfold r2, with_out. cbn. by rewrite Hbo. }
  assert (reply_parser r2 p = p) as Hrp by (unfold reply_parser; change (r_proto r2) with (r_proto r); by rewrite Hpr).
  assert (answerable i r2 (ans_fields a) (ans_body a) w2) as Han.
  { split; try done; [by exists hs|]. unfold w2. cbn. by rewrite (n_conn _ _ _ _ N1). }
  destruct (reply_sent mem Hmem i r2 (ans_fields a) (ans_body a) (ans_code a) p w2) as
    (Hrs & r' & w' & E & C & R & Hr' & Ha); try done; [by split; rewrite ?Hrp|by right; left|].
  rewrite Hrp in E. unfold ignore. erewrite bind_eq by exact E.
  eexists _, r', w'. split; [reflexivity|]. split; [exact Hrs|].
  split; [done|]. split.
  { cbn [rs_fields as_response]. unfold reply_fields. by eexists. }
  split; [done|]. split.
  { rewrite C. unfold w2. cbn. by rewrite (n_conn _ _ _ _ N1). }
  split; [done|]. split.
  { etransitivity; [exact (now_apart _ _ _ _ N1)|]. etransitivity; [|exact Ha]. unfold w2. apart. }
  destruct (ab_rest _ _ _ Hr') as [hs' ->]. exists hs'. by destruct r.
Qed.

(** ** Reading a request *)

Context (f : evhtp_request -> answer).
Context (Happ : forall i cb arg q w r, w_reqs w !! i = Some r ->
  app_cb app i cb arg (q, w) = respond mem (f r) i (q, w)).
Context (Hparent : parent host = None).

(** A connection between two exchanges; [buf] is in its read buffer. *)
Record open_with (buf : list Z) w : Prop := {
  oi_ready : ready h host w;
  oi_alive : c_freed (w_conn w) = false;
  oi_bev : c_bev (w_conn w) = true;
  oi_open : bev_freed (w_conn w) = false;
  oi_reading : bev_reading (w_conn w) = true;
  oi_writing : bev_writing (w_conn w) = true;
  oi_readcb : bev_readcb (w_conn w) = htp__connection_readcb;
  oi_writecb : bev_writecb (w_conn w) = htp__connection_writecb;
  oi_input : bev_input (w_conn w) = buf;
  oi_output : bev_output (w_conn w) = [];
  oi_owner : has (c_flags (w_conn w)) EVHTP_CONN_FLAG_OWNER = true;
  oi_waiting : has (c_flags (w_conn w)) EVHTP_CONN_FLAG_WAITING = false
}.

Definition open_idle : W -> Prop := open_with [].

(** A well-formed HTTP/1.1 request that keeps the connection, is routed to a
    callback and does not ask for "100 Continue". *)
Record servable (rq : request) : Prop := {
  sr_ok : request_ok rq;
  sr_version : rq_major rq = 1 /\ 1 <= rq_minor rq;
  sr_stays : closes (rq_fields rq) = false;
  sr_single : existsb is_multipart (rq_fields rq) = false;
  sr_routed : exists pth cb arg so eo, the_path (rq_path rq) = Some pth /\ cb <> 0 /\
    select_callback host (new_request (Some h)) pth = Some (cb, arg, None, so, eo);
  sr_query : forall q, rq_query rq = Some q -> forall k u,
    fst (htp__uri_set_query_ (kv_mem mem k) u q (parser_flags host)) = 0;
  sr_form : no_form rq;
  sr_expect : has (htp_flags host) EVHTP_FLAG_ENABLE_100_CONT = true ->
    Forall (fun g => fold_eq (cstr g.1) (bytes "Expect") = false) (rq_fields rq)
}.

(** The response [rs] gives the answer of the application to [rq]. *)
Definition server_answers (rq : request) (rs : response) : Prop :=
  response_ok rs /\ exists p pth so eo r,
    received mem host rq p pth so eo r /\ tells (rq_fields rq) p /\
    rs_status rs = ans_code (f r) /\ (exists added, rs_fields rs = ans_fields (f r) ++ added) /\
    rs_content rs = reply_content (ans_body (f r)).

(** A request was answered with [rs]: what is left for the write callback;
    [buf] is in the read buffer. *)
Record replied i (rs : response) (buf : list Z) w w' : Prop := {
  rp_conn : exists n, w_conn w' = (w_conn w) <| c_request := Some i |>
    <| c_body_bytes_read := n |> <| bev_output := render_response rs |> <| bev_input := buf |>;
  rp_htps : w_htps w' = w_htps w;
  rp_ub : w_ub w' = w_ub w;
  rp_cache : cached h w' = tail (cached h w);
  rp_first : cached h w = [] \/ cached h w = i :: tail (cached h w);
  rp_reqs : forall j, j <> i -> w_reqs w' !! j = w_reqs w !! j;
  rp_req : exists r, w_reqs w' !! i = Some r /\ built r /\ r_htp r = Some h /\
    r_conn r = true /\ (forall t, hook_set (r_hooks r) t = None) /\
    has (r_flags r) EVHTP_REQ_FLAG_FINISHED = true /\
    has (r_flags r) EVHTP_REQ_FLAG_KEEPALIVE = true
}.

Lemma flags_kept rq p :
  rq_major rq = 1 -> 1 <= rq_minor rq -> closes (rq_fields rq) = false ->
  tells (rq_fields rq) p -> major p = rq_major rq -> minor p = rq_minor rq ->
  has (head_flags p 0) EVHTP_REQ_FLAG_KEEPALIVE = true /\
  has (head_flags p 0) EVHTP_REQ_FLAG_CHUNKED = false.
Proof.
  intros Hma Hmi Hc [Ht _] Ema Emi. unfold head_flags, htparser_should_keep_alive.
  rewrite Ht, Hc, Ema, Emi, Hma. replace (11 <=? 1 * 10 + rq_minor rq) with true by lia.
  cbn [orb]. by destruct (_ || _).
Qed.

(** Reading never sees the bytes that are not there yet. *)
Lemma ready_input w d :
  ready h host w -> ready h host (w <| w_conn := (w_conn w) <| bev_input := d |> |>).
Proof. intros [[] ? ? ?]. by split. Qed.

(** The parser's run over a whole request. *)
Lemma request_answered rq rest p w :
  (forall r, answer_ok (f r)) ->
  servable rq -> ready h host w -> bev_output (w_conn w) = [] -> plain p -> state p = S_START ->
  exists p' i rs w',
    run_parser mem app after (render rq ++ rest) (p, w) = (length (render rq), (p', w')) /\
    server_answers rq rs /\ replied i rs (bev_input (w_conn w)) w w' /\
    (exists r, w_reqs w' !! i = Some r /\ r_status r = rs_status rs) /\
    plain p' /\ state p' = S_START /\ error p' = htparse_error_none.
Proof.
  intros Hans [] Hw Hbev Hp Hst. destruct sr_version0 as [Hma Hmi].
  pose proof (sv_scratch _ _ _ (rd_serving _ _ _ Hw)) as Hscr.
  destruct sr_routed0 as (pth & cb & arg & so & eo & Hpath & Hcb & Hsel).
  destruct (request_arrives mem Hmem app (after (render rq ++ rest)) h host Hvhosts rq rest p w pth cb arg
    so eo True sr_ok0 Hp Hst Hw Hpath Hsel Hcb sr_query0 sr_form0
    ltac:(done)) as (p' & i & q & w0 & wb & r & Hbg & Hb & Hrv & Hlq & Hfq & Hp' & Hst' & Herr &
    Ht & Hme & Hma' & Hmi' & Hrun).
  pose proof Hb as []. destruct b_from as (n & out & Econn & Hout).
  specialize (Hout I). subst out. destruct (rv_out _ _ _ _ _ _ _ _ Hrv) as [Hbo Hho].
  pose proof Hlq as [= _ _ _ Eqma Eqmi].
  destruct (flags_kept rq p' Hma Hmi sr_stays0 Ht Hma' Hmi') as [Hka Hch].
  pose proof (rv_flags _ _ _ _ _ _ _ _ Hrv) as Hfl. destruct b_serving.
  destruct (respond_sent (f r) i r q wb) as (rs & r' & w2 & E & Hrs & Hcode & Hfields & Hcont & C2 &
    R2 & A2 & hs & Hr'); try done; try lia.
  { unfold chunks_on. by rewrite Hfl. }
  { rewrite (rv_proto _ _ _ _ _ _ _ _ Hrv), Hma. unfold htp__protocol_, char_of.
    pose proof (ok_minor _ sr_ok0). unfold htp__is_http_10_, htp__is_http_11_.
    destruct (Z.leb_spec 128 (rq_minor rq)); [lia|]. cbn [Z.leb].
    destruct (Z.leb_spec (rq_minor rq) 0); [lia|]. by destruct (Z.leb_spec 1 (rq_minor rq)); [|lia]. }
  { rewrite Eqmi, Hmi'. pose proof (ok_minor _ sr_ok0). lia. }
  { unfold htparser_get_multipart, from_option. unfold flag. rewrite (flags_of_has p' q) by done.
    by apply Ht. }
  specialize (Hrun w2).
  exists p', i, rs, w2. split.
  { unfold run_parser. rewrite Hrun; [done|by rewrite Happ with (r := r)|]. by rewrite C2. }
  pose proof (bg_conn _ _ _ _ Hbg) as Cbg.
  destruct (rv_uri _ _ _ _ _ _ _ _ Hrv) as (u & Hu & Hau & _).
  split_and!; try done.
  - split; [done|]. by exists p', pth, so, eo, r.
  - split.
    + exists n. rewrite C2, Econn, Cbg. destruct (w_conn w). cbn in *. by subst.
    + by rewrite (ap_htps _ _ _ A2), (ap_htps _ _ _ b_apart), (bg_htps _ _ _ _ Hbg).
    + by rewrite (ap_ub _ _ _ A2), (ap_ub _ _ _ b_apart), (bg_ub _ _ _ _ Hbg).
    + unfold cached. rewrite (ap_cache _ _ _ A2), (ap_cache _ _ _ b_apart).
      exact (bg_cache _ _ _ _ Hbg).
    + exact (bg_first _ _ _ _ Hbg).
    + intros j Hj. by rewrite (ap_reqs _ _ _ A2), (ap_reqs _ _ _ b_apart), (bg_reqs _ _ _ _ Hbg).
    + exists r'. split; [done|]. rewrite Hr'. cbn. rewrite Hfl, has_on_eq, has_on_ne by done.
      split_and!; try done. unfold built. cbn. destruct b_bufs. split_and!; try done.
      rewrite Hu. by intros ? [= <-].
  - exists r'. split; [done|]. by rewrite Hr'.
Qed.

(** The read buffer starts with a whole request. *)
Lemma readcb_exchange rq rest p w :
  (forall r, answer_ok (f r)) -> servable rq -> open_with (render rq ++ rest) w ->
  plain p -> state p = S_START ->
  exists p' i rs w', htp__connection_readcb_ mem app after (p, w) = (tt, (p', w')) /\
    server_answers rq rs /\ replied i rs rest w w' /\ plain p' /\ state p' = S_START.
Proof.
  intros Hans Hrq Hw Hp Hst. destruct Hw as [].
  destruct (request_answered rq rest p w Hans Hrq oi_ready0 oi_output0 Hp Hst)
    as (p' & i & rs & w2 & Hrun & Hsrv & Hrep & (r & Hr & Hrst) & Hp' & Hst' & Herr).
  destruct (rp_conn _ _ _ _ _ Hrep) as [n Cn]. rewrite oi_input0 in Cn.
  set (w3 := w2 <| w_conn := (w_conn w2) <| bev_input := rest |> |>).
  exists p', i, rs, w3. split; [|split; [done|split; [|done]]].
  2:{ destruct Hrep as [_]. split; try done. exists n. unfold w3. cbn. by rewrite Cn. }
  assert (c_freed (w_conn w2) = false) as Hfr by by rewrite Cn.
  unfold htp__connection_readcb_. rewrite getc_eq, oi_input0 by done.
  rewrite (has_request_none (w_conn w)) by apply oi_ready0. rewrite andb_false_r, run_ret.
  rewrite (sv_running _ _ _ (rd_serving _ _ _ oi_ready0)). unfold when at 1. rewrite run_ret.
  erewrite bind_eq by exact Hrun. rewrite getc_eq by done.
  replace (has (c_flags (w_conn w2)) EVHTP_CONN_FLAG_OWNER) with true by by rewrite Cn.
  assert (c_request (w_conn w2) = Some i) as Hcr by by rewrite Cn.
  rewrite (has_request_some _ _ Hcr), Hcr. cbn [negb]. rewrite (bind_eq _ _ _ (r_status r) (p', w2)).
  2:{ unfold cr_status. by rewrite (with_cur_eq _ _ i r). }
  destruct Hsrv as (Hrs & _). pose proof (ok_rstatus _ Hrs) as Hcode. rewrite <- Hrst in Hcode.
  unfold EVHTP_RES_DATA_TOO_LONG, EVHTP_RES_PAUSE.
  destruct (Z.eqb_spec (r_status r) 4); [lia|]. cbn [andb].
  unfold evbuffer_drain. rewrite bev_op_eq, run_gets by by rewrite Cn. cbn [fst snd].
  replace (drop _ (bev_input (w_conn w2))) with rest by (rewrite Cn; cbn; by rewrite drop_app_length).
  destruct (Z.eqb_spec (r_status r) 1); [lia|].
  unfold htparser_get_error, from_option. rewrite Herr, bool_decide_eq_true_2 by done. cbn [negb].
  fold w3. destruct (_ <? _)%nat; [|done]. apply resume_running; [done|].
  unfold w3. cbn. rewrite Cn. apply oi_ready0.
Qed.

(** The bytes that complete a request arrive, and the read callback handles
    it; the bytes after it stay. *)
Lemma read_exchange rq buf d rest p w :
  (forall r, answer_ok (f r)) -> servable rq -> open_with buf w -> buf ++ d = render rq ++ rest ->
  plain p -> state p = S_START ->
  exists p' i rs w', deliver mem app after (io_data d) (p, w) = (tt, (p', w')) /\
    server_answers rq rs /\ replied i rs rest w w' /\ plain p' /\ state p' = S_START.
Proof.
  intros Hans Hrq Hw Hd Hp Hst.
  set (w1 := w <| w_conn := (w_conn w) <| bev_input := render rq ++ rest |> |>).
  assert (open_with (render rq ++ rest) w1) as Hw1.
  { destruct Hw. split; try done. by apply ready_input. }
  destruct (readcb_exchange rq rest p w1 Hans Hrq Hw1 Hp Hst)
    as (p' & i & rs & w' & E & Hsrv & Hrep & Hp').
  exists p', i, rs, w'. split; [|split; [done|split; [|done]]].
  - destruct Hw. unfold deliver. rewrite run_getw. cbn [snd]. rewrite oi_open0, oi_reading0.
    cbn [orb negb]. rewrite run_upd_conn. cbn [fst snd]. rewrite oi_readcb0. cbn [run_bev_cb].
    by rewrite oi_input0, Hd.
  - destruct Hrep as [[n Cn]]. split; try done. exists n. by rewrite Cn.
Qed.

(** ** The reply has been written *)

(** The current request goes to the cache. *)
Lemma free_current i r p w :
  w_reqs w !! i = Some r -> r_htp r = Some h -> r_conn r = true ->
  unhooked (w_conn w) r evhtp_hook_on_request_fini -> c_request (w_conn w) = Some i ->
  exists w', htp__request_free_ app (Some i) (p, w) = (0, (p, w')) /\
    w_conn w' = (w_conn w) <| c_request := None |> /\ w_htps w' = w_htps w /\
    w_ub w' = w_ub w /\ w_reqs w' = <[i := clear_request r]> (w_reqs w) /\
    cached h w' = i :: cached h w.
Proof.
  intros Hr Hh Hc Hun Hcur. unfold htp__request_free_, recycle_request.
  erewrite bind_eq by by (eapply hook_run_none; [exact Hr|]).
  rewrite (with_req_eq _ _ _ r), Hc, run_upd_conn, Hh by done. cbn [fst snd].
  unfold htp__request_clear_. erewrite run_upd_req by exact Hr. rewrite run_updw.
  eexists. split; [reflexivity|]. split; [|split_and!; try reflexivity].
  - cbn [w_conn set_field eta_fields eta_world fst snd]. by rewrite bool_decide_eq_true_2.
  - unfold cached at 1. cbn. by rewrite lookup_insert_eq.
Qed.

Lemma built_spare r :
  built r -> r_htp r = Some h -> spare h (clear_request r).
Proof.
  intros (Hbi & Hbo & Hhi & Hho & Hu) Hh. split; try done; cbn.
  - intros t. apply hook_set_no_hooks.
  - by destruct Hbi as [? ->], Hbo as [? ->].
  - by rewrite !kvs_clear_fst by done.
  - destruct (r_uri r) as [u|] eqn:E; [right|by left].
    destruct (Hu u eq_refl) as [a Ha]. cbn. by rewrite Ha.
Qed.

(** Keep-alive requests left before the limit. *)
Definition room (n : nat) w : Prop :=
  max_keepalive_requests host = 0 \/
  0 <= c_num_requests (w_conn w) /\
  c_num_requests (w_conn w) + Z.of_nat n < max_keepalive_requests host < 2 ^ 64.

Definition one_more c : evhtp_connection :=
  if 0 <? max_keepalive_requests host
  then c <| c_num_requests := c_num_requests c + 1 |> else c.

Lemma count_request_room i r p w :
  room 1 w -> c_freed (w_conn w) = false -> c_request (w_conn w) = Some i ->
  w_reqs w !! i = Some r ->
  count_request (max_keepalive_requests host) (p, w) =
    (tt, (p, w <| w_conn := one_more (w_conn w) |>)).
Proof.
  intros Hroom Hfr Hc Hr. unfold count_request, one_more.
  destruct (Z.ltb_spec 0 (max_keepalive_requests host)) as [Hpos|_]; [|by destruct w].
  destruct Hroom as [?|(H0 & H1 & H2)]; [lia|].
  rewrite run_upd_conn. cbn [fst snd]. rewrite getc_eq by done.
  cbn [w_conn set_field eta_fields eta_world c_num_requests eta_connection].
  assert (u64 (c_num_requests (w_conn w) + 1) = c_num_requests (w_conn w) + 1) as E.
  { unfold u64. apply Z.mod_small. lia. }
  rewrite E. destruct (Z.leb_spec (max_keepalive_requests host) (c_num_requests (w_conn w) + 1)); [lia|].
  done.
Qed.

(** A server connection whose current request, at [i], is [r]; nobody hooked on. *)
Record current i r w : Prop := {
  cu_alive : c_freed (w_conn w) = false;
  cu_type : c_type (w_conn w) = evhtp_type_server;
  cu_hooks : c_hooks (w_conn w) = None;
  cu_htp : c_htp (w_conn w) = Some h;
  cu_host : w_htps w !! h = Some host;
  cu_req : c_request (w_conn w) = Some i;
  cu_is : w_reqs w !! i = Some r;
  cu_built : built r;
  cu_rhtp : r_htp r = Some h;
  cu_conn : r_conn r = true;
  cu_rhooks : forall t, hook_set (r_hooks r) t = None
}.

Lemma current_conn i r w f0 :
  current i r w -> c_freed (f0 (w_conn w)) = false -> c_type (f0 (w_conn w)) = evhtp_type_server ->
  c_hooks (f0 (w_conn w)) = None -> c_htp (f0 (w_conn w)) = Some h ->
  c_request (f0 (w_conn w)) = Some i -> current i r (w <| w_conn := f0 (w_conn w) |>).
Proof. intros [] ? ? ? ? ?. by split. Qed.

Lemma leave_vhost_same hs c : c_htp c = Some h -> hs !! h = Some host -> leave_vhost hs c = c.
Proof. intros Hc Hs. unfold leave_vhost. rewrite Hc. cbn [mbind option_bind]. by rewrite Hs, Hparent. Qed.

(** [w'']: the request [r] at [i] went to the cache. *)
Record recycled i r w w'' : Prop := {
  ry_conn : w_conn w'' = (w_conn w) <| c_request := None |>
    <| c_flags := flag_on (c_flags (w_conn w)) EVHTP_CONN_FLAG_KEEPALIVE |>
    <| c_body_bytes_read := 0 |>;
  ry_htps : w_htps w'' = w_htps w;
  ry_ub : w_ub w'' = w_ub w;
  ry_reqs : w_reqs w'' = <[i := clear_request r]> (w_reqs w);
  ry_cache : cached h w'' = i :: cached h w
}.

Lemma next_request_eq i r p w :
  current i r w ->
  exists w'', next_request app (p, w) = (tt, (htparser_init htp_type_request p, w'')) /\
    recycled i r w w''.
Proof.
  intros Hw. pose proof Hw as []. unfold next_request, ignore.
  rewrite getc_eq, cu_req0, run_assoc by done.
  destruct (free_current i r p w) as (w1 & E & C & Hh & Hu & Hq & Hc); try done.
  { split; [done|]. by rewrite cu_hooks0. }
  erewrite bind_eq by exact E. rewrite run_ret, run_upd_conn. cbn [fst snd].
  set (c2 := (w_conn w1) <| c_request := None |> <| c_flags := _ |> <| c_body_bytes_read := 0 |>).
  assert (c2 = (w_conn w) <| c_request := None |>
    <| c_flags := flag_on (c_flags (w_conn w)) EVHTP_CONN_FLAG_KEEPALIVE |>
    <| c_body_bytes_read := 0 |>) as E2 by (unfold c2; by rewrite C).
  clearbody c2.
  rewrite getc_eq, run_getw by (cbn; by rewrite E2). cbn [snd w_conn set_field eta_fields eta_world].
  replace (c_type c2) with evhtp_type_server by (rewrite E2; done).
  change (bool_decide (evhtp_type_server = evhtp_type_server)) with true.
  unfold when. rewrite run_upd_conn. cbn [fst snd w_htps w_conn set_field eta_fields eta_world].
  rewrite leave_vhost_same; [|by rewrite E2|by rewrite Hh].
  eexists. split; [reflexivity|]. by split.
Qed.

(** The write callback for a finished keep-alive request, with room for more. *)
Lemma writecb_finished i r p w :
  current i r w -> room 1 w -> has (c_flags (w_conn w)) EVHTP_CONN_FLAG_PAUSED = false ->
  has (c_flags (w_conn w)) EVHTP_CONN_FLAG_WAITING = false -> bev_output (w_conn w) = [] ->
  has (r_flags r) EVHTP_REQ_FLAG_FINISHED = true ->
  has (r_flags r) EVHTP_REQ_FLAG_KEEPALIVE = true ->
  exists w'', htp__connection_writecb_ mem app after (p, w) =
      (tt, (htparser_init htp_type_request p, w'')) /\
    recycled i r (w <| w_conn := one_more (w_conn w) |>) w''.
Proof.
  intros Hw Hroom Hpause Hwait Hout Hfin Hka. pose proof Hw as [].
  unfold htp__connection_writecb_. rewrite getc_eq, run_getw by done. cbn [snd].
  rewrite (has_request_some _ _ cu_req0), cu_htp0. cbn [mbind option_bind].
  rewrite cu_type0, cu_host0, Hpause.
  change (bool_decide (evhtp_type_server = evhtp_type_server)) with true.
  change (bool_decide (Some h = None)) with false. cbn [negb orb andb from_option].
  erewrite bind_eq.
  2:{ unfold htp__hook_connection_write_, conn_hook_run. rewrite getc_eq, cu_hooks0 by done.
      reflexivity. }
  rewrite getc_eq, Hwait, run_ret by done.
  erewrite bind_eq by (rewrite (with_cur_eq _ _ i r) by done; reflexivity).
  rewrite getc_eq, Hfin, Hout by done. cbn [negb orb length Nat.eqb].
  erewrite bind_eq by (eapply count_request_room; [exact Hroom|done|done|done]).
  assert (current i r (w <| w_conn := one_more (w_conn w) |>)) as Hw2.
  { apply current_conn; try done; unfold one_more; by destruct (0 <? _). }
  erewrite bind_eq by (rewrite (with_cur_eq _ _ i r) by apply Hw2; reflexivity).
  rewrite Hka. by apply next_request_eq.
Qed.

(** The connection once the reply is out and the request recycled. *)
Definition written (rs : response) (buf : list Z) (c : evhtp_connection) : evhtp_connection :=
  (one_more c) <| bev_input := buf |> <| bev_sent := bev_sent c ++ render_response rs |>
    <| c_flags := flag_on (c_flags c) EVHTP_CONN_FLAG_KEEPALIVE |> <| c_body_bytes_read := 0 |>.

Lemma written_eq i rs buf n c c1 :
  c_request c = None ->
  c1 = one_more (c <| c_request := Some i |> <| c_body_bytes_read := n |> <| bev_input := buf |>
                   <| bev_sent := bev_sent c ++ render_response rs |>) ->
  c1 <| c_request := None |> <| c_flags := flag_on (c_flags c1) EVHTP_CONN_FLAG_KEEPALIVE |>
     <| c_body_bytes_read := 0 |> = written rs buf c.
Proof.
  intros Hc ->. destruct c. cbn in Hc. subst. unfold written, one_more.
  by destruct (0 <? _).
Qed.

Lemma write_callback i rs buf rest p w w' :
  open_with buf w -> room 1 w -> replied i rs rest w w' ->
  exists r w'', deliver mem app after io_flushed (p, w') =
      (tt, (htparser_init htp_type_request p, w'')) /\
    built r /\ r_htp r = Some h /\
    w_conn w'' = written rs rest (w_conn w) /\ w_htps w'' = w_htps w' /\ w_ub w'' = w_ub w' /\
    w_reqs w'' = <[i := clear_request r]> (w_reqs w') /\ cached h w'' = i :: cached h w'.
Proof.
  intros Hw Hroom [[n Cn] Hh Hub Hca Hfst Hreqs (r & Hr & Hbu & Hrh & Hrc & Hhk & Hfin & Hka)].
  destruct Hw as [Hready ? ? ? ? ? ? ? ? ? ? ?].
  pose proof (rd_serving _ _ _ Hready) as []. pose proof (rd_idle _ _ _ Hready) as Hidle.
  set (c1 := (w_conn w) <| c_request := Some i |> <| c_body_bytes_read := n |> <| bev_input := rest |>
    <| bev_sent := bev_sent (w_conn w) ++ render_response rs |>).
  set (w1 := w' <| w_conn := c1 |>).
  assert (deliver mem app after io_flushed (p, w') = htp__connection_writecb_ mem app after (p, w1)) as ->.
  { unfold deliver. rewrite run_getw. cbn [snd]. rewrite Cn. cbn [bev_freed bev_writing set_field
      eta_fields eta_connection bev_writecb]. rewrite oi_open0, oi_writing0, oi_writecb0.
    cbn [orb negb run_bev_cb]. rewrite run_upd_conn. cbn [fst snd]. do 2 f_equal.
    unfold w1. f_equal. cbn. rewrite Cn. unfold c1. destruct (w_conn w). cbn in *. by subst. }
  assert (current i r w1) as Hcur.
  { split; try done. cbn. by rewrite Hh. }
  destruct (writecb_finished i r p w1) as (w'' & E & [Cr Hr1 Hu1 Hq1 Hc1]); try done.
  exists r, w''. split; [exact E|]. split; [done|]. split; [done|]. split; [|done].
  rewrite Cr. by apply (written_eq i rs rest n).
Qed.

(** ** Exchanges *)

(** One request and one reply: the bytes of the request arrive, the output is
    written. *)
Definition exchange (rq : request) : list io_event := [io_data (render rq); io_flushed].

Lemma init_plain p : plain p -> plain (htparser_init htp_type_request p).
Proof. intros (Hc & _). unfold htparser_init. rewrite Hc. by split_and!. Qed.

Lemma spares_kept i r w w' w'' :
  ready h host w -> built r -> r_htp r = Some h ->
  cached h w' = tail (cached h w) -> cached h w = [] \/ cached h w = i :: tail (cached h w) ->
  (forall j, j <> i -> w_reqs w' !! j = w_reqs w !! j) ->
  w_reqs w'' = <[i := clear_request r]> (w_reqs w') -> cached h w'' = i :: cached h w' ->
  Forall (fun i => exists r, w_reqs w'' !! i = Some r /\ spare h r) (cached h w'') /\
  NoDup (cached h w'').
Proof.
  intros [_ _ Hsp Hnd] Hb Hh Ht Hfst Hq Hq' Hc'. rewrite Hc', Ht.
  assert (i ∉ tail (cached h w)) as Hni.
  { destruct Hfst as [->|E]; [by apply not_elem_of_nil|]. rewrite E in Hnd. by apply NoDup_cons in Hnd as [? _]. }
  split.
  - apply Forall_cons. split.
    + eexists. rewrite Hq', lookup_insert_eq. split; [done|by apply built_spare].
    + apply Forall_forall. intros j Hj. assert (j <> i) by (by intros ->).
      rewrite Hq', lookup_insert_ne, Hq by done.
      apply (proj1 (Forall_forall _ _) Hsp). destruct (cached h w); [done|]. by right.
  - apply NoDup_cons. split; [done|]. by destruct (cached h w); [done|apply NoDup_cons in Hnd as [_ ?]].
Qed.

Lemma written_open rs buf rest w w' :
  open_with buf w -> w_conn w' = written rs rest (w_conn w) -> w_htps w' = w_htps w ->
  Forall (fun i => exists r, w_reqs w' !! i = Some r /\ spare h r) (cached h w') ->
  NoDup (cached h w') -> open_with rest w'.
Proof.
  intros [[[] Hidle _ _] ? ? ? ? ? ? ? ? ? ? ?] C2 Hh Hsp Hnd.
  assert (forall m, Z.land EVHTP_CONN_FLAG_KEEPALIVE m = 0 ->
    has (c_flags (written rs rest (w_conn w))) m = has (c_flags (w_conn w)) m) as Hfl.
  { intros m Hm. by apply has_on_ne. }
  assert (forall {B} (g : evhtp_connection -> B) c,
    (forall x y z v b, g (c <| c_num_requests := v |> <| bev_input := b |> <| bev_sent := x |> <| c_flags := y |> <| c_body_bytes_read := z |>) = g c) ->
    (forall x y z b, g (c <| bev_input := b |> <| bev_sent := x |> <| c_flags := y |> <| c_body_bytes_read := z |>) = g c) ->
    g (written rs rest c) = g c) as Hg.
  { intros B g c H1 H2. unfold written, one_more. destruct (0 <? _); [apply H1|apply H2]. }
  split; rewrite ?C2; rewrite ?Hfl by done; try done; try (rewrite Hg; done).
  split; rewrite ?C2; try done; try (rewrite Hg; done).
  split; rewrite ?C2; rewrite ?Hfl by done; try (rewrite Hg; done); try done.
  by rewrite Hh.
Qed.

(** Bytes that complete the request [rq] arrive, and the output is written. *)
Lemma one_exchange rq buf d rest n p w :
  (forall r, answer_ok (f r)) -> servable rq -> open_with buf w -> buf ++ d = render rq ++ rest ->
  room (S n) w -> plain p -> state p = S_START ->
  exists p' rs w', deliver_all mem app after [io_data d; io_flushed] (p, w) = (tt, (p', w')) /\
    server_answers rq rs /\ open_with rest w' /\ room n w' /\ plain p' /\ state p' = S_START /\
    w_ub w' = w_ub w /\ bev_sent (w_conn w') = bev_sent (w_conn w) ++ render_response rs /\
    resume_pending (w_conn w') = resume_pending (w_conn w).
Proof.
  intros Hans Hrq Hw Hd Hroom Hp Hst.
  destruct (read_exchange rq buf d rest p w Hans Hrq Hw Hd Hp Hst)
    as (p1 & i & rs & w1 & E1 & Hsrv & Hrep & Hp1 & Hst1).
  assert (room 1 w) as Hroom1 by (destruct Hroom as [?|?]; [by left|right; lia]).
  destruct (write_callback i rs buf rest p1 w w1 Hw Hroom1 Hrep)
    as (r & w2 & E2 & Hbu & Hrh & C2 & Hh2 & Hu2 & Hq2 & Hc2).
  destruct Hrep as [_ Hh1 Hu1 Hc1 Hfst Hq1 _].
  destruct (spares_kept i r w w1 w2 (oi_ready _ _ Hw) Hbu Hrh Hc1 Hfst Hq1 Hq2 Hc2) as [Hsp Hnd].
  exists (htparser_init htp_type_request p1), rs, w2. split.
  { cbn [deliver_all]. erewrite bind_eq by exact E1. by erewrite bind_eq by exact E2. }
  split; [done|]. split; [|split; [|split; [by apply init_plain|split; [done|]]]].
  - eapply written_open; [exact Hw|done|by rewrite Hh2, Hh1|done..].
  - destruct Hroom as [?|H3]; [by left|right]. rewrite C2. unfold written, one_more. cbn.
    destruct (Z.ltb_spec 0 (max_keepalive_requests host)); cbn; lia.
  - split; [by rewrite Hu2, Hu1|]. rewrite C2. split; [done|].
    unfold written, one_more. by destruct (0 <? _).
Qed.

(** The server serves one request after the other. *)
Lemma exchanges rqs n p w :
  (forall r, answer_ok (f r)) -> Forall servable rqs -> open_idle w -> room (length rqs + n) w ->
  plain p -> state p = S_START ->
  exists p' rss w', deliver_all mem app after (concat (map exchange rqs)) (p, w) = (tt, (p', w')) /\
    Forall2 server_answers rqs rss /\ open_idle w' /\ room n w' /\ plain p' /\
    state p' = S_START /\ w_ub w' = w_ub w /\
    bev_sent (w_conn w') = bev_sent (w_conn w) ++ concat (map render_response rss).
Proof.
  intros Hans Hrqs. revert p w. induction Hrqs as [|rq rqs Hrq _ IH]; intros p w Hw Hroom Hp Hst.
  - exists p, [], w. cbn [map concat]. rewrite app_nil_r. by repeat (split; [by constructor|]).
  - destruct (one_exchange rq [] (render rq) [] (length rqs + n) p w Hans Hrq Hw)
      as (p1 & rs & w1 & E1 & Hs & Hw1 & Hroom1 & Hp1 & Hst1 & Hu1 & Hb1 & _); try done.
    { by rewrite app_nil_r. }
    destruct (IH p1 w1 Hw1 Hroom1 Hp1 Hst1)
      as (p2 & rss & w2 & E2 & Hss & Hw2 & Hroom2 & Hp2 & Hst2 & Hu2 & Hb2).
    exists p2, (rs :: rss), w2. cbn [map concat]. rewrite deliver_all_app. erewrite bind_eq by exact E1.
    rewrite E2. split; [done|]. split; [by constructor|]. split; [done|]. split; [done|].
    split; [done|]. split; [done|]. split; [by rewrite Hu2|].
    by rewrite Hb2, Hb1, <- app_assoc.
Qed.

(** The client reads one response after the other. *)
Lemma responses_run rss p log rest :
  Forall response_ok rss -> plain_as htp_type_response p -> state p = S_START ->
  exists p', runs (length rss) (concat (map render_response rss) ++ rest) (p, (log, tt)) =
      Some (length (concat (map render_response rss)),
            (p', (log ++ concat (map response_events rss), tt))) /\
    plain_as htp_type_response p' /\ state p' = S_START.
Proof.
  intros Hok. revert p log. induction Hok as [|rs rss Hrs _ IH]; intros p log Hp Hst.
  - exists p. cbn. by rewrite app_nil_r.
  - cbn [map concat length runs]. rewrite <- app_assoc.
    destruct (response_run rs p log (concat (map render_response rss) ++ rest) Hrs Hp Hst)
      as (p1 & E1 & Hp1 & Hst1 & _).
    destruct (IH p1 (log ++ response_events rs) Hp1 Hst1) as (p2 & E2 & Hp2 & Hst2).
    exists p2. rewrite E1. cbn [mbind option_bind]. rewrite drop_app_length, E2.
    cbn [mbind option_bind]. by rewrite length_app, <- app_assoc.
Qed.

(** C1: a keep-alive connection serves its requests, end to end.  An idle
    connection of a server without virtual hosts or hooks on the connection,
    whose callbacks answer with any header fields and body that leave the
    framing to the library, receives well-formed HTTP/1.1 requests, each when
    the reply to the one before it has been written, at most as many as
    [max_keepalive_requests] leaves room for.  Each is taken off the read
    buffer, parsed, built into a new or recycled request, routed, answered,
    and the connection is idle again; there is no undefined behaviour; and a
    client that runs the parser over the bytes sent reads back one well-formed
    response per request, in order, with the status, the fields (and what the
    library adds after them) and the body of the application's answer to that
    request. *)
Theorem keepalive_served rqs p w c log :
  (forall r, answer_ok (f r)) -> Forall servable rqs -> open_idle w -> room (length rqs) w ->
  plain p -> state p = S_START -> plain_as htp_type_response c -> state c = S_START ->
  exists rss bs p' w' c',
    deliver_all mem app after (concat (map exchange rqs)) (p, w) = (tt, (p', w')) /\
    open_idle w' /\ plain p' /\ state p' = S_START /\ w_ub w' = w_ub w /\
    bev_sent (w_conn w') = bev_sent (w_conn w) ++ bs /\
    Forall2 server_answers rqs rss /\
    runs (length rqs) bs (c, (log, tt)) =
      Some (length bs, (c', (log ++ concat (map response_events rss), tt))).
Proof.
  intros Hans Hrqs Hw Hroom Hp Hst Hc Hsc.
  destruct (exchanges rqs 0 p w Hans Hrqs Hw) as
    (p' & rss & w' & E & Hss & Hw' & _ & Hp' & Hst' & Hu & Hb); try done.
  { by rewrite Nat.add_0_r. }
  assert (Forall response_ok rss) as Hok.
  { clear - Hss. induction Hss as [|? ? ? ? [? _] _ IH]; by constructor. }
  destruct (responses_run rss c log [] Hok Hc Hsc) as (c' & Er & _).
  rewrite app_nil_r, <- (Forall2_length _ _ _ Hss) in Er. by eexists rss, _, p', w', c'.
Qed.

(** C21: a request that arrives in one piece with the one before it waits.  Two
    well-formed requests sent back to back reach the read buffer together: only
    the first is served.  When its reply has been written the connection is
    idle with the whole second request in its read buffer; no event is pending
    that would serve it (evhtp_connection_resume, called for it, does nothing
    on a connection that is not paused), and the client waits for its answer.
    It is served when more bytes arrive: here a third request, which then waits
    in its turn. *)
Theorem pipelined_request_waits rq1 rq2 rq3 p w :
  (forall r, answer_ok (f r)) -> servable rq1 -> servable rq2 -> open_idle w -> room 2 w ->
  plain p -> state p = S_START -> resume_pending (w_conn w) = false ->
  exists p1 rs1 w1 p2 rs2 w2,
    deliver_all mem app after [io_data (render rq1 ++ render rq2); io_flushed] (p, w) =
      (tt, (p1, w1)) /\
    server_answers rq1 rs1 /\ open_with (render rq2) w1 /\
    resume_pending (w_conn w1) = false /\ w_ub w1 = w_ub w /\
    bev_sent (w_conn w1) = bev_sent (w_conn w) ++ render_response rs1 /\
    deliver_all mem app after [io_data (render rq3); io_flushed] (p1, w1) = (tt, (p2, w2)) /\
    server_answers rq2 rs2 /\ open_with (render rq3) w2 /\
    bev_sent (w_conn w2) = bev_sent (w_conn w1) ++ render_response rs2.
Proof.
  intros Hans Hrq1 Hrq2 Hw Hroom Hp Hst Hpend.
  destruct (one_exchange rq1 [] (render rq1 ++ render rq2) (render rq2) 1 p w Hans Hrq1 Hw eq_refl
    Hroom Hp Hst) as (p1 & rs1 & w1 & E1 & Hs1 & Hw1 & Hroom1 & Hp1 & Hst1 & Hu1 & Hb1 & Hp1').
  destruct (one_exchange rq2 (render rq2) (render rq3) (render rq3) 0 p1 w1 Hans Hrq2 Hw1 eq_refl
    Hroom1 Hp1 Hst1) as (p2 & rs2 & w2 & E2 & Hs2 & Hw2 & _ & _ & _ & _ & Hb2 & _).
  exists p1, rs1, w1, p2, rs2, w2. rewrite Hp1', Hpend. by split_and!.
Qed.
End Serve.

(** ** Witness: two chunked POSTs, answered "hello" *)

Definition hello (_ : evhtp_request) : answer :=
  {| ans_code := 200; ans_fields := [(bytes "X", bytes "y")]; ans_body := bytes "hello" |}.
Definition hello_app : App (H := no_regex) unit := {|
  app_hook := fun _ _ _ _ _ => ret EVHTP_RES_OK;
  app_cb := fun i _ _ s =>
    match w_reqs (snd s) !! i with
    | Some r => respond (fun _ => true) (hello r) i s
    | None => (tt, s)
    end;
  app_conn := fun _ _ _ _ => ret EVHTP_RES_OK; app_accept := fun _ _ => ret EVHTP_RES_OK
|}.
Definition hello_conn : evhtp_connection :=
  (zero_connection (Some 0%nat) 0 evhtp_type_server) <| c_bev := true |> <| bev_reading := true |>
    <| bev_writing := true |> <| resume_ev := true |> <| bev_readcb := htp__connection_readcb |>
    <| bev_writecb := htp__connection_writecb |> <| bev_eventcb := htp__connection_eventcb |>.
Definition hello_world : world (H := no_regex) unit := {|
  w_conn := hello_conn; w_reqs := ∅; w_cache := ∅; w_htps := {[0%nat := noting_host]};
  w_allocs := 0; w_ub := false; w_app := tt |}.

Lemma hello_ok r : answer_ok (hello r).
Proof.
  split.
  - exact (sn_fields _ _ _ _ (sample_sendable false)).
  - exact sample_unframed.
  - by apply Forall_singleton.
  - cbn. lia.
  - by right.
  - vm_compute. done.
Qed.

Lemma hello_idle : open_idle 0 noting_host hello_world.
Proof. split; try done. split; [by split|done|constructor|constructor]. Qed.

Lemma sample_servable : servable (fun _ => true) 0 noting_host sample_request.
Proof.
  split; try done; [exact sample_request_ok|..].
  - exists sample_path, 7, 8, 0, 2. by split_and!.
  - intros q [= <-] k u. vm_compute. reflexivity.
  - left. by eexists.
Qed.

Lemma keepalive_served_witness :
  exists rss bs p' w' c',
    deliver_all (fun _ => true) hello_app (fun _ _ => [CR; LF])
      (concat (map exchange [sample_request; sample_request]))
      (p_init htp_type_request, hello_world) = (tt, (p', w')) /\
    open_idle 0 noting_host w' /\ plain p' /\ state p' = S_START /\ w_ub w' = false /\
    bev_sent (w_conn w') = [] ++ bs /\
    Forall2 (server_answers (fun _ => true) noting_host hello) [sample_request; sample_request] rss /\
    runs 2 bs (p_init htp_type_response, ([], tt)) =
      Some (length bs, (c', ([] ++ concat (map (response_events (lib := ref_lib)) rss), tt))).
Proof.
  apply (keepalive_served (laws := ref_laws) (fun _ => true) (fun _ => eq_refl) hello_app
    (fun _ _ => [CR; LF]) 0 noting_host eq_refl hello); try reflexivity.
  - intros i cb arg q w r Hr. cbn [app_cb hello_app snd]. by rewrite Hr.
  - exact hello_ok.
  - repeat (apply Forall_cons; split); try done; exact sample_servable.
  - exact hello_idle.
  - by left.
  - by repeat split.
  - by repeat split.
Defined.

Lemma pipelined_request_waits_witness :
  exists p1 rs1 w1 p2 rs2 w2,
    deliver_all (fun _ => true) hello_app (fun _ _ => [CR; LF])
      [io_data (render sample_request ++ render sample_request); io_flushed]
      (p_init htp_type_request, hello_world) = (tt, (p1, w1)) /\
    server_answers (fun _ => true) noting_host hello sample_request rs1 /\
    open_with 0 noting_host (render sample_request) w1 /\
    resume_pending (w_conn w1) = false /\ w_ub w1 = false /\
    bev_sent (w_conn w1) = [] ++ render_response rs1 /\
    deliver_all (fun _ => true) hello_app (fun _ _ => [CR; LF])
      [io_data (render sample_request); io_flushed] (p1, w1) = (tt, (p2, w2)) /\
    server_answers (fun _ => true) noting_host hello sample_request rs2 /\
    open_with 0 noting_host (render sample_request) w2 /\
    bev_sent (w_conn w2) = bev_sent (w_conn w1) ++ render_response rs2.
Proof.
  apply (pipelined_request_waits (laws := ref_laws) (fun _ => true) (fun _ => eq_refl) hello_app
    (fun _ _ => [CR; LF]) 0 noting_host eq_refl hello); try reflexivity.
  - intros i cb arg q w r Hr. cbn [app_cb hello_app snd]. by rewrite Hr.
  - exact hello_ok.
  - exact sample_servable.
  - exact sample_servable.
  - exact hello_idle.
  - by left.
  - by repeat split.
Defined.
