(* ===== verification/ConnInv.v ===== *)
(** * evhtp.c: HTTP/1 connections, their invariant

    [live cur]: a server's HTTP/1 connection in use, [cur] its current request:
    its bufferevent calls the connection, and only it; the current request is
    whole and waits in no cache; the requests that wait in caches are apart.
    [keep cur u] adds, if [u], that the current request has its URI.  The rules
    are about what the library's functions do to it; ConnSafe.v goes through
    the callbacks of the parser and of the bufferevent. *)

From S2P Require Import Prelude HtpTypes HtString MsgParser Triples Kvs Query Callbacks Uri Request ReqParse ReqFacts Conn.
From stdpp Require Import gmap.
#[local] Open Scope Z_scope.
#[local] Open Scope htp_scope.

(** ** What the application's tables have to be *)

Section Hosts.
Context `{rx : RegexLib}.

(** The patterns, which are C strings. *)
Definition pattern_ok (g : list Z) : Prop := head g <> Some 0.
Definition host_ok (h : evhtp) : Prop :=
  (forall l cb g, callbacks h = Some l -> cb ∈ l -> cb_val cb = val_glob g -> pattern_ok g) /\
  (forall s, server_name h = Some s -> pattern_ok s) /\
  (forall a, Some a ∈ aliases h -> pattern_ok a).
Definition hosts_ok (hs : htps) : Prop := forall i h, hs !! i = Some h -> host_ok h.

Lemma pattern_matches g s : pattern_ok g -> is_Some (htp__glob_match_ g (s ++ [0]) (length s)).
Proof.
  intros Hg. destruct (glob_match_spec g s [0]) as (b & -> & _); [|done].
  right. intros c Hc E. cbn in E. apply Hg. by rewrite Hc, E.
Qed.

Lemma callback_find_some h path : host_ok h -> is_Some (htp__callback_find_ (callbacks h) path).
Proof.
  intros (Hcb & _). unfold htp__callback_find_. destruct (callbacks h) as [l|] eqn:E; [|done].
  specialize (Hcb l). clear E. induction l as [|cb l IH]; [done|]. cbn [callback_find_loop].
  assert (is_Some (callback_find_loop l path)) as Hl.
  { apply IH. intros cb' g _ Hin. apply Hcb; [done|by right]. }
  destruct (cb_val cb) as [s|g|r] eqn:Ev.
  - by case_match.
  - destruct (pattern_matches g path) as [[] ->]; [|done..]. by eapply (Hcb cb); [|left|].
  - repeat case_match; done.
Qed.
Lemma select_callback_some h r p : host_ok h -> is_Some (select_callback h r p).
Proof.
  intros Hh. unfold select_callback.
  destruct (callback_find_some h (full p) Hh) as [[[[cb so] eo]|] ->]; [done|].
  destruct (callback_find_some h (default [] (path p)) Hh) as [[[[cb so] eo]|] ->]; [done|].
  by case_match.
Qed.

(** The match of a name ends with it: [rest] are the bytes that follow. *)
Definition stops (name rest g : list Z) : Prop :=
  name <> [] \/ forall c, head g = Some c -> c <> nth 0 rest 0.
Lemma stops_match g name rest :
  stops name rest g -> is_Some (htp__glob_match_ g (name ++ rest) (length name)).
Proof. intros Hs. by destruct (glob_match_spec g name rest Hs) as (b & -> & _). Qed.
Lemma pattern_stops g name : pattern_ok g -> stops name [0] g.
Proof. intros Hg. right. intros c Hc E. cbn in E. apply Hg. by rewrite Hc, E. Qed.
Definition names_stop (name rest : list Z) (h : evhtp) : Prop :=
  (forall s, server_name h = Some s -> stops name rest s) /\
  (forall a, Some a ∈ aliases h -> stops name rest a).

Lemma alias_match_some l name rest :
  (forall a, Some a ∈ l -> stops name rest a) -> is_Some (alias_match l (name ++ rest) (length name)).
Proof.
  induction l as [|[a|] l IH]; intros Hl; cbn [alias_match]; [done| |].
  - destruct (stops_match a name rest) as [[] ->]; [apply Hl; left|done|].
    apply IH. intros a' Ha. apply Hl. by right.
  - apply IH. intros a' Ha. apply Hl. by right.
Qed.
(** The virtual host found exists. *)
Lemma find_vhost_ends hs h name rest :
  (forall i hv, hs !! i = Some hv -> names_stop name rest hv) ->
  exists r, htp__request_find_vhost_ hs h (name ++ rest) (length name) = Some r /\
    forall v, r = Some v -> is_Some (hs !! v).
Proof.
  intros Hhs. unfold htp__request_find_vhost_.
  induction (vhosts h) as [|v l IH]; cbn [find_vhost_loop]; [by exists None|].
  destruct (hs !! v) as [hv|] eqn:Ev; [|done]. destruct (Hhs _ _ Ev) as (Hs & Ha).
  destruct (server_name hv) as [s|]; [|done].
  destruct (stops_match s name rest) as [[] ->]; [by apply Hs| |].
  { exists (Some v). split; [done|]. by intros ? [= <-]. }
  destruct (alias_match_some (aliases hv) name rest) as [[] ->]; [done| |done].
  exists (Some v). split; [done|]. by intros ? [= <-].
Qed.
Lemma find_vhost_some hs h name :
  hosts_ok hs -> exists r, htp__request_find_vhost_ hs h (name ++ [0]) (length name) = Some r /\
    forall v, r = Some v -> is_Some (hs !! v).
Proof.
  intros Hhs. apply find_vhost_ends. intros i hv Ev. destruct (Hhs _ _ Ev) as (_ & Hs & Ha).
  split; intros g Hg; apply pattern_stops; auto.
Qed.
End Hosts.

(** With enough memory a path is made. *)
Lemma path_new_some (mem : nat -> bool) (Hmem : forall k, mem k = true) n p : exists pth, htp__path_new_ (fun k => mem (n + k)%nat) p = Some pth.
Proof.
  unfold htp__path_new_, split_path, htp__strdup_, htp__strndup_. rewrite !Hmem. cbn [negb].
  repeat case_match; simplify_eq/=; eauto.
Qed.

(** ** The invariant *)

(** The callbacks whose argument is the connection, and those installed when
    it is freed, which only use the bufferevent. *)
Definition conn_cb (cb : bev_cb) : bool :=
  match cb with
  | cb_null | htp__connection_readcb | htp__connection_writecb | htp__connection_eventcb => true
  | cb_freecb | cb_sslfreecb | cb_ssleventcb | htp__h2_connection_readcb => false
  end.
Definition free_cb (cb : bev_cb) : bool :=
  match cb with cb_null | cb_freecb | cb_sslfreecb | cb_ssleventcb => true | _ => false end.

Section Invariant.
Context `{rx : RegexLib} {A : Type}.
Abbreviation W := (world A).
Implicit Types (w : W) (c : evhtp_connection) (r : evhtp_request) (cur : option nat).

(** The lengths of a header's name and value are within them. *)
Definition bounded_kv (kv : evhtp_kv) : Prop :=
  (klen kv <= length (default [] (key kv)))%nat /\ (vlen kv <= length (default [] (val kv)))%nat.
(** A request with all of its parts. *)
Record whole r : Prop := {
  wh_htp : is_Some (r_htp r);
  wh_in : is_Some (headers_in r);
  wh_out : is_Some (headers_out r);
  wh_bin : is_Some (buffer_in r);
  wh_bout : is_Some (buffer_out r);
  wh_fields : Forall bounded_kv (default [] (headers_out r))
}.
(** A server's connection in use. *)
Record live_conn c : Prop := {
  lc_freed : c_freed c = false;
  lc_bev : c_bev c = true;
  lc_bev_live : bev_freed c = false;
  lc_type : c_type c = evhtp_type_server;
  lc_scratch : is_Some (scratch_buf c);
  lc_resume : resume_ev c = true;
  lc_read : conn_cb (bev_readcb c);
  lc_write : conn_cb (bev_writecb c);
  lc_event : conn_cb (bev_eventcb c)
}.
(** The virtual hosts: the bytes that may follow an empty Host value match none
    of their names; a virtual host's parent exists. *)
Record tables_ok (hs : htps) : Prop := {
  tb_hosts : hosts_ok hs;
  tb_names : forall i h rest, hs !! i = Some h ->
    nth 0 rest 0 ∈ [0; SP; HTAB; CR; LF] -> names_stop [] rest h;
  tb_parent : forall i h p, hs !! i = Some h -> parent h = Some p -> is_Some (hs !! p)
}.

Record live cur w : Prop := {
  lv_ub : w_ub w = false;
  lv_conn : live_conn (w_conn w);
  lv_cur : c_request (w_conn w) = cur;
  lv_htp : exists h, c_htp (w_conn w) = Some h /\ is_Some (w_htps w !! h);
  lv_tables : tables_ok (w_htps w);
  lv_open : forall i, cur = Some i -> exists r, w_reqs w !! i = Some r /\ r_conn r = true;
  lv_reqs : forall i r, w_reqs w !! i = Some r -> whole r /\ (i < w_allocs w)%nat;
  lv_cache : forall h l, w_cache w !! h = Some l -> NoDup l /\
    (forall i, i ∈ l -> is_Some (w_reqs w !! i) /\ cur <> Some i) /\
    (forall h' l' i, h' <> h -> w_cache w !! h' = Some l' -> i ∈ l -> i ∉ l')
}.
Record keep cur (u : bool) w : Prop := {
  kp_live : live cur w;
  kp_known : u = true -> exists i r, cur = Some i /\ w_reqs w !! i = Some r /\ is_Some (r_uri r)
}.
Abbreviation triple_ := (triple (W := W)).

Lemma live_keep cur w : live cur w -> keep cur false w.
Proof. by split. Qed.
Lemma keep_forget cur u w : keep cur u w -> keep cur false w.
Proof. intros []. by split. Qed.

(** *** Updates that keep it *)

(** The update of a request. *)
Record same_request (f : evhtp_request -> evhtp_request) : Prop := {
  sq_conn : forall r, r_conn (f r) = r_conn r;
  sq_uri : forall r, is_Some (r_uri r) -> is_Some (r_uri (f r));
  sq_whole : forall r, whole r -> whole (f r)
}.
(** The update of a connection that stays with its host and its request. *)
Definition same_live (f : evhtp_connection -> evhtp_connection) : Prop :=
  forall c, c_htp (f c) = c_htp c /\ c_request (f c) = c_request c /\ (live_conn c -> live_conn (f c)).

Lemma live_conn_upd cur c w :
  live cur w -> live_conn c -> c_request c = cur ->
  (exists h, c_htp c = Some h /\ is_Some (w_htps w !! h)) -> live cur (w <| w_conn := c |>).
Proof. intros [] Hc Hr Hh. by split. Qed.
Lemma k_upd_conn cur u f : same_live f -> safe (keep cur u) (upd_conn (A := A) f).
Proof.
  intros Hf [p w] [Hl Hu]. split; [|exact Hu]. cbn in *.
  destruct (Hf (w_conn w)) as (Eh & Er & Hc). pose proof Hl as [].
  apply live_conn_upd; [done|by apply Hc|by rewrite Er|by rewrite Eh].
Qed.
(** Between requests. *)
Lemma k_no_request f :
  (forall c, c_request c = None -> c_htp (f c) = c_htp c /\ c_request (f c) = None /\ (live_conn c -> live_conn (f c))) ->
  safe (live None) (upd_conn (A := A) f).
Proof.
  intros Hf [p w] Hl. cbn in *. pose proof Hl as []. destruct (Hf _ lv_cur0) as (Eh & Er & Hc).
  apply live_conn_upd; [done|by apply Hc|done|by rewrite Eh].
Qed.
Lemma k_upd_bev cur u f : same_live f -> safe (keep cur u) (upd_bev (A := A) f).
Proof.
  intros Hf [p w] Hw. unfold upd_bev. rewrite run_getw. cbn [snd] in *.
  rewrite (lc_bev_live _ (lv_conn _ _ (kp_live _ _ _ Hw))). by apply (k_upd_conn cur u f Hf (p, w)).
Qed.
Lemma k_alloc cur u n : safe (keep cur u) (allocs (A := A) n).
Proof.
  intros [p w] [[] Hu]. cbn in *. split; [|exact Hu]. split; try done.
  intros i r Hr. destruct (lv_reqs0 i r Hr). cbn. split; [done|lia].
Qed.
Lemma k_upd_req cur u i f : same_request f -> safe (keep cur u) (upd_req (A := A) i f).
Proof.
  intros [] [p w] [[] Hu]. cbn in *.
  assert (forall j r', alter f i (w_reqs w) !! j = Some r' ->
    exists r, w_reqs w !! j = Some r /\ (r' = r \/ r' = f r)) as Hback.
  { intros j r' Hr'. apply lookup_alter_Some in Hr' as [(-> & r & Hr & ->)|(Hne & Hr)]; eauto. }
  assert (forall j r, w_reqs w !! j = Some r ->
    exists r', alter f i (w_reqs w) !! j = Some r' /\ (r' = r \/ r' = f r)) as Hto.
  { intros j r Hr. destruct (decide (i = j)) as [->|Hne].
    - exists (f r). rewrite lookup_alter, decide_True, Hr by done. auto.
    - exists r. rewrite lookup_alter_ne; auto. }
  split; [split; try done|].
  - intros j Hj. destruct (lv_open0 j Hj) as (r & Hr & Hc). destruct (Hto j r Hr) as (r' & Hr' & E).
    exists r'. split; [done|]. destruct E as [-> | ->]; [done|by rewrite sq_conn0].
  - intros j r' Hr'. destruct (Hback j r' Hr') as (r & Hr & E). destruct (lv_reqs0 j r Hr) as [Hw Hlt].
    split; [|done]. destruct E as [-> | ->]; auto.
  - intros h l Hl. destruct (lv_cache0 h l Hl) as (Hn & Hin & Hd). split_and!; [done| |done].
    intros j Hj. destruct (Hin j Hj) as ((r & Hr) & Hc). split; [|done].
    destruct (Hto j r Hr) as (r' & Hr' & _). by exists r'.
  - intros E. destruct (Hu E) as (j & r & Hc & Hr & Hs). destruct (Hto j r Hr) as (r' & Hr' & E').
    exists j, r'. split_and!; [done..|]. destruct E' as [-> | ->]; auto.
Qed.

(** *** Rules *)

Lemma t_read {D C} (P : W -> Prop) Q (f : W -> D) (k : D -> M (St W) C) :
  (forall w, P w -> triple_ P (k (f w)) Q) -> triple_ P (bind (getw f) k) Q.
Proof. intros Hk [p w] Hw. rewrite run_getw. by apply (Hk w). Qed.

Lemma keep_request i u w : keep (Some i) u w -> exists r, w_reqs w !! i = Some r /\ r_conn r = true /\ whole r.
Proof.
  intros [Hl _]. destruct (lv_open _ _ Hl i eq_refl) as (r & Hr & Hc). exists r.
  split_and!; [done..|]. by eapply (lv_reqs _ _ Hl).
Qed.
Lemma k_with_req i u k Q :
  (forall r, whole r -> r_conn r = true -> triple_ (keep (Some i) u) (k r) Q) ->
  triple_ (keep (Some i) u) (with_req i k) Q.
Proof.
  intros Hk. apply t_read. intros w Hw. destruct (keep_request _ _ _ Hw) as (r & -> & Hc & Hf). by apply Hk.
Qed.
Lemma k_with_cur i u k Q :
  (forall r, whole r -> r_conn r = true -> triple_ (keep (Some i) u) (k i r) Q) ->
  triple_ (keep (Some i) u) (with_cur k) Q.
Proof.
  intros Hk. apply t_read. intros w Hw. rewrite (lv_cur _ _ (kp_live _ _ _ Hw)). by apply k_with_req.
Qed.
(** The request is known to have its URI. *)
Lemma k_with_req_uri i k Q :
  (forall r u, whole r -> r_conn r = true -> triple_ (keep (Some i) true) (k r u) Q) ->
  triple_ (keep (Some i) true) (with_req i (fun r => with_uri r (k r))) Q.
Proof.
  intros Hk [p w] Hw. cbn in Hw. destruct (keep_request _ _ _ Hw) as (r & Hr & Hc & Hf).
  rewrite (with_req_eq _ _ _ r) by done. destruct (kp_known _ _ _ Hw eq_refl) as (j & r' & [= <-] & Hr' & [u Eu]).
  assert (r' = r) as -> by congruence. unfold with_uri. rewrite Eu. by apply (Hk r u Hf Hc (p, w)).
Qed.
Lemma k_with_cur_uri i k Q :
  (forall r u, whole r -> r_conn r = true -> triple_ (keep (Some i) true) (k i r u) Q) ->
  triple_ (keep (Some i) true) (with_cur (fun i r => with_uri r (k i r))) Q.
Proof.
  intros Hk. apply t_read. intros w Hw. rewrite (lv_cur _ _ (kp_live _ _ _ Hw)).
  by apply (k_with_req_uri i (k i)).
Qed.
Lemma k_getc {C} cur u (k : evhtp_connection -> M (St W) C) Q :
  (forall c, live_conn c -> c_request c = cur -> triple_ (keep cur u) (k c) Q) ->
  triple_ (keep cur u) (c <- getc ;; k c) Q.
Proof.
  intros Hk [p w] Hw. pose proof (kp_live _ _ _ Hw) as Hl. cbn [snd] in Hl.
  unfold getc. rewrite run_assoc, run_getw. cbn [snd]. rewrite (lc_freed _ (lv_conn _ _ Hl)), run_ret.
  by apply (Hk _ (lv_conn _ _ Hl) (lv_cur _ _ Hl)).
Qed.
Lemma k_getbev {C} cur u (k : evhtp_connection -> M (St W) C) Q :
  (forall c, live_conn c -> c_request c = cur -> triple_ (keep cur u) (k c) Q) ->
  triple_ (keep cur u) (c <- getbev ;; k c) Q.
Proof.
  intros Hk. unfold getbev. apply t_assoc, k_getc. intros c Hc Hr. rewrite (lc_bev _ Hc).
  by apply t_ret_bind, Hk.
Qed.
(** The connection and its host, read together. *)
Lemma k_host {C} cur u (k : evhtp_connection -> htps -> M (St W) C) Q :
  (forall c hs h host, c_request c = cur -> live_conn c -> c_htp c = Some h -> hs !! h = Some host -> tables_ok hs ->
     triple_ (keep cur u) (k c hs) Q) ->
  triple_ (keep cur u) (c <- getw w_conn ;; hs <- getw w_htps ;; k c hs) Q.
Proof.
  intros Hk [p w] Hw. rewrite !run_getw. cbn [snd]. pose proof (kp_live _ _ _ Hw) as Hl. cbn in Hl.
  destruct (lv_htp _ _ Hl) as (h & Hh & [host Hhost]). by eapply (Hk _ _ h host); [apply Hl..|done|done|apply Hl|].
Qed.
Lemma k_set_status i u v : safe (keep (Some i) u) (set_cr_status (A := A) v).
Proof.
  apply t_to_safe, k_with_cur. intros r _ _. apply t_after; [|intros _; by apply t_ret].
  apply k_upd_req. split; [by intros []..|by intros [] []].
Qed.
Lemma k_fatal i u : safe (keep (Some i) u) (fatal (A := A)).
Proof. apply safe_bind; [apply k_set_status|intros _; apply safe_ret]. Qed.
(** The current request gets its URI. *)
Lemma k_set_uri i x :
  triple_ (keep (Some i) false) (upd_req i (fun r => r <| r_uri := Some x |>)) (fun _ => keep (Some i) true).
Proof.
  intros s Hs. pose proof (k_upd_req (Some i) false i (fun r => r <| r_uri := Some x |>)) as Hk.
  destruct (keep_request _ _ _ Hs) as (r & Hr & _).
  specialize (Hk ltac:(split; [by intros []..|by intros [] []]) s Hs). destruct Hk as [Hl _]. split; [done|].
  intros _. exists i. cbn. rewrite lookup_alter_eq, Hr. by eexists.
Qed.

(** *** Requests that come and go *)

Lemma whole_clear r : whole r -> whole (clear_request r).
Proof.
  intros [Hh Hi Ho [b Eb] [b' Eb'] _].
  assert (headers_in (clear_request r) = Some []) as Ei by by apply kvs_clear_fst.
  assert (headers_out (clear_request r) = Some []) as Eo by by apply kvs_clear_fst.
  split; rewrite ?Ei, ?Eo; try done.
  - change (is_Some ((fun _ => @nil Z) <$> buffer_in r)). by rewrite Eb.
  - change (is_Some ((fun _ => @nil Z) <$> buffer_out r)). by rewrite Eb'.
Qed.

(** The current request is recycled. *)
Definition dropped (i h : nat) w : W :=
  w <| w_conn := (w_conn w) <| c_request := None |> |>
    <| w_reqs := alter clear_request i (w_reqs w) |>
    <| w_cache := <[h := i :: default [] (w_cache w !! h)]> (w_cache w) |>.
Lemma dropped_live i h w : live (Some i) w -> live None (dropped i h w).
Proof.
  intros []. destruct (lv_open0 i eq_refl) as (ri & Hri & _).
  assert (forall j, is_Some (w_reqs (dropped i h w) !! j) <-> is_Some (w_reqs w !! j)) as Hdom.
  { intros j. cbn. apply lookup_alter_is_Some. }
  assert (forall h' l j, w_cache w !! h' = Some l -> j ∈ l -> j <> i) as Hold.
  { intros h' l j Hh Hj ->. destruct (lv_cache0 h' l Hh) as (_ & Hin & _). by destruct (Hin i Hj). }
  assert (forall h' l, w_cache (dropped i h w) !! h' = Some l ->
    exists l0, (l = l0 \/ h' = h /\ l = i :: l0) /\ (w_cache w !! h' = Some l0 \/ l0 = [])) as Hc.
  { intros h' l Hl. cbn in Hl. destruct (decide (h' = h)) as [->|Hne].
    - rewrite lookup_insert_eq in Hl. injection Hl as <-. exists (default [] (w_cache w !! h)).
      split; [by right|]. destruct (w_cache w !! h); [by left|by right].
    - rewrite lookup_insert_ne in Hl by done. exists l. split; [by left|by left]. }
  assert (forall h' l0, w_cache w !! h' = Some l0 \/ l0 = [] -> NoDup l0 /\
    (forall j, j ∈ l0 -> is_Some (w_reqs w !! j) /\ j <> i)) as Hl0.
  { intros h' l0 [Hh| ->]; [|split; [constructor|by inversion 1]].
    destruct (lv_cache0 h' l0 Hh) as (Hn & Hin & _). split; [done|]. intros j Hj.
    split; [by apply Hin|by eapply Hold]. }
  split; try done.
  - destruct lv_conn0. by split.
  - intros j r' Hr'. cbn in Hr'. apply lookup_alter_Some in Hr' as [(<- & r0 & Hr0 & ->)|(Hne & Hr')].
    + destruct (lv_reqs0 i r0 Hr0). split; [by apply whole_clear|done].
    + by apply lv_reqs0.
  - intros h' l Hl. destruct (Hc h' l Hl) as (l0 & Hl0' & Hc0). destruct (Hl0 h' l0 Hc0) as (Hn & Hin).
    split_and!.
    + destruct Hl0' as [->|[_ ->]]; [done|]. constructor; [|done]. intros Hi. by destruct (Hin i Hi).
    + intros j Hj. split; [|done]. apply Hdom.
      destruct Hl0' as [->|[_ ->]]; [by apply Hin|]. apply elem_of_cons in Hj as [->|Hj]; [by eexists|by apply Hin].
    + intros h'' l' j Hne Hl' Hj Hj'. destruct (Hc h'' l' Hl') as (l1 & Hl1' & Hc1).
      destruct (Hl0 h'' l1 Hc1) as (_ & Hin1).
      assert (j ∈ l0 -> j ∈ l1 -> False) as Hd.
      { intros H0 H1. destruct Hc0 as [Hc0| ->]; [|by inversion H0]. destruct Hc1 as [Hc1| ->]; [|by inversion H1].
        destruct (lv_cache0 h' l0 Hc0) as (_ & _ & Hd). by eapply Hd. }
      destruct Hl0' as [->|[-> ->]], Hl1' as [->|[-> ->]]; [by apply Hd|..].
      * apply elem_of_cons in Hj' as [->|Hj']; [by destruct (Hin i Hj)|by apply Hd].
      * apply elem_of_cons in Hj as [->|Hj]; [by destruct (Hin1 i Hj')|by apply Hd].
      * done.
Qed.
(** A request that is free becomes the current one. *)
Definition taken (i : nat) r (cache : gmap nat (list nat)) (n : nat) w : W :=
  w <| w_allocs := n |> <| w_reqs := <[i := r]> (w_reqs w) |> <| w_cache := cache |>
    <| w_conn := (w_conn w) <| c_request := Some i |> |>.
Lemma taken_live i r cache n w :
  live None w -> whole r -> r_conn r = true -> (i < n)%nat -> (w_allocs w <= n)%nat ->
  (forall h l', cache !! h = Some l' -> exists l, w_cache w !! h = Some l /\ NoDup l' /\
     (i ∉ l') /\ forall j, j ∈ l' -> j ∈ l) ->
  live (Some i) (taken i r cache n w).
Proof.
  intros [] Hf Hc Hin Hn Hcache.
  assert (forall j, j <> i -> w_reqs (taken i r cache n w) !! j = w_reqs w !! j) as Hother.
  { intros j Hj. cbn. by rewrite lookup_insert_ne. }
  assert (w_reqs (taken i r cache n w) !! i = Some r) as Hi by apply lookup_insert_eq.
  split; try done.
  - destruct lv_conn0. by split.
  - intros j [= <-]. by exists r.
  - intros j r' Hr'. destruct (decide (j = i)) as [->|Hne]; [rewrite Hi in Hr'; by injection Hr' as <-|].
    rewrite Hother in Hr' by done. destruct (lv_reqs0 j r' Hr'). split; [done|]. cbn. lia.
  - intros h l' Hl'. destruct (Hcache h l' Hl') as (l & Hh & Hnd & Hno & Hsub).
    destruct (lv_cache0 h l Hh) as (_ & Hin' & Hd). split_and!; [done|..].
    + intros j Hj. assert (j <> i) as Hne by (by intros ->). rewrite Hother by done.
      split; [by apply Hin', Hsub|congruence].
    + intros h' l'' j Hne Hh'' Hj Hj'. destruct (Hcache h' l'' Hh'') as (l2 & Hh2 & _ & _ & Hsub2).
      exact (Hd h' l2 j Hne Hh2 (Hsub j Hj) (Hsub2 j Hj')).
Qed.
End Invariant.
