(* ===== verification/ConnSafe.v ===== *)
(** * evhtp.c: HTTP/1 connections, that nothing undefined happens

    Every function of [request_psets] leads from the invariant of the parser's
    phase to that of the next ([psets_obey]); so the callbacks of the
    bufferevent and of the resume event keep a connection in order, or end with
    it freed. *)

From S2P Require Import Prelude HtpTypes HtString MsgParser MsgParserFacts MsgParserTrace Triples Kvs Query Callbacks Numtoa Uri Request ReqParse ReqFacts Reply Conn ConnInv.
From stdpp Require Import gmap.
#[local] Open Scope Z_scope.
#[local] Open Scope htp_scope.

(** ** The application *)

(** Its hooks and its callback may answer, pause, resume and change the request
    they are called for, but free neither it nor the connection. *)
Record conn_app `{rx : RegexLib} {A} (app : App A) : Prop := {
  ca_hook : forall t i f arg d u, safe (keep (Some i) u) (app_hook app t i f arg d);
  ca_cb : forall i f arg, safe (keep (Some i) false) (app_cb app i f arg);
  ca_conn : forall t f arg d cur, safe (keep cur false) (app_conn app t f arg d)
}.

Section Safe.
Context `{lib : HtStringLib} `{rx : RegexLib} {A : Type}.
Context (mem : nat -> bool) (app : App A) (after : list Z -> list Z).
Context (Hmem : forall k, mem k = true) (Happ : conn_app app).
Context (Hafter : nth 0 (after []) 0 ∈ [0; SP; HTAB; CR; LF]).
Abbreviation W := (world A).
Implicit Types (w : W) (c : evhtp_connection) (r : evhtp_request) (cur : option nat).
Abbreviation triple_ := (triple (W := W)).

(** ** Automation *)

Ltac same_request := split; [by intros []..|by intros [] []].
Ltac same_live := intros ?; split; [done|split; [done|]]; intros []; by split.

Lemma hook_run_keep i u t d : safe (keep (Some i) u) (hook_request_run app i t d).
Proof.
  apply t_to_safe, k_with_req. intros r Hf Hc. apply t_read. intros w _. rewrite Hc.
  repeat case_match; try by apply t_ret.
  all: apply t_after; [by apply Happ|intros v; by apply t_ret].
Qed.
Lemma conn_hook_keep cur t d : safe (keep cur false) (conn_hook_run app t d).
Proof.
  apply t_to_safe, k_getc. intros c _ _. case_match; [|by apply t_ret]. destruct p as [f arg].
  apply t_after; [by apply Happ|intros v; by apply t_ret].
Qed.
Lemma status_hook_keep i u (m : nat -> M (St W) Z) :
  (forall i, safe (keep (Some i) u) (m i)) -> safe (keep (Some i) u) (status_hook m).
Proof.
  intros Hm. apply t_to_safe, k_with_cur. intros r _ _. apply t_after; [apply Hm|intros v].
  apply t_after; [apply k_set_status|intros _; by apply t_ret].
Qed.
Lemma upd_uri_keep i j u f : safe (keep (Some i) u) (upd_uri (A := A) j f).
Proof.
  apply k_upd_req. split; [by intros []..| |by intros [] []]. intros r [x Hx]. cbn. by rewrite Hx.
Qed.
Lemma updp_keep cur u f : safe (keep cur u) (update_parser (A := A) f).
Proof. apply safe_updp. Qed.

Ltac leaf :=
  first
    [ apply k_set_status | apply k_fatal | apply hook_run_keep | apply upd_uri_keep
    | apply k_upd_req; same_request | apply k_upd_conn; same_live | apply k_upd_bev; same_live
    | apply updp_keep | apply k_alloc | apply status_hook_keep; intros | apply safe_ret ].
Ltac step_with tac :=
  first
    [ tac
    | lazymatch goal with
      | |- triple _ (ret _) _ => apply t_ret; intros; assumption
      | |- triple _ (bind (bind _ _) _) _ => apply t_assoc
      | |- triple _ (bind (ret _) _) _ => apply t_ret_bind
      | |- triple _ (bind (getw _) _) _ => apply t_read; intros
      | |- triple _ (bind (gets _) _) _ => apply t_getp; intros
      | |- triple _ (bind getc _) _ => apply k_getc; intros
      | |- triple _ (bind getbev _) _ => apply k_getbev; intros
      | |- triple _ (with_req _ _) _ => apply k_with_req; intros
      | |- triple _ (with_cur _) _ => apply k_with_cur; intros
      | |- triple _ (bind (when _ _) _) _ => apply t_after; [apply safe_when; intros|intros]
      | |- triple _ (bind (with_req _ _) _) _ => apply t_after; [apply t_to_safe|intros]
      | |- triple _ (bind (with_cur _) _) _ => apply t_after; [apply t_to_safe|intros]
      | |- triple _ (bind (match _ with _ => _ end) _) _ => apply t_after; [apply t_to_safe|intros]
      | |- triple _ (bind _ _) _ => apply t_after; [first [tac | leaf]|intros]
      end
    | leaf
    | lazymatch goal with
      | |- safe _ _ => apply t_to_safe
      | |- triple _ (match ?b with _ => _ end) _ => destruct b eqn:?
      end ].
Ltac steps_with tac := repeat (step_with tac).
Ltac steps := steps_with fail.

(** ** Requests that come and go *)

Lemma request_free_drops i :
  triple_ (keep (Some i) false) (htp__request_free_ app (Some i)) (fun _ => live None).
Proof.
  apply t_after; [apply hook_run_keep|]. intros _ [p w] Hw. cbn in Hw.
  destruct (keep_request _ _ _ Hw) as (r & Hr & Hc & [[h Hh] _ _ _ _ _]).
  rewrite (with_req_eq _ _ _ r) by done. rewrite Hc. destruct Hw as [Hl _].
  unfold recycle_request, htp__request_clear_, upd_req. rewrite Hh, run_upd_conn, !run_updw. cbn [fst snd].
  rewrite (lv_cur _ _ Hl), bool_decide_true by done. exact (dropped_live i h w Hl).
Qed.

Lemma new_request_taken :
  triple_ (live None) (r <- htp__request_new__ mem app ;;
    upd_conn (fun c => c <| c_request := r |>) ;;
    match r with Some _ => ret 0 | None => ret (-1) end)
  (fun v w => exists i, live (Some i) w).
Proof.
  intros [p w] Hl. cbn in Hl. pose proof (lv_htp _ _ Hl) as (h & Hh & _).
  assert (forall h' l, w_cache w !! h' = Some l -> w_allocs w ∉ l) as Hfresh.
  { intros h' l Hc Hin. destruct (lv_cache _ _ Hl h' l Hc) as (_ & Hs & _). destruct (Hs _ Hin) as ((r & Hr) & _).
    apply (lv_reqs _ _ Hl) in Hr as [_ Hlt]. lia. }
  unfold htp__request_new__, get_request_from_cache. rewrite !run_assoc, run_getw. cbn [snd]. rewrite Hh, run_assoc, run_getw. cbn [snd].
  destruct (default [] (w_cache w !! h)) as [|i rest] eqn:Ec.
  - rewrite run_ret. exists (w_allocs w). unfold htp__request_new_. rewrite run_assoc, run_allocs. cbn [snd fst].
    rewrite Hmem. cbn [negb]. rewrite run_assoc, run_getw. unfold fill_request. rewrite !Hmem. cbn [negb snd].
    rewrite run_assoc, run_updw, run_ret, run_upd_conn. cbn [fst snd].
    refine (taken_live (w_allocs w) (new_request (c_htp (w_conn w))) (w_cache w) (w_allocs w + 5) w Hl _ _ _ _ _);
      [by rewrite Hh; split|done|lia|lia|].
    intros h' l Hc. exists l. split_and!; [done| |by eapply Hfresh|done]. by eapply lv_cache.
  - destruct (w_cache w !! h) as [l|] eqn:El; [|done]. cbn in Ec. subst l.
    destruct (lv_cache _ _ Hl h _ El) as (Hnd & Hin & Hd). apply NoDup_cons in Hnd as [Hni Hnd].
    destruct (Hin i ltac:(by left)) as ((r & Hr) & _). destruct (lv_reqs _ _ Hl i r Hr) as [[] Hlt].
    rewrite !run_assoc, run_updw. cbn [fst snd]. rewrite run_assoc. erewrite run_upd_req by exact Hr.
    rewrite !run_ret, run_upd_conn. cbn [fst snd]. exists i.
    refine (taken_live i _ (<[h := rest]> (w_cache w)) (w_allocs w) w Hl _ _ _ _ _); try done.
    intros h' l' Hl'. destruct (decide (h' = h)) as [->|Hne].
    + rewrite lookup_insert_eq in Hl'. injection Hl' as <-. exists (i :: rest). split_and!; try done. intros j Hj. by right.
    + rewrite lookup_insert_ne in Hl' by done. exists l'. destruct (lv_cache _ _ Hl h' l' Hl') as (Hnd' & _ & Hd').
      split_and!; try done. intros Hi. eapply (Hd' h (i :: rest) i); [done|done|done|by left].
Qed.

(** ** The parser's phases *)

(** What holds of the store in each phase: in a message there is a current
    request, and right after the path its URI is known. *)
Definition phase_inv (q : phase) w : Prop :=
  match q with
  | ph_idle => exists cur, live cur w
  | ph_line k => exists i, keep (Some i) (k =? 5)%nat w
  | _ => exists i, live (Some i) w
  end.
Definition stop_inv w : Prop := exists cur, live cur w.
Lemma phase_stop q w : phase_inv q w -> stop_inv w.
Proof. destruct q; intros [x Hx]; exists x || exists (Some x); try done. apply Hx. Qed.

(** *** What each function does *)

Abbreviation cur_ i := (fun (_ : Z) (w : W) => keep (Some i) false w).

Lemma parse_start_keep cur :
  triple_ (live cur) (htp__request_parse_start_ mem app)
    (fun v w => (exists cur, live cur w) /\ (v = 0 -> exists i, live (Some i) w)).
Proof.
  unfold htp__request_parse_start_. apply t_read. intros w Hw.
  assert (is_client (w_conn w) = false) as ->.
  { unfold is_client. by rewrite (lc_type _ (lv_conn _ _ Hw)). }
  assert (forall cur0, triple_ (live cur0) (ret (-1)) (fun v w => (exists cur, live cur w) /\ (v = 0 -> exists i, live (Some i) w))) as Hfail.
  { intros cur0. apply t_ret. intros w' Hw'. split; [by exists cur0|done]. }
  destruct (has _ _); [apply Hfail|].
  assert (triple_ (live None) (r <- htp__request_new__ mem app ;;
    upd_conn (fun c => c <| c_request := r |>) ;;
    match r with Some _ => ret 0 | None => ret (-1) end)
    (fun v w => (exists cur, live cur w) /\ (v = 0 -> exists i, live (Some i) w))) as Hnew.
  { eapply t_post; [apply new_request_taken|]. intros v w' [i Hi]. split; [by exists (Some i)|by exists i]. }
  rewrite (lv_cur _ _ Hw). destruct cur as [i|]; [|exact Hnew].
  apply (t_pre (keep (Some i) false)); [|apply live_keep]. apply k_with_req. intros r _ _.
  destruct (has _ _); [|eapply t_pre; [apply (Hfail (Some i))|by intros ? []]].
  eapply t_bind; [apply request_free_drops|]. intros v. cbn beta.
  apply t_after; [apply k_no_request; intros c _; split_and!; [done..|]; intros []; by split|intros _; exact Hnew].
Qed.

(** The functions that use the URI make it first. *)
Lemma require_then i k Q :
  triple_ (keep (Some i) true) k Q ->
  triple_ (keep (Some i) false) (ok <- htp__require_uri_ mem ;; if ok =? -1 then ret (-1) else k) Q.
Proof.
  intros Hk. eapply (t_bind _ (fun v w => v = 0 /\ keep (Some i) true w)).
  - intros [p w] Hw. cbn in Hw. destruct (keep_request _ _ _ Hw) as (r & Hr & Hc & Hf).
    unfold htp__require_uri_. rewrite run_getw. cbn [snd]. rewrite (lv_cur _ _ (kp_live _ _ _ Hw)).
    unfold htp__require_uri__. rewrite (with_req_eq _ _ _ r) by done. destruct (r_uri r) as [u|] eqn:Eu.
    + split; [done|]. destruct Hw as [Hl _]. split; [done|]. intros _. exists i, r. by rewrite Eu.
    + assert (triple_ (keep (Some i) false) (k <- allocs 2 ;;
        match htp__uri_new_ (mem k) (mem (k + 1)) with
        | Some u => upd_req i (fun r => r <| r_uri := Some u |>) ;; ret 0
        | None => ret (-1)
        end) (fun v w => v = 0 /\ keep (Some i) true w)) as Hm; [|by apply (Hm (p, w))].
      apply t_after; [leaf|intros n]. unfold htp__uri_new_, htp__authority_new_. rewrite !Hmem. cbn [negb].
      eapply t_bind; [apply k_set_uri|intros []]. by apply t_ret.
  - intros v [p w] [-> Hw]. by apply Hk.
Qed.
Lemma t_forget {D} (P : W -> Prop) i (m : M (St W) D) :
  triple_ P m (fun _ => keep (Some i) true) -> triple_ P m (fun _ => keep (Some i) false).
Proof. intros Hm s Hs. eapply keep_forget, Hm, Hs. Qed.

Lemma parse_host_keep i data :
  triple_ (keep (Some i) false) (htp__request_parse_host_ mem data) (cur_ i).
Proof.
  apply require_then. apply t_forget. apply t_after; [leaf|intros k]. rewrite Hmem. apply k_with_cur_uri. intros r u _ _. steps.
Qed.
Lemma parse_port_keep i data :
  triple_ (keep (Some i) false) (htp__request_parse_port_ mem after data) (cur_ i).
Proof.
  apply require_then. apply t_forget. apply k_with_cur_uri. intros r u _ _. steps.
Qed.
Lemma set_callbacks_keep i u : safe (keep (Some i) u) (htp__request_set_callbacks_ (A := A) i).
Proof.
  apply t_to_safe, k_with_req. intros r Hf Hc. apply t_read. intros w Hw.
  destruct (r_htp r) as [h|]; cbn [mbind option_bind]; [|by apply t_ret].
  destruct (w_htps w !! h) as [host|] eqn:Eh; [|by apply t_ret]. rewrite Hc. cbn [negb].
  destruct (r_uri r ≫= uri_path) as [pth|]; [|by apply t_ret].
  pose proof (tb_hosts _ (lv_tables _ _ (kp_live _ _ _ Hw)) h host Eh) as Hok.
  destruct (select_callback_some host r pth Hok) as [[[[[cb arg] hooks] so] eo] ->]. steps.
Qed.
Lemma parse_path_keep i data :
  triple_ (keep (Some i) false) (htp__request_parse_path_ mem app data) (fun _ => keep (Some i) true).
Proof.
  apply require_then. apply t_after; [leaf|intros k]. destruct (path_new_some mem Hmem k data) as (pth & ->).
  steps_with ltac:(apply set_callbacks_keep).
Qed.
Lemma parse_args_keep i data :
  triple_ (keep (Some i) true) (htp__request_parse_args_ mem data) (cur_ i).
Proof.
  apply t_forget. unfold htp__request_parse_args_. intros [p w] Hw. cbn in Hw. rewrite run_getw. cbn [snd].
  destruct (kp_known _ _ _ Hw eq_refl) as (j & r & [= <-] & Hr & [u Eu]). pose proof (kp_live _ _ _ Hw) as Hl.
  rewrite (with_cur_eq _ _ i r) by (done || apply Hl). unfold is_client. rewrite (lc_type _ (lv_conn _ _ Hl)).
  rewrite bool_decide_false by done. unfold with_uri. rewrite Eu, run_getw, run_allocs. cbn [snd fst].
  destruct (lv_htp _ _ Hl) as (h & Hh & [host Ehost]). rewrite Hh. cbn [mbind option_bind]. rewrite Ehost.
  destruct (htp__uri_set_query_ _ _ _ _) as [v u'].
  assert (triple_ (keep (Some i) true) (upd_uri i (fun _ => u') ;;
    (if v =? -1 then set_cr_status EVHTP_RES_ERROR ;; ret (-1) else ret 0)) (fun _ => keep (Some i) true)) as Hm by steps.
  exact (Hm _ (k_alloc (Some i) true _ (p, w) Hw)).
Qed.

Lemma headers_start_keep i : safe (keep (Some i) false) (htp__request_parse_headers_start_ app).
Proof. unfold htp__request_parse_headers_start_. leaf. leaf. Qed.
Lemma key_add_some p kp l d n : is_Some (evhtp_header_key_add p kp (Some l) d n).2.
Proof. unfold evhtp_header_key_add. by destruct (evhtp_header_new _ _ _ _ _ _ _). Qed.
Lemma val_add_some l v n : is_Some (evhtp_header_val_add (Some l) v n).2.
Proof. unfold evhtp_header_val_add. by repeat case_match. Qed.
Lemma set_headers_same (f : evhtp_kvs -> evhtp_kvs) (hs : option evhtp_kvs) :
  is_Some hs -> same_request (fun r => r <| headers_in := f <$> hs |>).
Proof. intros [l ->]. same_request. Qed.
Lemma header_key_keep i data : safe (keep (Some i) false) (htp__request_parse_header_key_ (A := A) mem data).
Proof.
  apply t_to_safe. unfold htp__request_parse_header_key_. apply t_after; [leaf|intros k]. rewrite !Hmem. cbn [negb].
  apply k_with_cur. intros r [_ [l ->] _ _ _ _] _. pose proof (key_add_some (Some (Z.of_nat (k + 1))) true l data 0) as Hs.
  destruct (evhtp_header_key_add _ _ _ _ _) as [[h|] hs]; [|leaf].
  apply t_after; [|intros _; by apply t_ret]. by apply k_upd_req, set_headers_same.
Qed.
Lemma header_val_keep i data : safe (keep (Some i) false) (htp__request_parse_header_val_ app data).
Proof.
  apply t_to_safe, k_with_cur. intros r [_ [l ->] _ _ _ _] _. pose proof (val_add_some l (Some data) 0) as Hs.
  destruct (evhtp_header_val_add _ _ _) as [[h|] hs]; [|leaf].
  apply t_after; [by apply k_upd_req, set_headers_same|intros _]. leaf. leaf.
Qed.

Lemma set_host_keep i u v p w :
  keep (Some i) u w -> is_Some (w_htps w !! v) ->
  keep (Some i) u (upd_conn (A := A) (fun c => c <| c_htp := Some v |>) (p, w)).2.2.
Proof.
  intros [Hl Hu] Hv. split; [|exact Hu]. pose proof (lv_conn _ _ Hl) as [].
  apply live_conn_upd; [done|by split|apply Hl|by exists v].
Qed.
(** A name that may match nothing ends the match of any pattern. *)
Lemma names_end hs data :
  tables_ok hs -> forall i hv, hs !! i = Some hv -> names_stop data (after data) hv.
Proof.
  intros Ht i hv Hi. destruct data as [|x data]; [by eapply (tb_names _ Ht); [exact Hi|]|].
  split; intros; by left.
Qed.
Lemma hostname_keep i data :
  triple_ (keep (Some i) false) (htp__request_parse_hostname_ app after data) (cur_ i).
Proof.
  intros [p w] Hw. unfold htp__request_parse_hostname_. rewrite run_getw. cbn [snd] in *.
  pose proof (kp_live _ _ _ Hw) as Hl.
  assert (forall host, safe (keep (Some i) false) (status_hook (fun i => htp__hook_hostname_ app i host))) as Hhook
    by (intros host; leaf; leaf).
  destruct (if has _ _ then _ else _) as [host|]; [by apply (Hhook host (p, w))|].
  rewrite run_getw. cbn [snd]. destruct (lv_htp _ _ Hl) as (h & Hh & [hh Ehh]). rewrite Hh. cbn [mbind option_bind].
  rewrite Ehh. destruct (find_vhost_ends (w_htps w) hh data (after data) (names_end _ _ (lv_tables _ _ Hl)))
    as (res & -> & Hex). destruct res as [v|]; [|by apply (Hhook data (p, w))].
  rewrite run_assoc. pose proof (set_host_keep i false v p w Hw (Hex v eq_refl)) as Hw'.
  assert (triple_ (keep (Some i) false) (with_cur (fun i _ =>
    upd_req i (fun r => r <| r_htp := Some v |>) ;; htp__request_set_callbacks_ i) ;;
    status_hook (fun i => htp__hook_hostname_ app i data)) (cur_ i)) as Hm; [|exact (Hm _ Hw')].
  steps_with ltac:(first [apply set_callbacks_keep | apply Hhook]).
Qed.

Lemma headers_keep i : safe (keep (Some i) false) (htp__request_parse_headers_ app).
Proof.
  apply t_to_safe, k_with_cur. intros r _ _. apply t_getp. intros s _.
  apply t_after; [apply safe_when; intros; leaf|intros _]. apply k_with_req. intros r' _ _.
  apply t_read. intros w0 _. apply t_after.
  { apply t_to_safe. steps. }
  intros _. apply k_with_cur. intros r2 _ _. apply t_after; [leaf|intros _].
  apply t_after; [leaf|intros v]. apply t_after; [leaf|intros _].
  apply t_after; [apply t_to_safe; steps|intros ok]. destruct (negb ok); [by apply t_ret|].
  apply k_host. intros c hs h host _ Hc Hh Hhost _. rewrite (lc_type _ Hc), bool_decide_true by done. cbn [negb].
  rewrite Hh. cbn [mbind option_bind]. rewrite Hhost. steps.
Qed.

Lemma body_keep i data : safe (keep (Some i) false) (htp__request_parse_body_ app data).
Proof.
  apply t_to_safe, t_read. intros w Hw. rewrite (lv_cur _ _ (kp_live _ _ _ Hw)). unfold htp__hook_body_.
  cbv zeta. destruct (_ && _); [steps|]. destruct (scratch_buf _) as [buf|]; [|by apply t_ret].
  apply t_after; [leaf|intros _]. apply t_after; [leaf|intros v]. apply t_after; [leaf|intros _].
  apply t_after; [|intros res; apply t_after; [leaf|intros _; by apply t_ret]]. apply t_to_safe.
  destruct (v =? _); [steps|]. destruct (negb _); [by apply t_ret|]. apply t_read. intros w' _.
  destruct (default [] _); [by apply t_ret|]. apply k_with_cur. intros r [_ _ _ [b Eb] _ _] _. rewrite Eb. steps.
Qed.
Lemma chunk_new_keep i : safe (keep (Some i) false) (htp__request_parse_chunk_new_ app).
Proof. apply t_to_safe, t_getp. intros s _. leaf. leaf. Qed.
Lemma chunk_fini_keep i : safe (keep (Some i) false) (htp__request_parse_chunk_fini_ app).
Proof. unfold htp__request_parse_chunk_fini_. leaf. leaf. Qed.
Lemma chunks_fini_keep i : safe (keep (Some i) false) (htp__request_parse_chunks_fini_ app).
Proof. unfold htp__request_parse_chunks_fini_. leaf. leaf. Qed.

Lemma query_body_keep i : safe (keep (Some i) true) (htp__request_query_from_body_ (A := A) mem i).
Proof.
  apply t_to_safe, k_with_req_uri. intros r u _ _. apply t_after; [leaf|intros k]. rewrite Hmem. cbn [negb]. steps.
Qed.
Lemma parse_fini_keep i : safe (keep (Some i) false) (htp__request_parse_fini_ mem app).
Proof.
  apply t_to_safe, t_read. intros w Hw. rewrite (lv_cur _ _ (kp_live _ _ _ Hw)). apply t_getp. intros s _.
  destruct (has _ _); [by apply t_ret|]. intros [p w'] Hw'. rewrite run_getw. cbn [snd mbind option_bind] in *.
  destruct (keep_request _ _ _ Hw') as (r & Hr & _). rewrite Hr. cbn [mbind option_bind].
  assert (triple_ (keep (Some i) false)
    ((if negb (r_cb r =? 0) then app_cb app i (r_cb r) (r_cbarg r) else ret tt) ;;
     c <- getw w_conn ;; if has (c_flags c) EVHTP_CONN_FLAG_PAUSED then ret (-1) else ret 0) (cur_ i)) as Hrest.
  { apply t_after; [destruct (negb _); [apply Happ|leaf]|intros _]. apply t_read. intros w2 _. steps. }
  destruct (htp__should_parse_query_body_ s.1 r) eqn:E.
  - assert (keep (Some i) true w') as Hu.
    { destruct Hw' as [Hl _]. split; [done|]. intros _. exists i, r. split_and!; [done..|].
      unfold htp__should_parse_query_body_ in E. by destruct (r_uri r). }
    rewrite run_assoc.
    match goal with |- keep _ _ (?m (p, w')).2.2 => assert (triple_ (keep (Some i) true) m (cur_ i)) as Hm end;
      [|exact (Hm (p, w') Hu)].
    apply t_after; [apply query_body_keep|intros v]. apply (t_pre (keep (Some i) false)); [|intros ?; apply keep_forget].
    apply t_after; [apply t_to_safe; steps|intros ok]. destruct (negb (ok =? 0)); [by apply t_ret|exact Hrest].
  - rewrite run_ret. cbn [negb Z.eqb]. by apply (Hrest (p, w')).
Qed.

(** *** The table *)

Abbreviation psets := (request_psets mem app after).
Definition hook_leads (q' : phase) (n : hook_name) (d : list Z) (s : St W) : Prop :=
  if (HOOK (Some psets) n d s).1 then phase_inv q' (HOOK (Some psets) n d s).2.2
  else stop_inv (HOOK (Some psets) n d s).2.2.
Lemma hook_leads_intro (P : W -> Prop) q' n f d s :
  psets n = Some f -> P s.2 ->
  triple_ P (f d) (fun v w => stop_inv w /\ (v = 0 -> phase_inv q' w)) -> hook_leads q' n d s.
Proof.
  intros Hf Hs Hm. specialize (Hm s Hs). unfold hook_leads, HOOK. rewrite Hf.
  destruct (f d s) as [v [p' w']]. cbn in Hm. destruct (Z.eqb_spec v 0); cbn; [by apply Hm|by apply Hm].
Qed.
Lemma hook_leads_cur i u q' n f d s :
  psets n = Some f -> keep (Some i) u s.2 -> triple_ (keep (Some i) u) (f d) (cur_ i) ->
  (forall w, live (Some i) w -> phase_inv q' w) -> hook_leads q' n d s.
Proof.
  intros Hf Hs Hm Hq. apply (hook_leads_intro (keep (Some i) u) _ _ f); [done..|].
  eapply t_post; [exact Hm|]. intros v w [Hl _]. split; [by exists (Some i)|auto].
Qed.
Lemma hook_leads_none i q' n d s :
  psets n = None -> live (Some i) s.2 -> (forall w, live (Some i) w -> phase_inv q' w) -> hook_leads q' n d s.
Proof. intros Hf Hs Hq. unfold hook_leads, HOOK. rewrite Hf. cbn. auto. Qed.

(** The start line's tokens. *)
Lemma token_leads k n q' d s :
  next_phase (ph_line k) n = Some q' -> phase_inv (ph_line k) s.2 -> hook_leads q' n d s.
Proof.
  intros Hn [i Hk]. pose proof (keep_forget _ _ _ Hk) as Hk'. pose proof (kp_live _ _ _ Hk) as Hl.
  assert (forall j w, j <> 5%nat -> live (Some i) w -> phase_inv (ph_line j) w) as Hline.
  { intros j w Hj Hw. exists i. destruct (Nat.eqb_spec j 5); [done|by apply live_keep]. }
  destruct n; cbn [next_phase token_rank] in Hn; try discriminate Hn; try case_match; try discriminate Hn; injection Hn as <-.
  all: try (apply (hook_leads_none i); [done|done|]; intros w; by apply Hline).
  - eapply (hook_leads_cur i false); [done|done|apply parse_host_keep|]. intros w. by apply Hline.
  - eapply (hook_leads_cur i false); [done|done|apply parse_port_keep|]. intros w. by apply Hline.
  - eapply (hook_leads_intro (keep (Some i) false)); [done|done|].
    eapply t_post; [apply parse_path_keep|]. intros v w Hw. split; [exists (Some i); apply Hw|]. intros _. by exists i.
  - eapply (hook_leads_cur i true); [done|exact Hk|apply parse_args_keep|]. intros w. by apply Hline.
  - eapply (hook_leads_cur i false); [done|done|apply headers_start_keep|]. intros w Hw. by exists i.
Qed.
Lemma psets_obey : obeys (Some psets) phase_inv stop_inv.
Proof.
  intros q n q' d s Hn Hq. change (hook_leads q' n d s).
  destruct q as [|k| |b| | | |]; [|by eapply token_leads|..].
  { destruct n; try discriminate Hn. injection Hn as <-. destruct Hq as [cur Hl].
    eapply (hook_leads_intro (live cur)); [done|done|]. eapply t_post; [apply parse_start_keep|].
    intros v w [Hs Hv]. split; [done|]. intros E. destruct (Hv E) as [i Hi]. exists i. by apply live_keep. }
  all: destruct Hq as [i Hl]; apply live_keep in Hl; destruct n; try discriminate Hn;
    try destruct b; try discriminate Hn; injection Hn as <-.
  all: eapply (hook_leads_cur i false); [done|exact Hl| |intros w Hw; first [by exists i | by exists (Some i)]].
  all: first [ apply header_key_keep | apply header_val_keep | apply hostname_keep | apply headers_keep
             | apply body_keep | apply chunk_new_keep | apply chunk_fini_keep | apply chunks_fini_keep
             | apply parse_fini_keep ].
Qed.
End Safe.

(** ** Replies

    The library's own functions for replies are within the contract. *)

Section Replies.
Context `{lib : HtStringLib} `{rx : RegexLib} {A : Type} (mem : nat -> bool).
Context (Hmem : forall k, mem k = true).
Abbreviation W := (world A).
Implicit Types (w : W) (r : evhtp_request).
Abbreviation triple_ := (triple (W := W)).
Ltac same_request := split; [by intros []..|by intros [] []].
Ltac same_live := intros ?; split; [done|split; [done|]]; intros []; by split.

Lemma iov_copy_some vec n :
  Forall (fun v : iovec => (v.2 <= length (default [] v.1))%nat) vec -> is_Some (iov_copy vec n).
Proof.
  intros H. revert n. induction H as [|v vec Hv _ IH]; intros n; cbn [iov_copy]; [done|]. unfold iov_read.
  destruct (Nat.leb_spec (Nat.min v.2 n) (length (default [] v.1))); [|lia]. cbn [mbind option_bind].
  destruct (_ =? 0)%nat; [done|]. destruct (IH (n - Nat.min v.2 n)%nat) as [b ->]. done.
Qed.
Lemma scratch_add_keep i u d : safe (keep (Some i) u) (scratch_add (A := A) d).
Proof.
  apply safe_bind; [|intros _; apply safe_ret]. apply k_upd_conn. intros c. split_and!; [done..|].
  intros [? ? ? ? [b Eb] ? ? ? ?]. split; try done. cbn. by rewrite Eb.
Qed.
Lemma add_iovec_keep i u vec :
  Forall (fun v : iovec => (v.2 <= length (default [] v.1))%nat) vec ->
  safe (keep (Some i) u) (htp__evbuffer_add_iovec_ (A := A) scratch_add vec).
Proof.
  intros Hv. unfold htp__evbuffer_add_iovec_. destruct (iov_copy_some vec (to_alloc vec) Hv) as [b ->].
  apply scratch_add_keep.
Qed.
Lemma create_headers_keep i u l :
  Forall bounded_kv l ->
  safe (keep (Some i) u) (evhtp_kvs_for_each (S := St W) (Some l) (Some (htp__create_headers_ scratch_add))).
Proof.
  intros Hl. cbn. induction Hl as [|kv l [Hk Hv] _ IH]; cbn; [apply safe_ret|].
  unfold htp__create_headers_. apply safe_bind.
  - apply safe_bind; [|intros _; apply safe_ret]. apply add_iovec_keep. rewrite !Forall_cons. cbn. by split_and!; try lia.
  - intros v. destruct (_ =? 0); [exact IH|apply safe_ret].
Qed.
Lemma add_out_keep i j u k v ka va : safe (keep (Some i) u) (add_out (A := A) mem j k v ka va).
Proof.
  apply safe_bind; [apply k_alloc|intros n]. unfold kv_mem. rewrite !Hmem. apply k_upd_req.
  match goal with |- same_request (fun r => r <| headers_out := evhtp_headers_add_header _ ?h |>) =>
    assert (exists x, h = Some x /\ bounded_kv x) as (x & -> & Hx) end.
  { unfold evhtp_header_new, evhtp_kv_new. cbn. rewrite !andb_false_r. eexists. split; [reflexivity|]. by split. }
  split; [by intros []..|]. intros r [? ? [l El] ? ? Hf]. rewrite El in Hf.
  split; try done; cbn; rewrite El; [done|]. apply Forall_app. split; [exact Hf|by apply Forall_singleton].
Qed.
Lemma add_length_keep i j u r n : safe (keep (Some i) u) (add_length (A := A) mem j r n).
Proof.
  apply t_to_safe, t_getp. intros s _. destruct (htparser_get_multipart _); [by apply t_ret|].
  apply t_safe, safe_when. intros _. apply add_out_keep.
Qed.
Lemma check_proto_keep i u : safe (keep (Some i) u) (check_proto (A := A) mem i).
Proof.
  assert (forall m : M (St W) Z, triple_ (keep (Some i) u) m (fun _ => keep (Some i) u) -> forall b k v,
    triple_ (keep (Some i) u) (when b (add_out mem i k v 0 0) ;; m) (fun _ => keep (Some i) u)) as Hadd.
  { intros m Hm b k v. apply t_after; [apply safe_when; intros _; apply add_out_keep|intros _; exact Hm]. }
  apply t_to_safe, k_with_req. intros r _ _. destruct (r_proto r).
  1,4: repeat (apply t_after; [apply safe_updp|intros _]); by apply t_ret.
  - apply Hadd. by apply t_ret.
  - apply Hadd, k_with_req. intros r' _ _. apply Hadd. by apply t_ret.
Qed.
Lemma write_reply_keep i u code : safe (keep (Some i) u) (write_reply (A := A) i code).
Proof.
  apply t_to_safe, t_getp. intros s _. cbv zeta.
  apply t_after; [apply add_iovec_keep; rewrite !Forall_cons; cbn -[bytes length]; split_and!; first [done|lia|by apply Nat.leb_le]|intros _].
  apply k_with_req. intros r [_ _ [l El] _ _ Hf] _. rewrite El in *.
  apply t_after; [by apply create_headers_keep|intros _]. apply t_after; [apply scratch_add_keep|intros _].
  apply k_with_req. intros r' _ _. destruct (default [] (buffer_out r')); [by apply t_ret|].
  apply t_after; [apply scratch_add_keep|intros _]. apply t_after; [apply k_upd_req; same_request|intros _; by apply t_ret].
Qed.
Lemma create_reply_keep i u code : safe (keep (Some i) u) (htp__create_reply_ (A := A) mem i code).
Proof.
  apply t_to_safe, k_with_req. intros r [_ _ [l El] _ [b Eb] _] Hc. rewrite El, Eb, Hc, !bool_decide_true by done. cbn [negb andb].
  apply t_after; [apply k_upd_req; same_request|intros _]. cbv zeta.
  apply t_read. intros w Hw. destruct (lc_scratch _ (lv_conn _ _ (kp_live _ _ _ Hw))) as [x ->].
  apply t_after; [apply k_upd_conn; same_live|intros _]. apply t_after; [apply add_length_keep|intros _].
  apply t_after; [apply check_proto_keep|intros _].
  apply t_after; [apply safe_when; intros _; apply add_out_keep|intros _; apply write_reply_keep].
Qed.
Lemma k_with_conn i u k :
  (forall r, safe (keep (Some i) u) (k r)) -> safe (keep (Some i) u) (with_conn (A := A) i k).
Proof. intros Hk. apply t_to_safe, k_with_req. intros r _ ->. apply Hk. Qed.
Lemma flush_scratch_keep i u : safe (keep (Some i) u) (flush_scratch (A := A)).
Proof. apply safe_bind; [apply k_upd_conn; same_live|intros _; apply safe_ret]. Qed.
Lemma output_keep i u d : safe (keep (Some i) u) (output_add (A := A) d).
Proof. apply k_upd_conn. same_live. Qed.

Lemma send_reply_keep i u code : safe (keep (Some i) u) (evhtp_send_reply (A := A) mem i code).
Proof.
  apply k_with_conn. intros _. apply safe_bind; [apply k_upd_req; same_request|intros _].
  apply safe_bind; [apply create_reply_keep|intros _; apply flush_scratch_keep].
Qed.
Lemma send_reply_start_keep i u code : safe (keep (Some i) u) (evhtp_send_reply_start (A := A) mem i code).
Proof.
  apply k_with_conn. intros _. apply safe_bind; [apply create_reply_keep|intros _; apply flush_scratch_keep].
Qed.
Lemma send_reply_body_keep i u d : safe (keep (Some i) u) (evhtp_send_reply_body (A := A) i d).
Proof. apply k_with_conn. intros _. apply safe_bind; [apply output_keep|intros _; apply safe_ret]. Qed.
Lemma send_reply_end_keep i u : safe (keep (Some i) u) (evhtp_send_reply_end (A := A) i).
Proof. apply k_with_conn. intros _. apply safe_bind; [apply k_upd_req; same_request|intros _; apply safe_ret]. Qed.

(** They use the parser only through its setters. *)
Ltac reply_framed tac := framed ltac:(first
  [ tac | apply framed_with_req | apply framed_allocs | apply framed_updp; intros; by split ]).
Lemma framed_add_out i k v ka va : Framed (add_out (A := A) mem i k v ka va).
Proof. unfold add_out, upd_req. reply_framed ltac:(fail 0). Qed.
Lemma framed_add_iovec vec : Framed (htp__evbuffer_add_iovec_ (A := A) scratch_add vec).
Proof. unfold htp__evbuffer_add_iovec_, scratch_add, upd_conn. reply_framed ltac:(fail 0). Qed.
Lemma framed_headers kvs :
  Framed (evhtp_kvs_for_each (S := St W) kvs (Some (htp__create_headers_ (A := A) scratch_add))).
Proof.
  destruct kvs as [l|]; [|apply framed_ret]. cbn. induction l as [|kv l IH]; cbn; [apply framed_ret|].
  unfold htp__create_headers_. reply_framed ltac:(first [apply framed_add_iovec | exact IH]).
Qed.
Lemma framed_create_reply i code : Framed (htp__create_reply_ (A := A) mem i code).
Proof.
  unfold htp__create_reply_, add_length, check_proto, write_reply, scratch_add, update_parser, upd_req, upd_conn.
  reply_framed ltac:(first [apply framed_add_out | apply framed_add_iovec | apply framed_headers]).
Qed.
Lemma framed_send_reply i code : Framed (evhtp_send_reply (A := A) mem i code).
Proof.
  unfold evhtp_send_reply, with_conn, flush_scratch, upd_req, upd_conn.
  reply_framed ltac:(apply framed_create_reply).
Qed.
End Replies.

(** ** Connections *)

Section Connections.
Context `{lib : HtStringLib} `{rx : RegexLib} {A : Type}.
Context (mem : nat -> bool) (app : App A) (after : list Z -> list Z -> list Z).
Context (Hmem : forall k, mem k = true) (Happ : conn_app app) `{!AppFrame app}.
Context (Hafter : forall buf, nth 0 (after buf []) 0 ∈ [0; SP; HTAB; CR; LF]).
Abbreviation W := (world A).
Implicit Types (w : W) (c : evhtp_connection) (r : evhtp_request) (cur : option nat) (s : St W).

(** *** In order, between two calls of the parser

    The connection is live, and in the middle of a message it has a request. *)
Definition in_order cur s : Prop :=
  live cur s.2 /\ (state s.1 <> S_START -> state s.1 <> S_ERROR -> is_Some cur).
Abbreviation ordered := (fun s => exists cur, in_order cur s).
Abbreviation traced := (trace_ok (phase_inv (A := A)) stop_inv).

Lemma order_traced cur s : in_order cur s -> traced s.
Proof.
  intros [Hl Hp]. destruct (decide (state s.1 = S_ERROR)) as [He|He].
  { right. split; [done|by exists cur]. }
  destruct (decide (state s.1 = S_START)) as [Hs|Hs].
  { apply (at_phase_ok phase_inv stop_inv ph_idle); [by exists cur|]. unfold expects. by rewrite Hs. }
  destruct (Hp Hs He) as [i ->].
  assert (forall q, phase_inv q s.2 -> expects s.1 q -> traced s) as Hq by exact (fun q => at_phase_ok phase_inv stop_inv q s).
  assert (phase_inv (ph_line 0) s.2) as Hline by (exists i; by apply live_keep).
  unfold expects in Hq. destruct (state s.1) eqn:E; try done.
  - by eapply Hq.
  - by apply (Hq ph_hdrs); [exists i|].
  - refine (Hq _ _ eq_refl). by repeat case_match; exists i.
  - by apply (Hq ph_trailers); [exists i|].
  - by apply (Hq ph_body); [exists i|left].
Qed.
Lemma traced_order s : traced s -> ordered s.
Proof.
  intros [(q & Ha & He)|[He [cur Hl]]]; [|exists cur; by split].
  unfold at_phase in Ha. destruct (decide (state s.1 = S_ERROR)) as [E|E].
  { destruct (phase_stop q s.2 Ha) as [cur Hl]. exists cur. by split. }
  destruct (decide (state s.1 = S_START)) as [Hs|Hs].
  { unfold expects in He. rewrite Hs in He. subst q. destruct Ha as [cur Hl]. exists cur. by split. }
  assert (exists i, live (Some i) s.2) as [i Hi]; [|exists (Some i); by split].
  unfold expects in He. destruct q as [|k| |b| | | |]; try exact Ha.
  - destruct (state s.1); try done; [by repeat case_match|by destruct He].
  - destruct Ha as [i [Hl _]]. by exists i.
Qed.

(** [gentle cur m]: a computation that leaves the parser's state and the
    connection in order. *)
Record gentle {B} cur (m : M (St W) B) : Prop := {
  gt_framed : forall s, state (m s).2.1 = state s.1;
  gt_safe : safe (keep cur false) m
}.
Lemma order_keep cur s : in_order cur s -> keep cur false s.2.
Proof. intros [Hl _]. by apply live_keep. Qed.
Lemma gentle_keeps {B} cur (m : M (St W) B) : gentle cur m -> hoare (in_order cur) m (fun _ => in_order cur).
Proof.
  intros [Hf Hs] s Ho. split; [|rewrite Hf; apply Ho]. by apply Hs, order_keep.
Qed.
Lemma framed_gentle {B} cur (m : M (St W) B) : Framed m -> safe (keep cur false) m -> gentle cur m.
Proof. intros Hf Hs. split; [|done]. intros s. by destruct (Hf s). Qed.
Lemma g_bind {B C} cur (m : M (St W) B) (k : B -> M (St W) C) :
  gentle cur m -> (forall b, gentle cur (k b)) -> gentle cur (bind m k).
Proof.
  intros [Hf Hs] Hk. split; [|apply safe_bind; [done|apply Hk]].
  intros s. unfold bind. specialize (Hf s). destruct (m s) as [b s1]. cbn in *. by rewrite (gt_framed _ _ (Hk b)).
Qed.
Lemma g_ret {B} cur (b : B) : gentle cur (ret b).
Proof. split; [done|apply safe_ret]. Qed.
Lemma g_when cur b m : gentle cur m -> gentle cur (when b m).
Proof. destruct b; [done|intros _; apply g_ret]. Qed.
Lemma g_getw {B} cur (f : W -> B) : gentle cur (getw f).
Proof. split; [done|]. by intros [p w]. Qed.

(** Rules for what is in order. *)
Lemma o_after {B C} cur (m : M (St W) B) (k : B -> M (St W) C) Q :
  gentle cur m -> (forall b, hoare (in_order cur) (k b) Q) -> hoare (in_order cur) (bind m k) Q.
Proof. intros Hm Hk. eapply hoare_bind; [by apply gentle_keeps|done]. Qed.
Lemma o_getc {C} cur (k : evhtp_connection -> M (St W) C) Q :
  (forall c, live_conn c -> c_request c = cur -> hoare (in_order cur) (k c) Q) ->
  hoare (in_order cur) (c <- getc ;; k c) Q.
Proof.
  intros Hk [p w] Ho. pose proof Ho as [Hl _]. cbn [snd] in Hl. unfold getc. rewrite run_assoc, run_getw. cbn [snd].
  rewrite (lc_freed _ (lv_conn _ _ Hl)), run_ret. by apply Hk; [apply Hl..|].
Qed.
Lemma o_getbev {C} cur (k : evhtp_connection -> M (St W) C) Q :
  (forall c, live_conn c -> c_request c = cur -> hoare (in_order cur) (k c) Q) ->
  hoare (in_order cur) (c <- getbev ;; k c) Q.
Proof.
  intros Hk s Ho. unfold getbev. rewrite run_assoc. revert s Ho.
  match goal with |- forall s, _ -> Q (?m s).1 _ => change (hoare (in_order cur) m Q) end.
  apply o_getc. intros c Hc Hr. rewrite (lc_bev _ Hc). by apply Hk.
Qed.
Lemma o_getw {B C} cur (f : W -> B) (k : B -> M (St W) C) Q :
  (forall w, live cur w -> hoare (in_order cur) (k (f w)) Q) -> hoare (in_order cur) (bind (getw f) k) Q.
Proof. intros Hk s Ho. rewrite run_getw. apply Hk; [apply Ho|done]. Qed.
Lemma o_gets {B C} cur (f : St W -> B) (k : B -> M (St W) C) Q :
  (forall b, hoare (in_order cur) (k b) Q) -> hoare (in_order cur) (bind (gets f) k) Q.
Proof. intros Hk s Ho. rewrite run_gets. by apply Hk. Qed.

Ltac same_request := split; [by intros []..|by intros [] []].
Ltac same_live := intros ?; split; [done|split; [done|]]; intros []; by split.
Lemma g_upd_conn cur f : same_live f -> gentle cur (upd_conn (A := A) f).
Proof. intros Hf. split; [done|by apply k_upd_conn]. Qed.
Lemma g_upd_bev cur f : same_live f -> gentle cur (upd_bev (A := A) f).
Proof.
  intros Hf. split; [|by apply k_upd_bev]. intros [p w]. unfold upd_bev. rewrite run_getw. by destruct (bev_freed _).
Qed.
Lemma g_upd_req cur i f : same_request f -> gentle cur (upd_req (A := A) i f).
Proof. intros Hf. split; [done|by apply k_upd_req]. Qed.
Lemma g_getc {C} cur (k : evhtp_connection -> M (St W) C) :
  (forall c, gentle cur (k c)) -> gentle cur (c <- getc ;; k c).
Proof.
  intros Hk. split; [|apply t_to_safe, k_getc; intros c _ _; apply t_safe, Hk].
  intros [p w]. unfold getc. rewrite run_assoc, run_getw. destruct (c_freed _); [|apply (gt_framed _ _ (Hk _))].
  exact (gt_framed _ _ (Hk (w_conn w)) (p, w <| w_ub := true |>)).
Qed.
Lemma g_getbev {C} cur (k : evhtp_connection -> M (St W) C) :
  (forall c, gentle cur (k c)) -> gentle cur (c <- getbev ;; k c).
Proof.
  intros Hk. split; [|apply t_to_safe, k_getbev; intros c _ _; apply t_safe, Hk].
  intros [p w]. unfold getbev, getc, bind, getw, ret, ub. cbn.
  destruct (c_freed _), (c_bev _); cbn; by rewrite (gt_framed _ _ (Hk _)).
Qed.
Lemma g_set_status i v : gentle (Some i) (set_cr_status (A := A) v).
Proof. apply framed_gentle; [apply framed_set_cr_status|apply k_set_status]. Qed.
Lemma g_conn_hook cur t d : gentle cur (conn_hook_run app t d).
Proof.
  apply framed_gentle; [|by apply conn_hook_keep]. unfold conn_hook_run, getc.
  framed ltac:(apply app_conn_framed).
Qed.
Lemma g_error_hook i e : gentle (Some i) (htp__hook_error_ app (Some i) e).
Proof.
  apply framed_gentle.
  - unfold htp__hook_error_, ignore. framed ltac:(first [apply framed_with_req | apply app_hook_framed]).
  - apply t_to_safe, t_after; [|intros _; by apply t_ret]. apply t_to_safe, k_with_req. intros r _ _.
    case_match; [|by apply t_ret]. destruct p as [f arg]. apply t_safe, Happ.
Qed.
Lemma g_cur_error_hook cur e : gentle cur (htp__hook_error_ app cur e).
Proof. destruct cur; [apply g_error_hook|apply g_ret]. Qed.

(** *** Freeing *)

(** A freed connection: what is left of its bufferevent has no callback that
    uses it, and stays, deaf, as long as there is output. *)
Record left_conn c : Prop := {
  lf_freed : c_freed c = true;
  lf_resume : resume_ev c = false;
  lf_read : free_cb (bev_readcb c);
  lf_write : free_cb (bev_writecb c);
  lf_event : free_cb (bev_eventcb c);
  lf_gone : bev_freed c = true -> bev_readcb c = cb_null /\ bev_writecb c = cb_null /\ bev_eventcb c = cb_null;
  lf_waits : bev_output c <> [] -> bev_freed c = false /\ bev_readcb c = cb_null /\ bev_eventcb c = cb_null
}.
Definition closed w : Prop := w_ub w = false /\ left_conn (w_conn w).

Lemma drop_current cur :
  triple (live cur) (ignore (htp__request_free_ app cur)) (fun _ => live None).
Proof.
  apply (t_bind _ (fun _ => live None)); [|intros v; by apply t_ret]. destruct cur as [i|]; [|by apply t_ret].
  eapply t_pre; [by apply request_free_drops|apply live_keep].
Qed.
Lemma http1_release_closes cur : triple (live cur) (connection_release app) (fun _ => closed).
Proof.
  apply (t_pre (keep cur false)); [|apply live_keep]. apply k_getc. intros c0 _ Hc0. rewrite Hc0.
  apply (t_bind _ (fun _ => live None)); [eapply t_pre; [apply drop_current|by intros ? []]|intros _].
  intros [p w] Hl. cbn in Hl. pose proof (lv_ub _ _ Hl) as Hub. destruct (lv_conn _ _ Hl) as [Hfr Hb Hbl _ _ _ _ _ _].
  unfold getc, when, bufferevent_setcb, bufferevent_free, upd_bev.
  rewrite run_upd_conn, !run_assoc, run_getw. cbn. rewrite Hfr. cbn. rewrite Hb.
  destruct (bev_output _) as [|x l] eqn:Eo; cbn; [|destruct (bev_ssl _)]; rewrite ?run_assoc, ?run_getw; cbn; rewrite ?Hbl;
    split; try done; split; cbn; rewrite ?Hbl, ?Eo; done.
Qed.
Lemma http1_connection_free_closes cur : triple (live cur) (evhtp_connection_free app) (fun _ => closed).
Proof.
  apply (t_pre (keep cur false)); [|apply live_keep]. apply t_after; [by apply conn_hook_keep|intros _].
  eapply t_pre; [apply http1_release_closes|by intros ? []].
Qed.

(** *** The callbacks *)

(** In order, or freed. *)
Definition sound s : Prop := ordered s \/ closed s.2.
Abbreviation to_sound cur m := (hoare (in_order cur) m (fun (_ : unit) => sound)).
Lemma http1_free_sound cur : to_sound cur (evhtp_connection_free app).
Proof. intros s [Hl _]. right. by apply (http1_connection_free_closes cur s). Qed.
Lemma ret_sound cur : to_sound cur (ret tt).
Proof. intros s Ho. left. by exists cur. Qed.
Lemma gentle_sound cur m : gentle cur m -> to_sound cur m.
Proof. intros Hm s Hs. left. exists cur. by apply gentle_keeps. Qed.
Lemma when_sound cur b m : to_sound cur m -> to_sound cur (when b m).
Proof. destruct b; [done|intros _; apply ret_sound]. Qed.

Lemma run_parser_order cur d : hoare (in_order cur) (run_parser mem app after d) (fun _ => ordered).
Proof.
  intros s Ho. unfold run_parser. destruct (htparser_run _ d s) as [[n s']|] eqn:E; [|by exists cur].
  apply traced_order. exact (trace_run _ phase_inv stop_inv phase_stop
    (psets_obey mem app (after d) Hmem Happ (Hafter d)) _ _ _ _ (order_traced _ _ Ho) E).
Qed.
Lemma run_eof_order cur :
  hoare (in_order cur) (htparser_run_eof (Some (request_psets mem app (after [])))) (fun _ => ordered).
Proof.
  intros s Ho. apply traced_order. exact (trace_run_eof _ phase_inv stop_inv
    (psets_obey mem app (after []) Hmem Happ (Hafter [])) _ (order_traced _ _ Ho)).
Qed.
(** Whatever the current request is. *)
Lemma o_any {B C} cur (m : M (St W) B) (k : B -> M (St W) C) Q :
  hoare (in_order cur) m (fun _ => ordered) -> (forall b cur, hoare (in_order cur) (k b) Q) ->
  hoare (in_order cur) (bind m k) Q.
Proof. intros Hm Hk. eapply hoare_bind; [exact Hm|]. intros b s [cur' Ho]. by apply (Hk b cur'). Qed.
(** The parser changes, but not its state. *)
Lemma g_update_parser cur f : (forall p, state (f p) = state p) -> gentle cur (update_parser (A := A) f).
Proof. intros Hf. split; [intros s; apply Hf|by intros s]. Qed.

Lemma g_pause cur : gentle cur (evhtp_connection_pause (A := A)).
Proof.
  apply g_getc. intros c. destruct (has _ _); [apply g_ret|].
  apply g_bind; [apply g_upd_conn; same_live|intros _]. apply g_getbev. intros c'.
  apply g_when, g_upd_bev. same_live.
Qed.
(** The resume event exists as long as the connection is in use. *)
Lemma g_resume cur : gentle cur (evhtp_connection_resume (A := A)).
Proof.
  split.
  - intros s. assert (Framed (evhtp_connection_resume (A := A))) as Hf; [|by destruct (Hf s)].
    unfold evhtp_connection_resume, getc, upd_conn. framed ltac:(fail 0).
  - apply t_to_safe, k_getc. intros c _ _. destruct (negb _); [by apply t_ret|].
    apply t_after; [apply k_upd_conn; same_live|intros _]. apply k_getc. intros c' Hc' _. rewrite (lc_resume _ Hc').
    apply t_safe, k_upd_conn. same_live.
Qed.
Lemma g_request_pause i : gentle (Some i) (evhtp_request_pause (A := A) i).
Proof.
  split.
  - intros s. assert (Framed (evhtp_request_pause (A := A) i)) as Hf; [|by destruct (Hf s)].
    unfold evhtp_request_pause, ignore, evhtp_connection_pause, getbev, getc, disable_read, upd_bev, upd_conn, upd_req.
    framed ltac:(apply framed_with_req).
  - apply t_to_safe, t_after; [|intros _; by apply t_ret]. apply t_to_safe, k_with_req. intros r _ Hc.
    apply t_after; [apply k_upd_req; same_request|intros _]. rewrite Hc.
    apply t_after; [apply g_pause|intros _; by apply t_ret].
Qed.
Lemma g_ignore {B} cur (m : M (St W) B) : gentle cur m -> gentle cur (ignore m).
Proof. intros Hm. apply g_bind; [done|intros _; apply g_ret]. Qed.
Lemma g_drain cur n : gentle cur (evbuffer_drain (A := A) n).
Proof. apply g_upd_bev. same_live. Qed.
Lemma g_cr_status i : gentle (Some i) (cr_status (A := A)).
Proof.
  apply framed_gentle; [apply framed_with_cur; intros; apply framed_ret|].
  apply t_to_safe, k_with_cur. intros r _ _. by apply t_ret.
Qed.
(** A read of the current request, if there is one. *)
Lemma g_if_request {B} cur c (m m' : M (St W) B) :
  c_request c = cur -> (forall i, cur = Some i -> gentle (Some i) m) -> gentle cur m' ->
  gentle cur (if has_request c then m else m').
Proof.
  intros Hc Hm Hm'. unfold has_request. rewrite Hc. destruct cur as [i|]; [|done].
  rewrite bool_decide_true by done. by apply Hm.
Qed.

Lemma g_connection_error cur e : gentle cur (htp__hook_connection_error_ app e).
Proof.
  apply framed_gentle.
  - unfold htp__hook_connection_error_, getc, htp__hook_error_, ignore.
    framed ltac:(first [apply framed_with_req | apply app_hook_framed]).
  - apply t_to_safe, k_getc. intros c _ ->. apply t_after; [apply g_cur_error_hook|intros _; by apply t_ret].
Qed.
Lemma http1_readcb_sound cur : to_sound cur (htp__connection_readcb_ mem app after).
Proof.
  apply o_getc. intros c _ Hc. cbv zeta. apply o_after.
  { destruct (_ =? _)%nat; [|apply g_ret]. cbn [andb]. apply g_if_request; [done| |apply g_ret].
    intros i _. apply g_bind; [apply g_cr_status|intros v; apply g_ret]. }
  intros [|]; [apply ret_sound|]. destruct (has _ _); [apply ret_sound|]. apply o_after.
  { unfold when. apply g_if_request; [done| |apply g_ret]. intros i _. apply g_ignore, g_set_status. }
  intros _. apply o_any; [apply run_parser_order|clear cur Hc; intros nread cur].
  apply o_getc. intros c1 _ Hc1. destruct (negb _).
  { apply o_after; [apply g_drain|intros _; apply http1_free_sound]. }
  apply o_after; [apply g_if_request; [done|intros i _; apply g_cr_status|apply g_ret]|intros v].
  destruct (_ && _).
  { apply o_after; [apply g_connection_error|intros _; apply http1_free_sound]. }
  apply o_after; [apply g_drain|intros _]. apply o_gets. intros p. rewrite Hc1. destruct cur as [i|].
  - destruct (v =? _); [apply gentle_sound, g_request_pause|]. destruct (negb _).
    + apply o_after; [apply g_error_hook|intros _; apply http1_free_sound].
    + apply when_sound, gentle_sound, g_resume.
  - destruct (negb _); [apply http1_free_sound|]. apply when_sound, gentle_sound, g_resume.
Qed.

(** Back to the host of the virtual host, which exists. *)
Lemma leave_vhost_live w : live None w -> live None (w <| w_conn := leave_vhost (w_htps w) (w_conn w) |>).
Proof.
  intros Hl. destruct (lv_htp _ _ Hl) as (h & Hh & [hh Ehh]). unfold leave_vhost. rewrite Hh. cbn [mbind option_bind].
  rewrite Ehh. assert (live None (w <| w_conn := w_conn w |>)) as Hsame by by destruct w.
  destruct (parent hh) as [p|] eqn:Ep; [|done]. destruct (has _ _); [done|]. pose proof (lv_conn _ _ Hl) as [].
  apply live_conn_upd; [done|by split|apply Hl|]. exists p. split; [done|]. by eapply (tb_parent _ (lv_tables _ _ Hl)).
Qed.
(** What holds of the parser after the last step. *)
Lemma last_parser {B C} (P : htparser -> Prop) (m : M (St W) B) (k : B -> M (St W) C) s :
  (forall b s, P (k b s).2.1) -> P (bind m k s).2.1.
Proof. intros Hk. unfold bind. destruct (m s) as [b s']. apply Hk. Qed.
Lemma next_request_order i :
  hoare (in_order (Some i)) (next_request app) (fun _ => ordered).
Proof.
  intros s Ho. exists None.
  assert (triple (live (Some i)) (next_request app) (fun _ => live None)) as Hlive.
  { clear s Ho. apply (t_pre (keep (Some i) false)); [|apply live_keep]. apply k_getc. intros c _ Hc. rewrite Hc.
    apply (t_bind _ (fun _ => live None)); [eapply t_pre; [apply drop_current|by intros ? []]|intros _].
    apply t_after; [apply k_no_request; intros c' _; split_and!; [done..|]; intros []; by split|intros _].
    apply (t_pre (keep None false)); [|apply live_keep]. apply k_getc. intros c2 _ _ [p w] [Hl _]. rewrite run_getw.
    destruct (bool_decide _); [by apply leave_vhost_live|done]. }
  split; [apply Hlive, Ho|]. intros Hs. exfalso. apply Hs. unfold next_request.
  by repeat (apply last_parser; intros).
Qed.

Lemma g_count_request i n : gentle (Some i) (count_request (A := A) n).
Proof.
  unfold count_request. destruct (0 <? n); [|apply g_ret]. apply g_bind; [apply g_upd_conn; same_live|intros _].
  apply g_getc. intros c. apply g_when, g_ignore. apply framed_gentle.
  - unfold upd_req. framed ltac:(apply framed_with_cur).
  - apply t_to_safe, k_with_cur. intros r _ _. apply t_after; [apply k_upd_req; same_request|intros _; by apply t_ret].
Qed.
Lemma g_flags i : gentle (Some i) (with_cur (A := A) (fun _ r => ret (r_flags r))).
Proof.
  apply framed_gentle; [apply framed_with_cur; intros; apply framed_ret|].
  apply t_to_safe, k_with_cur. intros r _ _. by apply t_ret.
Qed.
Lemma goodbye_sound cur : to_sound cur (goodbye mem app after).
Proof. apply o_any; [apply run_eof_order|intros _ cur']. apply http1_free_sound. Qed.
Lemma http1_writecb_sound cur : to_sound cur (htp__connection_writecb_ mem app after).
Proof.
  apply o_getc. intros c Hl Hc. apply o_getw. intros w _. cbv zeta. destruct (_ || _) eqn:Er; [apply http1_free_sound|].
  destruct cur as [i|]; [|unfold has_request in Er; rewrite Hc, bool_decide_false in Er by (by intros []); done].
  destruct (has _ _); [apply ret_sound|]. apply o_after; [apply g_conn_hook|intros _].
  apply o_getc. intros c1 _ _. apply o_after.
  { destruct (has _ _); [|apply g_ret]. apply g_bind; [apply g_upd_conn; same_live|intros _].
    apply g_bind; [apply g_upd_bev; same_live|intros _; apply g_ret]. }
  intros [|]; [apply http1_readcb_sound|]. apply o_after; [apply g_flags|intros fl].
  apply o_getc. intros c2 _ _. destruct (negb (has fl _) || _); [apply ret_sound|].
  apply o_after; [apply g_count_request|intros _]. apply o_after; [apply g_flags|intros fl'].
  destruct (has _ _); [|apply goodbye_sound]. intros s Ho. left. by apply (next_request_order i).
Qed.

Lemma g_set_cbs cur : gentle cur (set_bufferevent_cbs (A := A)).
Proof.
  apply g_upd_bev. intros c. split; [done|split; [done|]]. intros []. split; try done; cbn; by case_bool_decide.
Qed.
Lemma http1_eventcb_sound cur events err : to_sound cur (htp__connection_eventcb_ mem app after events err).
Proof.
  apply o_after; [apply g_conn_hook|intros _]. apply o_getc. intros c _ Hc. destruct (has events _).
  { apply gentle_sound, g_bind; [apply g_when, g_upd_conn; same_live|intros _; apply g_set_cbs]. }
  apply o_after.
  { apply g_when, g_bind; [apply g_upd_conn; same_live|intros _]. unfold when. apply g_if_request; [done| |apply g_ret].
    intros i _. apply g_ignore, framed_gentle.
    - unfold upd_req. framed ltac:(apply framed_with_cur).
    - apply t_to_safe, k_with_cur. intros r _ _. apply t_after; [apply k_upd_req; same_request|intros _; by apply t_ret]. }
  intros _. cbv zeta. destruct (_ && _); [apply gentle_sound, g_upd_bev; same_live|].
  apply o_any.
  { destruct (_ =? _); [|intros s Ho; by exists cur]. apply o_any; [apply run_eof_order|intros b cur'].
    intros s Ho. by exists cur'. }
  clear cur Hc. intros _ cur. apply o_after; [apply g_upd_conn; same_live|intros _].
  apply o_after; [apply g_connection_error|intros _]. apply o_getc. intros c' _ _.
  destruct (has _ _); [apply gentle_sound, g_upd_conn; same_live|apply http1_free_sound].
Qed.

Lemma g_take_scratch i : gentle (Some i) (take_scratch (A := A)).
Proof.
  apply framed_gentle.
  - unfold take_scratch, upd_req, upd_conn, getc. framed ltac:(apply framed_with_cur).
  - apply t_to_safe, k_with_cur. intros r [_ _ _ [b ->] _ _] _. apply t_after; [apply k_upd_req; same_request|intros _].
    apply k_getc. intros c _ _. destruct (default [] _); [by apply t_ret|].
    apply t_after; [apply k_upd_req; same_request|intros _].
    apply t_after; [apply k_upd_conn; same_live|intros _; by apply t_ret].
Qed.
Lemma resumecb_sound cur : to_sound cur (htp__connection_resumecb_ mem app after).
Proof.
  apply o_getc. intros c _ Hc. apply o_after; [apply g_upd_conn; same_live|intros _].
  apply o_after; [unfold when; apply g_if_request; [done| |apply g_ret]; intros i _; apply g_ignore, g_take_scratch|intros _].
  destruct (has _ _); [apply http1_free_sound|]. apply o_getbev. intros c1 _ Hc1. destruct (negb _).
  { apply gentle_sound, g_bind; [apply g_upd_conn; same_live|intros _; apply g_upd_bev; same_live]. }
  apply o_after; [apply g_when, g_bind; [apply g_upd_bev; same_live|intros _; apply g_upd_bev; same_live]|intros _].
  apply o_gets. intros p. destruct (htparser_is_paused _).
  - apply o_after; [by apply g_update_parser|intros _].
    apply o_after; [unfold when; apply g_if_request; [done| |apply g_ret]; intros i _; apply g_ignore, g_set_status|intros _].
    apply http1_readcb_sound.
  - apply when_sound, http1_readcb_sound.
Qed.

(** *** Events *)

Lemma bev_cb_sound cur cb events err :
  conn_cb cb -> to_sound cur (run_bev_cb mem app after cb events err).
Proof.
  intros Hcb. destruct cb; try done; cbn [run_bev_cb];
    [apply ret_sound|apply http1_readcb_sound|apply http1_writecb_sound|apply http1_eventcb_sound].
Qed.
Lemma http1_deliver_sound cur e : to_sound cur (deliver mem app after e).
Proof.
  apply o_getw. intros w [_ [Hf Hb Hbl Ht Hs Hr Hread Hwrite Hevent] _ _ _ _ _ _]. rewrite Hbl. cbn [orb].
  destruct e as [d| |err|events err|].
  - destruct (negb _); [apply ret_sound|]. apply o_after; [apply g_upd_conn; same_live|intros _; by apply bev_cb_sound].
  - destruct (negb _); [apply ret_sound|]. apply o_after; [apply g_upd_conn; same_live|intros _; by apply bev_cb_sound].
  - destruct (negb _); [apply ret_sound|]. apply o_after; [apply g_upd_conn; same_live|intros _; by apply bev_cb_sound].
  - by apply bev_cb_sound.
  - destruct (_ && _); [|apply ret_sound]. apply o_after; [apply g_upd_conn; same_live|intros _; apply resumecb_sound].
Qed.
End Connections.

(** ** What happens to a connection

    Events, and what the application does between them (it answers late, it
    resumes a request it paused), as long as there is a connection. *)
Inductive happening `{RegexLib} {A} := on_event (e : io_event) | on_act (act : M (St (world A)) unit).
Arguments happening {_} A.

Section Happen.
Context `{lib : HtStringLib} `{rx : RegexLib} {A : Type}.
Context (mem : nat -> bool) (app : App A) (after : list Z -> list Z -> list Z).
Abbreviation W := (world A).

Definition happen (x : happening A) : M (St W) unit :=
  match x with
  | on_event e => deliver mem app after e
  | on_act act => c <- getw w_conn ;; if c_freed c then ret tt else act
  end.
Fixpoint happen_all (xs : list (happening A)) : M (St W) unit :=
  match xs with [] => ret tt | x :: xs => happen x ;; happen_all xs end.
End Happen.
