(* ===== verification/ConnLife.v ===== *)
(** * The life of a connection, to its end

    [connection_events_safe]: on an HTTP/1 connection nothing undefined happens
    until it is freed; [freed_connection_quiet]: afterwards it is left alone,
    and what it had to send is sent.  The witness is the application of Serve.v,
    which answers. *)

From S2P Require Import Prelude HtpTypes HtString MsgParser MsgParserFacts MsgParserRoundtrip Triples Kvs Query Callbacks Numtoa Uri Request ReqParse ReqFacts ReqEnd Reply Conn ConnInv ConnSafe Serve.
From stdpp Require Import gmap.
#[local] Open Scope Z_scope.
#[local] Open Scope htp_scope.

(** ** After the connection *)

Section Freed.
Context `{lib : HtStringLib} `{rx : RegexLib} {A : Type} (mem : nat -> bool) (app : App A).
Context (after : list Z -> list Z -> list Z).
Abbreviation W := (world A).
Implicit Types (w : W) (c : evhtp_connection).

(** [c'] is the freed connection [c] once its bufferevent has gone on. *)
Record goes_on c c' : Prop := {
  go_left : left_conn c';
  go_data : bev_sent c' ++ bev_output c' = bev_sent c ++ bev_output c;
  go_output : bev_output c = [] -> bev_output c' = [];
  go_writing : bev_writing c' = bev_writing c
}.
Lemma goes_on_trans c c1 c2 : goes_on c c1 -> goes_on c1 c2 -> goes_on c c2.
Proof. intros [_ E1 O1 F1] [L E2 O2 F2]. split; [done|congruence|auto|congruence]. Qed.

Lemma bufferevent_setcb_eq r wr e p w :
  bev_freed (w_conn w) = false ->
  bufferevent_setcb r wr e (p, w) = (tt, (p, w <| w_conn := (w_conn w) <| bev_readcb := r |>
    <| bev_writecb := wr |> <| bev_eventcb := e |> |>)).
Proof. intros Hf. unfold bufferevent_setcb, upd_bev, bind, getw. cbn [snd]. by rewrite Hf. Qed.

(** A callback that is left: it acts when nothing is left to send. *)
Lemma freed_cb cb events err p w :
  left_conn (w_conn w) -> free_cb cb -> (bev_freed (w_conn w) = true -> cb = cb_null) ->
  (bev_output (w_conn w) = [] \/ cb = cb_null) ->
  exists c', run_bev_cb mem app after cb events err (p, w) = (tt, (p, w <| w_conn := c' |>)) /\
    goes_on (w_conn w) c'.
Proof.
  intros Hl Hcb Hg Ho. pose proof Hl as [Hf He _ _ _ _ _].
  assert (goes_on (w_conn w) (w_conn w)) as Hsame by by split.
  assert (exists c', (tt, (p, w)) = (tt, (p, w <| w_conn := c' |>)) /\ goes_on (w_conn w) c') as Hstay.
  { exists (w_conn w). split; [by destruct w|done]. }
  assert (bev_output (w_conn w) = [] -> exists c', bufferevent_free (p, w) = (tt, (p, w <| w_conn := c' |>)) /\
    goes_on (w_conn w) c') as Hfree.
  { intros E. eexists. split; [reflexivity|]. split; [|done..]. split; cbn; by rewrite ?E. }
  destruct cb; cbn [run_bev_cb]; try done.
  - destruct Ho as [Ho|?]; [|done]. unfold freecb, bind, getw. cbn [fst snd]. rewrite Ho. by apply Hfree.
  - destruct Ho as [Ho|?]; [|done]. unfold sslfreecb, bind, getw. cbn [fst snd]. rewrite Ho. cbn [length Nat.eqb when].
    destruct (bev_freed (w_conn w)) eqn:E; [by specialize (Hg eq_refl)|].
    rewrite bufferevent_setcb_eq by done. eexists. split; [done|]. split; [|done..]. split; cbn; by rewrite ?E, ?Ho.
  - destruct Ho as [Ho|?]; [|done]. unfold ssleventcb. destruct (has events _); [by apply Hfree|done].
Qed.

Lemma freed_deliver e p w :
  left_conn (w_conn w) ->
  exists c', deliver mem app after e (p, w) = (tt, (p, w <| w_conn := c' |>)) /\ goes_on (w_conn w) c' /\
    (e = io_flushed -> bev_writing (w_conn w) = true -> bev_output c' = []).
Proof.
  intros Hl. pose proof Hl as [Hf Hev Hr Hw He Hg Hwait].
  assert (goes_on (w_conn w) (w_conn w)) as Hid by by split.
  assert (exists c', (tt, (p, w)) = (tt, (p, w <| w_conn := c' |>)) /\ goes_on (w_conn w) c') as Hsame.
  { exists (w_conn w). split; [by destruct w|done]. }
  assert (forall cb : bev_cb, (cb = bev_readcb (w_conn w) \/ cb = bev_eventcb (w_conn w)) ->
    bev_output (w_conn w) = [] \/ cb = cb_null) as Hdeaf.
  { intros cb Hcb. destruct (bev_output (w_conn w)); [by left|right].
    destruct (Hwait ltac:(done)) as (_ & E1 & E2). by destruct Hcb as [-> | ->]. }
  unfold deliver, bind at 1, getw. cbn [fst snd].
  destruct e as [d| |err|events err|].
  - enough (exists c', _ /\ goes_on (w_conn w) c') as (c' & E & Hc') by (exists c'; split_and!; [exact E|done|done]).
    destruct (bev_freed _ || _) eqn:Eg; [exact Hsame|]. apply orb_false_iff in Eg as [Eg _].
    set (c1 := (w_conn w) <| bev_input := bev_input (w_conn w) ++ d |>).
    destruct (freed_cb (bev_readcb (w_conn w)) 0 0 p (w <| w_conn := c1 |>)) as (c' & E & Hc');
      [by split|done|cbn; by rewrite Eg|by apply Hdeaf; left|]. exists c'. split; [exact E|].
    eapply goes_on_trans; [|exact Hc']. by split; [split|..].
  - destruct (bev_freed _ || _) eqn:Eg.
    { exists (w_conn w). split_and!; [by destruct w|done|]. intros _ Hwr. rewrite Hwr in Eg. cbn in Eg. rewrite orb_false_r in Eg.
      destruct (bev_output (w_conn w)); [done|]. destruct (Hwait ltac:(done)) as (E & _). congruence. }
    apply orb_false_iff in Eg as [Eg _].
    set (c1 := (w_conn w) <| bev_sent := bev_sent (w_conn w) ++ bev_output (w_conn w) |> <| bev_output := [] |>).
    destruct (freed_cb (bev_writecb (w_conn w)) 0 0 p (w <| w_conn := c1 |>)) as (c' & E & Hc');
      [by split|done|cbn; by rewrite Eg|by left|].
    assert (goes_on (w_conn w) c1) as H1 by (split; [by split|cbn; by rewrite app_nil_r|done..]).
    exists c'. split_and!; [exact E|by eapply goes_on_trans|]. intros _ _. by apply (go_output _ _ Hc').
  - enough (exists c', _ /\ goes_on (w_conn w) c') as (c' & E & Hc') by (exists c'; split_and!; [exact E|done|done]).
    destruct (bev_freed _ || _) eqn:Eg; [exact Hsame|]. apply orb_false_iff in Eg as [Eg _].
    set (c1 := (w_conn w) <| bev_reading := false |>).
    destruct (freed_cb (bev_eventcb (w_conn w)) (Z.lor BEV_EVENT_EOF BEV_EVENT_READING) err p
      (w <| w_conn := c1 |>)) as (c' & E & Hc'); [by split|done|cbn; by rewrite Eg|by apply Hdeaf; right|].
    exists c'. split; [exact E|]. eapply goes_on_trans; [|exact Hc']. by split; [split|..].
  - enough (exists c', _ /\ goes_on (w_conn w) c') as (c' & E & Hc') by (exists c'; split_and!; [exact E|done|done]).
    destruct (bev_freed _) eqn:Eg; [exact Hsame|]. apply freed_cb; [done|done|by rewrite Eg|by apply Hdeaf; right].
  - enough (exists c', _ /\ goes_on (w_conn w) c') as (c' & E & Hc') by (exists c'; split_and!; [exact E|done|done]).
    by rewrite Hev.
Qed.

Lemma freed_happens xs p w :
  left_conn (w_conn w) ->
  exists c', happen_all mem app after xs (p, w) = (tt, (p, w <| w_conn := c' |>)) /\ goes_on (w_conn w) c' /\
    (on_event io_flushed ∈ xs -> bev_writing (w_conn w) = true -> bev_output c' = []).
Proof.
  revert w. induction xs as [|x xs IH]; intros w Hl; cbn [happen_all].
  { exists (w_conn w). split_and!; [by destruct w|by split|by inversion 1]. }
  assert (exists c1, happen mem app after x (p, w) = (tt, (p, w <| w_conn := c1 |>)) /\ goes_on (w_conn w) c1 /\
    (x = on_event io_flushed -> bev_writing (w_conn w) = true -> bev_output c1 = [])) as (c1 & E1 & H1 & F1).
  { destruct x as [e|act]; cbn [happen].
    - destruct (freed_deliver e p w Hl) as (c1 & E1 & H1 & F1). exists c1. split_and!; [done..|].
      intros [= ->]. by apply F1.
    - exists (w_conn w). rewrite run_getw. cbn [snd]. rewrite (lf_freed _ Hl).
      split_and!; [by destruct w|by split|done]. }
  rewrite (bind_eq _ _ _ _ _ E1). set (w1 := w <| w_conn := c1 |>) in *.
  destruct (IH w1 (go_left _ _ H1)) as (c2 & E2 & H2 & F2).
  exists c2. split_and!; [exact E2|by eapply goes_on_trans|]. intros Hin Hwr. cbn in H2, F2.
  apply elem_of_cons in Hin as [E|Hin]; [by apply (go_output _ _ H2), F1|].
  apply F2; [done|]. by rewrite (go_writing _ _ H1).
Qed.
End Freed.

(** ** Until then *)

Section Life.
Context `{lib : HtStringLib} `{rx : RegexLib} {A : Type} (mem : nat -> bool) (app : App A).
Context (after : list Z -> list Z -> list Z).
Context (Hmem : forall k, mem k = true) (Happ : conn_app app) `{!AppFrame app}.
Context (Hafter : forall buf, nth 0 (after buf []) 0 ∈ [0; SP; HTAB; CR; LF]).
Abbreviation W := (world A).
Implicit Types (w : W) (s : St W) (xs : list (happening A)).

(** A connection in order, whatever its current request. *)
Definition serving s : Prop := exists cur, in_order cur s.
(** The application's acts between events leave the connection in order. *)
Definition proper (x : happening A) : Prop :=
  match x with on_event _ => True | on_act act => forall cur, gentle cur act end.

Lemma happen_sound x : proper x -> hoare sound (happen mem app after x) (fun _ => sound).
Proof.
  intros Hx s [[cur Ho]|[Hub Hl]].
  - destruct x as [e|act]; cbn [happen]; [by apply (http1_deliver_sound mem app after) with (cur := cur)|].
    rewrite run_getw. rewrite (lc_freed _ (lv_conn _ _ (proj1 Ho))). left. exists cur. by apply gentle_keeps.
  - destruct s as [p w]. destruct (freed_happens mem app after [x] p w Hl) as (c' & E & Hc' & _).
    cbn [happen_all] in E. unfold bind, ret in E. destruct (happen mem app after x (p, w)) as [[] s'].
    injection E as ->. right. by split; [|apply Hc'].
Qed.
Lemma happen_all_sound xs : Forall proper xs -> hoare sound (happen_all mem app after xs) (fun _ => sound).
Proof.
  induction 1 as [|x xs Hx _ IH]; cbn [happen_all]; [by intros s|].
  eapply hoare_bind; [by apply happen_sound|]. intros u. exact IH.
Qed.

(** C2: on a server's HTTP/1 connection nothing undefined happens, whatever
    bytes come in whatever pieces, in whatever order reads, writes, the end of
    the input, errors, timeouts and the resume event come, and whatever the
    application does between them within its contract, as long as memory lasts:
    no connection or bufferevent is used after it was freed and no pointer that
    is followed is NULL; in particular the functions of the parser's table find
    the request and the URI that they use.  Afterwards the connection is in
    order (its bufferevent calls it, its current request is whole and in no
    cache, and in the middle of a message there is one), or it was freed and
    left no callback that uses it. *)
Theorem connection_events_safe xs s :
  serving s -> Forall proper xs ->
  let s' := (happen_all mem app after xs s).2 in
  w_ub s'.2 = false /\ (serving s' \/ left_conn (w_conn s'.2)).
Proof.
  intros Hs Hxs. cbv zeta. destruct (happen_all_sound xs Hxs s (or_introl Hs)) as [[cur Ho]|[Hub Hl]].
  - split; [apply (lv_ub _ _ (proj1 Ho))|left; by exists cur].
  - split; [done|by right].
Qed.

(** C6: a connection that is freed is left alone.  evhtp_connection_free, on any
    connection in order, does nothing undefined and frees the connection; after
    that, whatever the event loop delivers (bytes, the end of the output or of
    the input, errors, timeouts, resume events), neither the parser, nor a
    request, nor the caches, nor the application is touched, and only the
    bufferevent changes: nothing of its output is lost, and once it has been
    written all of it was sent. *)
Theorem freed_connection_quiet xs s :
  serving s ->
  let s1 := (evhtp_connection_free app s).2 in
  let c1 := w_conn s1.2 in
  w_ub s1.2 = false /\ c_freed c1 = true /\
  exists c', happen_all mem app after xs s1 = (tt, (s1.1, s1.2 <| w_conn := c' |>)) /\
    bev_sent c' ++ bev_output c' = bev_sent c1 ++ bev_output c1 /\
    (on_event io_flushed ∈ xs -> bev_writing c1 = true -> bev_sent c' = bev_sent c1 ++ bev_output c1).
Proof.
  intros [cur [Hl _]]. cbv zeta. destruct (http1_connection_free_closes app Happ cur s Hl) as [Hub Hc].
  split; [done|]. split; [apply Hc|]. destruct (evhtp_connection_free app s) as [u [p w]]. cbn [fst snd] in *.
  destruct (freed_happens mem app after xs p w Hc) as (c' & E & [_ Ed _ _] & Hf).
  exists c'. split_and!; [done..|]. intros Hin Hw. rewrite <- Ed, (Hf Hin Hw). by rewrite app_nil_r.
Qed.
End Life.

(** ** Witness: the application that says hello *)

Section Respond.
Context `{rx : RegexLib} {A : Type} (mem : nat -> bool) (Hmem : forall k, mem k = true).
Lemma respond_keep i u a : safe (keep (Some i) u) (respond (A := A) mem a i).
Proof.
  unfold respond. apply safe_bind; [|intros _; apply safe_bind; [|intros _]].
  - induction (ans_fields a) as [|f fs IH]; cbn [add_fields]; [apply safe_ret|].
    apply safe_bind; [by apply add_out_keep|intros _; exact IH].
  - apply k_upd_req. split; [by intros []..|]. intros r [? ? ? ? [b Eb] ?]. split; try done. cbn. by rewrite Eb.
  - apply safe_bind; [by apply send_reply_keep|intros; apply safe_ret].
Qed.
Lemma respond_framed i a : Framed (respond (A := A) mem a i).
Proof.
  unfold respond. apply framed_bind; [|intros _; apply framed_bind; [|intros _]].
  - induction (ans_fields a) as [|f fs IH]; cbn [add_fields]; [apply framed_ret|].
    apply framed_bind; [apply framed_add_out|intros _; exact IH].
  - apply framed_updw.
  - apply framed_bind; [apply framed_send_reply|intros; apply framed_ret].
Qed.
End Respond.

Lemma hello_conn_app : conn_app hello_app.
Proof.
  split; [by intros ? ? ? ? ? ? ?| |by intros ? ? ? ? ? ?].
  intros i f arg s Hs. cbn [app_cb hello_app]. destruct (w_reqs s.2 !! i); [|done]. by apply respond_keep.
Qed.
#[export] Instance hello_app_frame : AppFrame hello_app.
Proof.
  split; [by intros ? ? ? ? ? s| |by intros ? ? ? ? s|by intros ? ? s].
  intros i f arg s. cbn [app_cb hello_app]. destruct (w_reqs s.2 !! i); [|done]. apply respond_framed.
Qed.
(** An open connection without requests. *)
Lemma only_noting i h :
  ({[0%nat := noting_host]} : gmap nat evhtp) !! i = Some h -> h = noting_host.
Proof. by intros [_ <-]%lookup_singleton_Some. Qed.
Lemma noting_tables : tables_ok ({[0%nat := noting_host]} : gmap nat evhtp).
Proof.
  split.
  - intros i h ->%only_noting. split_and!; [|by intros s [=]|by intros a; inversion 1].
    intros l cb g [= <-] Hin. apply list_elem_of_singleton in Hin as ->. by intros [=].
  - intros i h rest ->%only_noting _. split; [by intros s [=]|by intros a; inversion 1].
  - by intros i h p ->%only_noting.
Qed.
Lemma hello_serving : serving (p_init htp_type_request, hello_world).
Proof.
  exists None. split; [|done]. split; try done.
  - by exists 0%nat.
  - exact noting_tables.
Qed.

(** A request arrives in pieces, is answered, its reply is written; then the
    connection is resumed, an error is reported, and more bytes come. *)
Definition hello_events : list (happening (H := no_regex) unit) :=
  [on_event (io_data (take 9 (render sample_request))); on_act evhtp_connection_pause; on_event io_flushed;
   on_act evhtp_connection_resume; on_event io_resume;
   on_event (io_data (drop 9 (render sample_request))); on_event io_flushed;
   on_event (io_data (render sample_request)); on_event (io_event_ BEV_EVENT_ERROR 0);
   on_event (io_data (bytes "GET")); on_event io_flushed].
Lemma hello_events_proper : Forall proper hello_events.
Proof.
  unfold hello_events. rewrite !Forall_cons. split_and!; try done; intros cur; [apply g_pause|apply g_resume].
Qed.
Abbreviation hello_happens xs := (happen_all (fun _ => true) hello_app (fun _ _ => [CR; LF]) xs
  (p_init htp_type_request, hello_world)).2 (only parsing).
Lemma crlf_after (buf : list Z) : nth 0 ((fun _ _ => [CR; LF]) buf ([] : list Z)) 0 ∈ [0; SP; HTAB; CR; LF].
Proof. repeat first [left | right]. Qed.

Lemma connection_events_safe_witness :
  let s' := hello_happens hello_events in
  c_freed (w_conn s'.2) = true /\ take 15 (bev_sent (w_conn s'.2)) = bytes "HTTP/1.1 200 OK" /\
  w_ub s'.2 = false /\ (serving s' \/ left_conn (w_conn s'.2)).
Proof.
  split; [vm_compute; reflexivity|]. split; [vm_compute; reflexivity|].
  apply (connection_events_safe (fun _ => true) hello_app (fun _ _ => [CR; LF]) (fun _ => eq_refl) hello_conn_app
    crlf_after); [exact hello_serving|exact hello_events_proper].
Defined.

(** The connection is freed when its reply waits to be written. *)
Definition replied : St (world (H := no_regex) unit) :=
  hello_happens [on_event (io_data (render sample_request))].
Lemma replied_serving : serving replied.
Proof.
  destruct (happen_all_sound (fun _ => true) hello_app (fun _ _ => [CR; LF]) (fun _ => eq_refl) hello_conn_app
    crlf_after [on_event (io_data (render sample_request))] ltac:(by repeat constructor) (p_init htp_type_request, hello_world)
    (or_introl hello_serving)) as [Ho|[_ Hl]]; [exact Ho|].
  exfalso. apply lf_freed in Hl. revert Hl. vm_compute. discriminate.
Qed.
Definition last_events : list (happening (H := no_regex) unit) :=
  [on_event (io_data (bytes "GET /")); on_event (io_eof 0); on_event io_flushed; on_event io_resume].
Lemma freed_connection_quiet_witness :
  let s1 := (evhtp_connection_free hello_app replied).2 in
  let c1 := w_conn s1.2 in
  take 15 (bev_output c1) = bytes "HTTP/1.1 200 OK" /\
  (w_ub s1.2 = false /\ c_freed c1 = true /\
   exists c', happen_all (fun _ => true) hello_app (fun _ _ => [CR; LF]) last_events s1 =
       (tt, (s1.1, s1.2 <| w_conn := c' |>)) /\
     bev_sent c' ++ bev_output c' = bev_sent c1 ++ bev_output c1 /\
     (on_event io_flushed ∈ last_events -> bev_writing c1 = true -> bev_sent c' = bev_sent c1 ++ bev_output c1)).
Proof.
  split; [vm_compute; reflexivity|].
  apply (freed_connection_quiet (fun _ => true) hello_app (fun _ _ => [CR; LF]) hello_conn_app last_events replied),
    replied_serving.
Defined.
