(* ===== verification/Accept.v ===== *)
(** * Accepting, pausing

    [accept_opens]: the listener's callback either opens a connection that
    serves requests (Serve.v) or closes it.  [second_pause_lost]: a pause that
    follows a resume before the event loop came round is forgotten. *)

From S2P Require Import Prelude HtpTypes HtString MsgParser MsgParserFacts MsgParserRoundtrip Kvs Query Callbacks Numtoa Uri Request ReqParse ReqFacts ReqEnd Reply Conn ConnInv ConnSafe ConnFacts Serve ConnLife.
From stdpp Require Import gmap.
#[local] Open Scope Z_scope.
#[local] Open Scope htp_scope.

Section Accept.
Context `{lib : HtStringLib} `{rx : RegexLib} {A : Type} (mem : nat -> bool).
Context (Hmem : forall k, mem k = true) (app : App A).
Abbreviation W := (world A).
Implicit Types (w : W).

(** The accept callbacks answer [v cb arg], and leave the connection alone. *)
Context (v : Z -> Z -> Z) (Haccept : forall cb arg s, app_accept app cb arg s = (v cb arg, s)).

Definition approves (cb arg : Z) : bool := (cb =? 0) || (v cb arg mod 2 ^ 16 =? EVHTP_RES_OK).
Definition welcome (host : evhtp) : bool :=
  approves (d_pre_accept (defaults host)) (d_pre_accept_cbarg (defaults host)) &&
  approves (d_post_accept (defaults host)) (d_post_accept_cbarg (defaults host)).

Lemma run_accept_eq cb arg s :
  run_accept app cb arg s = (if approves cb arg then 0 else -1, s).
Proof.
  unfold run_accept, approves. destruct (cb =? 0); [done|].
  erewrite bind_eq by apply Haccept. unfold ret. cbn [orb]. by destruct (_ =? _).
Qed.

(** A connection that was just accepted. *)
Definition accepted (h : nat) (host : evhtp) : evhtp_connection :=
  (fresh_bev (ssl_ctx host) ((zero_connection (Some h) (htp_max_body_size host) evhtp_type_server)
    <| c_ssl := ssl_ctx host |>))
    <| bev_timeouts := (pick_timeo (0, 0) (recv_timeo host), pick_timeo (0, 0) (send_timeo host)) |>
    <| resume_ev := true |> <| bev_readcb := htp__connection_readcb |>
    <| bev_writecb := htp__connection_writecb |> <| bev_eventcb := htp__connection_eventcb |>
    <| bev_reading := true |>.

Lemma accept_eq h host p w :
  w_htps w !! h = Some host ->
  w_conn w = zero_connection (Some h) (htp_max_body_size host) evhtp_type_server ->
  exists n, htp__connection_accept_ mem app (p, w) =
    if approves (d_pre_accept (defaults host)) (d_pre_accept_cbarg (defaults host))
    then (0, (p, w <| w_allocs := n |> <| w_conn := accepted h host |>))
    else (-1, (p, w)).
Proof.
  intros Hh Hc. unfold htp__connection_accept_, with_htp. rewrite getc_eq by by rewrite Hc.
  rewrite run_getw. cbn [snd]. rewrite Hc. cbn [c_htp zero_connection mbind option_bind]. rewrite Hh.
  unfold htp__run_pre_accept_. erewrite bind_eq by apply run_accept_eq.
  destruct (approves _ _); [|by eexists].
  cbn [Z.ltb Z.compare]. rewrite run_allocs. cbn [fst snd]. rewrite !Hmem. cbn [andb negb].
  exists (w_allocs w + 2)%nat.
  assert (forall B (k : unit -> M (St W) B) (w0 : W),
    w_conn w0 = zero_connection (Some h) (htp_max_body_size host) evhtp_type_server ->
    bind (when (ssl_ctx host) (upd_conn (fun c => c <| c_ssl := true |>))) k (p, w0) =
    k tt (p, w0 <| w_conn := (w_conn w0) <| c_ssl := ssl_ctx host |> |>)) as Hssl.
  { intros B k w0 E. destruct (ssl_ctx host); [done|]. unfold when. rewrite run_ret.
    do 2 f_equal. destruct w0. cbn in *. by subst. }
  rewrite Hssl by done. unfold new_bev, evhtp_connection_set_timeouts, bufferevent_setcb, enable_read.
  rewrite run_assoc, getc_eq by (cbn; by rewrite Hc). rewrite run_upd_conn. cbn [fst snd].
  rewrite getc_eq by (cbn; by rewrite Hc). rewrite run_assoc, getbev_eq by (cbn; by rewrite ?Hc).
  rewrite bev_op_eq by done. rewrite run_upd_conn. cbn [fst snd].
  rewrite bev_op_eq by done. rewrite bev_op_eq by done. unfold ret, accepted. cbn. by rewrite Hc.
Qed.

(** A connection without hooks, request and output, once freed. *)
Definition stripped (c : evhtp_connection) : evhtp_connection :=
  c <| c_request := None |> <| c_hooks := None |> <| scratch_buf := None |>
    <| resume_ev := false |> <| resume_pending := false |>.
Definition without_bev (c : evhtp_connection) : evhtp_connection :=
  if c_bev c then c <| bev_freed := true |> <| bev_readcb := cb_null |>
                    <| bev_writecb := cb_null |> <| bev_eventcb := cb_null |> else c.
Definition closed (c : evhtp_connection) : evhtp_connection :=
  (without_bev (stripped c)) <| c_freed := true |>.

(** What evhtp_connection_free does last. *)
Definition release_bev (c : evhtp_connection) : M (St W) unit :=
  when (c_bev c)
    (if negb (length (bev_output c) =? 0)%nat then
       if bev_ssl c then bufferevent_setcb cb_null cb_sslfreecb cb_null
       else bufferevent_setcb cb_null cb_freecb cb_null
     else bufferevent_free).
Lemma without_bev_eq p w :
  bev_output (w_conn w) = [] ->
  (release_bev (w_conn w) ;; upd_conn (fun c => c <| c_freed := true |>)) (p, w) =
  (tt, (p, w <| w_conn := (without_bev (w_conn w)) <| c_freed := true |> |>)).
Proof. intros Ho. unfold release_bev, without_bev. rewrite Ho. by destruct (c_bev (w_conn w)). Qed.

Lemma free_idle p w :
  c_freed (w_conn w) = false -> c_hooks (w_conn w) = None -> c_request (w_conn w) = None ->
  bev_output (w_conn w) = [] ->
  evhtp_connection_free app (p, w) = (tt, (p, w <| w_conn := closed (w_conn w) |>)).
Proof.
  intros Hf Hh Hr Ho. unfold evhtp_connection_free, connection_release, htp__hook_connection_fini_, conn_hook_run.
  rewrite run_assoc, getc_eq, Hh by done. cbn [hook_set]. rewrite run_ret, getc_eq by done.
  rewrite Hr. unfold ignore. rewrite run_assoc. cbn [htp__request_free_]. rewrite !run_ret.
  rewrite run_upd_conn. cbn [fst snd]. rewrite getc_eq by done.
  match goal with |- bind _ _ (p, ?x) = _ => exact (without_bev_eq p x Ho) end.
Qed.

Lemma closed_left c :
  bev_output c = [] ->
  (c_bev c = false -> bev_readcb c = cb_null /\ bev_writecb c = cb_null /\ bev_eventcb c = cb_null) ->
  left_conn (closed c).
Proof.
  intros Ho Hb. unfold closed, without_bev. change (c_bev (stripped c)) with (c_bev c).
  destruct (c_bev c); [by split; cbn; rewrite ?Ho|]. destruct (Hb eq_refl) as (E1 & E2 & E3).
  split; cbn; by rewrite ?E1, ?E2, ?E3, ?Ho.
Qed.

Lemma new_connection_eq h host p w :
  w_htps w !! h = Some host ->
  exists p' n, htp__connection_new_ mem app (Some h) evhtp_type_server (p, w) =
    (true, (p', w <| w_allocs := n |>
      <| w_conn := zero_connection (Some h) (htp_max_body_size host) evhtp_type_server |>)) /\
    plain p' /\ state p' = S_START.
Proof.
  intros Hh. unfold htp__connection_new_. rewrite run_allocs. cbn [fst snd].
  rewrite run_getw. cbn [snd]. rewrite !Hmem. cbn [negb w_htps set_field eta_fields eta_world mbind option_bind].
  rewrite Hh. cbn [from_option]. rewrite run_updw.
  eexists _, _. split; [reflexivity|]. by repeat split.
Qed.

(** C15: accepting.  For a server without TLS and a body limit, whose accept
    callbacks answer without touching the connection, and enough memory, the
    listener's callback makes a connection which, when both callbacks approve,
    is open and idle - reading, with the callbacks of the library, the server's
    timeouts and a fresh parser - so that it serves requests as keep-alive
    connections do; and which is freed, with its bufferevent, when one of them
    refuses.  The caches and requests of the server are left alone. *)
Theorem accept_opens h host p w :
  w_htps w !! h = Some host -> ssl_ctx host = false -> htp_max_body_size host = 0 ->
  Forall (fun i => exists r, w_reqs w !! i = Some r /\ spare h r) (cached h w) ->
  NoDup (cached h w) ->
  exists p' w', htp__accept_cb_ mem app h None (p, w) = (tt, (p', w')) /\
    w_ub w' = w_ub w /\ w_reqs w' = w_reqs w /\ w_cache w' = w_cache w /\ w_htps w' = w_htps w /\
    plain p' /\ state p' = S_START /\
    if welcome host then
      open_idle h host w' /\ c_num_requests (w_conn w') = 0 /\ bev_sent (w_conn w') = [] /\
      bev_timeouts (w_conn w') = (pick_timeo (0, 0) (recv_timeo host), pick_timeo (0, 0) (send_timeo host))
    else left_conn (w_conn w') /\
         (c_bev (w_conn w') = true -> bev_freed (w_conn w') = true).
Proof.
  intros Hh Hssl Hmax Hsp Hnd. unfold htp__accept_cb_.
  destruct (new_connection_eq h host p w Hh) as (p0 & n0 & E0 & Hp0 & Hst0).
  erewrite bind_eq by exact E0. cbn [negb]. rewrite run_allocs. cbn [fst snd]. rewrite Hmem. cbn [negb].
  match goal with |- context [(p0, ?x)] => set (w1 := x) end.
  destruct (accept_eq h host p0 w1 Hh eq_refl) as (n1 & E1). unfold welcome.
  destruct (approves (d_pre_accept _) _); cbn [andb].
  - erewrite bind_eq by exact E1. cbn [Z.eqb].
    match goal with |- context [(p0, ?x)] => set (w2 := x) end.
    assert (w_conn w2 = accepted h host) as Hc by done.
    unfold with_htp. rewrite run_assoc, getc_eq by by rewrite Hc. rewrite run_assoc, run_getw. cbn [snd].
    rewrite Hc. cbn [c_htp accepted]. change (w_htps w2) with (w_htps w).
    change (mbind _ _) with (w_htps w !! h). rewrite Hh.
    unfold htp__run_post_accept_. erewrite bind_eq by apply run_accept_eq.
    destruct (approves _ _); cbn [Z.eqb Z.opp when].
    + exists p0, w2. do 7 (split; [done|]). split; [|by rewrite Hc].
      split; rewrite ?Hc; done.
    + cbn [Pos.eqb when]. rewrite free_idle by by rewrite Hc. exists p0, (w2 <| w_conn := closed (w_conn w2) |>).
      do 7 (split; [done|]). split; [by apply closed_left; rewrite ?Hc|by rewrite Hc].
  - erewrite bind_eq by exact E1. cbn [Z.eqb Z.opp Pos.eqb].
    rewrite free_idle by done. exists p0, (w1 <| w_conn := closed (w_conn w1) |>).
    do 7 (split; [done|]). split; [by apply closed_left|done].
Qed.
End Accept.

Section Pause.
Context `{lib : HtStringLib} `{rx : RegexLib} {A : Type} (mem : nat -> bool) (app : App A).
Context (after : list Z -> list Z -> list Z).
Abbreviation W := (world A).
Implicit Types (w : W).
Abbreviation paused c := (has (c_flags c) EVHTP_CONN_FLAG_PAUSED).

(** An open connection with a resume event; it is reading unless paused. *)
Record running c : Prop := {
  rn_alive : c_freed c = false;
  rn_bev : c_bev c = true;
  rn_open : bev_freed c = false;
  rn_event : resume_ev c = true;
  rn_reading : bev_reading c = negb (paused c);
  rn_kept : has (c_flags c) EVHTP_CONN_FLAG_FREE_CONN = false
}.

Definition do_pause c : evhtp_connection :=
  if bev_reading c
  then c <| c_flags := flag_on (c_flags c) EVHTP_CONN_FLAG_PAUSED |> <| bev_reading := false |>
  else c <| c_flags := flag_on (c_flags c) EVHTP_CONN_FLAG_PAUSED |>.
Definition do_resume c : evhtp_connection :=
  c <| c_flags := flag_off (c_flags c) EVHTP_CONN_FLAG_PAUSED |> <| resume_pending := true |>.

Lemma do_pause_spec c :
  c_freed c = false -> c_bev c = true -> bev_freed c = false -> resume_ev c = true ->
  has (c_flags c) EVHTP_CONN_FLAG_FREE_CONN = false ->
  running (do_pause c) /\ paused (do_pause c) = true /\ bev_reading (do_pause c) = false /\
  resume_pending (do_pause c) = resume_pending c /\ c_request (do_pause c) = c_request c /\
  bev_output (do_pause c) = bev_output c /\ bev_input (do_pause c) = bev_input c.
Proof.
  intros ? ? ? ? ?. unfold do_pause.
  destruct (bev_reading c) eqn:Hr; cbn; rewrite has_on_eq by done; split_and!; try done;
    split; cbn; rewrite ?has_on_eq, ?has_on_ne by done; done.
Qed.

Lemma pause_eq p w :
  c_freed (w_conn w) = false -> c_bev (w_conn w) = true -> bev_freed (w_conn w) = false ->
  paused (w_conn w) = false ->
  evhtp_connection_pause (p, w) = (tt, (p, w <| w_conn := do_pause (w_conn w) |>)).
Proof.
  intros Hf Hb Ho Hp. unfold evhtp_connection_pause. rewrite getc_eq, Hp by done.
  rewrite run_upd_conn. cbn [fst snd]. rewrite getbev_eq by done. unfold do_pause.
  match goal with |- when (bev_reading (w_conn ?w1)) _ _ = _ =>
    change (bev_reading (w_conn w1)) with (bev_reading (w_conn w)) end.
  destruct (bev_reading (w_conn w)); [|done]. unfold when, disable_read, upd_bev. rewrite run_getw.
  cbn [snd w_conn set_field eta_fields eta_world bev_freed eta_connection]. by rewrite Ho.
Qed.
Lemma resume_eq p w :
  c_freed (w_conn w) = false -> resume_ev (w_conn w) = true -> paused (w_conn w) = true ->
  evhtp_connection_resume (p, w) = (tt, (p, w <| w_conn := do_resume (w_conn w) |>)).
Proof.
  intros Hf He Hp. unfold evhtp_connection_resume. rewrite getc_eq, Hp by done. cbn [negb].
  rewrite run_upd_conn. cbn [fst snd]. rewrite getc_eq by done.
  match goal with |- context [if resume_ev ?c then _ else _] =>
    change (resume_ev c) with (resume_ev (w_conn w)) end.
  by rewrite He.
Qed.

(** What the resume event makes of a connection. *)
Definition woken c : evhtp_connection :=
  c <| resume_pending := false |> <| c_flags := flag_off (c_flags c) EVHTP_CONN_FLAG_PAUSED |>
    <| bev_reading := true |> <| bev_writing := true |>.

Lemma resume_event_eq p w :
  running (w_conn w) -> resume_pending (w_conn w) = true -> c_request (w_conn w) = None ->
  bev_reading (w_conn w) = false -> bev_output (w_conn w) = [] -> bev_input (w_conn w) = [] ->
  htparser_is_paused (Some p) = false ->
  deliver mem app after io_resume (p, w) = (tt, (p, w <| w_conn := woken (w_conn w) |>)).
Proof.
  intros [] Hpend Hreq Hread Hout Hin Hpp. unfold deliver. rewrite run_getw. cbn [snd].
  rewrite rn_event0, Hpend. cbn [andb]. rewrite run_upd_conn. cbn [fst snd].
  unfold htp__connection_resumecb_. rewrite getc_eq by done. rewrite run_upd_conn. cbn [fst snd].
  match goal with |- bind (when (has_request ?c) _) _ (p, ?x) = _ => set (c1 := c); set (w2 := x) end.
  rewrite (has_request_none c1) by done. unfold when at 1. rewrite run_ret.
  replace (has (c_flags c1) EVHTP_CONN_FLAG_FREE_CONN) with false by done.
  rewrite getbev_eq by done.
  match goal with |- context [length (bev_output ?c)] =>
    replace (bev_output c) with (@nil Z) by done end.
  match goal with |- context [negb (bev_reading ?c)] =>
    replace (bev_reading c) with false by done end.
  cbn [length Nat.eqb negb when].
  unfold enable_read, enable_write. rewrite run_assoc, bev_op_eq by done.
  rewrite bev_op_eq by done. rewrite run_gets. cbn [fst]. rewrite Hpp.
  match goal with |- context [length (bev_input ?c)] =>
    replace (bev_input c) with (@nil Z) by done end.
  reflexivity.
Qed.

(** A pause can be lost.  On an idle connection that is not paused:
    evhtp_connection_pause stops the reading; with no resume, the event loop
    does not start it again.  But when the application pauses, resumes and
    pauses again before the event loop comes round, the resume event of the
    first resume is still pending, and when it fires the connection is reading
    and no longer paused although the last call was a pause. *)
Theorem second_pause_lost p w :
  running (w_conn w) -> paused (w_conn w) = false -> resume_pending (w_conn w) = false ->
  c_request (w_conn w) = None -> bev_output (w_conn w) = [] -> bev_input (w_conn w) = [] ->
  htparser_is_paused (Some p) = false ->
  (exists w1, evhtp_connection_pause (p, w) = (tt, (p, w1)) /\
     paused (w_conn w1) = true /\ bev_reading (w_conn w1) = false /\
     deliver mem app after io_resume (p, w1) = (tt, (p, w1))) /\
  exists w1 w2,
    (evhtp_connection_pause ;; evhtp_connection_resume ;; evhtp_connection_pause) (p, w) =
      (tt, (p, w1)) /\
    paused (w_conn w1) = true /\ bev_reading (w_conn w1) = false /\
    deliver mem app after io_resume (p, w1) = (tt, (p, w2)) /\
    paused (w_conn w2) = false /\ bev_reading (w_conn w2) = true /\ w_ub w2 = w_ub w.
Proof.
  intros Hrun Hp Hpend Hreq Hout Hin Hpp. pose proof Hrun as [].
  destruct (do_pause_spec (w_conn w) rn_alive0 rn_bev0 rn_open0 rn_event0 rn_kept0)
    as (R1 & P1 & B1 & Pd1 & Q1 & O1 & I1).
  set (c1 := do_pause (w_conn w)) in *. split.
  - exists (w <| w_conn := c1 |>). rewrite pause_eq by done. do 3 (split; [done|]).
    unfold deliver. rewrite run_getw. cbn [snd w_conn set_field eta_fields eta_world].
    by rewrite Pd1, Hpend, andb_false_r.
  - destruct R1. set (c2 := do_resume c1).
    assert (paused c2 = false) as P2 by (unfold c2, do_resume; cbn; by rewrite has_off_eq).
    assert (has (c_flags c2) EVHTP_CONN_FLAG_FREE_CONN = false) as K2
      by (unfold c2, do_resume; cbn; by rewrite has_off_ne).
    destruct (do_pause_spec c2 rn_alive1 rn_bev1 rn_open1 rn_event1 K2)
      as (R3 & P3 & B3 & Pd3 & Q3 & O3 & I3).
    set (c3 := do_pause c2) in *.
    exists (w <| w_conn := c3 |>), (w <| w_conn := woken c3 |>).
    split; [|split; [exact P3|split; [exact B3|split]]].
    + erewrite bind_eq by by apply pause_eq. erewrite bind_eq by by apply resume_eq.
      by rewrite pause_eq.
    + match goal with |- _ (p, ?x) = _ => apply (resume_event_eq p x) end; try done.
      all: cbn [w_conn set_field eta_fields eta_world].
      all: rewrite ?Q3, ?O3, ?I3, ?Pd3; unfold c2, do_resume; cbn; by rewrite ?Q1, ?O1, ?I1.
    + split; [|done]. unfold woken. cbn. by rewrite has_off_eq.
Qed.
End Pause.

(** The example server: it has no accept callbacks, and its connection is open. *)
Lemma hello_running : running hello_conn.
Proof. by split. Qed.

Lemma accept_opens_witness :
  exists p' w', htp__accept_cb_ (fun _ => true) hello_app 0 None (p_init htp_type_request, hello_world) =
      (tt, (p', w')) /\
    w_ub w' = w_ub hello_world /\ w_reqs w' = w_reqs hello_world /\ w_cache w' = w_cache hello_world /\
    w_htps w' = w_htps hello_world /\ plain p' /\ state p' = S_START /\
    open_idle 0 noting_host w' /\ c_num_requests (w_conn w') = 0 /\ bev_sent (w_conn w') = [] /\
    bev_timeouts (w_conn w') = (pick_timeo (0, 0) (recv_timeo noting_host), pick_timeo (0, 0) (send_timeo noting_host)).
Proof.
  apply (accept_opens (fun _ => true) (fun _ => eq_refl) hello_app (fun _ _ => EVHTP_RES_OK)
    (fun _ _ _ => eq_refl) 0 noting_host (p_init htp_type_request) hello_world);
    try reflexivity; [apply Forall_nil_2 | apply NoDup_nil_2].
Defined.

Lemma second_pause_lost_witness :
  exists w1 w2,
    (evhtp_connection_pause ;; evhtp_connection_resume ;; evhtp_connection_pause)
      (p_init htp_type_request, hello_world) = (tt, (p_init htp_type_request, w1)) /\
    has (c_flags (w_conn w1)) EVHTP_CONN_FLAG_PAUSED = true /\ bev_reading (w_conn w1) = false /\
    deliver (fun _ => true) hello_app (fun _ _ => [CR; LF]) io_resume (p_init htp_type_request, w1) =
      (tt, (p_init htp_type_request, w2)) /\
    has (c_flags (w_conn w2)) EVHTP_CONN_FLAG_PAUSED = false /\ bev_reading (w_conn w2) = true /\
    w_ub w2 = w_ub hello_world.
Proof.
  apply (second_pause_lost (fun _ => true) hello_app (fun _ _ => [CR; LF])
    (p_init htp_type_request) hello_world hello_running); reflexivity.
Defined.
