(* ===== verification/Client.v ===== *)
(** * evhtp.c: the client's requests

    evhtp_request_new and its caching variant, and evhtp_make_request, which
    writes a request to a connection; the counterpart of ReplyEnd.v:
    [made_request_delivered] shows that a server's parser reads back what the
    client asked for. *)

From S2P Require Import Prelude HtpTypes HtString MsgParser MsgParserFacts MsgParserSpec MsgParserFraming MsgParserRoundtrip Kvs Query Callbacks Numtoa Uri Request ReqParse ReqFacts Reply ReplyFacts ReplyEnd Conn ConnFacts.
From stdpp Require Import gmap.
#[local] Open Scope Z_scope.
#[local] Open Scope htp_scope.

Section Client.
Context `{rx : RegexLib} {A : Type} (mem : nat -> bool) (app : App A).
Abbreviation W := (world A).

(** Without a request evhtp_alloc_assert aborts (with NDEBUG, NULL is followed):
    [ub]. *)
Definition evhtp_request_new (cb arg : Z) : M (St W) (option nat) :=
  k <- allocs 5 ;;
  if negb (mem k) then ub None
  else
    let '(r, ok) := fill_request mem (k + 1) ((zero_request None) <| r_conn := false |>) in
    updw (fun w => w <| w_reqs := <[k := r]> (w_reqs w) |>) ;;
    if ok then
      upd_req k (fun r => r <| r_cb := cb |> <| r_cbarg := arg |> <| r_proto := EVHTP_PROTO_11 |>) ;;
      ret (Some k)
    else htp__request_free_ app (Some k) ;; ub None.

Definition evhtp_request_new_ (evhtp : option nat) (cb arg : Z) : M (St W) (option nat) :=
  match evhtp with
  | None => ret None
  | Some h =>
      cache <- getw w_cache ;;
      match default [] (cache !! h) with
      | i :: rest =>
          updw (fun w => w <| w_cache := <[h := rest]> (w_cache w) |>) ;;
          upd_req i (fun r => r <| r_cb := cb |> <| r_cbarg := arg |>
                                <| r_proto := EVHTP_PROTO_11 |>) ;;
          ret (Some i)
      | [] =>
          r <- evhtp_request_new cb arg ;;
          match r with
          | Some i => upd_req i (fun r => r <| r_htp := Some h |>) ;; ret (Some i)
          | None => ret None
          end
      end
  end.

(** evbuffer_add to the output of the connection. *)
Definition obuf_add (data : list Z) : M (St W) Z := output_add data ;; ret 0.

Definition request_proto (proto : evhtp_proto) : list Z :=
  match proto with EVHTP_PROTO_10 => bytes "1.0" | _ => bytes "1.1" end.

Definition evhtp_make_request (i : nat) (meth : htp_method) (uri : list Z) : M (St W) Z :=
  getbev ;;
  upd_req i (fun r => r <| r_conn := true |> <| r_method := meth |>) ;;
  upd_conn (fun c => c <| c_request := Some i |>) ;;
  with_req i (fun r =>
    match htparser_get_methodstr_m (htp_method_index meth), buffer_out r with
    | Some name, Some out =>
        output_add (bytes name ++ bytes " " ++ cstr uri ++ bytes " HTTP/" ++
                    request_proto (r_proto r) ++ [CR; LF]) ;;
        let out_len := Z.of_nat (length out) in
        when (negb (out_len =? 0) && negb (find_out r (bytes "content-length") 14))
          (add_out mem i (bytes "Content-Length")
             (default [] (fst <$> evhtp_modp_sizetoa out_len)) 0 1) ;;
        with_req i (fun r =>
          evhtp_kvs_for_each (headers_out r) (Some (htp__create_headers_ obuf_add)) ;;
          obuf_add [CR; LF] ;;
          match out with
          | [] => ret 0
          | _ => output_add out ;; upd_req i (fun r => r <| buffer_out := Some [] |>) ;; ret 0
          end)
    | _, _ => ub 0
    end).

Definition evhtp_request_status : M (St W) Z :=
  p <- gets fst ;; ret (htparser_get_status (Some p)).
End Client.

(** ** The request a client asks for *)

Section Made.
Context `{lib : HtStringLib} {laws : HtStringLaws lib}.
Context `{rx : RegexLib} {A : Type} (mem : nat -> bool) (Hmem : forall k, mem k = true).
Abbreviation W := (world A).
Abbreviation hooks := (Some (logged (P := htparser) null_hooks)).
Implicit Types (w : W) (r : evhtp_request).

(** Content-Length, for a body of [len] bytes. *)
Definition body_fields (len : Z) : list field :=
  if len =? 0 then [] else [(bytes "Content-Length", decimal len)].
Definition proto_minor (proto : evhtp_proto) : Z :=
  match proto with EVHTP_PROTO_10 => 0 | _ => 1 end.

Definition as_request (meth : htp_method) (path : list Z) (query : option (list Z))
    (proto : evhtp_proto) (fs : list field) (out : list Z) : request := {|
  rq_method := meth; rq_path := path; rq_query := query;
  rq_major := 1; rq_minor := proto_minor proto;
  rq_fields := fs ++ body_fields (Z.of_nat (length out)); rq_content := reply_content out |}.

(** What a client must respect: a method the library can spell, a target in
    origin form, fields within the limits that leave the framing alone. *)
Record askable (meth : htp_method) (path : list Z) (query : option (list Z)) (proto : evhtp_proto)
    (fs : list field) : Prop := {
  ak_method : meth <> htp_method_UNKNOWN /\ meth <> htp_method_PROPPATCH;
  ak_path : nth 0 path 0 = "/"%c;
  ak_path_chars : free_of ["?"%c; SP; LF] path;
  ak_query : from_option (free_of [SP; LF]) True query;
  ak_line : fits (request_line (as_request meth path query proto fs []));
  ak_fields : app_fields fs;
  ak_unframed : unframed fs
}.

Lemma body_spec_sized p fs n :
  type p = htp_type_request -> unframed fs -> 0 <= n < 2 ^ 64 ->
  body_spec p (fs ++ body_fields n) = Some (if n =? 0 then (B_NONE, 0) else (B_LENGTH, n)).
Proof.
  intros Ht Hun Hn. destruct (named_unframed fs Hun) as (M1 & M2 & M3).
  unfold body_spec, body_fields, MsgParserFraming.elements. rewrite Ht.
  rewrite bool_decide_eq_false_2 by done. cbn [andb].
  destruct (Z.eqb_spec n 0) as [->|Hne].
  - by rewrite app_nil_r, M1, M2.
  - destruct (decimal_prints n Hn) as [Hl Hd _ _ Hp].
    rewrite !named_app, !named_cons, M1, M2. cbn [app].
    replace (bool_decide (lower (bytes "Content-Length") = lower (bytes "Content-Length"))) with true
      by done.
    change (named _ []) with (@nil (list Z)). cbn [app].
    rewrite (agreed_token _ n); [|apply digits_token; [|done]|done].
    2:{ intros E. rewrite E in Hl. cbn in Hl. lia. }
    cbn. by rewrite (proj2 (Z.eqb_neq n 0) Hne).
Qed.

Lemma as_request_ok meth path query proto fs out :
  askable meth path query proto fs -> Z.of_nat (length out) < 2 ^ 64 ->
  request_ok (as_request meth path query proto fs out).
Proof.
  intros [] Hlen. destruct ak_fields0 as [Hf Hn].
  split; try done; [by apply ak_method0|by destruct proto|..]; cbn.
  - split; [|rewrite length_app; unfold body_fields; destruct (_ =? _); cbn; lia].
    apply Forall_app. split; [done|]. unfold body_fields. destruct (_ =? _); [constructor|].
    apply Forall_singleton. apply own_field_ok; [cbn; tauto|apply decimal_value; lia].
  - unfold content_ok. rewrite body_spec_sized by (done || lia).
    destruct out as [|c out]; [done|]. cbn [reply_content length].
    destruct (Z.eqb_spec (Z.of_nat (S (length out))) 0); [lia|]. cbn. lia.
Qed.

(** ** Making it *)

Lemma obuf_add_eq d p w : obuf_add d (p, w) = (0, (p, outs d w)).
Proof. done. Qed.
Lemma run_output_add {B} d (k : unit -> M (St W) B) p w :
  bind (output_add d) k (p, w) = k tt (p, outs d w).
Proof. done. Qed.

Lemma outs_conn d w c o :
  w_conn w = c <| bev_output := o |> -> w_conn (outs d w) = c <| bev_output := o ++ d |>.
Proof. intros E. unfold outs. cbn [w_conn set_field eta_fields eta_world]. by rewrite E. Qed.

Lemma headers_written hs p w :
  Forall full_kv hs ->
  for_each_loop hs (htp__create_headers_ obuf_add) (p, w) =
    (0, (p, outs (field_lines (map field_of hs)) w)).
Proof.
  intros Hhs. revert w. induction Hhs as [|x hs Hx Hhs IH]; intros w.
  { cbn [for_each_loop map]. by rewrite outs_nil. }
  cbn [for_each_loop map]. erewrite bind_eq.
  2:{ rewrite create_headers_eq by done. erewrite bind_eq by apply obuf_add_eq. done. }
  cbn [Z.eqb negb]. rewrite IH, outs_app. by unfold field_lines.
Qed.

Lemma fold_eq_lowered s t :
  Forall (fun c => TOLOWER (tolower c) = TOLOWER c) t -> fold_eq s (lower t) = fold_eq s t.
Proof.
  intros Ht. revert s. induction Ht as [|d t Hd _ IH]; intros [|c s]; try done.
  cbn. rewrite Hd. f_equal. apply IH.
Qed.
Lemma find_content_length r hs :
  headers_out r = Some hs -> Forall full_kv hs -> unframed (map field_of hs) ->
  find_out r (bytes "content-length") 14 = false.
Proof.
  intros Hr Hhs Hun. change 14%nat with (length (bytes "content-length")).
  rewrite (find_out_names r hs) by done. destruct (unframed_names _ Hun) as (H & _).
  revert H. unfold names. clear. generalize (map field_of hs). intros fs.
  change (bytes "content-length") with (lower (bytes "Content-Length")).
  induction fs as [|f fs IH]; [done|]. cbn [existsb]. intros [H1 H2]%orb_false_iff.
  rewrite fold_eq_lowered, H1 by by repeat constructor. by apply IH.
Qed.

Lemma method_line meth :
  meth <> htp_method_UNKNOWN /\ meth <> htp_method_PROPPATCH ->
  exists name, htparser_get_methodstr_m (htp_method_index meth) = Some name /\
    bytes name = method_name meth.
Proof. intros [H1 H2]. destruct meth; try done; by eexists. Qed.

Lemma make_request_spec i r hs fs out meth path query p w :
  w_reqs w !! i = Some r -> headers_out r = Some hs -> Forall full_kv hs -> map field_of hs = fs ->
  buffer_out r = Some out -> Z.of_nat (length out) < 2 ^ 64 ->
  r_proto r = EVHTP_PROTO_10 \/ r_proto r = EVHTP_PROTO_11 ->
  c_freed (w_conn w) = false -> c_bev (w_conn w) = true ->
  askable meth path query (r_proto r) fs ->
  let rq := as_request meth path query (r_proto r) fs out in
  cstr (target rq) = target rq ->
  exists w', evhtp_make_request mem i meth (target rq) (p, w) = (0, (p, w')) /\
    w_conn w' = (w_conn w) <| c_request := Some i |>
      <| bev_output := bev_output (w_conn w) ++ render rq |> /\ w_ub w' = w_ub w.
Proof.
  intros Hr Hho Hhs Hfs Hbo Hlen Hpr Hfr Hbev Hask rq Hcstr. unfold evhtp_make_request.
  rewrite getbev_eq by done. erewrite run_upd_req by exact Hr.
  rewrite run_upd_conn. cbn [fst snd].
  set (r1 := r <| r_conn := true |> <| r_method := meth |>).
  match goal with |- context [(p, ?x)] => set (w1 := x) end.
  assert (w_reqs w1 !! i = Some r1) as Hr1 by apply lookup_insert_eq.
  rewrite (with_req_eq _ _ _ r1) by done.
  destruct (method_line meth (ak_method _ _ _ _ _ Hask)) as (name & -> & Hname).
  change (buffer_out r1) with (buffer_out r). rewrite Hbo, run_output_add, Hcstr.
  match goal with |- context [(p, outs ?x _)] => set (line := x) end.
  assert (line = crlf (request_line rq)) as Hline.
  { unfold line, crlf, request_line. rewrite Hname. unfold version. cbn [rq_major rq_minor rq as_request].
    change (r_proto r1) with (r_proto r). change (bytes " ") with [SP]. change (bytes " HTTP/") with (SP :: bytes "HTTP/").
    destruct Hpr as [-> | ->]; app_norm; reflexivity. }
  rewrite (find_content_length r1 hs); [|done|done|by rewrite Hfs; apply Hask].
  cbn [negb]. rewrite andb_true_r.
  set (len := Z.of_nat (length out)) in *.
  destruct (when_adds (negb (len =? 0)) _ i r1 _ (add_out_adds mem Hmem i (bytes "Content-Length")
    (decimal len) 0 1 r1 eq_refl (digits_cstr _ (pr_digits _ _ _ (decimal_prints len ltac:(lia))))) p (outs line w1) hs fs)
    as (hs2 & w2 & E2 & N2 & F2 & M2); [by rewrite with_out_id|done|done|].
  erewrite bind_eq by exact E2. pose proof (now_lookup _ _ _ _ N2) as Hr2.
  rewrite (with_req_eq _ _ _ (with_out r1 hs2)) by done. cbn [with_out headers_out set_field
    eta_fields eta_request evhtp_kvs_for_each].
  erewrite bind_eq by by apply headers_written. erewrite bind_eq by apply obuf_add_eq.
  rewrite outs_app.
  assert (map field_of hs2 = rq_fields rq) as Hrq.
  { rewrite M2. unfold rq. cbn. unfold body_fields, len. by destruct (_ =? 0). }
  assert (bev_output (w_conn w2) = bev_output (w_conn w) ++ line) as Hout
    by (rewrite (n_conn _ _ _ _ N2); done).
  assert (w_conn w2 = (w_conn w) <| c_request := Some i |>
    <| bev_output := bev_output (w_conn w) ++ line |>) as Hc by (by rewrite (n_conn _ _ _ _ N2)).
  assert (w_ub w2 = w_ub w) as Hub by by rewrite (n_ub _ _ _ _ N2).
  assert (render rq = line ++ field_lines (map field_of hs2) ++ [CR; LF] ++ out) as ->.
  { unfold render, message_bytes, head_bytes. rewrite Hline, Hrq.
    replace (content_bytes (rq_content rq)) with out by (unfold rq; cbn; by destruct out).
    change (crlf []) with [CR; LF]. by app_norm. }
  destruct out as [|o out].
  - eexists. split; [reflexivity|]. split; [|done].
    erewrite outs_conn by exact Hc. by rewrite app_nil_r, <- !app_assoc.
  - rewrite run_output_add, outs_app. erewrite run_upd_req by exact Hr2. eexists. split; [reflexivity|].
    split; [|done]. cbn [snd w_conn set_field eta_fields eta_world].
    erewrite outs_conn by exact Hc. by rewrite <- !app_assoc.
Qed.

End Made.

(** ** Witness: a POST with a body *)

Definition sample_post : evhtp_request :=
  (new_request None) <| r_proto := EVHTP_PROTO_11 |> <| headers_out := Some [sample_header] |>
    <| buffer_out := Some (bytes "hello") |>.
Definition client_world : world (H := no_regex) unit := {|
  w_conn := (zero_connection None 0 evhtp_type_client) <| c_bev := true |>;
  w_reqs := {[3%nat := sample_post]}; w_cache := ∅; w_htps := ∅; w_allocs := 4; w_ub := false;
  w_app := tt |}.

Lemma sample_askable :
  askable htp_method_POST (bytes "/a/b") (Some (bytes "x=1")) EVHTP_PROTO_11
    [(bytes "X", bytes "y")].
Proof.
  split; try done.
  - apply (bool_decide_unpack _). vm_compute. exact I.
  - apply (bool_decide_unpack _). vm_compute. exact I.
  - apply (bool_decide_unpack _). vm_compute. exact I.
  - exact (sn_fields _ _ _ _ (sample_sendable false)).
  - exact sample_unframed.
Qed.

