(* ===== verification/Log.v ===== *)
(** * log.c: access-log lines from a format string

    evhtp_log_new compiles a format into a list of operations, which
    evhtp_log_request_f prints for a request.  A format is a C string, given
    without its NUL; allocations succeed (the code does not check them); the
    flag beside a format tells that memory was written or read where it must
    not be. *)

From S2P Require Import Prelude HtpTypes HtString MsgParser MsgParserFacts MsgParserRoundtrip Kvs Query Callbacks Uri Request Conn Client.
From stdpp Require Import gmap pretty.
#[local] Open Scope Z_scope.
#[local] Open Scope htp_scope.

Inductive htp_log_op_type :=
| HTP_LOG_OP_USERAGENT | HTP_LOG_OP_PATH | HTP_LOG_OP_RHOST | HTP_LOG_OP_METHOD
| HTP_LOG_OP_TIMESTAMP | HTP_LOG_OP_PROTO | HTP_LOG_OP_STATUS | HTP_LOG_OP_REFERRER
| HTP_LOG_OP_HOST | HTP_LOG_OP_HEADER | HTP_LOG_OP_PRINTABLE.
#[export] Instance op_type_eq_dec : EqDecision htp_log_op_type.
Proof. solve_decision. Defined.

Definition op_type_strmap_ : list (list Z * htp_log_op_type) := [
  (bytes "$ua", HTP_LOG_OP_USERAGENT); (bytes "$path", HTP_LOG_OP_PATH);
  (bytes "$rhost", HTP_LOG_OP_RHOST); (bytes "$meth", HTP_LOG_OP_METHOD);
  (bytes "$ts", HTP_LOG_OP_TIMESTAMP); (bytes "$proto", HTP_LOG_OP_PROTO);
  (bytes "$status", HTP_LOG_OP_STATUS); (bytes "$ref", HTP_LOG_OP_REFERRER);
  (bytes "$host", HTP_LOG_OP_HOST); (bytes "$hdr::", HTP_LOG_OP_HEADER)].

Definition HTP_LOG_OP_TAGSZ : nat := 1024.

(** [tag] without its NUL; its length is [len]. *)
Record htp_log_op := { type_ : htp_log_op_type; tag : list Z }.

(** The type and [*arglen]; [None] for 0, with [*arglen] not set. *)
Fixpoint str_to_op (map : list (list Z * htp_log_op_type)) (fmt : list Z) :
    option (htp_log_op_type * nat) :=
  match map with
  | [] => None
  | (fmt_, t) :: map =>
      if casecmp_eqb fmt_ (take (length fmt_) fmt) then Some (t, length fmt_) else str_to_op map fmt
  end.
Definition htp_log_str_to_op_type_ : list Z -> option (htp_log_op_type * nat) :=
  str_to_op op_type_strmap_.

Definition htp_log_op_new_ (t : htp_log_op_type) : htp_log_op := {| type_ := t; tag := [] |}.

(** dump_, without the newline. *)
Definition dump_op (op : htp_log_op) : list Z :=
  match type_ op with
  | HTP_LOG_OP_USERAGENT => bytes "$ua"
  | HTP_LOG_OP_PATH => bytes "$path"
  | HTP_LOG_OP_METHOD => bytes "$meth"
  | HTP_LOG_OP_TIMESTAMP => bytes "$ts"
  | HTP_LOG_OP_REFERRER => bytes "$ref"
  | HTP_LOG_OP_RHOST => bytes "$rhost"
  | HTP_LOG_OP_STATUS => bytes "$status"
  | HTP_LOG_OP_HOST => bytes "$host"
  | HTP_LOG_OP_HEADER => bytes "$hdr::"
  | HTP_LOG_OP_PROTO => bytes "$proto"
  | HTP_LOG_OP_PRINTABLE => tag op
  end.
Definition dump_ (format : list htp_log_op) : list Z := mjoin (dump_op <$> format).

(** The character and the NUL after it go to [tag[len]] and [tag[len + 1]]. *)
Definition append_char (c : Z) (op : htp_log_op) : htp_log_op * bool :=
  ({| type_ := type_ op; tag := tag op ++ [c] |}, (HTP_LOG_OP_TAGSZ <=? length (tag op) + 1)%nat).
Definition htp_log_format_addchar_ (format : list htp_log_op) (c : Z) : list htp_log_op * bool :=
  match last format with
  | Some op =>
      if decide (type_ op = HTP_LOG_OP_PRINTABLE)
      then let '(op, bad) := append_char c op in (removelast format ++ [op], bad)
      else let '(op, bad) := append_char c (htp_log_op_new_ HTP_LOG_OP_PRINTABLE) in
           (format ++ [op], bad)
  | None =>
      let '(op, bad) := append_char c (htp_log_op_new_ HTP_LOG_OP_PRINTABLE) in (format ++ [op], bad)
  end.

Definition IS_FMTVAR (strp : list Z) : bool :=
  match strp with
  | c :: rest => (c =? "$"%c) && negb (match rest with d :: _ => d =? "$"%c | [] => false end)
  | [] => false
  end.

(** [skip] characters are passed over ([strp += arglen - 1] and [strp++]). *)
Fixpoint compile_from (skip : nat) (strp : list Z) (format : list htp_log_op) :
    list htp_log_op * bool :=
  match strp with
  | [] => (format, false)
  | c :: rest =>
      match skip with
      | S skip => compile_from skip rest format
      | O =>
          if IS_FMTVAR strp then
            match htp_log_str_to_op_type_ strp with
            | Some (t, arglen) => compile_from (arglen - 1) rest (format ++ [htp_log_op_new_ t])
            | None => (format, true)
            end
          else
            let '(format, bad) := htp_log_format_addchar_ format c in
            if bad then (format, true) else compile_from 0 rest format
      end
  end.
Definition htp_log_format_compile_ (strfmt : list Z) : list htp_log_op * bool :=
  compile_from 0 strfmt [].
Definition evhtp_log_new (fmtstr : list Z) : list htp_log_op * bool := htp_log_format_compile_ fmtstr.

(** ** Printing *)

(** printf's [%d] of an [unsigned]. *)
Definition fmt_d (v : Z) : list Z :=
  bytes (pretty (if u32 v <? 2 ^ 31 then u32 v else u32 v - 2 ^ 32)).

Section Log.
Context `{rx : RegexLib} {A : Type}.
Abbreviation W := (world A).
(** What strftime makes of the event base's time, and inet_ntop of the address. *)
Context (now rhost : list Z).

(** [request->conn->...] *)
Definition with_conn {B} (r : evhtp_request) (d : B) (k : M (St W) B) : M (St W) B :=
  if r_conn r then k else ub d.

Definition logstr (r : evhtp_request) (op : htp_log_op) : M (St W) (option (list Z)) :=
  match type_ op with
  | HTP_LOG_OP_USERAGENT => ret (evhtp_header_find (headers_in r) (Some (bytes "user-agent")))
  | HTP_LOG_OP_PATH => ret (full <$> (r_uri r ≫= uri_path))
  | HTP_LOG_OP_METHOD =>
      with_conn r None (p <- gets fst ;; ret (bytes <$> htparser_get_methodstr (Some p)))
  | HTP_LOG_OP_TIMESTAMP => with_conn r None (ret (Some now))
  | HTP_LOG_OP_REFERRER => ret (evhtp_header_find (headers_in r) (Some (bytes "referer")))
  | HTP_LOG_OP_RHOST => with_conn r None (ret (Some rhost))
  | HTP_LOG_OP_STATUS => with_conn r None (n <- evhtp_request_status ;; ret (Some (fmt_d n)))
  | HTP_LOG_OP_HOST =>
      st <- getw w_htps ;;
      match r_htp r ≫= (st !!.) with
      | None => ub None
      | Some h =>
          ret (match server_name h with
               | Some n => Some n
               | None => evhtp_header_find (headers_in r) (Some (bytes "host"))
               end)
      end
  | HTP_LOG_OP_PROTO =>
      ret (Some (if decide (evhtp_request_get_proto r = EVHTP_PROTO_11) then bytes "1.1" else bytes "1.0"))
  | HTP_LOG_OP_HEADER | HTP_LOG_OP_PRINTABLE => ret (Some (tag op))
  end.

(** What is written to [fp]. *)
Fixpoint log_ops (r : evhtp_request) (format : list htp_log_op) : M (St W) (list Z) :=
  match format with
  | [] => ret [LF]
  | op :: format =>
      s <- logstr r op ;; rest <- log_ops r format ;;
      ret (cstr (default (bytes "-") s) ++ rest)
  end.
Definition evhtp_log_request_f (format : list htp_log_op) (r : evhtp_request) : M (St W) (list Z) :=
  log_ops r format.
End Log.

(** ** The operations of a format *)

Definition show_type (t : htp_log_op_type) : list Z := dump_op (htp_log_op_new_ t).

(** Only the lower case of a format matters. *)
Fixpoint lower_to_op (map : list (list Z * htp_log_op_type)) (fmt : list Z) :
    option (htp_log_op_type * nat) :=
  match map with
  | [] => None
  | (fmt_, t) :: map =>
      if bool_decide (lower fmt_ = take (length fmt_) fmt) then Some (t, length fmt_)
      else lower_to_op map fmt
  end.
Lemma str_to_op_lower map fmt : str_to_op map fmt = lower_to_op map (lower fmt).
Proof.
  induction map as [|[f t] map IH]; [done|]. cbn. unfold casecmp_eqb, lower.
  rewrite firstn_map, IH. done.
Qed.

Lemma str_to_op_var t fmt rest :
  t <> HTP_LOG_OP_PRINTABLE -> lower fmt = lower (show_type t) ->
  htp_log_str_to_op_type_ (fmt ++ rest) = Some (t, length fmt).
Proof.
  intros Ht E. unfold htp_log_str_to_op_type_. rewrite str_to_op_lower.
  assert (length fmt = length (show_type t)) as ->.
  { apply (f_equal length) in E. unfold lower in E. by rewrite !length_map in E. }
  replace (lower (fmt ++ rest)) with (lower (show_type t) ++ lower rest).
  2:{ rewrite <- E. unfold lower. by rewrite map_app. }
  clear E. destruct t; [..|done]; unfold op_type_strmap_, show_type; cbn -[bytes lower];
    repeat match goal with |- context [bool_decide ?P] =>
      first [rewrite (bool_decide_true P) by reflexivity
            |rewrite (bool_decide_false P) by (intros H; vm_compute in H; discriminate H)]
    end; done.
Qed.

(** What was found is at the front of the format. *)
Lemma str_to_op_front map fmt t n :
  (forall f u, (f, u) ∈ map -> f = show_type u /\ u <> HTP_LOG_OP_PRINTABLE) ->
  str_to_op map fmt = Some (t, n) ->
  t <> HTP_LOG_OP_PRINTABLE /\ n = length (show_type t) /\ (n <= length fmt)%nat /\ lower (show_type t) = lower (take n fmt).
Proof.
  induction map as [|[f u] map IH]; intros Hm; cbn; [done|]. unfold casecmp_eqb.
  case_bool_decide as Hc.
  - intros [= <- <-]. destruct (Hm f u) as [-> Hp]; [by left|]. do 2 (split; [done|]). split; [|done].
    apply (f_equal length) in Hc. unfold lower in Hc. rewrite !length_map, length_take in Hc. lia.
  - apply IH. intros f' u' Hin. apply Hm. by right.
Qed.
Lemma strmap_shown f t : (f, t) ∈ op_type_strmap_ -> f = show_type t /\ t <> HTP_LOG_OP_PRINTABLE.
Proof.
  unfold op_type_strmap_. intros H.
  repeat (apply elem_of_cons in H as [[= -> ->]|H]; [by split|]). inversion H.
Qed.
Lemma shown_len t : t <> HTP_LOG_OP_PRINTABLE -> (0 < length (show_type t))%nat.
Proof. intros H. destruct t; [..|done]; by apply Nat.ltb_lt. Qed.

Lemma compile_skip a rest format :
  compile_from (length a) (a ++ rest) format = compile_from 0 rest format.
Proof. revert format. induction a as [|c a IH]; intros format; [done|apply IH]. Qed.

(** ** Nothing of the format is lost *)

Lemma dump_snoc format op : dump_ (format ++ [op]) = dump_ format ++ dump_op op.
Proof. unfold dump_. rewrite fmap_app, join_app. cbn. by rewrite app_nil_r. Qed.
Lemma dump_addchar format c :
  dump_ (htp_log_format_addchar_ format c).1 = dump_ format ++ [c].
Proof.
  unfold htp_log_format_addchar_. destruct (last format) as [op|] eqn:E; [|apply dump_snoc].
  destruct (decide _) as [Ht|_]; [|apply dump_snoc].
  apply last_Some in E as [format' ->]. cbn [append_char fst].
  rewrite removelast_last, !dump_snoc. unfold dump_op. rewrite Ht. cbn. by rewrite app_assoc.
Qed.

Lemma compile_dump skip s format format' :
  (skip <= length s)%nat -> compile_from skip s format = (format', false) ->
  lower (dump_ format') = lower (dump_ format ++ drop skip s).
Proof.
  revert skip format. induction s as [|c s IH]; intros skip format Hn; cbn [compile_from].
  - intros [= ->]. rewrite drop_nil. by rewrite app_nil_r.
  - destruct skip as [|skip]; [|cbn in Hn; cbn [drop]; by apply IH, le_S_n].
    destruct (IS_FMTVAR (c :: s)).
    + destruct (htp_log_str_to_op_type_ (c :: s)) as [[t n]|] eqn:Et; [|done].
      apply (str_to_op_front _ _ _ _ strmap_shown) in Et as (Hp & -> & Hl & E). intros H.
      assert (exists m, length (show_type t) = S m) as [m Em].
      { pose proof (shown_len t Hp). destruct (length (show_type t)); [lia|by eexists]. }
      rewrite Em in Hl, E, H. cbn in Hl. replace (S m - 1)%nat with m in H by lia.
      rewrite (IH m _ ltac:(lia) H), dump_snoc. fold (show_type t).
      change (drop 0 (c :: s)) with (c :: s). rewrite <- (take_drop (S m) (c :: s)).
      unfold lower in *. rewrite !map_app, E, <- app_assoc.
      done.
    + destruct (htp_log_format_addchar_ format c) as [format1 bad] eqn:Ea. destruct bad; [done|].
      intros H. rewrite (IH 0%nat _ ltac:(lia) H). pose proof (dump_addchar format c) as Hd.
      rewrite Ea in Hd. cbn [fst] in Hd. by rewrite Hd, <- app_assoc.
Qed.

(** ** Formats made of pieces *)

(** A variable as it is written in the format, or other text. *)
Inductive piece := var (t : htp_log_op_type) (name : list Z) | text (l : list Z).
Definition piece_ok (p : piece) : Prop :=
  match p with
  | var t name => t <> HTP_LOG_OP_PRINTABLE /\ lower name = lower (show_type t)
  | text l => Forall (fun c => c <> 0 /\ c <> "$"%c) l
  end.
Definition show_piece (p : piece) : list Z := match p with var _ name => name | text l => l end.
Fixpoint text_len (ps : list piece) : nat :=
  match ps with [] => O | var _ _ :: ps => text_len ps | text l :: ps => length l + text_len ps end.

(** The room the last operation has used. *)
Definition used (format : list htp_log_op) : nat :=
  match last format with
  | Some op => if decide (type_ op = HTP_LOG_OP_PRINTABLE) then length (tag op) else 0%nat
  | None => 0%nat
  end.
Definition clean (format : list htp_log_op) : Prop :=
  Forall (fun op => Forall (fun c => c <> 0) (tag op)) format.

Lemma clean_snoc format op :
  clean format -> Forall (fun c => c <> 0) (tag op) -> clean (format ++ [op]).
Proof. intros H Ho. apply Forall_app. split; [done|by repeat constructor]. Qed.

Lemma var_dollar t name rest : t <> HTP_LOG_OP_PRINTABLE -> lower name = lower (show_type t) ->
  IS_FMTVAR (name ++ rest) = true /\ exists c a, name = c :: a.
Proof.
  intros Ht E.
  assert (exists d l, lower (show_type t) = "$"%c :: d :: l /\ d <> "$"%c) as (d & l & El & Hd).
  { destruct t; try done; by eexists _, _. }
  rewrite El in E. destruct name as [|c [|c' a]]; try done. cbn in E. injection E as E1 E2 _.
  split; [|by eexists _, _]. cbn.
  assert (forall x, tolower x = "$"%c <-> x = "$"%c) as Hl.
  { intros x. unfold tolower. destruct (_ && _) eqn:Ex; [|done].
    apply andb_prop in Ex as [?%Z.leb_le ?%Z.leb_le]. lia. }
  apply Hl in E1 as ->. rewrite Z.eqb_refl. cbn.
  destruct (Z.eqb_spec c' "$"%c) as [->|]; [|done]. subst d. by destruct Hd.
Qed.

Section Printed.
Context `{rx : RegexLib} {A : Type} (now rhost : list Z) (r : evhtp_request).
Abbreviation W := (world A).

Definition print_op (op : htp_log_op) : M (St W) (list Z) :=
  s <- logstr now rhost r op ;; ret (cstr (default (bytes "-") s)).
(** A variable is printed as the value it stands for, other text as it is. *)
Definition print_piece (p : piece) : M (St W) (list Z) :=
  match p with var t _ => print_op (htp_log_op_new_ t) | text l => ret l end.
Fixpoint print_then {B} (print : B -> M (St W) (list Z)) (l : list B) (k : M (St W) (list Z)) :
    M (St W) (list Z) :=
  match l with
  | [] => k
  | b :: l => s <- print b ;; rest <- print_then print l k ;; ret (s ++ rest)
  end.
Definition put (l : list Z) (k : M (St W) (list Z)) : M (St W) (list Z) := rest <- k ;; ret (l ++ rest).

Lemma log_print format s :
  evhtp_log_request_f now rhost format r s = print_then print_op format (ret [LF]) s.
Proof.
  unfold evhtp_log_request_f. revert s. induction format as [|op format IH]; intros s; [done|].
  cbn [log_ops print_then]. unfold print_op, bind. destruct (logstr now rhost r op s) as [v s1].
  cbn. rewrite IH. by destruct (print_then _ _ _ _).
Qed.
Lemma print_ext {B} (print : B -> M (St W) (list Z)) l k k' :
  (forall s, k s = k' s) -> forall s, print_then print l k s = print_then print l k' s.
Proof.
  intros Hk. induction l as [|b l IH]; intros s; [apply Hk|]. cbn. unfold bind.
  destruct (print b s). by rewrite IH.
Qed.
Lemma print_app {B} (print : B -> M (St W) (list Z)) l l' k s :
  print_then print (l ++ l') k s = print_then print l (print_then print l' k) s.
Proof.
  revert s. induction l as [|b l IH]; intros s; [done|]. cbn. unfold bind.
  destruct (print b s). by rewrite IH.
Qed.

(** A text operation prints its tag. *)
Lemma print_tag op k s : type_ op = HTP_LOG_OP_PRINTABLE -> Forall (fun c => c <> 0) (tag op) ->
  print_then print_op [op] k s = put (tag op) k s.
Proof.
  intros Ht Hc. cbn. unfold print_op, logstr, put, bind, ret. rewrite Ht. cbn. by rewrite cstr_id.
Qed.
Lemma put_app a b k s : put (a ++ b) k s = put a (put b k) s.
Proof. unfold put, bind, ret. destruct (k s). by rewrite app_assoc. Qed.

Lemma addchar_print format c :
  clean format -> c <> 0 -> (used format + 1 < HTP_LOG_OP_TAGSZ)%nat ->
  exists format', htp_log_format_addchar_ format c = (format', false) /\ clean format' /\
    used format' = (used format + 1)%nat /\
    forall k s, print_then print_op format' k s = print_then print_op format (put [c] k) s.
Proof.
  intros Hcl Hc Hu.
  assert (exists format', (let '(op, bad) := append_char c (htp_log_op_new_ HTP_LOG_OP_PRINTABLE) in
      (format ++ [op], bad)) = (format', false) /\ clean format' /\ used format' = 1%nat /\
      forall k s, print_then print_op format' k s = print_then print_op format (put [c] k) s) as Hnew.
  { eexists. split; [done|]. cbn. split; [apply clean_snoc; [done|by repeat constructor]|].
    split; [unfold used; by rewrite last_snoc|]. intros k s. rewrite print_app. apply print_ext.
    intros s'. by apply print_tag; [|repeat constructor]. }
  unfold htp_log_format_addchar_, used in *. destruct (last format) as [op|] eqn:E; [|exact Hnew].
  destruct (decide (type_ op = HTP_LOG_OP_PRINTABLE)) as [Ht|_]; [|exact Hnew]. clear Hnew.
  apply last_Some in E as [format0 ->]. unfold append_char. rewrite removelast_last.
  apply Forall_app in Hcl as [Hcl Hop]. apply Forall_inv in Hop.
  rewrite (proj2 (Nat.leb_gt _ _)) by done. eexists. split; [done|]. split.
  { apply clean_snoc; [done|]. apply Forall_app. split; [done|by repeat constructor]. }
  rewrite last_snoc. cbn. rewrite decide_True by done. split; [by rewrite length_app|].
  intros k s. rewrite !print_app. apply print_ext. intros s'.
  rewrite !print_tag; try done; [apply put_app|]. apply Forall_app. split; [done|by repeat constructor].
Qed.

Lemma compile_text l rest format :
  clean format -> Forall (fun c => c <> 0 /\ c <> "$"%c) l ->
  (used format + length l < HTP_LOG_OP_TAGSZ)%nat ->
  exists format', compile_from 0 (l ++ rest) format = compile_from 0 rest format' /\ clean format' /\
    used format' = (used format + length l)%nat /\
    forall k s, print_then print_op format' k s = print_then print_op format (put l k) s.
Proof.
  revert format. induction l as [|c l IH]; intros format Hcl Hl Hu.
  - exists format. split; [done|]. split; [done|]. split; [cbn; lia|]. intros k. apply print_ext.
    intros s. unfold put, bind, ret. by destruct (k s).
  - apply Forall_cons in Hl as [[Hc Hd] Hl]. cbn [length] in Hu.
    destruct (addchar_print format c) as (f1 & E1 & Hc1 & Hu1 & H1); [done|done|lia|].
    destruct (IH f1) as (f2 & E2 & Hc2 & Hu2 & H2); [done|done|lia|].
    exists f2. split.
    + cbn [app compile_from]. unfold IS_FMTVAR. rewrite (proj2 (Z.eqb_neq _ _) Hd). cbn [andb].
      by rewrite E1.
    + split; [done|]. split; [cbn; lia|]. intros k s. rewrite H2, H1. apply print_ext. intros s'.
      symmetry. apply (put_app [c] l).
Qed.

Lemma compile_print ps format k :
  Forall piece_ok ps -> clean format -> (used format + text_len ps < HTP_LOG_OP_TAGSZ)%nat ->
  exists format', compile_from 0 (mjoin (show_piece <$> ps)) format = (format', false) /\
    forall s, print_then print_op format' k s =
              print_then print_op format (print_then print_piece ps k) s.
Proof.
  revert format. induction ps as [|p ps IH]; intros format Hps Hcl Hu; [by exists format|].
  apply Forall_cons in Hps as [Hp Hps]. 
  destruct p as [t name|l]; cbn [text_len] in Hu; cbn [fmap list_fmap mjoin list_join show_piece].
  - destruct Hp as [Ht En]. set (rest := mjoin (show_piece <$> ps)) in *.
    destruct (IH (format ++ [htp_log_op_new_ t])) as (f & E & H); [done|by apply clean_snoc| |].
    { unfold used. rewrite last_snoc. cbn. rewrite decide_False by done. lia. }
    exists f. split.
    + pose proof (str_to_op_var t name rest Ht En) as Ev.
      destruct (var_dollar t name rest Ht En) as (Ef & c & a & ->). cbn [app compile_from] in *.
      rewrite Ef, Ev. cbn [length Nat.sub]. rewrite Nat.sub_0_r. by rewrite compile_skip.
    + intros s. rewrite H, print_app. done.
  - destruct (compile_text l (mjoin (show_piece <$> ps)) format Hcl Hp) as (f1 & E1 & Hc1 & Hu1 & H1).
    { lia. }
    destruct (IH f1) as (f2 & E2 & H2); [done|done|lia|]. exists f2. split; [exact (eq_trans E1 E2)|].
    intros s. rewrite H2, H1. done.
Qed.

(** ** What the line says *)

Context (host : evhtp) (p : htparser).
Definition field (name : string) : option (list Z) :=
  evhtp_header_find (headers_in r) (Some (bytes name)).
(** What log.h says of each variable, but for $status, which is the status code of
    the message the connection's parser is at, and $hdr::, which stands for
    nothing. *)
Definition value (t : htp_log_op_type) : option (list Z) :=
  match t with
  | HTP_LOG_OP_USERAGENT => field "user-agent"
  | HTP_LOG_OP_PATH => full <$> (r_uri r ≫= uri_path)
  | HTP_LOG_OP_RHOST => Some rhost
  | HTP_LOG_OP_METHOD => Some (method_name (r_method r))
  | HTP_LOG_OP_TIMESTAMP => Some now
  | HTP_LOG_OP_PROTO =>
      Some (bytes match r_proto r with EVHTP_PROTO_11 => "1.1" | _ => "1.0" end)
  | HTP_LOG_OP_STATUS => Some (bytes (pretty (status p)))
  | HTP_LOG_OP_REFERRER => field "referer"
  | HTP_LOG_OP_HOST => match server_name host with Some n => Some n | None => field "host" end
  | HTP_LOG_OP_HEADER | HTP_LOG_OP_PRINTABLE => Some []
  end.
Definition shown (x : piece) : list Z :=
  match x with var t _ => cstr (default (bytes "-") (value t)) | text l => l end.

(** A request of the connection whose parser is [p], with a method whose name
    msgparser.c has right. *)
Record logged_request (w : W) : Prop := {
  lr_conn : r_conn r = true;
  lr_host : exists h, r_htp r = Some h /\ w_htps w !! h = Some host;
  lr_method : r_method r = method p;
  lr_named : r_method r <> htp_method_UNKNOWN /\ r_method r <> htp_method_PROPPATCH;
  lr_status : 0 <= status p < 2 ^ 31
}.

Lemma logstr_value t w :
  logged_request w -> t <> HTP_LOG_OP_PRINTABLE ->
  logstr now rhost r (htp_log_op_new_ t) (p, w) = (value t, (p, w)).
Proof.
  intros [Hc (h & Hh & Hw) Hm Hn Hs] Ht. unfold logstr. cbn [type_ htp_log_op_new_].
  destruct t; try done; unfold with_conn; rewrite ?Hc; try done.
  - unfold bind, gets, ret. cbn [fst value]. do 2 f_equal.
    destruct (method_line (r_method r) Hn) as (name & E & En).
    unfold htparser_get_methodstr. rewrite <- Hm, E. cbn. by rewrite En.
  - unfold evhtp_request_get_proto, value. by destruct (r_proto r).
  - assert (fmt_d (status p) = bytes (pretty (status p))) as E.
    { unfold fmt_d, u32. rewrite Z.mod_small by lia. by rewrite (proj2 (Z.ltb_lt _ _)) by lia. }
    transitivity (Some (fmt_d (status p)), (p, w)); [done|by rewrite E].
  - unfold value, bind, getw, ret. cbn [snd]. rewrite Hh. cbn [mbind option_bind]. by rewrite Hw.
Qed.
Lemma print_shown ps w :
  logged_request w -> Forall piece_ok ps ->
  print_then print_piece ps (ret [LF]) (p, w) = (mjoin (shown <$> ps) ++ [LF], (p, w)).
Proof.
  intros Hw Hps. induction Hps as [|x ps Hx _ IH]; [done|].
  cbn [print_then fmap list_fmap mjoin list_join]. rewrite <- app_assoc.
  enough (print_piece x (p, w) = (shown x, (p, w))) as E by (unfold bind; by rewrite E, IH).
  destruct x as [t name|l]; [|done]. cbn [print_piece shown]. unfold print_op, bind.
  by rewrite logstr_value by (done || apply Hx).
Qed.

End Printed.

(** A variable with no value prints a dash. *)
Definition sample_pieces : list piece :=
  [var HTP_LOG_OP_METHOD (bytes "$Meth"); text (bytes " "); var HTP_LOG_OP_PROTO (bytes "$PROTO");
   text (bytes " <"); var HTP_LOG_OP_RHOST (bytes "$rhost"); text (bytes "> ");
   var HTP_LOG_OP_USERAGENT (bytes "$Ua"); text (bytes " "); var HTP_LOG_OP_HOST (bytes "$host")].
Definition logged_parser : htparser := (p_init htp_type_request) <| method := htp_method_POST |>.
Definition logged_sample : evhtp_request :=
  sample_post <| r_htp := Some 0%nat |> <| r_method := htp_method_POST |>
    <| headers_in := evhtp_headers_add_header (Some []) (evhtp_kv_new (Some 9) true true
         (Some (bytes "Host")) (Some (bytes "a.org")) 0 0) |>.
Definition logged_world : world (H := no_regex) unit :=
  client_world <| w_htps := {[0%nat := sample_host None [] []]} |>.
