(* ===== verification/Listen.v ===== *)
(** * evhtp.c: sockets that listen

    evhtp_bind_socket, evhtp_bind_sockaddr, evhtp_accept_socket and
    evhtp_unbind_socket.  The socket interface, the address functions of the C
    library and the listener of libevent are parameters ([Sockets]): the answer
    to a call may depend on all the calls before it.  [bind_socket_outcome]
    says when a server listens, and that nothing stays open when it does not. *)

From S2P Require Import Prelude HtString Query Callbacks Request.
From stdpp Require Import gmap.
#[local] Open Scope Z_scope.
#[local] Open Scope htp_scope.

Definition EVHTP_FLAG_ENABLE_REUSEPORT : Z := Z.shiftl 1 1.
Definition EVHTP_FLAG_ENABLE_NODELAY : Z := Z.shiftl 1 2.
Definition EVHTP_FLAG_ENABLE_DEFER_ACCEPT : Z := Z.shiftl 1 3.

(** ** The interface to the system *)

Inductive family := AF_INET | AF_INET6 | AF_UNIX.
#[export] Instance family_eq_dec : EqDecision family.
Proof. solve_decision. Defined.
Inductive sockaddr :=
| sin (addr : Z) (port : Z) | sin6 (addr : list Z) (port : Z) | sun (path : list Z).
Definition sa_family (sa : sockaddr) : family :=
  match sa with sin _ _ => AF_INET | sin6 _ _ => AF_INET6 | sun _ => AF_UNIX end.
Inductive sockopt := SO_KEEPALIVE | SO_REUSEADDR | SO_REUSEPORT | TCP_NODELAY | TCP_DEFER_ACCEPT | IPV6_V6ONLY.
Definition EOPNOTSUPP : Z := 95.
(** sizeof(sockun.sun_path) *)
Definition SUN_PATH_SIZE : nat := 108.

Inductive syscall :=
| sc_ignore_sigpipe
| sc_socket (f : family)
| sc_closeonexec (fd : Z) | sc_nonblocking (fd : Z)
| sc_setsockopt (fd : Z) (o : sockopt)
| sc_bind (fd : Z) (sa : sockaddr)
| sc_listener_new (fd backlog : Z)
| sc_servername_callback
| sc_listener_free (fd : Z)
| sc_close (fd : Z).

(** The result of the last of a list of calls, and errno after it; -1 is also
    the NULL of evconnlistener_new. *)
Class Sockets := {
  sys_result : list syscall -> Z;
  sys_errno : list syscall -> Z;
  evutil_inet_pton6 : list Z -> option (list Z);
  inet_addr : list Z -> Z
}.

(** The calls made, the descriptors of this process that are open, and the
    descriptor of [htp->server]. *)
Record net := { trace : list syscall; open_fds : gset Z; server : option Z }.
#[export] Instance eta_net : EtaFields net := fun n => Build_net (trace n) (open_fds n) (server n).

Section Listen.
Context `{rx : RegexLib} `{os : Sockets}.
Implicit Types (n : net) (fd : Z).

Definition call (c : syscall) : M net Z := fun n =>
  let tr := trace n ++ [c] in (sys_result tr, n <| trace := tr |>).
Definition errno : M net Z := gets (fun n => sys_errno (trace n)).

Definition socket (f : family) : M net Z :=
  fd <- call (sc_socket f) ;;
  when (negb (fd =? -1)) (modify (fun n => n <| open_fds := {[fd]} ∪ open_fds n |>)) ;; ret fd.
Definition evutil_closesocket (fd : Z) : M net unit :=
  call (sc_close fd) ;; modify (fun n => n <| open_fds := open_fds n ∖ {[fd]} |>).
(** LEV_OPT_CLOSE_ON_FREE *)
Definition evconnlistener_free (fd : Z) : M net unit :=
  call (sc_listener_free fd) ;; modify (fun n => n <| open_fds := open_fds n ∖ {[fd]} |>).

(** ** The functions *)

Definition evhtp_unbind_socket (htp : option evhtp) : M net unit :=
  s <- gets server ;;
  match htp, s with
  | Some _, Some fd => evconnlistener_free fd ;; modify (fun n => n <| server := None |>)
  | _, _ => ret tt
  end.

(** An option that need not be supported. *)
Definition setsockopt_if (on : bool) (fd : Z) (o : sockopt) (k : M net Z) : M net Z :=
  if on then
    v <- call (sc_setsockopt fd o) ;;
    if v =? -1 then
      e <- errno ;; if negb (e =? EOPNOTSUPP) then ret (-1) else k
    else k
  else k.
Definition htp__serv_setsockopts_ (htp : option evhtp) (sock : Z) : M net Z :=
  match htp with
  | None => ret (-1)
  | Some h =>
      if sock =? -1 then ret (-1)
      else
        v <- call (sc_setsockopt sock SO_KEEPALIVE) ;;
        if v =? -1 then ret (-1)
        else
          v <- call (sc_setsockopt sock SO_REUSEADDR) ;;
          if v =? -1 then ret (-1)
          else
            setsockopt_if (has (htp_flags h) EVHTP_FLAG_ENABLE_REUSEPORT) sock SO_REUSEPORT (
            setsockopt_if (has (htp_flags h) EVHTP_FLAG_ENABLE_NODELAY) sock TCP_NODELAY (
            setsockopt_if (has (htp_flags h) EVHTP_FLAG_ENABLE_DEFER_ACCEPT) sock TCP_DEFER_ACCEPT (
            ret 0)))
  end.

Definition evhtp_accept_socket (htp : option evhtp) (sock backlog : Z) : M net Z :=
  match htp with
  | None => ret (-1)
  | Some h =>
      if sock =? -1 then ret (-1)
      else
        v <- call (sc_listener_new sock backlog) ;;
        modify (fun n => n <| server := if v =? -1 then None else Some sock |>) ;;
        if v =? -1 then ret (-1)
        else
          (if ssl_ctx h && negb (bool_decide (vhosts h = []))
           then call sc_servername_callback else ret 0) ;;
          ret 0
  end.

Definition evhtp_bind_sockaddr (htp : option evhtp) (sa : sockaddr) (backlog : Z) : M net Z :=
  match htp with
  | None => ret (-1)
  | Some _ =>
      call sc_ignore_sigpipe ;;
      fd <- socket (sa_family sa) ;;
      if fd =? -1 then ret (-1)
      else
        call (sc_closeonexec fd) ;;
        call (sc_nonblocking fd) ;;
        v <- htp__serv_setsockopts_ htp fd ;;
        error <- (if v =? -1 then ret 1
                  else
                    v <- (if bool_decide (sa_family sa = AF_INET6)
                          then call (sc_setsockopt fd IPV6_V6ONLY) else ret 0) ;;
                    if v =? -1 then ret 1
                    else v <- call (sc_bind fd sa) ;; ret (if v =? -1 then 1 else 0)) ;;
        if error =? 1 then evutil_closesocket fd ;; ret (-1)
        else
          v <- evhtp_accept_socket htp fd backlog ;;
          if v =? -1 then evutil_closesocket fd ;; ret (-1) else ret 0
  end.

(** The address [baddr] stands for; [None]: the name of a Unix socket that is
    too long.  A text that is no IPv6 address leaves the zeros of the
    structure. *)
Definition bind_address (baddr : list Z) (port : Z) : option sockaddr :=
  if bytes_eqb (take 5 baddr) (bytes "ipv6:") then
    Some (sin6 (default (replicate 16 0) (evutil_inet_pton6 (drop 5 baddr))) port)
  else if bytes_eqb (take 5 baddr) (bytes "unix:") then
    let path := drop 5 baddr in
    if (SUN_PATH_SIZE <=? length path)%nat then None else Some (sun path)
  else
    Some (sin (inet_addr (if bytes_eqb (take 5 baddr) (bytes "ipv4:") then drop 5 baddr else baddr)) port).
Definition evhtp_bind_socket (htp : option evhtp) (baddr : list Z) (port backlog : Z) : M net Z :=
  match bind_address baddr port with
  | None => ret (-1)
  | Some sa => evhtp_bind_sockaddr htp sa backlog
  end.

(** ** What it takes to listen *)

(** The calls that have to go well, and whether EOPNOTSUPP will do. *)
Definition wanted (h : evhtp) (sa : sockaddr) (fd backlog : Z) : list (syscall * bool) :=
  [(sc_setsockopt fd SO_KEEPALIVE, false); (sc_setsockopt fd SO_REUSEADDR, false)] ++
  (if has (htp_flags h) EVHTP_FLAG_ENABLE_REUSEPORT then [(sc_setsockopt fd SO_REUSEPORT, true)] else []) ++
  (if has (htp_flags h) EVHTP_FLAG_ENABLE_NODELAY then [(sc_setsockopt fd TCP_NODELAY, true)] else []) ++
  (if has (htp_flags h) EVHTP_FLAG_ENABLE_DEFER_ACCEPT then [(sc_setsockopt fd TCP_DEFER_ACCEPT, true)] else []) ++
  (if bool_decide (sa_family sa = AF_INET6) then [(sc_setsockopt fd IPV6_V6ONLY, false)] else []) ++
  [(sc_bind fd sa, false); (sc_listener_new fd backlog, false)].
(** After the calls [tr] these go well, one after the other. *)
Fixpoint go_well (tr : list syscall) (cs : list (syscall * bool)) : bool :=
  match cs with
  | [] => true
  | (c, tolerated) :: cs =>
      let tr := tr ++ [c] in
      (negb (sys_result tr =? -1) || tolerated && (sys_errno tr =? EOPNOTSUPP)) && go_well tr cs
  end.

Lemma go_well_app tr cs1 cs2 :
  go_well tr (cs1 ++ cs2) = go_well tr cs1 && go_well (tr ++ cs1.*1) cs2.
Proof.
  revert tr. induction cs1 as [|[c t] cs1 IH]; intros tr; cbn [go_well fmap list_fmap Datatypes.app]; [by rewrite app_nil_r|].
  rewrite IH, andb_assoc. cbn [fst]. by rewrite <- app_assoc.
Qed.

(** [m] makes the calls [cs], up to the first that does not go well, and
    changes nothing else. *)
Definition follows (cs : list (syscall * bool)) (m : M net Z) : Prop := forall n, exists tr,
  m n = (if go_well (trace n) cs then 0 else -1, n <| trace := tr |>) /\
  (go_well (trace n) cs = true -> tr = trace n ++ cs.*1).
Lemma follows_nil : follows [] (ret 0).
Proof. intros n. exists (trace n). cbn. rewrite app_nil_r. split; [by destruct n|done]. Qed.
Lemma follows_call c cs k :
  follows cs k -> follows ((c, false) :: cs) (v <- call c ;; if v =? -1 then ret (-1) else k).
Proof.
  intros Hk n. unfold call. unfold bind at 1. cbn [go_well]. rewrite orb_false_r.
  destruct (Z.eqb_spec (sys_result (trace n ++ [c])) (-1)) as [E|E]; cbn [negb andb]; [by eexists|].
  destruct (Hk (n <| trace := trace n ++ [c] |>)) as (tr & E1 & E2). exists tr. rewrite E1. cbn in E2 |- *.
  split; [done|]. intros Hg. by rewrite E2, <- app_assoc.
Qed.
Lemma follows_option on fd o cs k :
  follows cs k ->
  follows ((if on : bool then [(sc_setsockopt fd o, true)] else []) ++ cs) (setsockopt_if on fd o k).
Proof.
  intros Hk. destruct on; cbn [Datatypes.app setsockopt_if]; [|done]. intros n. unfold call. unfold bind at 1. cbn [go_well].
  destruct (Hk (n <| trace := trace n ++ [sc_setsockopt fd o] |>)) as (tr & E1 & E2).
  change (trace (n <| trace := trace n ++ [sc_setsockopt fd o] |>)) with (trace n ++ [sc_setsockopt fd o]) in *.
  assert (go_well (trace n ++ [sc_setsockopt fd o]) cs = true -> tr = trace n ++ sc_setsockopt fd o :: cs.*1) as E3.
  { intros Hg. by rewrite E2, <- app_assoc. }
  destruct (sys_result _ =? -1); cbn [negb orb andb].
  - unfold errno, bind, gets. cbn. destruct (_ =? EOPNOTSUPP); cbn [negb andb]; [|by eexists].
    exists tr. split; [exact E1|exact E3].
  - exists tr. split; [exact E1|exact E3].
Qed.

Definition serv_options (h : evhtp) (fd : Z) : list (syscall * bool) :=
  [(sc_setsockopt fd SO_KEEPALIVE, false); (sc_setsockopt fd SO_REUSEADDR, false)] ++
  (if has (htp_flags h) EVHTP_FLAG_ENABLE_REUSEPORT then [(sc_setsockopt fd SO_REUSEPORT, true)] else []) ++
  (if has (htp_flags h) EVHTP_FLAG_ENABLE_NODELAY then [(sc_setsockopt fd TCP_NODELAY, true)] else []) ++
  (if has (htp_flags h) EVHTP_FLAG_ENABLE_DEFER_ACCEPT then [(sc_setsockopt fd TCP_DEFER_ACCEPT, true)] else []) ++ [].
Lemma setsockopts_follow h fd : fd <> -1 -> follows (serv_options h fd) (htp__serv_setsockopts_ (Some h) fd).
Proof.
  intros Hfd. unfold htp__serv_setsockopts_. rewrite (proj2 (Z.eqb_neq _ _) Hfd).
  unfold serv_options. cbn [Datatypes.app]. do 2 apply follows_call. do 3 apply follows_option. apply follows_nil.
Qed.
(** The socket is made ready and bound. *)
Definition to_bind (sa : sockaddr) (fd : Z) : list (syscall * bool) :=
  (if bool_decide (sa_family sa = AF_INET6) then [(sc_setsockopt fd IPV6_V6ONLY, false)] else []) ++ [(sc_bind fd sa, false)].
Lemma bind_follows sa fd : follows (to_bind sa fd)
  (v <- (if bool_decide (sa_family sa = AF_INET6) then call (sc_setsockopt fd IPV6_V6ONLY) else ret 0) ;;
   if v =? -1 then ret (-1) else v <- call (sc_bind fd sa) ;; if v =? -1 then ret (-1) else ret 0).
Proof.
  unfold to_bind. case_bool_decide; cbn [Datatypes.app].
  - do 2 apply follows_call. apply follows_nil.
  - apply (follows_call (sc_bind fd sa) [] (ret 0)), follows_nil.
Qed.
Lemma wanted_parts h sa fd backlog :
  wanted h sa fd backlog = serv_options h fd ++ to_bind sa fd ++ [(sc_listener_new fd backlog, false)].
Proof. unfold wanted, serv_options, to_bind. by rewrite app_nil_r, <- !app_assoc. Qed.

Lemma as_error (m c : M net Z) n :
  (v <- m ;; if v =? -1 then ret 1 else v <- c ;; ret (if v =? -1 then 1 else 0)) n =
  let '(v, n1) := (v <- m ;; if v =? -1 then ret (-1) else v <- c ;; if v =? -1 then ret (-1) else ret 0) n in
  (if v =? -1 then 1 else 0, n1).
Proof.
  unfold bind. destruct (m n) as [v n1]. destruct (v =? -1); [done|]. destruct (c n1) as [v2 n2]. by destruct (v2 =? -1).
Qed.
(** Error 1 of the source is the failure of one of these. *)
Lemma prepare_eq h sa fd n : fd <> -1 -> exists tr,
  (v <- htp__serv_setsockopts_ (Some h) fd ;;
   if v =? -1 then ret 1
   else
     v <- (if bool_decide (sa_family sa = AF_INET6)
           then call (sc_setsockopt fd IPV6_V6ONLY) else ret 0) ;;
     if v =? -1 then ret 1
     else v <- call (sc_bind fd sa) ;; ret (if v =? -1 then 1 else 0)) n =
  (if go_well (trace n) (serv_options h fd ++ to_bind sa fd) then 0 else 1, n <| trace := tr |>) /\
  (go_well (trace n) (serv_options h fd ++ to_bind sa fd) = true ->
   tr = trace n ++ (serv_options h fd ++ to_bind sa fd).*1).
Proof.
  intros Hfd. destruct (setsockopts_follow h fd Hfd n) as (tr1 & E1 & H1). rewrite go_well_app.
  unfold bind at 1. rewrite E1. destruct (go_well (trace n) (serv_options h fd)); cbn [Z.eqb andb]; [|by eexists].
  rewrite H1 by done. destruct (bind_follows sa fd (n <| trace := trace n ++ (serv_options h fd).*1 |>)) as (tr2 & E2 & H2).
  rewrite as_error, E2. clear E1 E2 H1. generalize dependent (serv_options h fd). intros cs H2. cbn in H2 |- *.
  exists tr2. split; [by destruct (go_well _ _)|]. intros Hg. by rewrite H2, fmap_app, <- app_assoc.
Qed.

(** ** The outcome *)

(** A new descriptor is not one that is open. *)
Definition fresh n : Prop := forall f, sys_result (trace n ++ [sc_ignore_sigpipe; sc_socket f]) ∉ open_fds n.

Lemma run_call {A} c (k : Z -> M net A) n :
  bind (call c) k n = k (sys_result (trace n ++ [c])) (n <| trace := trace n ++ [c] |>).
Proof. done. Qed.
Lemma run_bind {A B} (m : M net A) (k : A -> M net B) n a n1 : m n = (a, n1) -> bind m k n = k a n1.
Proof. intros E. unfold bind. by rewrite E. Qed.
Lemma bind_bind {A B C} (m : M net A) (f : A -> M net B) (k : B -> M net C) n :
  (a <- m ;; b <- f a ;; k b) n = (b <- (a <- m ;; f a) ;; k b) n.
Proof. unfold bind. by destruct (m n). Qed.
Lemma socket_eq f n :
  let fd := sys_result (trace n ++ [sc_socket f]) in
  socket f n = (fd, n <| trace := trace n ++ [sc_socket f] |>
                      <| open_fds := if fd =? -1 then open_fds n else {[fd]} ∪ open_fds n |>).
Proof. intros fd. unfold socket. rewrite run_call. fold fd. by destruct (fd =? -1). Qed.
Lemma close_eq fd n X :
  open_fds n = {[fd]} ∪ X -> fd ∉ X ->
  exists n', evutil_closesocket fd n = (tt, n') /\ open_fds n' = X /\ server n' = server n.
Proof.
  intros Ho Hx. unfold evutil_closesocket. rewrite run_call. eexists. split; [reflexivity|]. split; [|done].
  cbn. rewrite Ho. set_solver.
Qed.
Lemma listen_accept_eq h fd backlog n : fd <> -1 -> exists sni,
  evhtp_accept_socket (Some h) fd backlog n =
    (if go_well (trace n) [(sc_listener_new fd backlog, false)]
    then (0, n <| trace := trace n ++ [sc_listener_new fd backlog] ++ sni |> <| server := Some fd |>)
    else (-1, n <| trace := trace n ++ [sc_listener_new fd backlog] |> <| server := None |>)) /\
  Forall (eq sc_servername_callback) sni.
Proof.
  intros Hfd. unfold evhtp_accept_socket. rewrite (proj2 (Z.eqb_neq _ _) Hfd), run_call. cbn [go_well].
  rewrite orb_false_r, andb_true_r.
  exists (if sys_result (trace n ++ [sc_listener_new fd backlog]) =? -1 then []
          else if ssl_ctx h && negb (bool_decide (vhosts h = [])) then [sc_servername_callback] else []).
  destruct (_ =? -1); cbn [negb]; [done|]. destruct (ssl_ctx h && _); (split; [|by repeat constructor]).
  - unfold bind, modify, call, ret. cbn. by rewrite <- app_assoc.
  - unfold bind, modify, ret. cbn. done.
Qed.

(** C37: when a server listens.  Whatever the system answers:
    evhtp_bind_socket returns 0 exactly when the address fits, a socket is
    made, and the options that the flags of the server ask for, binding and
    the listener go well in this order, where reuse of ports, TCP_NODELAY and
    deferred accepting need not be supported; then those calls and no others
    were made on the socket, it is the only descriptor added, it is the server's,
    and evhtp_unbind_socket closes it again.  Otherwise it returns -1 and the
    descriptors that are open are those from before. *)
Theorem bind_socket_outcome h baddr port backlog n :
  fresh n ->
  let '(v, n') := evhtp_bind_socket (Some h) baddr port backlog n in
  match bind_address baddr port with
  | None => v = -1 /\ n' = n
  | Some sa =>
      let tr := trace n ++ [sc_ignore_sigpipe; sc_socket (sa_family sa)] in
      let fd := sys_result tr in
      let tr := tr ++ [sc_closeonexec fd; sc_nonblocking fd] in
      if negb (fd =? -1) && go_well tr (wanted h sa fd backlog) then
        v = 0 /\ open_fds n' = {[fd]} ∪ open_fds n /\ server n' = Some fd /\
        (exists sni, trace n' = tr ++ (wanted h sa fd backlog).*1 ++ sni /\ Forall (eq sc_servername_callback) sni) /\
        let n'' := (evhtp_unbind_socket (Some h) n').2 in open_fds n'' = open_fds n /\ server n'' = None
      else v = -1 /\ open_fds n' = open_fds n /\ (server n' = server n \/ server n' = None)
  end.
Proof.
  intros Hfresh. unfold evhtp_bind_socket. destruct (bind_address baddr port) as [sa|]; [|done].
  specialize (Hfresh (sa_family sa)). unfold evhtp_bind_sockaddr. rewrite run_call.
  rewrite (run_bind _ _ _ _ _ (socket_eq (sa_family sa) _)). cbn [trace set_field eta_fields eta_net].
  rewrite <- app_assoc. cbn [Datatypes.app open_fds server].
  set (tr := trace n ++ [sc_ignore_sigpipe; sc_socket (sa_family sa)]) in *. set (fd := sys_result tr) in *. cbn zeta.
  destruct (Z.eqb_spec fd (-1)) as [E|E]; cbn [negb andb]; [split_and!; [done|done|by left]|]. rewrite !run_call. cbn [trace set_field eta_fields eta_net open_fds server].
  rewrite <- app_assoc. cbn [Datatypes.app]. set (tr1 := tr ++ _). set (n1 := Build_net tr1 _ _).
  rewrite wanted_parts, app_assoc. set (cs := serv_options h fd ++ to_bind sa fd).
  rewrite (bind_bind (htp__serv_setsockopts_ (Some h) fd)). destruct (prepare_eq h sa fd n1 E) as (tr2 & E2 & H2).
  rewrite (run_bind _ _ _ _ _ E2). fold cs in E2, H2 |- *. clear E2. change (trace n1) with tr1 in *. rewrite go_well_app.
  destruct (go_well tr1 cs); cbn [andb]; cycle 1.
  { change (1 =? 1) with true. cbn iota.
    destruct (close_eq fd (n1 <| trace := tr2 |>) (open_fds n) ltac:(by cbn) Hfresh) as (n3 & E3 & Ho & Hs).
    rewrite (run_bind _ _ _ _ _ E3). split_and!; [done|done|by left]. }
  change (0 =? 1) with false. cbn iota. rewrite H2 by done. clear H2. set (n2 := n1 <| trace := _ |>). destruct (listen_accept_eq h fd backlog n2 E) as (sni & E3 & Hsni).
  rewrite (run_bind _ _ _ _ _ (surjective_pairing _)), E3. change (trace n2) with (tr1 ++ cs.*1).
  destruct (go_well (tr1 ++ cs.*1) _); cbn [fst snd].
  - change (0 =? -1) with false. cbn iota. split_and!; [done..| | |].
    + exists sni. split; [|done]. cbn [trace set_field eta_fields eta_net]. by rewrite fmap_app, <- !app_assoc.
    + cbn. set_solver.
    + done.
  - set (n3 := n2 <| trace := _ |> <| server := None |>).
    destruct (close_eq fd n3 (open_fds n) ltac:(by cbn) Hfresh) as (n4 & E4 & Ho & Hs).
    change (-1 =? -1) with true. cbn iota. rewrite (run_bind _ _ _ _ _ E4). split_and!; [done|done|by right].
Qed.
End Listen.

(** ** Witness: a server on an IPv6 address, without deferred accepting *)

(** The descriptor is 3; TCP_NODELAY is not supported. *)
#[export] Instance toy_sockets : Sockets := {
  sys_result tr := match last tr with
    | Some (sc_socket _) => 3 | Some (sc_setsockopt _ TCP_NODELAY) => -1 | _ => 0 end;
  sys_errno _ := EOPNOTSUPP;
  evutil_inet_pton6 _ := None;
  inet_addr _ := 0
}.
Definition listening_host : evhtp (H := no_regex) :=
  (sample_host None [] []) <| htp_flags := EVHTP_FLAG_ENABLE_NODELAY |>.
Lemma bind_socket_outcome_witness :
  let '(v, n') := evhtp_bind_socket (Some listening_host) (bytes "ipv6:::1") 80 128
    {| trace := []; open_fds := {[0; 1; 2]}; server := None |} in
  v = 0 /\ server n' = Some 3 /\ sc_setsockopt 3 TCP_NODELAY ∈ trace n'.
Proof.
  pose proof (bind_socket_outcome listening_host (bytes "ipv6:::1") 80 128
    {| trace := []; open_fds := {[0; 1; 2]}; server := None |} ltac:(intros f; set_solver)) as H.
  destruct (evhtp_bind_socket _ _ _ _ _) as [v n']. vm_compute bind_address in H. cbn iota zeta in H.
  match type of H with if ?b then _ else _ => replace b with true in H by reflexivity end.
  destruct H as (-> & _ & Hs & (sni & Ht & _) & _). split; [done|]. split; [exact Hs|]. rewrite Ht.
  apply elem_of_app. right. apply elem_of_app. left. apply list_elem_of_In. vm_compute. tauto.
Defined.
