(* ===== verification/TlsInit.v ===== *)
(** * evhtp.c: setting TLS up

    evhtp_ssl_init and evhtp_ssl_enable_h2.  What OpenSSL and the C library
    answer to a call is the parameter [Ossl]; the state is what the calls have
    made of the server.  [ssl_init_outcome] says when a server is set up, and
    with what. *)

From S2P Require Import Prelude.

Inductive evhtp_ssl_scache_type :=
| evhtp_ssl_scache_type_disabled | evhtp_ssl_scache_type_internal
| evhtp_ssl_scache_type_user | evhtp_ssl_scache_type_builtin.
#[export] Instance scache_type_eq_dec : EqDecision evhtp_ssl_scache_type.
Proof. solve_decision. Defined.

(** Functions and data of the application are numbers, 0 for NULL. *)
Record evhtp_ssl_cfg := {
  pemfile : option (list Z); privfile : option (list Z);
  cafile : option (list Z); capath : option (list Z);
  ciphers : option (list Z); named_curve : option (list Z); dhparams : option (list Z);
  ssl_opts : Z; ssl_ctx_timeout : Z; verify_peer : Z; verify_depth : Z;
  x509_verify_cb : Z; x509_chk_issued_cb : Z; decrypt_cb : Z; store_flags : Z;
  scache_type : evhtp_ssl_scache_type; scache_size : Z; scache_init : Z
}.

Definition SSL_OP_NO_COMPRESSION : Z := Z.shiftl 1 17.
Inductive cache_mode := SSL_SESS_CACHE_OFF | SSL_SESS_CACHE_SERVER.
#[export] Instance cache_mode_eq_dec : EqDecision cache_mode.
Proof. solve_decision. Defined.

Inductive ssl_call :=
| RAND_poll | RAND_bytes | SSL_CTX_new
| SSL_CTX_set_options (opts : Z) | SSL_CTX_set_timeout (t : Z)
| SSL_CTX_set1_groups_list (groups : list Z)
| fopen (path : list Z) | PEM_read_PUBKEY | fclose
| SSL_CTX_set0_tmp_dh_pkey (pkey : Z) | EVP_PKEY_free (pkey : Z)
| SSL_CTX_set_cipher_list (s : list Z)
| SSL_CTX_load_verify_locations (cafile capath : option (list Z))
| X509_STORE_set_flags (flags : Z) | SSL_CTX_set_verify (mode cb : Z)
| X509_STORE_set_check_issued (cb : Z) | SSL_CTX_set_verify_depth (d : Z)
| SSL_CTX_use_certificate_chain_file (path : list Z)
| call_decrypt_cb (cb : Z) (path : list Z)
| SSL_CTX_use_PrivateKey (pkey : Z) | SSL_CTX_use_PrivateKey_file (path : list Z)
| SSL_CTX_set_session_id_context | SSL_CTX_set_app_data
| SSL_CTX_set_session_cache_mode (m : cache_mode) | SSL_CTX_sess_set_cache_size (n : Z)
| SSL_CTX_sess_set_new_cb | SSL_CTX_sess_set_get_cb | SSL_CTX_sess_set_remove_cb
| call_scache_init (f : Z)
| SSL_CTX_set_alpn_select_cb.

(** The result of a call; 0 is also NULL. *)
Class Ossl := { ssl_answer : ssl_call -> Z }.

(** The calls made, whether [ssl_cfg] and [ssl_ctx] are set, what scache_init
    returned, and the references held to keys and open files. *)
Record setup := {
  calls : list ssl_call; set_cfg : bool; set_ctx : bool; scache_args : Z;
  keys : Z; files : Z
}.
#[export] Instance eta_setup : EtaFields setup := fun s =>
  Build_setup (calls s) (set_cfg s) (set_ctx s) (scache_args s) (keys s) (files s).

Section SslInit.
Context `{os : Ossl}.

Definition call (c : ssl_call) : M setup Z := fun s =>
  (ssl_answer c, s <| calls := calls s ++ [c] |>).
Definition call_ (c : ssl_call) : M setup unit := call c ;; ret tt.
Definition hold_key (d : Z) : M setup unit := modify (fun s => s <| keys := keys s + d |>).
Definition hold_file (d : Z) : M setup unit := modify (fun s => s <| files := files s + d |>).

Definition default_groups : list Z := bytes "P-256:X25519:P-384".
Definition set_groups (curve : option (list Z)) : M setup unit :=
  call_ (SSL_CTX_set1_groups_list (default default_groups curve)).

(** None of the failures is fatal. *)
Definition set_dhparams (path : option (list Z)) : M setup unit :=
  match path with
  | None => ret tt
  | Some path =>
      fh <- call (fopen path) ;;
      if fh =? 0 then ret tt
      else
        hold_file 1 ;;
        dhpkey <- call PEM_read_PUBKEY ;;
        call fclose ;; hold_file (-1) ;;
        if dhpkey =? 0 then ret tt
        else
          hold_key 1 ;;
          v <- call (SSL_CTX_set0_tmp_dh_pkey dhpkey) ;;
          (if negb (v =? 1) then call_ (EVP_PKEY_free dhpkey) else ret tt) ;;
          (** given to the context, or freed *)
          hold_key (-1)
  end.

(** [false]: no key. *)
Definition set_private_key (decrypt : Z) (key : list Z) : M setup bool :=
  if negb (decrypt =? 0) then
    pkey <- call (call_decrypt_cb decrypt key) ;;
    if pkey =? 0 then ret false
    else
      hold_key 1 ;;
      call_ (SSL_CTX_use_PrivateKey pkey) ;;
      call_ (EVP_PKEY_free pkey) ;; hold_key (-1) ;; ret true
  else call_ (SSL_CTX_use_PrivateKey_file key) ;; ret true.

Definition set_session_cache (cfg : evhtp_ssl_cfg) (mode : cache_mode) : M setup unit :=
  call_ (SSL_CTX_set_session_cache_mode mode) ;;
  when (negb (bool_decide (mode = SSL_SESS_CACHE_OFF)))
    (call_ (SSL_CTX_sess_set_cache_size (if scache_size cfg =? 0 then 1024 else scache_size cfg)) ;;
     when (bool_decide (scache_type cfg = evhtp_ssl_scache_type_builtin) ||
           bool_decide (scache_type cfg = evhtp_ssl_scache_type_user))
       (call_ SSL_CTX_sess_set_new_cb ;; call_ SSL_CTX_sess_set_get_cb ;;
        call_ SSL_CTX_sess_set_remove_cb ;;
        when (negb (scache_init cfg =? 0))
          (args <- call (call_scache_init (scache_init cfg)) ;;
           modify (fun s => s <| scache_args := args |>)))).

(** From the first use of the context on. *)
Definition configure (cfg : evhtp_ssl_cfg) (pem : list Z) : M setup Z :=
  call_ (SSL_CTX_set_options SSL_OP_NO_COMPRESSION) ;;
  call_ (SSL_CTX_set_timeout (ssl_ctx_timeout cfg)) ;;
  call_ (SSL_CTX_set_options (ssl_opts cfg)) ;;
  set_groups (named_curve cfg) ;;
  set_dhparams (dhparams cfg) ;;
  ok <- match ciphers cfg with
        | None => ret true
        | Some s => v <- call (SSL_CTX_set_cipher_list s) ;; ret (negb (v =? 0))
        end ;;
  if negb ok then ret (-1)
  else
    call_ (SSL_CTX_load_verify_locations (cafile cfg) (capath cfg)) ;;
    call_ (X509_STORE_set_flags (store_flags cfg)) ;;
    call_ (SSL_CTX_set_verify (verify_peer cfg) (x509_verify_cb cfg)) ;;
    when (negb (x509_chk_issued_cb cfg =? 0))
      (call_ (X509_STORE_set_check_issued (x509_chk_issued_cb cfg))) ;;
    when (negb (verify_depth cfg =? 0))
      (call_ (SSL_CTX_set_verify_depth (verify_depth cfg))) ;;
    let cache_mode :=
      match scache_type cfg with
      | evhtp_ssl_scache_type_disabled => SSL_SESS_CACHE_OFF
      | _ => SSL_SESS_CACHE_SERVER
      end in
    call_ (SSL_CTX_use_certificate_chain_file pem) ;;
    ok <- set_private_key (decrypt_cb cfg) (default pem (privfile cfg)) ;;
    if negb ok then ret (-1)
    else
      call_ SSL_CTX_set_session_id_context ;;
      call_ SSL_CTX_set_app_data ;;
      set_session_cache cfg cache_mode ;;
      call_ SSL_CTX_set_alpn_select_cb ;;
      ret 0.

(** [None]: the process was aborted, by evhtp_alloc_assert. *)
Definition evhtp_ssl_init (htp : bool) (cfg : option evhtp_ssl_cfg) : M setup (option Z) :=
  match (if htp then cfg else None) with
  | None => ret (Some (-1))
  | Some cfg =>
      match pemfile cfg with
      | None => ret (Some (-1))
      | Some pem =>
          v <- call RAND_poll ;;
          if negb (v =? 1) then ret (Some (-1))
          else
            v <- call RAND_bytes ;;
            if negb (v =? 1) then ret (Some (-1))
            else
              ctx <- call SSL_CTX_new ;;
              modify (fun s => s <| set_cfg := true |> <| set_ctx := negb (ctx =? 0) |>) ;;
              if ctx =? 0 then ret None
              else v <- configure cfg pem ;; ret (Some v)
      end
  end.

(** [ctx]: [htp->ssl_ctx != NULL]. *)
Definition evhtp_ssl_enable_h2 (htp ctx : bool) : M setup Z :=
  if negb htp || negb ctx then ret (-1) else call_ SSL_CTX_set_alpn_select_cb ;; ret 0.

(** ** When a server is set up *)

(** The answers that count: is there randomness, and is all that has to go well
    with a context accepted? *)
Definition random_ok : bool := (ssl_answer RAND_poll =? 1) && (ssl_answer RAND_bytes =? 1).
Definition accepted_ok (cfg : evhtp_ssl_cfg) (pem : list Z) : bool :=
  match ciphers cfg with Some s => negb (ssl_answer (SSL_CTX_set_cipher_list s) =? 0) | None => true end &&
  ((decrypt_cb cfg =? 0) ||
   negb (ssl_answer (call_decrypt_cb (decrypt_cb cfg) (default pem (privfile cfg))) =? 0)).
(** What a server is set up with, if anything. *)
Definition arguments (htp : bool) (cfg : option evhtp_ssl_cfg) : option (evhtp_ssl_cfg * list Z) :=
  if htp then cfg ≫= (fun c => (fun pem => (c, pem)) <$> pemfile c) else None.
Definition outcome (htp : bool) (cfg : option evhtp_ssl_cfg) : option Z :=
  match arguments htp cfg with
  | None => Some (-1)
  | Some (c, pem) =>
      if negb random_ok then Some (-1)
      else if ssl_answer SSL_CTX_new =? 0 then None
      else Some (if accepted_ok c pem then 0 else -1)
  end.

(** The calls that make the server ask for certificates, show its own, cache
    sessions and agree on a protocol. *)
Definition configured (cfg : evhtp_ssl_cfg) (pem : list Z) : list ssl_call :=
  [SSL_CTX_set_options (ssl_opts cfg); SSL_CTX_set_verify (verify_peer cfg) (x509_verify_cb cfg);
   SSL_CTX_use_certificate_chain_file pem;
   SSL_CTX_set_session_cache_mode
     (if bool_decide (scache_type cfg = evhtp_ssl_scache_type_disabled)
      then SSL_SESS_CACHE_OFF else SSL_SESS_CACHE_SERVER);
   SSL_CTX_set_alpn_select_cb].

(** *** Computations that add calls and hold on to nothing *)

Definition ran {A} (m : M setup A) (a : A) (cs : list ssl_call) : Prop := forall s, exists s',
  m s = (a, s') /\ calls s' = calls s ++ cs /\ keys s' = keys s /\ files s' = files s /\
  set_ctx s' = set_ctx s.

Lemma ran_ret {A} (a : A) : ran (ret a) a [].
Proof. intros s. exists s. rewrite app_nil_r. done. Qed.
Lemma ran_bind {A B} (m : M setup A) (k : A -> M setup B) a b cs cs' :
  ran m a cs -> ran (k a) b cs' -> ran (bind m k) b (cs ++ cs').
Proof.
  intros Hm Hk s. destruct (Hm s) as (s1 & E1 & ? & ? & ? & ?).
  destruct (Hk s1) as (s2 & E2 & ? & ? & ? & ?). exists s2. unfold bind. rewrite E1.
  split; [done|]. rewrite app_assoc. split_and!; congruence.
Qed.
Lemma ran_call c : ran (call c) (ssl_answer c) [c].
Proof. intros s. by eexists. Qed.
Lemma ran_call_ c : ran (call_ c) tt [c].
Proof. intros s. by eexists. Qed.
Lemma ran_when (b : bool) m cs : ran m tt cs -> ran (when b m) tt (if b then cs else []).
Proof. intros Hm. destruct b; [done|apply ran_ret]. Qed.

(** The calls made to share keys for the key exchange are of five kinds. *)
Definition dh_call (c : ssl_call) : bool :=
  match c with
  | fopen _ | PEM_read_PUBKEY | fclose | SSL_CTX_set0_tmp_dh_pkey _ | EVP_PKEY_free _ => true
  | _ => false
  end.
Lemma dhparams_ran path : exists cs, ran (set_dhparams path) tt cs /\ Forall (fun c => dh_call c) cs.
Proof.
  unfold set_dhparams. destruct path as [path|]; [|exists []; split; [apply ran_ret|constructor]].
  exists (fopen path :: (if ssl_answer (fopen path) =? 0 then [] else
    [PEM_read_PUBKEY; fclose] ++ (if ssl_answer PEM_read_PUBKEY =? 0 then [] else
      [SSL_CTX_set0_tmp_dh_pkey (ssl_answer PEM_read_PUBKEY)] ++
      (if negb (ssl_answer (SSL_CTX_set0_tmp_dh_pkey (ssl_answer PEM_read_PUBKEY)) =? 1)
       then [EVP_PKEY_free (ssl_answer PEM_read_PUBKEY)] else [])))).
  split; [|repeat case_match; by repeat constructor].
  intros s. unfold call_, call, hold_file, hold_key, modify, bind, ret.
  repeat (case_match; simplify_eq/=); eexists; (split; [reflexivity|]);
    cbn; rewrite <- ?app_assoc; split_and!; try done; lia.
Qed.

Definition key_call (c : ssl_call) : bool :=
  match c with
  | call_decrypt_cb _ _ | SSL_CTX_use_PrivateKey _ | EVP_PKEY_free _
  | SSL_CTX_use_PrivateKey_file _ => true
  | _ => false
  end.
Lemma private_key_ran f path : exists cs,
  ran (set_private_key f path) ((f =? 0) || negb (ssl_answer (call_decrypt_cb f path) =? 0)) cs /\
  Forall (fun c => key_call c) cs.
Proof.
  unfold set_private_key. destruct (Z.eqb_spec f 0) as [|Hf]; cbn [negb orb].
  { exists [SSL_CTX_use_PrivateKey_file path]. split; [|by repeat constructor].
    intros s. by eexists. }
  exists (call_decrypt_cb f path :: (if ssl_answer (call_decrypt_cb f path) =? 0 then [] else
    [SSL_CTX_use_PrivateKey (ssl_answer (call_decrypt_cb f path));
     EVP_PKEY_free (ssl_answer (call_decrypt_cb f path))])).
  split; [|case_match; by repeat constructor].
  intros s. unfold call_, call, hold_key, modify, bind, ret.
  destruct (ssl_answer (call_decrypt_cb f path) =? 0); eexists; (split; [reflexivity|]);
    cbn; rewrite <- ?app_assoc; split_and!; try done; lia.
Qed.

(** The functions of the session cache are the application's. *)
Definition own_cache (cfg : evhtp_ssl_cfg) : bool :=
  bool_decide (scache_type cfg = evhtp_ssl_scache_type_builtin) ||
  bool_decide (scache_type cfg = evhtp_ssl_scache_type_user).
Definition mode_of (cfg : evhtp_ssl_cfg) : cache_mode :=
  if bool_decide (scache_type cfg = evhtp_ssl_scache_type_disabled)
  then SSL_SESS_CACHE_OFF else SSL_SESS_CACHE_SERVER.
Lemma session_cache_ran cfg : exists cs,
  ran (set_session_cache cfg (mode_of cfg)) tt (SSL_CTX_set_session_cache_mode (mode_of cfg) :: cs) /\
  (SSL_CTX_sess_set_new_cb ∈ cs <-> own_cache cfg = true).
Proof.
  exists (if bool_decide (mode_of cfg = SSL_SESS_CACHE_OFF) then [] else
    SSL_CTX_sess_set_cache_size (if scache_size cfg =? 0 then 1024 else scache_size cfg) ::
    (if own_cache cfg then
       [SSL_CTX_sess_set_new_cb; SSL_CTX_sess_set_get_cb; SSL_CTX_sess_set_remove_cb] ++
       (if scache_init cfg =? 0 then [] else [call_scache_init (scache_init cfg)]) else [])).
  split.
  - intros s. unfold set_session_cache, own_cache.
    destruct (bool_decide (mode_of cfg = SSL_SESS_CACHE_OFF)); cbn [negb when]; [by eexists|].
    destruct (_ || _); cbn [when]; [|eexists; (split; [reflexivity|]); cbn; by rewrite <- !app_assoc].
    destruct (scache_init cfg =? 0); cbn [negb when];
      eexists; (split; [reflexivity|]); cbn; by rewrite <- !app_assoc.
  - rewrite list_elem_of_In. unfold own_cache, mode_of. destruct (scache_type cfg); cbn;
      repeat case_match; cbn; intuition discriminate.
Qed.

Lemma ciphers_ran c : exists cs,
  ran (match c with
       | None => ret true
       | Some s => v <- call (SSL_CTX_set_cipher_list s) ;; ret (negb (v =? 0))
       end)
    (match c with Some s => negb (ssl_answer (SSL_CTX_set_cipher_list s) =? 0) | None => true end) cs /\
  SSL_CTX_sess_set_new_cb ∉ cs.
Proof.
  destruct c as [s|]; [|exists []; split; [apply ran_ret|rewrite list_elem_of_In; cbn; tauto]].
  exists [SSL_CTX_set_cipher_list s]. split; [|rewrite list_elem_of_In; cbn; intuition discriminate].
  eapply (ran_bind _ _ _ _ [_] []); [apply ran_call|apply ran_ret].
Qed.

(** Everything once the context is there. *)
Lemma configure_ran cfg pem k_ok c_ok :
  match ciphers cfg with Some s => negb (ssl_answer (SSL_CTX_set_cipher_list s) =? 0) | None => true end = c_ok ->
  (decrypt_cb cfg =? 0) ||
    negb (ssl_answer (call_decrypt_cb (decrypt_cb cfg) (default pem (privfile cfg))) =? 0) = k_ok ->
  exists cs, ran (configure cfg pem) (if c_ok && k_ok then 0 else -1) cs /\
    (c_ok && k_ok = true -> configured cfg pem `sublist_of` cs /\
       (SSL_CTX_sess_set_new_cb ∈ cs <-> own_cache cfg = true)).
Proof.
  intros Hc Hk. destruct (dhparams_ran (dhparams cfg)) as (dcs & Hd & Fd).
  destruct (private_key_ran (decrypt_cb cfg) (default pem (privfile cfg))) as (kcs & Hkr & Fk).
  destruct (session_cache_ran cfg) as (scs & Hs & Hown).
  destruct (ciphers_ran (ciphers cfg)) as (ccs & Hcr & Fc). rewrite Hc in Hcr. rewrite Hk in Hkr.
  assert (match scache_type cfg with
          | evhtp_ssl_scache_type_disabled => SSL_SESS_CACHE_OFF | _ => SSL_SESS_CACHE_SERVER
          end = mode_of cfg) as Em by (unfold mode_of; by destruct (scache_type cfg)).
  rewrite <- Em in Hs at 1.
  unfold configure. destruct c_ok; cbn [andb].
  2:{ eexists. split; [|done]. repeat (eapply ran_bind; [first [apply ran_call_ | exact Hd | exact Hcr]|]).
      apply ran_ret. }
  destruct k_ok.
  2:{ eexists. split; [|done].
      repeat (eapply ran_bind; [first [apply ran_call_ | apply ran_when, ran_call_ | exact Hd | exact Hcr | exact Hkr]|]; cbn [negb]).
      apply ran_ret. }
  eexists. split.
  { repeat (eapply ran_bind; [first [apply ran_call_ | apply ran_when, ran_call_ | exact Hd | exact Hcr | exact Hkr | exact Hs]|]; cbn [negb]).
    apply ran_ret. }
  intros _. split.
  - unfold configured. fold (mode_of cfg). cbn [Datatypes.app].
    repeat first [apply sublist_skip | apply sublist_inserts_l | apply sublist_cons].
    apply sublist_nil.
  - rewrite list_elem_of_In in Hown, Fc |- *.
    assert (~ In SSL_CTX_sess_set_new_cb dcs) as Nd.
    { intros H. rewrite Forall_forall in Fd. by apply list_elem_of_In, Fd in H. }
    assert (~ In SSL_CTX_sess_set_new_cb kcs) as Nk.
    { intros H. rewrite Forall_forall in Fk. by apply list_elem_of_In, Fk in H. }
    cbn [Datatypes.app]. rewrite <- Hown. clear -Nd Nk Fc.
    repeat first [rewrite in_app_iff | cbn [In]].
    destruct (x509_chk_issued_cb cfg =? 0), (verify_depth cfg =? 0); cbn [negb In];
      intuition (discriminate || done).
Qed.

(** C36: when a server is set up for TLS.  evhtp_ssl_init returns 0 exactly when it
    is given a server and a configuration with a certificate file, there is
    randomness, a context, the cipher list is accepted and, if the application
    decrypts the key, it gives one; whether the certificate, the key file or the
    authorities could be loaded does not matter.  It returns -1 otherwise, but
    for a context that cannot be made, where it aborts; without a certificate
    file it does nothing.  A server that is set up has been given the options,
    the demand for certificates, its own certificate, the session cache (the
    application's, if it has one) and the choice of a protocol, in this order.
    No key and no file stays held. *)
Theorem ssl_init_outcome htp cfg s :
  let '(r, s') := evhtp_ssl_init htp cfg s in
  r = outcome htp cfg /\ keys s' = keys s /\ files s' = files s /\
  (arguments htp cfg = None -> s' = s) /\
  (r = Some 0 -> exists c pem cs, arguments htp cfg = Some (c, pem) /\ set_ctx s' = true /\
     calls s' = calls s ++ cs /\ configured c pem `sublist_of` cs /\
     (SSL_CTX_sess_set_new_cb ∈ cs <-> own_cache c = true)).
Proof.
  unfold evhtp_ssl_init, outcome, arguments, random_ok.
  destruct htp; cbn [negb]; [|by repeat split].
  destruct cfg as [c|]; cbn [mbind option_bind]; [|by repeat split].
  destruct (pemfile c) as [pem|]; cbn [fmap option_fmap option_map]; [|by repeat split].
  edestruct (configure_ran c pem) as (cs & Hcs & Hok); [reflexivity..|].
  unfold bind, call, modify.
  destruct (ssl_answer RAND_poll =? 1); cbn [negb andb]; [|by repeat split].
  destruct (ssl_answer RAND_bytes =? 1); cbn [negb andb]; [|by repeat split].
  destruct (ssl_answer SSL_CTX_new =? 0); cbn [negb]; [by repeat split|].
  match goal with |- context [configure c pem ?s1] =>
    destruct (Hcs s1) as (s' & -> & Ec & Ek & Ef & Et) end.
  unfold ret. fold (accepted_ok c pem) in *. split; [done|]. split; [done|]. split; [done|].
  split; [done|]. destruct (accepted_ok c pem) eqn:E; [intros _|done]. destruct (Hok eq_refl) as [Hsub Hiff].
  exists c, pem, ([RAND_poll; RAND_bytes; SSL_CTX_new] ++ cs). rewrite Et, Ec.
  split; [done|]. split; [done|]. split; [cbn; by rewrite <- !app_assoc|].
  split; [by apply sublist_inserts_l|].
  rewrite <- Hiff, !list_elem_of_In, in_app_iff. cbn. intuition discriminate.
Qed.
End SslInit.

(** ** Witness: a server without a certificate *)

(** Nothing is loaded from files. *)
#[local] Instance no_files : Ossl := {
  ssl_answer c := match c with
                  | fopen _ | SSL_CTX_use_certificate_chain_file _ | SSL_CTX_use_PrivateKey_file _
                  | SSL_CTX_load_verify_locations _ _ => 0
                  | _ => 1 end }.
Definition sample_cfg : evhtp_ssl_cfg := {|
  pemfile := Some (bytes "missing.pem"); privfile := None; cafile := None; capath := None;
  ciphers := Some (bytes "HIGH"); named_curve := None; dhparams := Some (bytes "dh.pem");
  ssl_opts := 4; ssl_ctx_timeout := 60; verify_peer := 1; verify_depth := 2; x509_verify_cb := 0;
  x509_chk_issued_cb := 0; decrypt_cb := 0; store_flags := 0;
  scache_type := evhtp_ssl_scache_type_user; scache_size := 0; scache_init := 5 |}.
Definition no_setup : setup := {|
  calls := []; set_cfg := false; set_ctx := false; scache_args := 0; keys := 0; files := 0 |}.

Lemma ssl_init_outcome_witness :
  exists s', evhtp_ssl_init true (Some sample_cfg) no_setup = (Some 0, s') /\ keys s' = 0 /\
    set_ctx s' = true.
Proof.
  pose proof (ssl_init_outcome true (Some sample_cfg) no_setup) as H.
  destruct (evhtp_ssl_init true (Some sample_cfg) no_setup) as [r s'].
  destruct H as (Hr & Hk & _ & _ & Hset). vm_compute in Hr. subst r.
  exists s'. split; [reflexivity|]. split; [exact Hk|].
  by destruct (Hset eq_refl) as (c & pem & cs & _ & ? & _).
Defined.
