(* ===== verification/H2.v ===== *)
(** * evhtp.c: HTTP/2 connections

    nghttp2 does the framing; the functions here are the callbacks it is given
    and the operations on its session.  The session is a parameter
    ([Nghttp2]); what nghttp2 makes of the bytes it receives and of the queue it
    sends is a list of the callbacks it runs ([h2_callback]), which comes with
    the event.  The members of evhtp_connection that only HTTP/2 uses, and the
    context [evhtp_h2_conn_ctx], are kept in front of the application's part of
    the store ([h2_state]). *)

From S2P Require Import Prelude HtpTypes HtString MsgParser Kvs Query Callbacks Numtoa Uri Request ReqParse Reply ReplyFacts Conn.
From stdpp Require Import gmap.
#[local] Open Scope Z_scope.
#[local] Open Scope htp_scope.

Definition EVHTP_REQ_FLAG_VHOST_RESOLVED : Z := Z.shiftl 1 6.
Definition EVHTP_REQ_FLAG_H2_STREAMING : Z := Z.shiftl 1 7.
Definition EVHTP_CONN_FLAG_IS_HTTP2 : Z := Z.shiftl 1 8.

(** ** nghttp2.h *)

Definition NGHTTP2_ERR_CALLBACK_FAILURE : Z := -902.
Definition NGHTTP2_FLAG_END_STREAM : Z := 1.
Definition NGHTTP2_FLAG_END_HEADERS : Z := 4.
Definition NGHTTP2_NO_ERROR : Z := 0.
Definition NGHTTP2_INTERNAL_ERROR : Z := 2.
Definition NGHTTP2_SETTINGS_ENABLE_PUSH : Z := 2.
Definition NGHTTP2_SETTINGS_MAX_CONCURRENT_STREAMS : Z := 3.
Definition NGHTTP2_SETTINGS_INITIAL_WINDOW_SIZE : Z := 4.

Inductive frame_type := NGHTTP2_DATA | NGHTTP2_HEADERS | NGHTTP2_GOAWAY | other_frame.
#[export] Instance frame_type_eq_dec : EqDecision frame_type.
Proof. solve_decision. Defined.
(** [cat_request]: [headers.cat == NGHTTP2_HCAT_REQUEST]. *)
Record nghttp2_frame := {
  hd_type : frame_type; hd_flags : Z; hd_stream_id : Z; cat_request : bool;
  goaway_last_stream_id : Z
}.
(** A name and its value. *)
Definition nghttp2_nv : Type := list Z * list Z.

(** The data source of a reply or request: the request whose buffer_out it
    reads, with h2__data_read_cb_ or h2__stream_read_cb_. *)
Inductive data_source := whole_body (i : nat) | streamed_body (i : nat).

(** [data_source_of]: what an open stream still reads its body from;
    [nghttp2_stream_closed]: what nghttp2 does itself when a stream is closed,
    after it has run the callback. *)
Class Nghttp2 := {
  session : Type;
  data_source_of : Z -> session -> option data_source;
  nghttp2_session_new : evhtp_type -> session;
  nghttp2_submit_settings : list (Z * Z) -> session -> session;
  nghttp2_session_set_local_window_size : Z -> session -> session;
  nghttp2_session_set_stream_user_data : Z -> option nat -> session -> session;
  nghttp2_session_get_stream_user_data : Z -> session -> option nat;
  nghttp2_submit_response : Z -> list nghttp2_nv -> option data_source -> session -> Z * session;
  nghttp2_submit_request2 : list nghttp2_nv -> option data_source -> nat -> session -> Z * session;
  nghttp2_submit_rst_stream : Z -> Z -> session -> Z * session;
  nghttp2_session_resume_data : Z -> session -> session;
  nghttp2_session_consume : Z -> nat -> session -> session;
  nghttp2_submit_goaway : Z -> session -> session;
  nghttp2_stream_closed : Z -> session -> session
}.

(** [ctx_session]: the session of [conn->h2ctx], if there is one;
    [flush_active]: whether its flush event is to run. *)
Record h2_state `{Nghttp2} (B : Type) := {
  h2_pending : list nat; ctx_session : option session; flush_active : bool; h2_app : B
}.
#[global] Arguments h2_pending {_ B}.
#[global] Arguments ctx_session {_ B}.
#[global] Arguments flush_active {_ B}.
#[global] Arguments h2_app {_ B}.
#[global] Arguments Build_h2_state {_ B}.
#[export] Instance eta_h2_state `{Nghttp2} B : EtaFields (h2_state B) := fun h =>
  Build_h2_state (h2_pending h) (ctx_session h) (flush_active h) (h2_app h).

(** ** Header fields *)

(** [kv->klen == n && strncasecmp(kv->key, name, n) == 0] *)
Definition key_is (kv : evhtp_kv) (name : list Z) : bool :=
  (klen kv =? length name)%nat && casecmp_eqb (take (length name) (default [] (key kv))) name.

Definition skip_h2_response_header (kv : evhtp_kv) : bool :=
  existsb (key_is kv) [bytes "upgrade"; bytes "connection"; bytes "keep-alive";
                       bytes "proxy-connection"; bytes "transfer-encoding"].

(** One turn of the loop, at [p]: the token there without the blanks after it,
    and what follows it. *)
Fixpoint skip_seps (p : list Z) : list Z :=
  match p with
  | c :: p' => if isblank c || (c =? ","%c) then skip_seps p' else p
  | [] => []
  end.
Fixpoint until_comma (p : list Z) : list Z * list Z :=
  match p with
  | [] => ([], [])
  | c :: p' => if c =? ","%c then ([], p) else let '(t, r) := until_comma p' in (c :: t, r)
  end.
Definition connection_token (p : list Z) : list Z * list Z :=
  let '(t, rest) := until_comma (skip_seps p) in (rtrim t, rest).
(** [fuel]: the length of what is left is enough. *)
Fixpoint connection_lists_loop (fuel : nat) (p : list Z) (name : list Z) : bool :=
  match fuel, p with
  | S fuel, _ :: _ =>
      let '(t, rest) := connection_token p in
      if (length t =? length name)%nat && casecmp_eqb t name then true
      else connection_lists_loop fuel rest name
  | _, _ => false
  end.
Definition h2__connection_lists (conn_val : option (list Z)) (name : list Z) : bool :=
  match conn_val with
  | Some v => connection_lists_loop (length (cstr v)) (cstr v) name
  | None => false
  end.

(** [name]: the [len] bytes. *)
Definition h2__named_by_connection (headers : evhtp_kvs) (name : list Z) : bool :=
  existsb (fun kv => key_is kv (bytes "connection") && h2__connection_lists (val kv) name) headers.

Definition skip_hop_by_hop_request_header (kv : evhtp_kv) (headers : evhtp_kvs) : bool :=
  if existsb (key_is kv) [bytes "host"; bytes "connection"; bytes "keep-alive";
       bytes "proxy-connection"; bytes "transfer-encoding"; bytes "upgrade"] then true
  else if key_is kv (bytes "te") then
    negb ((vlen kv =? 8)%nat && casecmp_eqb (take 8 (default [] (val kv))) (bytes "trailers"))
  else h2__named_by_connection headers (take (klen kv) (default [] (key kv))).

Definition nv_of (kv : evhtp_kv) : nghttp2_nv :=
  (take (klen kv) (default [] (key kv)), take (vlen kv) (default [] (val kv))).

Section H2.
Context `{lib : HtStringLib} `{rx : RegexLib} `{ng : Nghttp2} {B : Type}.
Abbreviation W := (world (h2_state B)).
Context (mem : nat -> bool) (app : App (h2_state B)).
(** The bytes that follow a header value in nghttp2's memory. *)
Context (beyond : list Z -> list Z).

Definition geth {C} (f : h2_state B -> C) : M (St W) C := getw (fun w => f (w_app w)).
Definition updh (f : h2_state B -> h2_state B) : M (St W) unit :=
  updw (fun w => w <| w_app := f (w_app w) |>).
(** [ctx->session], used. *)
Definition on_session {C} (d : C) (f : session -> C * session) : M (St W) C :=
  s <- geth ctx_session ;;
  match s with
  | Some s => let '(c, s) := f s in updh (fun h => h <| ctx_session := Some s |>) ;; ret c
  | None => ub d
  end.
Definition get_user_data (sid : Z) : M (St W) (option nat) :=
  on_session None (fun s => (nghttp2_session_get_stream_user_data sid s, s)).
Definition set_user_data (sid : Z) (i : option nat) : M (St W) unit :=
  on_session tt (fun s => (tt, nghttp2_session_set_stream_user_data sid i s)).
Definition set_req_flag (i : nat) (f : Z) : M (St W) unit :=
  upd_req i (fun r => r <| r_flags := flag_on (r_flags r) f |>).

Definition h2__schedule_flush_ : M (St W) unit := updh (fun h => h <| flush_active := true |>).

(** ** Requests *)

(** htp__request_free_ on an HTTP/2 connection.  TAILQ_REMOVE of a request that
    was never in the list follows a NULL pointer; [removed]: the caller has just
    taken it out, and the links it left there are written once more. *)
Definition h2_request_free (removed : bool) (i : option nat) : M (St W) Z :=
  match i with
  | None => ret 0
  | Some i =>
      htp__hook_request_fini_ app (Some i) ;;
      with_req i (fun r =>
        (if r_conn r then
           p <- geth h2_pending ;;
           (if removed then ret tt
            else if bool_decide (i ∈ p) then
              updh (fun h => h <| h2_pending := filter (fun j => j <> i) p |>)
            else ub tt) ;;
           upd_conn (fun c => c <| c_request := None |>) ;;
           set_user_data (stream_id r) None
         else ret tt) ;;
        recycle_request i r)
  end.

Definition h2_request_new_ : M (St W) (option nat) :=
  k <- allocs 5 ;;
  if negb (mem k) then ret None
  else
    c <- getw w_conn ;;
    let '(r, ok) := fill_request mem (k + 1) (zero_request (c_htp c)) in
    updw (fun w => w <| w_reqs := <[k := r]> (w_reqs w) |>) ;;
    if ok then ret (Some k)
    else h2_request_free false (Some k) ;; ret None.
Definition h2_request_new__ : M (St W) (option nat) :=
  r <- get_request_from_cache ;;
  match r with Some i => ret (Some i) | None => h2_request_new_ end.

Fixpoint stream_find (rs : gmap nat evhtp_request) (l : list nat) (sid : Z) : option nat :=
  match l with
  | [] => None
  | i :: l =>
      match rs !! i with
      | Some r => if stream_id r =? sid then Some i else stream_find rs l sid
      | None => None
      end
  end.
Definition h2__stream_find_ (sid : Z) : M (St W) (option nat) :=
  rs <- getw w_reqs ;; p <- geth h2_pending ;; ret (stream_find rs p sid).

Definition run_request_cb (i : nat) : M (St W) Z :=
  with_req i (fun r =>
    if r_cb r =? 0 then ret 0 else app_cb app i (r_cb r) (r_cbarg r) ;; ret 0).

(** ** Callbacks: header fields *)

(** A field of a header block becomes a header of the request. *)
Definition new_header (k_heap v_heap : Z) (key val : option (list Z)) (k : nat) : option evhtp_kv :=
  (fun h => h <| k_heaped := k_heap |> <| v_heaped := v_heap |>) <$>
    evhtp_header_new (if mem k then Some (Z.of_nat k) else None) true true key val 0 0.
Definition add_in (i : nat) (h : evhtp_kv) : M (St W) unit :=
  upd_req i (fun r => r <| headers_in := evhtp_headers_add_header (headers_in r) (Some h) |>).
Definition headers_start (i : nat) (k : M (St W) Z) : M (St W) Z :=
  with_req i (fun r =>
    if has (r_flags r) EVHTP_REQ_FLAG_HDRS_START then k
    else
      set_req_flag i EVHTP_REQ_FLAG_HDRS_START ;;
      v <- htp__hook_headers_start_ app i ;;
      if v =? EVHTP_RES_OK then k else ret NGHTTP2_ERR_CALLBACK_FAILURE).

(** [htp__require_uri__(req) == -1] *)
Definition require_uri (i : nat) (k : M (St W) Z) : M (St W) Z :=
  v <- htp__require_uri__ mem (Some i) ;;
  if v =? -1 then ret NGHTTP2_ERR_CALLBACK_FAILURE else k.

(** The path, and what follows the question mark. *)
Definition split_target (target : list Z) : list Z * option (list Z) :=
  match memchr "?"%c target, memchr "#"%c target with
  | Some q, Some h => if (q <? h)%nat then (take q target, Some (drop (q + 1) target))
                      else (take h target, None)
  | Some q, None => (take q target, Some (drop (q + 1) target))
  | None, Some h => (take h target, None)
  | None, None => (target, None)
  end.

Definition h2_method (i : nat) (value : list Z) : M (St W) Z :=
  with_conn i (fun _ =>
    p <- gets fst ;;
    let '(m, p) := htparser_parse_method value p in
    upd_req i (fun r => r <| r_method := m |>) ;;
    updp (fun _ => htparser_set_content_length 0 (htparser_set_minor 0 (htparser_set_major 2
                     (htparser_set_method m p)))) ;;
    ret 0).

Definition h2_path (i : nat) (value : list Z) : M (St W) Z :=
  require_uri i (
    let '(path_, query_) := split_target value in
    k <- allocs 4 ;;
    match htp__path_new_ (fun n => mem (k + n)) path_ with
    | None => ret NGHTTP2_ERR_CALLBACK_FAILURE
    | Some pth =>
        upd_uri i (fun u => u <| uri_path := Some pth |>) ;;
        htp__request_set_callbacks_ i ;;
        htp__hook_path_ app i ;;
        match query_ with
        | None => ret 0
        | Some q =>
            with_conn i (fun r => with_uri r (fun u =>
              c <- getw w_conn ;;
              hs <- getw w_htps ;;
              match c_htp c ≫= (hs !!.) with
              | None => ub (-1)
              | Some h =>
                  k <- allocs (3 * S (length q)) ;;
                  let '(v, u') := htp__uri_set_query_ (kv_mem mem k) u q (parser_flags h) in
                  upd_uri i (fun _ => u') ;;
                  ret (if v =? -1 then NGHTTP2_ERR_CALLBACK_FAILURE else 0)
              end))
        end
    end).

Definition h2_scheme (i : nat) (value : list Z) : M (St W) Z :=
  require_uri i (
    let https := bytes_eqb (take 5 (value ++ beyond value)) (bytes "https") in
    upd_uri i (fun u => u <| uri_scheme := if https then htp_scheme_https else htp_scheme_http |>) ;;
    ret 0).

Definition h2_authority (i : nat) (value : list Z) : M (St W) Z :=
  k <- allocs 2 ;;
  match new_header 0 1 (Some (bytes "host")) (htp__strndup_ (mem k) value (length value)) (k + 1) with
  | None => ub (-1)
  | Some h => add_in i h ;; ret 0
  end.

(** The copies and the header are made, added, shown to the hook, and then
    marked as to be freed. *)
Definition h2_field (i : nat) (name value : list Z) : M (St W) Z :=
  k <- allocs 3 ;;
  match new_header 0 0 (htp__strndup_ (mem k) name (length name))
          (htp__strndup_ (mem (k + 1)%nat) value (length value)) (k + 2) with
  | None => ub (-1)
  | Some h =>
      add_in i h ;;
      htp__hook_header_ app i (addr h) ;;
      upd_req i (fun r => r <| headers_in :=
        (fun l => map (fun x : evhtp_kv => if addr x =? addr h
                        then x <| k_heaped := 1 |> <| v_heaped := 1 |> else x) l) <$> headers_in r |>) ;;
      ret 0
  end.

Definition pseudo_header (i : nat) (name value : list Z) : M (St W) Z :=
  if bytes_eqb name (bytes ":method") then h2_method i value
  else if bytes_eqb name (bytes ":path") then h2_path i value
  else if bytes_eqb name (bytes ":scheme") then h2_scheme i value
  else if bytes_eqb name (bytes ":authority") then h2_authority i value
  else ret 0.

Definition h2__server_on_header_cb_ (sid : Z) (name value : list Z) : M (St W) Z :=
  req <- get_user_data sid ;;
  match req with
  | None => ret 0
  | Some i =>
      match name with
      | c :: _ =>
          if c =? ":"%c then pseudo_header i name value
          else
            headers_start i (
              when (casecmp_eqb name (bytes "content-length"))
                (ignore (with_conn i (fun _ =>
                   updp (htparser_set_content_length (strtoul (value ++ beyond value)).1) ;; ret 0))) ;;
              h2_field i name value)
      | [] => headers_start i (h2_field i name value)
      end
  end.

Definition h2__client_on_header_cb_ (sid : Z) (name value : list Z) : M (St W) Z :=
  req <- get_user_data sid ;;
  match req with
  | None => ret 0
  | Some i =>
      if bytes_eqb name (bytes ":status") then
        k <- allocs 1 ;;
        match htp__strndup_ (mem k) value (length value) with
        | None => ub (-1)
        | Some s =>
            let status := (strtoul s).1 mod 2 ^ 16 in
            upd_req i (fun r => r <| r_status := status |>) ;;
            with_conn i (fun _ =>
              updp (fun p => htparser_set_status status (htparser_set_minor 0 (htparser_set_major 2 p))) ;;
              ret 0)
        end
      else
        headers_start i (
          k <- allocs 3 ;;
          match new_header 1 1 (htp__strndup_ (mem k) name (length name))
                  (htp__strndup_ (mem (k + 1)%nat) value (length value)) (k + 2) with
          | None => ub (-1)
          | Some h => add_in i h ;; htp__hook_header_ app i (addr h) ;; ret 0
          end)
  end.

(** ** Callbacks: frames *)

Definition is_frame (f : nghttp2_frame) (t : frame_type) : bool := bool_decide (hd_type f = t).

Definition h2__client_on_begin_headers_cb_ (f : nghttp2_frame) : M (St W) Z :=
  if negb (is_frame f NGHTTP2_HEADERS) then ret 0
  else
    req <- h2__stream_find_ (hd_stream_id f) ;;
    match req with
    | None => ret 0
    | Some i =>
        upd_req i (fun r => r <| r_proto := EVHTP_PROTO_20 |>) ;;
        set_user_data (hd_stream_id f) (Some i) ;;
        ret 0
    end.

Definition h2__server_on_begin_headers_cb_ (f : nghttp2_frame) : M (St W) Z :=
  if negb (is_frame f NGHTTP2_HEADERS) || negb (cat_request f) then ret 0
  else
    req <- h2_request_new__ ;;
    match req with
    | None => ret NGHTTP2_ERR_CALLBACK_FAILURE
    | Some i =>
        upd_req i (fun r => r <| r_proto := EVHTP_PROTO_20 |> <| stream_id := hd_stream_id f |>) ;;
        updh (fun h => h <| h2_pending := h2_pending h ++ [i] |>) ;;
        set_user_data (hd_stream_id f) (Some i) ;;
        ret 0
    end.

Definition submit_rst (sid error : Z) : M (St W) Z :=
  on_session 0 (nghttp2_submit_rst_stream sid error).

(** After a hook: a request that was answered, or whose hook failed, is not
    dispatched. *)
Definition unless_answered (i : nat) (sid res : Z) (k : M (St W) Z) : M (St W) Z :=
  with_req i (fun r =>
    if has (r_flags r) EVHTP_REQ_FLAG_FINISHED then ret 0
    else if negb (res =? EVHTP_RES_OK) then submit_rst sid NGHTTP2_INTERNAL_ERROR ;; ret 0
    else k).

(** The host of the request chooses the virtual host, of the connection too. *)
Definition resolve_vhost (i : nat) (host : evhtp_kv) : M (St W) Z :=
  with_conn i (fun _ =>
    c <- getw w_conn ;;
    hs <- getw w_htps ;;
    match c_htp c ≫= (hs !!.) with
    | None => ub (-1)
    | Some h =>
        match htp__request_find_vhost_ hs h (default [] (val host) ++ [0]) (vlen host) with
        | None => ub (-1)
        | Some (Some v) =>
            upd_conn (fun c => c <| c_htp := Some v |>) ;;
            upd_req i (fun r => r <| r_htp := Some v |>) ;;
            htp__request_set_callbacks_ i
        | Some None => ret 0
        end
    end).

Definition headers_vhost (i : nat) (sid : Z) (k : M (St W) Z) : M (St W) Z :=
  with_req i (fun r =>
    if has (r_flags r) EVHTP_REQ_FLAG_VHOST_RESOLVED then k
    else
      set_req_flag i EVHTP_REQ_FLAG_VHOST_RESOLVED ;;
      with_req i (fun r =>
        match evhtp_kvs_find_kv_n (headers_in r) (Some (bytes "host")) 4 with
        | None => k
        | Some host =>
            resolve_vhost i host ;;
            res <- htp__hook_hostname_ app i (default [] (val host)) ;;
            unless_answered i sid res k
        end)).

Definition handle_h2_headers_frame (f : nghttp2_frame) : M (St W) Z :=
  let sid := hd_stream_id f in
  if negb (has (hd_flags f) NGHTTP2_FLAG_END_HEADERS) then ret 0
  else
    req <- get_user_data sid ;;
    match req with
    | None => ret (-1)
    | Some i =>
        when (has (hd_flags f) NGHTTP2_FLAG_END_STREAM) (set_req_flag i EVHTP_REQ_FLAG_END_STREAM) ;;
        headers_start i (
          headers_vhost i sid (
            htp__request_set_callbacks_ i ;;
            res <- htp__hook_headers_ app i ;;
            unless_answered i sid res (
              with_req i (fun r =>
                if has (r_flags r) EVHTP_REQ_FLAG_END_STREAM then run_request_cb i else ret 0))))
    end.

Definition htp__h2_should_parse_query_body_ (r : evhtp_request) : bool :=
  match r_uri r with
  | None => false
  | Some u =>
      match query u, default [] (buffer_in r) with
      | None, _ :: _ =>
          match evhtp_kv_find_n (headers_in r) (Some (bytes "content-type")) 12 with
          | None => false
          | Some ct => bytes_eqb (lower (take 33 ct)) (bytes "application/x-www-form-urlencoded")
          end
      | _, _ => false
      end
  end.

Definition handle_h2_data_frame (f : nghttp2_frame) : M (St W) Z :=
  let sid := hd_stream_id f in
  if negb (has (hd_flags f) NGHTTP2_FLAG_END_STREAM) then ret 0
  else
    req <- get_user_data sid ;;
    match req with
    | None => ret (-1)
    | Some i =>
        set_req_flag i EVHTP_REQ_FLAG_END_STREAM ;;
        with_req i (fun r =>
          if has (r_flags r) EVHTP_REQ_FLAG_FINISHED then ret 0
          else
            set_user_data sid None ;;
            with_req i (fun r =>
              when (htp__h2_should_parse_query_body_ r)
                (ignore (htp__request_query_from_body_ mem i)) ;;
              run_request_cb i ;; ret 0))
    end.

Fixpoint mark_requests (l : list nat) : M (St W) unit :=
  match l with
  | [] => ret tt
  | i :: l =>
      ignore (with_req i (fun _ => set_req_flag i EVHTP_REQ_FLAG_ERROR ;; ret 0)) ;;
      mark_requests l
  end.
(** The error hook of the requests of [l] that [which] chooses. *)
Fixpoint fail_requests (which : evhtp_request -> bool) (err : Z) (l : list nat) : M (St W) Z :=
  match l with
  | [] => ret 0
  | i :: l =>
      with_req i (fun r =>
        when (which r) (set_req_flag i EVHTP_REQ_FLAG_ERROR ;; htp__hook_error_ app (Some i) err) ;;
        ret 0) ;;
      fail_requests which err l
  end.
Definition handle_h2_goaway_frame (f : nghttp2_frame) : M (St W) Z :=
  p <- geth h2_pending ;;
  fail_requests (fun r => goaway_last_stream_id f <? stream_id r) BEV_EVENT_ERROR p ;; ret 0.

Definition h2__on_frame_recv_cb_ (f : nghttp2_frame) : M (St W) Z :=
  match hd_type f with
  | NGHTTP2_HEADERS => handle_h2_headers_frame f
  | NGHTTP2_DATA => handle_h2_data_frame f
  | NGHTTP2_GOAWAY => handle_h2_goaway_frame f
  | other_frame => ret 0
  end.

Definition consume (sid : Z) (n : nat) : M (St W) unit :=
  on_session tt (fun s => (tt, nghttp2_session_consume sid n s)).

Definition h2__on_data_chunk_recv_cb_ (sid : Z) (data : list Z) : M (St W) Z :=
  let len := Z.of_nat (length data) in
  req <- get_user_data sid ;;
  match req with
  | None => ret (-1)
  | Some i =>
      with_req i (fun r =>
        if has (r_flags r) EVHTP_REQ_FLAG_FINISHED then consume sid (length data) ;; ret 0
        else if negb (r_conn r) then ret (-1)
        else
          c <- getw w_conn ;;
          if (0 <? c_max_body_size c) && (c_max_body_size c <=? u64 (c_body_bytes_read c + len)) then
            upd_conn (fun c => c <| c_flags := flag_on (c_flags c) EVHTP_CONN_FLAG_ERROR |>) ;;
            upd_req i (fun r => r <| r_status := EVHTP_RES_DATA_TOO_LONG |>) ;;
            ret (-1)
          else
            match scratch_buf c with
            | None => ret (-1)
            | Some buf =>
                upd_conn (fun c => c <| scratch_buf := Some (buf ++ data) |>) ;;
                v <- htp__hook_body_ app (Some i) ;;
                upd_req i (fun r => r <| r_status := v |>) ;;
                res <- (if v =? EVHTP_RES_PAUSE then ret 0
                        else if negb (v =? EVHTP_RES_OK) then ret (-1)
                        else
                          c <- getw w_conn ;;
                          match default [] (scratch_buf c) with
                          | [] => ret 0
                          | buf => with_req i (fun r =>
                              match buffer_in r with
                              | None => ub (-1)
                              | Some b =>
                                  upd_req i (fun r => r <| buffer_in := Some (b ++ buf) |>) ;;
                                  upd_conn (fun c => c <| scratch_buf := Some [] |>) ;;
                                  ret 0
                              end)
                          end) ;;
                when (res =? 0) (consume sid (length data)) ;;
                upd_conn (fun c => c <| c_body_bytes_read := u64 (c_body_bytes_read c + len) |>) ;;
                ret res
            end)
  end.

Definition h2__client_on_stream_close_cb_ (sid : Z) : M (St W) Z :=
  req <- get_user_data sid ;;
  match req with None => ret 0 | Some _ => set_user_data sid None ;; ret 0 end.
Definition h2__server_on_stream_close_cb_ (sid : Z) : M (St W) Z :=
  req <- get_user_data sid ;;
  match req with
  | None => ret 0
  | Some i => set_user_data sid None ;; h2_request_free false (Some i) ;; ret 0
  end.

(** ** Sending *)

Definition h2__send_cb_ (data : list Z) : M (St W) Z :=
  getbev ;; output_add data ;; ret (Z.of_nat (length data)).

(** The bytes, and whether they are the last. *)
Definition h2__data_read_cb_ (i : nat) (length_ : nat) : M (St W) (list Z * bool) :=
  rs <- getw w_reqs ;;
  match r ← rs !! i; buffer_out r with
  | None => ub ([], false)
  | Some out =>
      let to_copy := Nat.min (length out) length_ in
      upd_req i (fun r => r <| buffer_out := Some (drop to_copy out) |>) ;;
      ret (take to_copy out, bool_decide (drop to_copy out = []))
  end.

(** [None]: NGHTTP2_ERR_DEFERRED. *)
Definition h2__stream_read_cb_ (i : nat) (length_ : nat) : M (St W) (option (list Z * bool)) :=
  rs <- getw w_reqs ;;
  match r ← rs !! i; out ← buffer_out r; Some (r, out) with
  | None => ub None
  | Some (r, out) =>
      let n := Nat.min (length out) length_ in
      let finished := has (r_flags r) EVHTP_REQ_FLAG_FINISHED in
      if (n =? 0)%nat && negb finished then ret None
      else
        upd_req i (fun r => r <| buffer_out := Some (drop n out) |>) ;;
        ret (Some (take n out, finished && bool_decide (drop n out = [])))
  end.

(** status_str has room for three digits. *)
Definition h2__response_nv_ (r : evhtp_request) (code : Z) : M (St W) (option (list nghttp2_nv)) :=
  match headers_out r with
  | None => ub None
  | Some hs =>
      k <- allocs 1 ;;
      if negb (mem k) then ret None
      else
        let status := default [] (fst <$> evhtp_modp_u32toa code) in
        let nva := (bytes ":status", status) ::
                   (nv_of <$> filter (fun kv => skip_h2_response_header kv = false) hs) in
        if (3 <? length status)%nat then ub (Some nva) else ret (Some nva)
  end.

Definition evhtp_h2_send_reply (i : nat) (code : Z) : M (St W) Z :=
  with_conn i (fun r =>
    nva <- h2__response_nv_ r code ;;
    match nva with
    | None => ret (-1)
    | Some nva =>
        let prd := match default [] (buffer_out r) with [] => None | _ => Some (whole_body i) end in
        on_session 0 (nghttp2_submit_response (stream_id r) nva prd) ;;
        set_req_flag i EVHTP_REQ_FLAG_FINISHED ;;
        h2__schedule_flush_ ;;
        ret 0
    end).

Definition h2__stream_resume_ (i : nat) : M (St W) Z :=
  with_conn i (fun r =>
    on_session tt (fun s => (tt, nghttp2_session_resume_data (stream_id r) s)) ;;
    h2__schedule_flush_ ;; ret 0).

Definition evhtp_h2_send_reply_start (i : nat) (code : Z) : M (St W) Z :=
  with_conn i (fun r =>
    nva <- h2__response_nv_ r code ;;
    match nva with
    | None => ret (-1)
    | Some nva =>
        rv <- on_session 0 (nghttp2_submit_response (stream_id r) nva (Some (streamed_body i))) ;;
        if negb (rv =? 0) then ret (-1)
        else set_req_flag i EVHTP_REQ_FLAG_H2_STREAMING ;; h2__schedule_flush_ ;; ret 0
    end).

Definition evhtp_h2_send_reply_body (i : nat) (buf : list Z) : M (St W) Z :=
  with_req i (fun r =>
    if negb (has (r_flags r) EVHTP_REQ_FLAG_H2_STREAMING) || has (r_flags r) EVHTP_REQ_FLAG_FINISHED
    then ret (-1)
    else
      upd_req i (fun r => r <| buffer_out := (fun b => b ++ buf) <$> buffer_out r |>) ;;
      h2__stream_resume_ i ;; ret 0).

Definition evhtp_h2_send_reply_end (i : nat) : M (St W) Z :=
  set_req_flag i EVHTP_REQ_FLAG_FINISHED ;;
  with_req i (fun r =>
    (if has (r_flags r) EVHTP_REQ_FLAG_H2_STREAMING then h2__stream_resume_ i else ret 0) ;; ret 0).

Definition evhtp_h2_reset_stream (i : nat) (error_code : Z) : M (St W) Z :=
  with_conn i (fun r =>
    s <- geth ctx_session ;;
    if bool_decide (s = None \/ stream_id r <= 0) then ret (-1)
    else
      req <- get_user_data (stream_id r) ;;
      if negb (bool_decide (req = Some i)) then ret (-1)
      else
        upd_req i (fun r => r <| r_flags :=
          flag_off (flag_on (r_flags r) EVHTP_REQ_FLAG_FINISHED) EVHTP_REQ_FLAG_H2_STREAMING |>) ;;
        rv <- submit_rst (stream_id r) error_code ;;
        if negb (rv =? 0) then ret (-1) else h2__schedule_flush_ ;; ret 0).

(** ** The session at work *)

(** What nghttp2 calls; [cb_read]: it wants more of the body of a stream. *)
Inductive h2_callback :=
| cb_begin_headers (f : nghttp2_frame)
| cb_header (sid : Z) (name value : list Z)
| cb_frame_recv (f : nghttp2_frame)
| cb_data_chunk_recv (sid : Z) (data : list Z)
| cb_stream_close (sid : Z)
| cb_send (data : list Z)
| cb_read (sid : Z) (length_ : nat).

(** A request that waits in a cache is no longer anybody's: the buffer read would
    be that of another stream as soon as the request is used again.  It counts
    as undefined. *)
Definition recycled (i : nat) (cache : gmap nat (list nat)) : bool :=
  existsb (fun hl : nat * list nat => bool_decide (i ∈ hl.2)) (map_to_list cache).
Definition in_use (i : nat) (k : M (St W) Z) : M (St W) Z :=
  cache <- getw w_cache ;; if recycled i cache then ub 0 else k.

(** The callbacks were chosen by the type of the connection; the number is not 0
    when the callback failed. *)
Definition run_callback (cb : h2_callback) : M (St W) Z :=
  c <- getc ;;
  let server := bool_decide (c_type c = evhtp_type_server) in
  match cb with
  | cb_begin_headers f =>
      if server then h2__server_on_begin_headers_cb_ f else h2__client_on_begin_headers_cb_ f
  | cb_header sid name value =>
      if server then h2__server_on_header_cb_ sid name value
      else h2__client_on_header_cb_ sid name value
  | cb_frame_recv f => h2__on_frame_recv_cb_ f
  | cb_data_chunk_recv sid data => h2__on_data_chunk_recv_cb_ sid data
  | cb_stream_close sid =>
      v <- (if server then h2__server_on_stream_close_cb_ sid else h2__client_on_stream_close_cb_ sid) ;;
      on_session tt (fun s => (tt, nghttp2_stream_closed sid s)) ;; ret v
  | cb_send data => h2__send_cb_ data ;; ret 0
  | cb_read sid n =>
      src <- on_session None (fun s => (data_source_of sid s, s)) ;;
      match src with
      | Some (whole_body i) => in_use i (h2__data_read_cb_ i n ;; ret 0)
      | Some (streamed_body i) => in_use i (h2__stream_read_cb_ i n ;; ret 0)
      | None => ret 0
      end
  end.

(** nghttp2 gives up at the first callback that fails. *)
Fixpoint run_callbacks (cbs : list h2_callback) : M (St W) Z :=
  match cbs with
  | [] => ret 0
  | cb :: cbs =>
      v <- run_callback cb ;;
      if v =? 0 then run_callbacks cbs else ret NGHTTP2_ERR_CALLBACK_FAILURE
  end.
(** nghttp2_session_mem_recv and nghttp2_session_send: the callbacks, and what
    is returned when none of them failed.  They work on the session until they
    return. *)
Definition session_run (cbs : list h2_callback) (result : Z) : M (St W) Z :=
  on_session tt (fun s => (tt, s)) ;;
  v <- run_callbacks cbs ;;
  on_session tt (fun s => (tt, s)) ;;
  ret (if v =? 0 then result else v).

Definition HTP_H2_CLIENT_STREAM_WINDOW : Z := Z.shiftl 1 20.
Definition HTP_H2_CLIENT_CONN_WINDOW : Z := Z.shiftl 16 20.

Definition initial_settings (role : evhtp_type) : list (Z * Z) :=
  match role with
  | evhtp_type_server => [(NGHTTP2_SETTINGS_MAX_CONCURRENT_STREAMS, 128);
                          (NGHTTP2_SETTINGS_INITIAL_WINDOW_SIZE, 65535)]
  | evhtp_type_client => [(NGHTTP2_SETTINGS_ENABLE_PUSH, 0);
                          (NGHTTP2_SETTINGS_INITIAL_WINDOW_SIZE, HTP_H2_CLIENT_STREAM_WINDOW)]
  end.
Definition initial_session (role : evhtp_type) : session :=
  let s := nghttp2_submit_settings (initial_settings role) (nghttp2_session_new role) in
  match role with
  | evhtp_type_server => s
  | evhtp_type_client => nghttp2_session_set_local_window_size HTP_H2_CLIENT_CONN_WINDOW s
  end.
(** [cbs]: what the first nghttp2_session_send calls; its result is not used. *)
Definition evhtp_h2_conn_ctx_new (role : evhtp_type) (cbs : list h2_callback) : M (St W) bool :=
  k <- allocs 2 ;;
  if negb (mem k) then ret false
  else
    getbev ;;
    if negb (mem (k + 1)%nat) then ret false
    else
      updh (fun h => h <| ctx_session := Some (initial_session role) |>) ;;
      session_run cbs 0 ;; ret true.
Definition evhtp_h2_conn_ctx_free : M (St W) unit :=
  updh (fun h => h <| ctx_session := None |> <| flush_active := false |>).

(** ** The connection *)

Definition h2_hook_connection_error_ (errtype : Z) : M (St W) Z :=
  p <- geth h2_pending ;; fail_requests (fun _ => true) errtype p ;; ret EVHTP_RES_OK.

(** The requests still pending; hooks that make no new ones are done with after
    as many turns as there are requests. *)
Fixpoint free_pending (fuel : nat) : M (St W) unit :=
  p <- geth h2_pending ;;
  match fuel, p with
  | S fuel, i :: p =>
      updh (fun h => h <| h2_pending := p |>) ;;
      h2_request_free true (Some i) ;; free_pending fuel
  | _, _ => ret tt
  end.
Definition h2_connection_free : M (St W) unit :=
  htp__hook_connection_fini_ app ;;
  upd_conn (fun c => c <| c_request := None |>) ;;
  p <- geth h2_pending ;;
  free_pending (length p) ;;
  evhtp_h2_conn_ctx_free ;;
  connection_release app.

(** [nread]: what nghttp2_session_mem_recv makes of the input; [err]: what
    nghttp2_session_send returns. *)
Definition htp__h2_connection_readcb_ (recv : list h2_callback) (nread : Z)
    (send : list h2_callback) (err : Z) : M (St W) unit :=
  c <- getc ;;
  if (length (bev_input c) =? 0)%nat then ret tt
  else
    nread <- session_run recv nread ;;
    if nread <? 0 then getc ;; h2_connection_free
    else
      evbuffer_drain (Z.to_nat nread) ;;
      err <- session_run send err ;;
      when (negb (err =? 0)) (getc ;; h2_connection_free).

Definition h2__flush_cb_ (send : list h2_callback) (rv : Z) : M (St W) unit :=
  updh (fun h => h <| flush_active := false |>) ;;
  rv <- session_run send rv ;;
  when (negb (rv =? 0)) (getc ;; h2_connection_free).

(** What htp__connection_writecb_ does on HTTP/2; [last]: the last stream nghttp2
    has processed. *)
Definition h2_connection_writecb_ (recv : list h2_callback) (nread : Z)
    (send : list h2_callback) (err last : Z) : M (St W) unit :=
  c <- getc ;;
  if has (c_flags c) EVHTP_CONN_FLAG_PAUSED then ret tt
  else
    htp__hook_connection_write_ app ;;
    c <- getc ;;
    waited <- (if has (c_flags c) EVHTP_CONN_FLAG_WAITING then
                 upd_conn (fun c => c <| c_flags := flag_off (c_flags c)
                                                      EVHTP_CONN_FLAG_WAITING |>) ;;
                 enable_read ;;
                 ret (negb (length (bev_input c) =? 0)%nat)
               else ret false) ;;
    if waited then htp__h2_connection_readcb_ recv nread send err
    else
      c <- getc ;;
      hs <- getw w_htps ;;
      match c_htp c ≫= (hs !!.) with
      | None => ret tt
      | Some h =>
          if 0 <? max_keepalive_requests h then
            upd_conn (fun c => c <| c_num_requests := u64 (c_num_requests c + 1) |>) ;;
            c <- getc ;;
            when (max_keepalive_requests h <=? c_num_requests c)
              (on_session tt (fun s => (tt, nghttp2_submit_goaway last s)) ;;
               session_run send err ;; ret tt)
          else ret tt
      end.

(** What htp__connection_eventcb_ does on HTTP/2. *)
Definition h2_connection_eventcb_ (events err : Z) : M (St W) unit :=
  conn_hook_run app evhtp_hook_on_event (d_len events) ;;
  c <- getc ;;
  if has events BEV_EVENT_CONNECTED then
    when (bool_decide (c_type c = evhtp_type_client))
      (upd_conn (fun c => c <| c_flags := flag_on (c_flags c) EVHTP_CONN_FLAG_CONNECTED |>)) ;;
    set_bufferevent_cbs
  else
    when (c_ssl c && negb (has events BEV_EVENT_EOF))
      (upd_conn (fun c => c <| c_flags := flag_on (c_flags c) EVHTP_CONN_FLAG_ERROR |>) ;;
       p <- geth h2_pending ;; mark_requests p) ;;
    let at_eof := events =? Z.lor BEV_EVENT_EOF BEV_EVENT_READING in
    if at_eof && (err =? EAGAIN) then enable_read
    else
      when at_eof (ignore (htparser_run_eof (Some (request_psets mem app beyond)))) ;;
      upd_conn (fun c => c <| c_flags := flag_off (flag_on (c_flags c) EVHTP_CONN_FLAG_ERROR)
                                           EVHTP_CONN_FLAG_CONNECTED |>) ;;
      h2_hook_connection_error_ events ;;
      c <- getc ;;
      if has (c_flags c) EVHTP_CONN_FLAG_PAUSED then
        upd_conn (fun c => c <| c_flags := flag_on (c_flags c) EVHTP_CONN_FLAG_FREE_CONN |>)
      else h2_connection_free.

(** ** The client's request *)

(** [peer]: what getpeername gives, as text and port. *)
Definition h2__client_authority (c : evhtp_connection) (peer : option (list Z * Z)) (len : nat) :
    list Z :=
  let name := if c_ssl c then c_sni c else None in
  let '(ip, port) := default ([], 0) (if c_bev c then peer else None) in
  match name, ip with
  | None, [] => []
  | _, _ =>
      let host := match name, memchr ":"%c ip with
                  | Some n, _ => n
                  | None, Some _ => bytes "[" ++ ip ++ bytes "]"
                  | None, None => ip
                  end in
      let buf := take (len - 1) host in
      if negb (port =? 0) && negb (port =? 443) then
        buf ++ take (len - length buf - 1) (bytes ":" ++ decimal port)
      else buf
  end.

Definition request_nv (meth : htp_method) (uri authority : list Z) (hs : evhtp_kvs) :
    list nghttp2_nv :=
  (bytes ":method", bytes (default EmptyString (htparser_get_methodstr_m (htp_method_index meth)))) ::
  (bytes ":path", cstr uri) :: (bytes ":scheme", bytes "https") :: (bytes ":authority", authority) ::
  (nv_of <$> filter (fun kv => skip_hop_by_hop_request_header kv hs = false) hs).

(** [cbs]: what nghttp2_session_send calls at the end. *)
Definition evhtp_h2_make_request (i : nat) (meth : htp_method) (uri : list Z)
    (peer : option (list Z * Z)) (cbs : list h2_callback) : M (St W) Z :=
  c <- getc ;;
  with_req i (fun r =>
    match headers_out r with
    | None => ub (-1)
    | Some hs =>
        k <- allocs 1 ;;
        if negb (mem k) then ub (-1)
        else
          let authority := match evhtp_kv_find_n (Some hs) (Some (bytes "host")) 4 with
                           | Some h => cstr h
                           | None => h2__client_authority c peer 300
                           end in
          let prd := match default [] (buffer_out r) with [] => None | _ => Some (whole_body i) end in
          sid <- on_session (-1) (nghttp2_submit_request2 (request_nv meth uri authority hs) prd i) ;;
          if sid <? 0 then ret (-1)
          else
            upd_req i (fun r => r <| stream_id := sid |>) ;;
            updh (fun h => h <| h2_pending := h2_pending h ++ [i] |>) ;;
            session_run cbs 0 ;; ret 0
    end).
(** evhtp_make_request on an HTTP/2 connection. *)
Definition h2_make_request (i : nat) (meth : htp_method) (uri : list Z)
    (peer : option (list Z * Z)) (cbs : list h2_callback) : M (St W) Z :=
  getbev ;;
  upd_req i (fun r => r <| r_conn := true |> <| r_method := meth |>) ;;
  evhtp_h2_make_request i meth uri peer cbs.

(** ** What happens to a connection *)

(** How the application answers, from wherever it is. *)
Inductive h2_reply :=
| a_reply (code : Z) | a_start (code : Z) | a_body (buf : list Z) | a_end | a_reset (error_code : Z).
Definition run_h2_reply (i : nat) (a : h2_reply) : M (St W) Z :=
  match a with
  | a_reply code => evhtp_h2_send_reply i code
  | a_start code => evhtp_h2_send_reply_start i code
  | a_body buf => evhtp_h2_send_reply_body i buf
  | a_end => evhtp_h2_send_reply_end i
  | a_reset code => evhtp_h2_reset_stream i code
  end.

(** Each with what nghttp2 does about it; [h2_answer]: the application answers a
    request it still has. *)
Inductive h2_event :=
| h2_readable (data : list Z) (recv : list h2_callback) (nread : Z) (send : list h2_callback) (err : Z)
| h2_flushed (send : list h2_callback) (rv : Z)
| h2_written (recv : list h2_callback) (nread : Z) (send : list h2_callback) (err last : Z)
| h2_reported (events err : Z)
| h2_answer (i : nat) (a : h2_reply).
(** The bufferevent and the flush event no longer call the connection once it
    was freed. *)
Definition h2_deliver (e : h2_event) : M (St W) unit :=
  c <- getw w_conn ;;
  if c_freed c then ret tt
  else
    match e with
    | h2_readable data recv nread send err =>
        upd_conn (fun c => c <| bev_input := bev_input c ++ data |>) ;;
        htp__h2_connection_readcb_ recv nread send err
    | h2_flushed send rv =>
        active <- geth flush_active ;; when active (h2__flush_cb_ send rv)
    | h2_written recv nread send err last =>
        upd_conn (fun c => c <| bev_sent := bev_sent c ++ bev_output c |> <| bev_output := [] |>) ;;
        h2_connection_writecb_ recv nread send err last
    | h2_reported events err => h2_connection_eventcb_ events err
    | h2_answer i a =>
        p <- geth h2_pending ;; when (bool_decide (i ∈ p)) (ignore (run_h2_reply i a))
    end.
Fixpoint h2_deliver_all (es : list h2_event) : M (St W) unit :=
  match es with [] => ret tt | e :: es => h2_deliver e ;; h2_deliver_all es end.
End H2.
