(* ===== verification/H2Inv.v ===== *)
(** * evhtp.c: HTTP/2 connections, their invariant

    [good X]: the state of a server's HTTP/2 connection between two calls of
    nghttp2, [X] being the requests that a function has in hand (just made, or
    just taken out of the pending list).  Every request that the user data of a
    stream names is pending or in hand and has that stream's number; a body is
    read from a pending request, for its own stream; pending requests and cached
    ones are apart.  While a stream is closed or the connection taken down, a
    request is freed before the session forgets its body; [Closing] says which
    streams and requests that concerns.  [keeps X L U] adds what a function
    relies on over a call into the application: the requests [L] stay pending,
    those of [U] keep their URI.  A [triple] states what a computation does to
    such properties.  The last sections are about requests that are made, taken
    out and freed; H2Safe.v goes through the callbacks. *)

From S2P Require Import Prelude HtpTypes HtString MsgParser Triples Kvs Query Callbacks Numtoa Uri Request ReqParse ReqFacts Reply ReplyFacts Conn ConnInv H2.
From stdpp Require Import gmap.
#[local] Open Scope Z_scope.
#[local] Open Scope htp_scope.

(** ** nghttp2 *)

(** [s'] knows no request that [s] did not. *)
Definition forgets `{Nghttp2} (s s' : session) : Prop :=
  (forall sid i, nghttp2_session_get_stream_user_data sid s' = Some i ->
                 nghttp2_session_get_stream_user_data sid s = Some i) /\
  (forall sid src, data_source_of sid s' = Some src -> data_source_of sid s = Some src).

(** What nghttp2's documentation says of the calls that evhtp.c makes: the user
    data of a stream is what was last set, if the stream is there; the body of a
    stream is read from what was submitted for it; a stream that was closed
    reads no more. *)
Class Nghttp2Laws `{Nghttp2} : Prop := {
  new_session : forall role sid, nghttp2_session_get_stream_user_data sid (nghttp2_session_new role) = None /\
                                 data_source_of sid (nghttp2_session_new role) = None;
  user_data_set : forall sid i s,
    nghttp2_session_get_stream_user_data sid (nghttp2_session_set_stream_user_data sid i s) = i \/
    nghttp2_session_get_stream_user_data sid (nghttp2_session_set_stream_user_data sid i s) = None;
  user_data_other : forall sid sid' i s, sid' <> sid ->
    nghttp2_session_get_stream_user_data sid' (nghttp2_session_set_stream_user_data sid i s) =
    nghttp2_session_get_stream_user_data sid' s;
  user_data_source : forall sid sid' i s,
    data_source_of sid' (nghttp2_session_set_stream_user_data sid i s) = data_source_of sid' s;
  response_data : forall sid sid' nva prd s,
    nghttp2_session_get_stream_user_data sid' (nghttp2_submit_response sid nva prd s).2 =
    nghttp2_session_get_stream_user_data sid' s;
  response_source : forall sid sid' nva prd s src,
    data_source_of sid' (nghttp2_submit_response sid nva prd s).2 = Some src ->
    (sid' = sid /\ prd = Some src) \/ data_source_of sid' s = Some src;
  settings_forget : forall l s, forgets s (nghttp2_submit_settings l s);
  window_forgets : forall n s, forgets s (nghttp2_session_set_local_window_size n s);
  rst_forgets : forall sid e s, forgets s (nghttp2_submit_rst_stream sid e s).2;
  resume_forgets : forall sid s, forgets s (nghttp2_session_resume_data sid s);
  consume_forgets : forall sid n s, forgets s (nghttp2_session_consume sid n s);
  goaway_forgets : forall sid s, forgets s (nghttp2_submit_goaway sid s);
  closed_forgets : forall sid s, forgets s (nghttp2_stream_closed sid s);
  closed_source : forall sid s, data_source_of sid (nghttp2_stream_closed sid s) = None
}.

Lemma forgets_refl `{Nghttp2} s : forgets s s.
Proof. by split. Qed.
Lemma forgets_trans `{Nghttp2} s1 s2 s3 : forgets s1 s2 -> forgets s2 s3 -> forgets s1 s3.
Proof. intros [] []. split; eauto. Qed.

(** ** The invariant *)

(** While nghttp2 closes a stream, and while a connection is taken down, a
    request is freed that the session may still have as the source of a body:
    [dead], the streams that read nothing more; [doomed], the requests that may
    be freed. *)
Class Closing := { dead : Z -> Prop; doomed : nat -> Prop }.
(** At any other time there are none. *)
#[export] Instance open_streams : Closing := {| dead _ := False; doomed _ := False |}.
Definition closing (sid : Z) (i : nat) : Closing := {| dead := eq sid; doomed := eq i |}.
Definition teardown : Closing := {| dead _ := True; doomed _ := True |}.

Section Invariant.
Context `{rx : RegexLib} `{ng : Nghttp2} {B : Type} {cl : Closing}.
Abbreviation W := (world (h2_state B)).
Implicit Types (w : W) (c : evhtp_connection) (r : evhtp_request).

(** A request with all of its parts; the values of its headers have the length
    that is noted. *)
Record full_request r : Prop := {
  fr_in : is_Some (headers_in r);
  fr_out : is_Some (headers_out r);
  fr_bin : is_Some (buffer_in r);
  fr_bout : is_Some (buffer_out r);
  fr_htp : is_Some (r_htp r);
  fr_kvs : forall l kv, headers_in r = Some l -> kv ∈ l -> exists v, val kv = Some v /\ vlen kv = length v
}.
(** A server's connection in use. *)
Record server_conn c : Prop := {
  sc_live : c_freed c = false;
  sc_bev : c_bev c = true;
  sc_bev_live : bev_freed c = false;
  sc_type : c_type c = evhtp_type_server;
  sc_request : c_request c = None;
  sc_scratch : is_Some (scratch_buf c)
}.

Definition source_req (src : data_source) : nat :=
  match src with whole_body i => i | streamed_body i => i end.
Definition pending w : list nat := h2_pending (w_app w).
Definition linked (s : session) w (X : list nat) : Prop := forall sid i,
  nghttp2_session_get_stream_user_data sid s = Some i ->
  i ∈ X ++ pending w /\ exists r, w_reqs w !! i = Some r /\ stream_id r = sid.
(** A stream that is open reads from a request that is pending, its own. *)
Definition readable (s : session) w : Prop := forall sid src,
  data_source_of sid s = Some src -> exists r, w_reqs w !! source_req src = Some r /\
    (dead sid \/ (source_req src ∈ pending w /\ stream_id r = sid)).

Record good (X : list nat) w : Prop := {
  gd_ub : w_ub w = false;
  gd_conn : server_conn (w_conn w);
  gd_htp : exists h, c_htp (w_conn w) = Some h /\ is_Some (w_htps w !! h);
  gd_hosts : hosts_ok (w_htps w);
  gd_session : exists s, ctx_session (w_app w) = Some s /\ linked s w X /\ readable s w;
  gd_doomed : forall i r, doomed i -> i ∈ pending w -> w_reqs w !! i = Some r -> dead (stream_id r);
  gd_nodup : NoDup (X ++ pending w);
  gd_open : forall i, i ∈ X ++ pending w -> exists r, w_reqs w !! i = Some r /\ r_conn r = true;
  gd_reqs : forall i r, w_reqs w !! i = Some r -> full_request r /\ (i < w_allocs w)%nat;
  gd_cache : forall h l, w_cache w !! h = Some l -> NoDup l /\
    (forall i, i ∈ l -> is_Some (w_reqs w !! i) /\ (i ∉ X ++ pending w)) /\
    (forall h' l' i, h' <> h -> w_cache w !! h' = Some l' -> i ∈ l -> i ∉ l')
}.
Record keeps (X L U : list nat) w : Prop := {
  kp_good : good X w;
  kp_pending : forall i, i ∈ L -> i ∈ pending w;
  kp_uri : forall i, i ∈ U -> exists r, w_reqs w !! i = Some r /\ is_Some (r_uri r)
}.
Abbreviation triple_ := (triple (W := W)).

Lemma keeps_start w : good [] w -> keeps [] [] [] w.
Proof. intros Hw. split; [done|by inversion 1..]. Qed.
Lemma keeps_sub X L L' U U' w :
  (forall i, i ∈ L' -> i ∈ L) -> (forall i, i ∈ U' -> i ∈ U) -> keeps X L U w -> keeps X L' U' w.
Proof. intros HL HU []. split; auto. Qed.
Lemma keeps_request X L U i w :
  keeps X L U w -> i ∈ X ++ L -> exists r, w_reqs w !! i = Some r /\ r_conn r = true /\ full_request r.
Proof.
  intros [Hg Hp _] Hi. destruct (gd_open _ _ Hg i) as (r & Hr & Hc).
  - apply elem_of_app in Hi as [Hi|Hi]; apply elem_of_app; auto.
  - exists r. split_and!; [done..|]. by eapply (gd_reqs _ _ Hg).
Qed.

(** *** Updates that keep it *)

(** [same_req f]: the update of a request. *)
Record same_req (f : evhtp_request -> evhtp_request) : Prop := {
  sr_conn : forall r, r_conn (f r) = r_conn r;
  sr_stream : forall r, stream_id (f r) = stream_id r;
  sr_uri : forall r, is_Some (r_uri r) -> is_Some (r_uri (f r));
  sr_full : forall r, full_request r -> full_request (f r)
}.
(** The invariant, for requests that changed only so. *)
Lemma good_requests X w w' :
  good X w ->
  w_ub w' = w_ub w -> w_conn w' = w_conn w -> w_cache w' = w_cache w -> w_htps w' = w_htps w ->
  w_app w' = w_app w -> w_allocs w' = w_allocs w ->
  (forall i r', w_reqs w' !! i = Some r' -> exists r, w_reqs w !! i = Some r /\
     (full_request r -> full_request r')) ->
  (forall i r, w_reqs w !! i = Some r -> exists r', w_reqs w' !! i = Some r' /\
     r_conn r' = r_conn r /\ stream_id r' = stream_id r) ->
  good X w'.
Proof.
  intros [] E1 E2 E3 E4 E5 E6 Hback Hto. assert (pending w' = pending w) as Ep by (unfold pending; by rewrite E5).
  unfold linked, readable in *.
  split; unfold linked, readable; rewrite ?E1, ?E2, ?E3, ?E4, ?Ep, ?E5, ?E6; try done.
  - destruct gd_session0 as (s & Hs & Hl & Hr). exists s. split_and!; [done|..].
    + intros sid i Hi. destruct (Hl sid i Hi) as (Hin & r & Hri & Hsid). split; [done|].
      destruct (Hto i r Hri) as (r' & Hr' & _ & Hid). exists r'. by rewrite Hid.
    + intros sid src Hsrc. destruct (Hr sid src Hsrc) as (r & Hri & Hd).
      destruct (Hto _ r Hri) as (r' & -> & _ & Hid). exists r'. by rewrite Hid.
  - intros i r' Hi Hp Hr'. destruct (Hback i r' Hr') as (r & Hr & _).
    destruct (Hto i r Hr) as (r2 & Hr2 & _ & Hid). assert (r2 = r') as -> by congruence. rewrite Hid. eauto.
  - intros i Hi. destruct (gd_open0 i Hi) as (r & Hr & Hc). destruct (Hto i r Hr) as (r' & Hr' & Hc' & _).
    exists r'. by rewrite Hc'.
  - intros i r' Hr'. destruct (Hback i r' Hr') as (r & Hr & Hf). destruct (gd_reqs0 i r Hr). auto.
  - intros h l Hh. destruct (gd_cache0 h l Hh) as (Hn & Hin & Hd). split_and!; [done| |done].
    intros i Hi. destruct (Hin i Hi) as ((r & Hr) & Hni). split; [|done].
    destruct (Hto i r Hr) as (r' & -> & _). done.
Qed.

Lemma safe_upd_same X L U i f : same_req f -> safe (keeps X L U) (upd_req (A := h2_state B) i f).
Proof.
  intros [] [p w] [Hg Hp Hu]. cbn in *. split.
  - eapply good_requests; [exact Hg|done..|cbn|cbn].
    + intros j r' Hr'. apply lookup_alter_Some in Hr' as [(-> & r & Hr & ->)|(Hne & Hr)]; eauto.
    + intros j r Hr. destruct (decide (i = j)) as [->|Hne].
      * exists (f r). rewrite lookup_alter, decide_True, Hr by done. auto.
      * exists r. by rewrite lookup_alter_ne.
  - done.
  - cbn. intros j Hj. destruct (Hu j Hj) as (r & Hr & Hs). destruct (decide (i = j)) as [->|Hne].
    + exists (f r). rewrite lookup_alter, decide_True, Hr by done. auto.
    + exists r. by rewrite lookup_alter_ne.
Qed.

(** [same_conn f]: an update of a connection that stays with its host. *)
Definition same_conn (f : evhtp_connection -> evhtp_connection) : Prop :=
  forall c, c_htp (f c) = c_htp c /\ (server_conn c -> server_conn (f c)).
(** The invariant, where only the connection changed, or the allocations. *)
Lemma good_conn X c w :
  good X w -> server_conn c -> (exists h, c_htp c = Some h /\ is_Some (w_htps w !! h)) ->
  good X (w <| w_conn := c |>).
Proof. intros [] Hc Hh. by split. Qed.
Lemma keeps_weaken X L U w w' :
  keeps X L U w -> good X w' -> pending w' = pending w -> w_reqs w' = w_reqs w -> keeps X L U w'.
Proof. intros [] Hg Ep Er. split; [done|..]; by rewrite ?Ep, ?Er. Qed.

Lemma safe_upd_conn_same X L U f : same_conn f -> safe (keeps X L U) (upd_conn (A := h2_state B) f).
Proof.
  intros Hf [p w] Hw. cbn in *. destruct (Hf (w_conn w)) as (Eh & Hc). eapply keeps_weaken; [exact Hw| |done..].
  destruct Hw as [Hg _ _]. pose proof (gd_htp _ _ Hg) as (h & Hh & Hs).
  apply good_conn; [done|by apply Hc, Hg|]. exists h. by rewrite Eh.
Qed.
Lemma safe_alloc X L U n : safe (keeps X L U) (allocs (A := h2_state B) n).
Proof.
  intros [p w] Hw. cbn in *. eapply keeps_weaken; [exact Hw| |done..]. destruct Hw as [[] _ _].
  split; try done. intros i r Hr. destruct (gd_reqs0 i r Hr). cbn. split; [done|lia].
Qed.

(** The session, where it learns of no request. *)
Lemma good_session X s' w :
  good X w -> linked s' w X -> readable s' w ->
  good X (w <| w_app := (w_app w) <| ctx_session := Some s' |> |>).
Proof. intros [] Hl Hr. split; try done. by exists s'. Qed.
Lemma good_flush X b w : good X w -> good X (w <| w_app := (w_app w) <| flush_active := b |> |>).
Proof. intros []. by split. Qed.
Lemma forgets_linked s s' X w : forgets s s' -> linked s w X -> linked s' w X.
Proof. intros [Hf _] Hl sid i Hi. by apply Hl, Hf. Qed.
Lemma forgets_readable s s' w : forgets s s' -> readable s w -> readable s' w.
Proof. intros [_ Hf] Hr sid src Hi. by eapply Hr, Hf. Qed.

Lemma t_session {C} X L U (d : C) f Q :
  (forall w s, keeps X L U w -> ctx_session (w_app w) = Some s -> linked s w X -> readable s w ->
     Q (f s).1 (w <| w_app := (w_app w) <| ctx_session := Some (f s).2 |> |>)) ->
  triple_ (keeps X L U) (on_session d f) Q.
Proof.
  intros HQ [p w] Hw. cbn in Hw. pose proof (gd_session _ _ (kp_good _ _ _ _ Hw)) as (s & Hs & Hl & Hr).
  specialize (HQ w s Hw Hs Hl Hr). unfold on_session, geth. rewrite run_getw. cbn [snd]. rewrite Hs.
  destruct (f s) as [c s']. exact HQ.
Qed.
Lemma safe_session {C} X L U (d : C) f :
  (forall s, forgets s (f s).2) -> safe (keeps X L U) (on_session d f).
Proof.
  intros Hf. apply t_to_safe, t_session. intros w s Hw Hs Hl Hr. eapply keeps_weaken; [exact Hw| |done..].
  apply good_session; [apply Hw|by eapply forgets_linked|by eapply forgets_readable].
Qed.
Lemma t_user_data X L U sid :
  triple_ (keeps X L U) (get_user_data sid) (fun req w => keeps X L U w /\
    match req with
    | Some i => i ∈ X ++ pending w /\ exists r, w_reqs w !! i = Some r /\ stream_id r = sid
    | None => True
    end).
Proof.
  apply t_session. cbn. intros w s Hw Hs Hl Hr. split.
  - eapply keeps_weaken; [exact Hw| |done..]. by apply good_session; [apply Hw|..].
  - destruct (nghttp2_session_get_stream_user_data sid s) as [i|] eqn:E; [|done]. exact (Hl sid i E).
Qed.

(** *** Rules *)

(** Reading without needing to know what. *)
Lemma safe_getw_ (P : W -> Prop) {D} (f : W -> D) : safe P (getw f).
Proof. by intros [p w]. Qed.
Lemma t_with_req X L U i k Q :
  i ∈ X ++ L -> (forall r, full_request r -> r_conn r = true -> triple_ (keeps X L U) (k r) Q) ->
  triple_ (keeps X L U) (with_req i k) Q.
Proof.
  intros Hi Hk. apply t_read. intros w Hw.
  destruct (keeps_request _ _ _ _ _ Hw Hi) as (r & -> & Hc & Hf). by apply Hk.
Qed.
Lemma t_with_conn X L U i k Q :
  i ∈ X ++ L -> (forall r, full_request r -> triple_ (keeps X L U) (k r) Q) ->
  triple_ (keeps X L U) (with_conn i k) Q.
Proof. intros Hi Hk. apply t_with_req; [done|]. intros r Hf ->. by apply Hk. Qed.
(** The request has its URI. *)
Lemma t_with_uri X L U i k Q :
  i ∈ X ++ L -> i ∈ U ->
  (forall r u, full_request r -> triple_ (keeps X L U) (k r u) Q) ->
  triple_ (keeps X L U) (with_req i (fun r => with_uri r (k r))) Q.
Proof.
  intros Hi HU Hk. apply t_read. intros w Hw.
  destruct (keeps_request _ _ _ _ _ Hw Hi) as (r & Hr & Hc & Hf). rewrite Hr.
  destruct Hw as [_ _ Hu]. destruct (Hu i HU) as (r' & Hr' & [u Eu]).
  assert (r' = r) as -> by congruence. unfold with_uri. rewrite Eu. by apply Hk.
Qed.
Lemma safe_getc_ X L U : safe (keeps X L U) (getc (A := h2_state B)).
Proof.
  apply t_to_safe, t_read. intros w Hw. rewrite (sc_live _ (gd_conn _ _ (kp_good _ _ _ _ Hw))). by apply t_ret.
Qed.
Lemma t_getc {C} X L U (k : evhtp_connection -> M (St W) C) Q :
  (forall c, server_conn c -> triple_ (keeps X L U) (k c) Q) -> triple_ (keeps X L U) (c <- getc ;; k c) Q.
Proof.
  intros Hk [p w] Hw. pose proof (gd_conn _ _ (kp_good _ _ _ _ Hw)) as Hc.
  unfold getc. rewrite run_assoc, run_getw. cbn [snd]. cbn [snd] in Hc. rewrite (sc_live _ Hc), run_ret. by apply (Hk _ Hc).
Qed.
Lemma safe_getbev_ X L U : safe (keeps X L U) (getbev (A := h2_state B)).
Proof. apply t_to_safe, t_getc. intros c Hc. rewrite (sc_bev _ Hc). by apply t_ret. Qed.
Lemma safe_upd_bev_same X L U f : same_conn f -> safe (keeps X L U) (upd_bev (A := h2_state B) f).
Proof.
  intros Hf. apply t_to_safe, t_read. intros w Hw. rewrite (sc_bev_live _ (gd_conn _ _ (kp_good _ _ _ _ Hw))).
  by apply t_safe, safe_upd_conn_same.
Qed.
Lemma safe_flush X L U : safe (keeps X L U) (h2__schedule_flush_ (B := B)).
Proof. intros [p w] Hw. eapply keeps_weaken; [exact Hw| |done..]. apply good_flush, Hw. Qed.

(** *** Requests that come and go *)

Lemma good_taken i w :
  good [] w -> i ∈ pending w -> (forall r, w_reqs w !! i = Some r -> dead (stream_id r)) ->
  good [i] (w <| w_app := (w_app w) <| h2_pending := filter (fun j => j <> i) (pending w) |> |>).
Proof.
  intros [] Hi Hdead. set (w' := w <| w_app := _ |>).
  assert (forall j, j ∈ [i] ++ pending w' <-> j ∈ [] ++ pending w) as Hiff.
  { intros j. rewrite elem_of_app, list_elem_of_singleton. unfold pending at 1. cbn.
    rewrite list_elem_of_filter. destruct (decide (j = i)) as [->|]; naive_solver. }
  assert (forall j, j ∈ pending w' <-> j <> i /\ j ∈ pending w) as Hiff'.
  { intros j. unfold pending at 1. cbn. by rewrite list_elem_of_filter. }
  split; try done.
  - destruct gd_session0 as (s & Hs & Hl & Hr). exists s. split_and!; [done|..].
    + intros sid j Hj. rewrite Hiff. by apply Hl.
    + intros sid src Hsrc. destruct (Hr sid src Hsrc) as (r & Hri & [Hd|(Hp & Hid)]); [by eauto|].
      exists r. split; [done|]. destruct (decide (source_req src = i)) as [E|Hne].
      * left. subst. by apply Hdead.
      * right. by rewrite Hiff'.
  - intros j r Hj Hp. apply gd_doomed0; [done|]. by apply Hiff'.
  - cbn. unfold pending. cbn. apply NoDup_cons. split; [rewrite list_elem_of_filter; naive_solver|by apply NoDup_filter].
  - intros j. rewrite Hiff. apply gd_open0.
  - intros h l Hh. destruct (gd_cache0 h l Hh) as (Hn & Hin & Hd). split_and!; [done| |done].
    intros j Hj. rewrite Hiff. by apply Hin.
Qed.
(** Back into the pending list. *)
Lemma good_put i w :
  good [i] w -> ~ doomed i ->
  good [] (w <| w_app := (w_app w) <| h2_pending := pending w ++ [i] |> |>).
Proof.
  intros [] Hnd. set (w' := w <| w_app := _ |>).
  assert (pending w' = pending w ++ [i]) as Ep by done.
  assert (forall j, j ∈ [] ++ pending w' <-> j ∈ [i] ++ pending w) as Hiff.
  { intros j. cbn [app]. rewrite Ep, elem_of_app, list_elem_of_singleton, elem_of_cons. tauto. }
  split; try done.
  - destruct gd_session0 as (s & Hs & Hl & Hr). exists s. split_and!; [done|..].
    + intros sid j Hj. rewrite Hiff. by apply Hl.
    + intros sid src Hsrc. destruct (Hr sid src Hsrc) as (r & Hri & Hd). exists r. split; [done|].
      rewrite Ep, elem_of_app. tauto.
  - intros j r Hj. rewrite Ep, elem_of_app, list_elem_of_singleton. intros [Hp| ->]; [by apply gd_doomed0|done].
  - cbn [app]. rewrite Ep. by rewrite (Permutation_app_comm (pending w)).
  - intros j. rewrite Hiff. apply gd_open0.
  - intros h l Hh. destruct (gd_cache0 h l Hh) as (Hn & Hin & Hd). split_and!; [done| |done].
    intros j Hj. rewrite Hiff. by apply Hin.
Qed.

Lemma full_clear r : full_request r -> full_request (clear_request r).
Proof.
  intros [Hi Ho [b Eb] [b' Eb'] Hh _].
  assert (headers_in (clear_request r) = Some []) as Ei by by apply kvs_clear_fst.
  assert (headers_out (clear_request r) = Some []) as Eo by by apply kvs_clear_fst.
  split; rewrite ?Ei, ?Eo; try done.
  - change (is_Some ((fun _ => @nil Z) <$> buffer_in r)). by rewrite Eb.
  - change (is_Some ((fun _ => @nil Z) <$> buffer_out r)). by rewrite Eb'.
  - intros ? kv [= <-]. by inversion 1.
Qed.

(** The request in hand goes to the cache, and no stream knows it any more. *)
Definition released (i : nat) (h : nat) (sid : Z) (s : session) w : W :=
  w <| w_app := (w_app w) <| ctx_session := Some (nghttp2_session_set_stream_user_data sid None s) |> |>
    <| w_reqs := alter clear_request i (w_reqs w) |>
    <| w_cache := <[h := i :: default [] (w_cache w !! h)]> (w_cache w) |>.

Context {laws : Nghttp2Laws}.

Lemma no_user_data sid s i :
  nghttp2_session_get_stream_user_data sid (nghttp2_session_set_stream_user_data sid None s) <> Some i.
Proof. destruct (user_data_set sid None s) as [-> | ->]; done. Qed.

Lemma released_linked i h r s w :
  good [i] w -> w_reqs w !! i = Some r -> linked s w [i] ->
  linked (nghttp2_session_set_stream_user_data (stream_id r) None s) (released i h (stream_id r) s w) [].
Proof.
  intros Hg Hr Hl sid j Hj. destruct (decide (sid = stream_id r)) as [->|Hne]; [by apply no_user_data in Hj|].
  rewrite user_data_other in Hj by done. destruct (Hl sid j Hj) as (Hin & r' & Hr' & Hid).
  apply elem_of_app in Hin as [Hin|Hin].
  - apply list_elem_of_singleton in Hin as ->. congruence.
  - pose proof (gd_nodup _ _ Hg) as Hn. apply NoDup_cons in Hn as [Hni _]. split; [done|].
    exists r'. cbn. rewrite lookup_alter_ne; [done|]. by intros ->.
Qed.
Lemma released_cache i h r s w :
  good [i] w -> w_reqs w !! i = Some r -> forall h' l, w_cache (released i h (stream_id r) s w) !! h' = Some l ->
  NoDup l /\ (forall j, j ∈ l -> is_Some (w_reqs w !! j) /\ j ∉ pending w) /\
  (forall h'' l' j, h'' <> h' -> w_cache (released i h (stream_id r) s w) !! h'' = Some l' -> j ∈ l -> j ∉ l').
Proof.
  intros [] Hr. cbn. apply NoDup_cons in gd_nodup0 as [Hni _].
  assert (forall h' l j, w_cache w !! h' = Some l -> j ∈ l -> j <> i /\ is_Some (w_reqs w !! j) /\ j ∉ pending w) as Hold.
  { intros h' l j Hh Hj. destruct (gd_cache0 h' l Hh) as (_ & Hin & _). destruct (Hin j Hj) as (Hs & Hno).
    rewrite not_elem_of_app, list_elem_of_singleton in Hno. naive_solver. }
  assert (forall j, j ∈ i :: default [] (w_cache w !! h) -> j = i \/ exists l, w_cache w !! h = Some l /\ j ∈ l) as Hin_h.
  { intros j. destruct (w_cache w !! h) as [l|]; cbn; [rewrite elem_of_cons|rewrite list_elem_of_singleton]; naive_solver. }
  intros h' l Hl. destruct (decide (h' = h)) as [->|Hne].
  - rewrite lookup_insert_eq in Hl. injection Hl as <-. split_and!.
    + apply NoDup_cons. destruct (w_cache w !! h) as [l|] eqn:E; cbn; [|split; [by inversion 1|constructor]].
      destruct (gd_cache0 h l E) as (Hn & _). split; [|done]. intros Hin. by destruct (Hold h l i E Hin).
    + intros j Hj. destruct (Hin_h j Hj) as [->|(l & Hh & Hj')]; [by rewrite Hr|]. by destruct (Hold h l j Hh Hj').
    + intros h'' l' j Hne Hl' Hj. rewrite lookup_insert_ne in Hl' by done.
      destruct (Hin_h j Hj) as [->|(l & Hh & Hj')]; [intros Hin; by destruct (Hold _ _ _ Hl' Hin)|].
      destruct (gd_cache0 h l Hh) as (_ & _ & Hd). by eapply Hd.
  - rewrite lookup_insert_ne in Hl by done. destruct (gd_cache0 h' l Hl) as (Hn & Hin & Hd). split_and!; [done|..].
    + intros j Hj. by destruct (Hold h' l j Hl Hj).
    + intros h'' l' j Hne' Hl' Hj. destruct (decide (h'' = h)) as [->|Hne''].
      * rewrite lookup_insert_eq in Hl'. injection Hl' as <-. intros Hj'.
        destruct (Hin_h j Hj') as [->|(l' & Hh & Hj'')]; [by destruct (Hold h' l i Hl Hj)|]. by eapply Hd.
      * rewrite lookup_insert_ne in Hl' by done. by eapply Hd.
Qed.
Lemma good_released i h r s w :
  good [i] w -> w_reqs w !! i = Some r -> ctx_session (w_app w) = Some s -> linked s w [i] -> readable s w ->
  good [] (released i h (stream_id r) s w).
Proof.
  intros Hg Hr Hs Hl Hsrc. pose proof (released_linked i h r s w Hg Hr Hl) as Hlinked.
  pose proof (released_cache i h r s w Hg Hr) as Hcache. pose proof Hg as [].
  assert (forall j, is_Some (w_reqs (released i h (stream_id r) s w) !! j) <-> is_Some (w_reqs w !! j)) as Hdom.
  { intros j. cbn. apply lookup_alter_is_Some. }
  apply NoDup_cons in gd_nodup0 as [Hni Hn].
  split; try done.
  - eexists. split_and!; [reflexivity|done|]. intros sid src. rewrite user_data_source. intros Hd.
    destruct (Hsrc sid src Hd) as (r' & Hr' & Hw). destruct (decide (source_req src = i)) as [E|Hne].
    + rewrite E in *. destruct (proj2 (Hdom i) ltac:(by eexists)) as (r2 & Hr2). exists r2. split; [done|].
      destruct Hw as [Hw|[Hp _]]; [by left|done].
    + exists r'. cbn. by rewrite lookup_alter_ne by done.
  - intros j r' Hj Hp. cbn in Hp |- *. rewrite lookup_alter_ne by (by intros ->). by apply gd_doomed0.
  - intros j Hj. cbn in Hj. destruct (gd_open0 j) as (r' & Hr' & Hc); [apply elem_of_app; by right|].
    exists r'. cbn. rewrite lookup_alter_ne; [done|]. intros ->. by apply Hni.
  - intros j r' Hr'. cbn in Hr'. apply lookup_alter_Some in Hr' as [(<- & r0 & Hr0 & ->)|(Hne & Hr')].
    + destruct (gd_reqs0 i r0 Hr0). split; [by apply full_clear|done].
    + by apply gd_reqs0.
  - intros h' l Hh. destruct (Hcache h' l Hh) as (? & Hin & ?). split_and!; try done.
    intros j Hj. rewrite Hdom. by apply Hin.
Qed.
End Invariant.

(** Between the ways of looking at a state. *)
Section Ways.
Context `{rx : RegexLib} `{ng : Nghttp2} {laws : Nghttp2Laws} {B : Type}.
Implicit Types (w : world (h2_state B)).

Lemma good_closing X sid i r w :
  good X w -> w_reqs w !! i = Some r -> stream_id r = sid -> good (cl := closing sid i) X w.
Proof.
  intros [] Hr Hid. split; try done.
  - destruct gd_session0 as (s & Hs & Hl & Hrd). exists s. split_and!; [done..|].
    intros sid' src Hsrc. destruct (Hrd sid' src Hsrc) as (r' & Hr' & [[]|Hp]). exists r'. auto.
  - intros j r' <- _ Hr'. cbn. congruence.
Qed.
Lemma good_teardown X w : good X w -> good (cl := teardown) X w.
Proof.
  intros []. split; try done. destruct gd_session0 as (s & Hs & Hl & Hrd). exists s. split_and!; [done..|].
  intros sid' src Hsrc. destruct (Hrd sid' src Hsrc) as (r' & Hr' & _). exists r'. split; [done|by left].
Qed.
(** Once nghttp2 has closed the stream, all is as before. *)
Lemma good_closed X sid i s w :
  good (cl := closing sid i) X w -> ctx_session (w_app w) = Some s ->
  good X (w <| w_app := (w_app w) <| ctx_session := Some (nghttp2_stream_closed sid s) |> |>).
Proof.
  intros [] Hs. split; try done. destruct gd_session0 as (s' & Hs' & Hl & Hrd).
  assert (s' = s) as -> by congruence. destruct (closed_forgets sid s) as [Hf1 Hf2].
  eexists. split_and!; [done| |].
  - intros sid' j Hj. by apply Hl, Hf1.
  - intros sid' src Hsrc. destruct (Hrd sid' src (Hf2 _ _ Hsrc)) as (r & Hr & Hw). exists r. split; [done|].
    right. destruct Hw as [E|Hw]; [|done]. cbn in E. subst. by rewrite closed_source in Hsrc.
Qed.
End Ways.

(** ** The application *)

(** Its hooks may answer, change requests, and use the connection, but free
    nothing that is still in use; only the callback of a request, which is the
    last that the library does with it, may free the request, and then no body
    may be left that nghttp2 would read from it.  Hooks also run while a stream
    is closed and while a connection is taken down: [held], the request is
    pending, or it was taken out by the latter. *)
Definition held {cl : Closing} (X L : list nat) (i : nat) : Prop :=
  i ∈ L \/ (i ∈ X /\ forall sid, dead sid).
Lemma held_in {cl : Closing} X L i : held X L i -> i ∈ X ++ L.
Proof. rewrite elem_of_app. intros [|[]]; auto. Qed.

Record app_good `{rx : RegexLib} `{ng : Nghttp2} {B} (app : App (h2_state B)) : Prop := {
  ag_hook : forall (cl : Closing) t i f arg d X L U, held X L i ->
    safe (keeps (cl := cl) X L U) (app_hook app t i f arg d);
  ag_cb : forall i f arg, triple (keeps [] [i] []) (app_cb app i f arg) (fun _ => good []);
  ag_conn : forall t f arg d L, safe (keeps [] L []) (app_conn app t f arg d)
}.

Section Operations.
Context `{lib : HtStringLib} `{rx : RegexLib} `{ng : Nghttp2} {laws : Nghttp2Laws} {B : Type} {cl : Closing}.
Context (mem : nat -> bool) (app : App (h2_state B)) (beyond : list Z -> list Z).
Context (Hmem : forall k, mem k = true) (Happ : app_good app).
Abbreviation W := (world (h2_state B)).
Implicit Types (w : W) (c : evhtp_connection) (r : evhtp_request).
Abbreviation triple_ := (triple (W := W)).

Ltac same_req_tac := split; [by intros []..|]; intros [] []; split; done.
Ltac same_conn_tac := intros []; split; [done|]; intros []; by split.

Lemma safe_set_flag X L U i f : safe (keeps X L U) (set_req_flag (B := B) i f).
Proof. apply safe_upd_same. same_req_tac. Qed.

(** *** The calls into the application *)

Lemma safe_request_hook X L U i t d : held X L i -> safe (keeps X L U) (hook_request_run app i t d).
Proof.
  intros Hi. apply t_to_safe, t_with_req; [by apply held_in|]. intros r Hf Hc. apply t_read. intros w _. rewrite Hc.
  repeat case_match; try by apply t_ret.
  all: apply t_after; [by apply Happ|intros v; by apply t_ret].
Qed.
Lemma safe_error_hook X L U i e : held X L i -> safe (keeps X L U) (htp__hook_error_ app (Some i) e).
Proof.
  intros Hi. apply t_to_safe, t_after; [|intros v; by apply t_ret]. apply t_to_safe, t_with_req; [by apply held_in|].
  intros r Hf Hc. case_match; [|by apply t_ret]. destruct p as [f arg]. by apply t_safe, Happ.
Qed.

(** *** Freeing and making requests *)

(** What htp__request_free_ does to a request it has taken out of the list. *)
Definition let_go (i : nat) r : M (St W) Z :=
  set_user_data (stream_id r) None ;; recycle_request i r.
Lemma let_go_good i r p w :
  good [i] w -> w_reqs w !! i = Some r -> good [] (let_go i r (p, w)).2.2.
Proof.
  intros Hg Hr. destruct (gd_session _ _ Hg) as (s & Hs & Hl & Hsrc).
  destruct (gd_reqs _ _ Hg i r Hr) as ([_ _ _ _ [h Hh] _] & _).
  pose proof (good_released i h r s w Hg Hr Hs Hl Hsrc) as Hgood.
  unfold let_go, set_user_data, on_session, geth, recycle_request, htp__request_clear_.
  rewrite run_assoc, run_getw. cbn [snd]. rewrite Hs, run_assoc.
  unfold updh. rewrite run_updw, run_ret, Hh. unfold upd_req. rewrite run_updw, run_updw. exact Hgood.
Qed.

Lemma clear_current_eq {C} p w (k : unit -> M (St W) C) :
  c_request (w_conn w) = None ->
  bind (upd_conn (fun c => c <| c_request := None |>)) k (p, w) = k tt (p, w).
Proof.
  intros Hc. rewrite run_upd_conn. cbn [fst snd]. destruct w as [[] ? ? ? ? ? ?]. cbn in *. by subst.
Qed.

(** A request is freed when its stream reads nothing more. *)
Lemma request_free_good i :
  doomed i -> triple_ (keeps [] [i] []) (h2_request_free app false (Some i)) (fun _ => good []).
Proof.
  intros Hdoomed. apply t_after; [apply safe_request_hook; left; by left|]. intros _.
  intros [p w] Hw. cbn in Hw. destruct (keeps_request _ _ _ i _ Hw ltac:(by left)) as (r & Hr & Hc & _).
  rewrite (with_req_eq _ _ _ r) by done. rewrite Hc, run_assoc. unfold geth. rewrite run_getw. cbn [snd].
  destruct Hw as [Hg Hp _]. pose proof (Hp i ltac:(by left)) as Hin.
  change (h2_pending (w_app w)) with (pending w). rewrite run_assoc, bool_decide_true by done.
  unfold updh. rewrite run_updw. cbn [fst snd]. rewrite run_assoc, clear_current_eq by apply Hg.
  apply (let_go_good i r); [|done]. apply good_taken; [done..|]. intros r'. by eapply gd_doomed.
Qed.
Lemma request_taken_free_good i :
  (forall sid, dead sid) ->
  triple_ (keeps [i] [] []) (h2_request_free app true (Some i)) (fun _ => good []).
Proof.
  intros Hdead. apply t_after; [apply safe_request_hook; right; split; [by left|done]|]. intros _.
  intros [p w] Hw. cbn in Hw. destruct (keeps_request _ _ _ i _ Hw ltac:(by left)) as (r & Hr & Hc & _).
  rewrite (with_req_eq _ _ _ r) by done. rewrite Hc, run_assoc. unfold geth. rewrite run_getw. cbn [snd].
  destruct Hw as [Hg _ _]. rewrite run_assoc, run_ret, run_assoc, clear_current_eq by apply Hg.
  by apply (let_go_good i r).
Qed.

End Operations.

(** At any other time than when a stream or the connection is closed. *)
Section Open.
Context `{lib : HtStringLib} `{rx : RegexLib} `{ng : Nghttp2} {laws : Nghttp2Laws} {B : Type}.
Context (mem : nat -> bool) (app : App (h2_state B)).
Context (Hmem : forall k, mem k = true) (Happ : app_good app).
Abbreviation W := (world (h2_state B)).
Implicit Types (w : W) (c : evhtp_connection) (r : evhtp_request).
Abbreviation triple_ := (triple (W := W)).

Lemma safe_connection_hook L t d : safe (keeps [] L []) (conn_hook_run app t d).
Proof.
  apply t_to_safe, t_getc. intros c Hc. case_match; [|by apply t_ret]. destruct p as [f arg].
  apply t_after; [by apply Happ|intros v; by apply t_ret].
Qed.
Lemma run_request_cb_good i : triple_ (keeps [] [i] []) (run_request_cb app i) (fun _ => good []).
Proof.
  apply t_with_req; [by left|]. intros r Hf Hc. case_match; [apply t_ret; by intros w []|].
  eapply t_bind; [apply Happ|]. intros u. by apply t_ret.
Qed.

(** No stream has [i] for its user data. *)
Definition unlinked (i : nat) w : Prop := forall s sid,
  ctx_session (w_app w) = Some s -> nghttp2_session_get_stream_user_data sid s <> Some i.

(** The state with one request more in use. *)
Definition in_hand (i : nat) r (cache : gmap nat (list nat)) (n : nat) w : W :=
  w <| w_allocs := n |> <| w_reqs := <[i := r]> (w_reqs w) |> <| w_cache := cache |>.
Lemma good_in_hand i r cache n w :
  good [] w -> full_request r -> r_conn r = true -> i ∉ pending w -> (i < n)%nat -> (w_allocs w <= n)%nat ->
  (forall h l', cache !! h = Some l' -> exists l, w_cache w !! h = Some l /\ NoDup l' /\
     (i ∉ l') /\ forall j, j ∈ l' -> j ∈ l) ->
  good [i] (in_hand i r cache n w) /\ unlinked i (in_hand i r cache n w).
Proof.
  intros [] Hf Hc Hni Hin Hn Hcache. cbn [Datatypes.app] in *.
  assert (forall j, j <> i -> w_reqs (in_hand i r cache n w) !! j = w_reqs w !! j) as Hother.
  { intros j Hj. cbn. by rewrite lookup_insert_ne. }
  assert (w_reqs (in_hand i r cache n w) !! i = Some r) as Hi by apply lookup_insert_eq.
  assert (forall j, is_Some (w_reqs w !! j) -> is_Some (w_reqs (in_hand i r cache n w) !! j)) as Hdom.
  { intros j. destruct (decide (j = i)) as [->|Hj]; [by rewrite Hi|by rewrite Hother]. }
  destruct gd_session0 as (s & Hs & Hl & Hsrc). split.
  - split; try done.
    + exists s. split_and!; [done| |].
      2:{ intros sid src Hd. destruct (Hsrc sid src Hd) as (r' & Hr' & [[]|(Hp & Hid)]). exists r'.
          rewrite Hother by (by intros <-). eauto. }
      intros sid j Hj. destruct (Hl sid j Hj) as (Hp & r' & Hr' & Hid). cbn in Hp. split; [by right|].
      exists r'. rewrite Hother; [done|]. by intros ->.
    + by apply NoDup_cons.
    + intros j Hj. destruct (decide (j = i)) as [->|Hne]; [by exists r|]. rewrite Hother by done.
      apply gd_open0. apply elem_of_cons in Hj as [->|Hj]; done.
    + intros j r' Hr'. destruct (decide (j = i)) as [->|Hne]; [rewrite Hi in Hr'; by injection Hr' as <-|].
      rewrite Hother in Hr' by done. destruct (gd_reqs0 j r' Hr'). split; [done|]. cbn. lia.
    + intros h l' Hl'. destruct (Hcache h l' Hl') as (l & Hh & Hnd & Hno & Hsub).
      destruct (gd_cache0 h l Hh) as (_ & Hin' & Hd). split_and!; [done|..].
      * intros j Hj. destruct (Hin' j (Hsub j Hj)) as (Hs' & Hnp). split; [by apply Hdom|].
        apply not_elem_of_cons. split; [by intros ->|done].
      * intros h' l'' j Hne Hh'' Hj Hj'. destruct (Hcache h' l'' Hh'') as (l2 & Hh2 & _ & _ & Hsub2).
        exact (Hd h' l2 j Hne Hh2 (Hsub j Hj) (Hsub2 j Hj')).
  - intros s' sid Hs' Hu. assert (s' = s) as -> by (change (ctx_session (w_app w) = Some s') in Hs'; congruence).
    destruct (Hl sid i Hu) as (Hp & _). done.
Qed.

(** A request in hand gets the number of its stream, which then names it. *)
Definition begun (i : nat) (sid : Z) (s : session) w : W :=
  w <| w_reqs := alter (fun r => r <| r_proto := EVHTP_PROTO_20 |> <| stream_id := sid |>) i (w_reqs w) |>
    <| w_app := (w_app w) <| ctx_session := Some (nghttp2_session_set_stream_user_data sid (Some i) s) |> |>.
Lemma good_begun i sid s w :
  good [i] w -> unlinked i w -> ctx_session (w_app w) = Some s -> good [i] (begun i sid s w).
Proof.
  intros Hg Hu Hs. pose proof Hg as []. destruct gd_session0 as (s' & Hs' & Hl & Hr).
  assert (s' = s) as -> by congruence. clear Hs'.
  destruct (gd_open0 i ltac:(by left)) as (r & Hri & Hc).
  assert (w_reqs (begun i sid s w) !! i = Some (r <| r_proto := EVHTP_PROTO_20 |> <| stream_id := sid |>)) as Hi.
  { cbn. by rewrite lookup_alter_eq, Hri. }
  assert (forall j, j <> i -> w_reqs (begun i sid s w) !! j = w_reqs w !! j) as Hother.
  { intros j Hj. cbn. by rewrite lookup_alter_ne. }
  split; try done.
  - eexists. split_and!; [reflexivity| |].
    + intros sid' j Hj. destruct (decide (sid' = sid)) as [->|Hne].
      * destruct (user_data_set sid (Some i) s) as [E|E]; rewrite E in Hj; [|done]. injection Hj as <-.
        split; [by left|]. by eexists.
      * rewrite user_data_other in Hj by done. destruct (Hl sid' j Hj) as (Hp & r' & Hr' & Hid). split; [done|].
        exists r'. rewrite Hother; [done|]. intros ->. by eapply Hu.
    + intros sid' src. rewrite user_data_source. intros Hd. destruct (Hr sid' src Hd) as (r' & Hr' & [[]|(Hp & Hid)]).
      exists r'. rewrite Hother; [by eauto|]. intros E. apply NoDup_cons in gd_nodup0 as [Hni _]. by rewrite E in Hp.
  - intros j Hj. destruct (decide (j = i)) as [->|Hne]; [by eexists|]. rewrite Hother by done. by apply gd_open0.
  - intros j r' Hr'. destruct (decide (j = i)) as [->|Hne].
    + rewrite Hi in Hr'. injection Hr' as <-. destruct (gd_reqs0 i r Hri) as [[] Hlt]. by split.
    + rewrite Hother in Hr' by done. by apply gd_reqs0.
  - intros h l Hh. destruct (gd_cache0 h l Hh) as (Hn & Hin & Hd). split_and!; [done| |done].
    intros j Hj. destruct (Hin j Hj) as (Hsj & Hnp). split; [|done]. cbn. by apply lookup_alter_is_Some.
Qed.

Lemma full_new h : full_request (new_request (Some h)).
Proof. split; try done. intros l kv [= <-]. by inversion 1. Qed.
Lemma full_reuse r h :
  full_request r -> full_request (r <| r_conn := true |> <| r_htp := Some h |> <| r_status := EVHTP_RES_OK |>).
Proof. intros []. by split. Qed.

Lemma request_new_good :
  triple_ (keeps [] [] []) (h2_request_new__ mem app)
    (fun req w => exists i, req = Some i /\ good [i] w /\ unlinked i w).
Proof.
  intros [p w] [Hg _ _]. pose proof (gd_htp _ _ Hg) as (h & Hh & _). cbn in *.
  assert (h2_request_new_ mem app (p, w) = (Some (w_allocs w), (p, in_hand (w_allocs w) (new_request (Some h)) (w_cache w) (w_allocs w + 5) w))) as Hnew.
  { unfold h2_request_new_. rewrite run_allocs. cbn [snd fst]. rewrite Hmem. cbn [negb]. rewrite run_getw.
    unfold fill_request. rewrite !Hmem. cbn. by rewrite Hh. }
  assert ((w_allocs w ∉ pending w) /\ forall h l, w_cache w !! h = Some l -> w_allocs w ∉ l) as (Hfresh & Hfresh').
  { split; [intros Hin; destruct (gd_open _ _ Hg _ Hin) as (r & Hr & _); apply (gd_reqs _ _ Hg) in Hr as [_ Hlt]; lia|].
    intros h' l Hl Hin. destruct (gd_cache _ _ Hg h' l Hl) as (_ & Hs & _). destruct (Hs _ Hin) as ((r & Hr) & _).
    apply (gd_reqs _ _ Hg) in Hr as [_ Hlt]. lia. }
  unfold h2_request_new__, get_request_from_cache. rewrite run_assoc, run_getw. cbn [snd]. rewrite Hh, run_assoc, run_getw. cbn [snd].
  destruct (default [] (w_cache w !! h)) as [|i rest] eqn:Ec.
  - rewrite run_ret, Hnew. cbn [fst snd]. eexists. split; [done|]. apply good_in_hand; try done; [apply full_new|lia..|].
    intros h' l Hl. exists l. split_and!; [done| |by eapply Hfresh'|done]. by eapply gd_cache.
  - destruct (w_cache w !! h) as [l|] eqn:El; [|done]. cbn in Ec. subst l.
    destruct (gd_cache _ _ Hg h _ El) as (Hnd & Hin & Hd). apply NoDup_cons in Hnd as [Hni Hnd].
    destruct (Hin i ltac:(by left)) as ((r & Hr) & Hnp). destruct (gd_reqs _ _ Hg i r Hr) as [Hf Hlt].
    rewrite run_assoc, run_updw. cbn [fst snd]. rewrite run_assoc. unfold upd_req. rewrite run_updw, !run_ret. cbn [fst snd].
    exists i. split; [done|].
    assert (forall f m (r : evhtp_request), m !! i = Some r -> alter f i m = <[i := f r]> m) as Halter by (intros; by apply alter_known).
    cbn. rewrite (Halter _ _ r) by done.
    apply (good_in_hand i _ (<[h := rest]> (w_cache w)) (w_allocs w)); try done; [by apply full_reuse|].
    intros h' l' Hl'. destruct (decide (h' = h)) as [->|Hne].
    + rewrite lookup_insert_eq in Hl'. injection Hl' as <-. exists (i :: rest). split_and!; try done. intros j Hj. by right.
    + rewrite lookup_insert_ne in Hl' by done. exists l'. destruct (gd_cache _ _ Hg h' l' Hl') as (Hnd' & _ & Hd').
      split_and!; try done. intros Hi. eapply (Hd' h (i :: rest) i); [done|done|done|by left].
Qed.
End Open.
