(* ===== verification/H2Safe.v ===== *)
(** * evhtp.c: HTTP/2 connections, that nothing undefined happens

    Every callback of nghttp2, every answer of the application and every event
    keeps the invariant of H2Inv.v, or ends with the connection freed
    ([h2_events_safe]). *)

From S2P Require Import Prelude HtpTypes HtString MsgParser MsgParserFacts Triples Kvs Query Callbacks Numtoa Uri Request ReqParse ReqFacts Reply ReplyFacts Conn ConnInv H2 H2Inv.
From stdpp Require Import gmap.
#[local] Open Scope Z_scope.
#[local] Open Scope htp_scope.

Section Safe.
Context `{lib : HtStringLib} `{rx : RegexLib} `{ng : Nghttp2} {laws : Nghttp2Laws} {B : Type}.
Context (mem : nat -> bool) (app : App (h2_state B)) (beyond : list Z -> list Z).
Context (Hmem : forall k, mem k = true) (Happ : app_good app).
Abbreviation W := (world (h2_state B)).
Implicit Types (w : W) (c : evhtp_connection) (r : evhtp_request).
Abbreviation triple_ := (triple (W := W)).
(** What the callbacks end with. *)
Abbreviation done_ := (fun (_ : Z) (w : W) => good [] w).

(** ** Automation *)

Lemma t_geth {C D} (P : W -> Prop) Q (f : h2_state B -> C) (k : C -> M (St W) D) :
  (forall w, P w -> triple_ P (k (f (w_app w))) Q) -> triple_ P (bind (geth f) k) Q.
Proof. apply t_read. Qed.
Lemma keeps_good X L U w : keeps X L U w -> good X w.
Proof. by intros []. Qed.

Ltac same_req := split; [by intros []..|]; intros [] []; split; done.
Ltac same_conn := intros []; split; [done|]; intros []; by split.
(** [i ∈ X ++ L] *)
Ltac inl := by repeat first [left | right].
(** The parts that keep the invariant. *)
Ltac leaf :=
  first
    [ apply safe_set_flag
    | apply safe_upd_same; same_req
    | apply safe_upd_conn_same; same_conn
    | apply safe_upd_bev_same; same_conn
    | apply safe_updp
    | apply safe_alloc
    | apply safe_flush
    | apply safe_getbev_
    | apply safe_request_hook; [assumption|left; inl]
    | apply safe_connection_hook; assumption
    | apply safe_error_hook; [assumption|left; inl]
    | apply safe_session; intros; cbn [snd]; first
        [ apply forgets_refl | apply rst_forgets | apply resume_forgets | apply consume_forgets
        | apply goaway_forgets ]
    | apply safe_ret ].
Ltac finish := first [assumption | by eapply keeps_good; eassumption | by eapply keeps_sub; [..|eassumption]; inversion 1].
Ltac step_with tac :=
  first
    [ tac
    | lazymatch goal with
      | |- triple _ (ret _) _ => apply t_ret; intros; finish
      | |- triple _ (bind (bind _ _) _) _ => apply t_assoc
      | |- triple _ (bind (ret _) _) _ => apply t_ret_bind
      | |- triple _ (bind (getw _) _) _ => apply t_read; intros
      | |- triple _ (bind (geth _) _) _ => apply t_geth; intros
      | |- triple _ (bind (gets _) _) _ => apply t_getp; intros
      | |- triple _ (bind getc _) _ => apply t_getc; intros
      | |- triple _ (with_req _ _) _ => apply t_with_req; [inl|intros]
      | |- triple _ (with_conn _ _) _ => apply t_with_conn; [inl|intros]
      | |- triple _ (bind (when _ _) _) _ => apply t_after; [apply safe_when; intros|intros]
      | |- triple _ (bind (with_req _ _) _) _ => apply t_after; [apply t_to_safe|intros]
      | |- triple _ (bind (match _ with _ => _ end) _) _ => apply t_after; [apply t_to_safe|intros]
      | |- triple _ (bind (with_conn _ _) _) _ => apply t_after; [apply t_to_safe|intros]
      | |- triple _ (bind _ _) _ => apply t_after; [first [tac | leaf]|intros]
      end
    | leaf
    | lazymatch goal with
      | |- safe _ _ => apply t_to_safe
      | |- triple _ (match ?b with _ => _ end) _ => destruct b eqn:?
      end ].
Ltac steps_with tac := repeat (step_with tac).
Ltac steps := steps_with fail.

(** The user data of a stream names a pending request. *)
Lemma t_request sid (k : option nat -> M (St W) Z) Q :
  (forall i, triple_ (keeps [] [i] []) (k (Some i)) Q) -> triple_ (keeps [] [] []) (k None) Q ->
  triple_ (keeps [] [] []) (bind (get_user_data sid) k) Q.
Proof.
  intros Hi Hn. eapply t_bind; [apply t_user_data|]. intros [i|]; cbn.
  - eapply t_pre; [apply Hi|]. intros w ([Hg _ _] & Hin & _). split; [done| |by inversion 1].
    intros j Hj. by apply list_elem_of_singleton in Hj as ->.
  - eapply t_pre; [apply Hn|]. by intros w [].
Qed.

(** ** Header fields *)

Lemma set_callbacks_safe X L U i : i ∈ X ++ L -> safe (keeps X L U) (htp__request_set_callbacks_ (A := h2_state B) i).
Proof.
  intros Hi. apply t_to_safe, t_with_req; [done|]. intros r Hf Hc. apply t_read. intros w Hw.
  destruct (r_htp r) as [h|]; cbn [mbind option_bind]; [|by apply t_ret].
  destruct (w_htps w !! h) as [host|] eqn:Eh; [|by apply t_ret]. rewrite Hc. cbn [negb].
  destruct (r_uri r ≫= uri_path) as [pth|]; [|by apply t_ret].
  pose proof (gd_hosts _ _ (kp_good _ _ _ _ Hw) h host Eh) as Hok.
  destruct (select_callback_some host r pth Hok) as [[[[[cb arg] hooks] so] eo] ->].
  unfold upd_uri. apply t_after; [|intros _; apply t_after; [leaf|intros _; by apply t_ret]].
  apply safe_upd_same. split; [by intros []..| |by intros [] []; split].
  intros r' [u Hu]. cbn. by rewrite Hu.
Qed.

(** The URI is there afterwards. *)
Lemma require_uri_step i k :
  triple_ (keeps [] [i] [i]) k done_ -> triple_ (keeps [] [i] []) (require_uri mem i k) done_.
Proof.
  intros Hk. unfold require_uri. apply (t_bind _ (fun _ => keeps [] [i] [i])).
  - unfold htp__require_uri__. intros [p w] Hw. destruct (keeps_request _ _ _ i _ Hw ltac:(by left)) as (r & Hr & Hc & Hf).
    rewrite (with_req_eq _ _ _ r) by done. destruct (r_uri r) as [u|] eqn:Eu.
    + cbn. destruct Hw as [Hg Hp _]. split; [done..|]. intros j Hj. apply list_elem_of_singleton in Hj as ->.
      exists r. by rewrite Eu.
    + pose proof (safe_alloc (B := B) [] [i] [] 2 (p, w) Hw) as Ha. rewrite run_allocs. cbn [snd fst].
      unfold htp__uri_new_, htp__authority_new_. rewrite !Hmem. cbn [negb].
      match goal with |- context [upd_req i ?f] => assert (same_req f) as Hsame by (split; [by intros []..|by intros [] []; split]) end.
      match goal with |- context [upd_req i ?f] => pose proof (safe_upd_same [] [i] [] i f Hsame (p, _) Ha) as [Hg Hp _] end.
      unfold upd_req. rewrite run_updw. split; [done..|]. intros j Hj. apply list_elem_of_singleton in Hj as ->.
      cbn in Hr |- *. eexists. rewrite lookup_alter_eq, Hr. by split.
  - intros v. destruct (v =? -1); [apply t_ret; by intros w []|done].
Qed.

Lemma new_header_some kh vh k v n :
  exists h, new_header mem kh vh (Some k) (Some v) n = Some h /\ val h = Some (cstr v) /\ vlen h = length (cstr v).
Proof. unfold new_header. rewrite Hmem. by eexists. Qed.
Lemma add_in_safe X L U i h v : val h = Some v -> vlen h = length v ->
  safe (keeps X L U) (add_in (B := B) i h).
Proof.
  intros Hv Hl. apply safe_upd_same. split; [by intros []..|]. intros r [[l El] ? ? ? ? Hk]. unfold evhtp_headers_add_header.
  split; cbn; rewrite ?El; try done. intros l' kv [= <-] Hin. apply elem_of_app in Hin as [Hin|Hin]; [by eapply Hk|].
  apply list_elem_of_singleton in Hin as ->. by exists v.
Qed.

(** A header made of two copies. *)
Ltac copied := unfold htp__strndup_; rewrite ?Hmem;
  lazymatch goal with |- context [new_header mem ?a ?b (Some ?k) (Some ?v) ?n] =>
    let h := fresh "h" in let Hv := fresh "Hv" in let Hl := fresh "Hl" in
    destruct (new_header_some a b k v n) as (h & -> & Hv & Hl);
    apply t_after; [by eapply add_in_safe|intros _]
  end.

Lemma h2_method_good i value : triple_ (keeps [] [i] []) (h2_method i value) done_.
Proof. unfold h2_method. steps. Qed.
Lemma h2_scheme_good i value : triple_ (keeps [] [i] []) (h2_scheme mem beyond i value) done_.
Proof.
  apply require_uri_step. unfold upd_uri. apply t_after; [|intros _; steps].
  apply safe_upd_same. split; [by intros []..| |by intros [] []; split]. intros r [u Hu]. cbn. by rewrite Hu.
Qed.
Lemma h2_authority_good i value : triple_ (keeps [] [i] []) (h2_authority mem i value) done_.
Proof. unfold h2_authority. apply t_after; [leaf|intros k]. copied. steps. Qed.
Lemma mark_header_same a :
  same_req (fun r => r <| headers_in := (fun l => map (fun x : evhtp_kv => if addr x =? a
     then x <| k_heaped := 1 |> <| v_heaped := 1 |> else x) l) <$> headers_in r |>).
Proof.
  split; [by intros []..|]. intros r [[l El] ? ? ? ? Hk]. split; cbn; rewrite ?El; try done.
  intros l' kv [= <-] Hin. apply list_elem_of_fmap in Hin as (x & -> & Hx). destruct (Hk l x El Hx) as (v & Hv & Hl).
  exists v. by case_match.
Qed.
Lemma h2_field_good i name value : triple_ (keeps [] [i] []) (h2_field mem app i name value) done_.
Proof.
  unfold h2_field. apply t_after; [leaf|intros k]. copied. steps_with ltac:(apply safe_upd_same, mark_header_same).
Qed.

(** What the connection and its host are, read together. *)
Lemma t_host {C} X L U (k : evhtp_connection -> htps -> M (St W) C) Q :
  (forall c hs h host, c_htp c = Some h -> hs !! h = Some host -> hosts_ok hs ->
     triple_ (keeps X L U) (k c hs) Q) ->
  triple_ (keeps X L U) (c <- getw w_conn ;; hs <- getw w_htps ;; k c hs) Q.
Proof.
  intros Hk [p w] Hw. rewrite !run_getw. cbn [snd]. pose proof (kp_good _ _ _ _ Hw) as Hg. cbn in Hg.
  destruct (gd_htp _ _ Hg) as (h & Hh & [host Hhost]). by eapply (Hk _ _ h host); [..|apply Hg|].
Qed.
Lemma t_conn_uri X L U i k Q :
  i ∈ X ++ L -> i ∈ U -> (forall r u, triple_ (keeps X L U) (k r u) Q) ->
  triple_ (keeps X L U) (with_conn i (fun r => with_uri r (k r))) Q.
Proof.
  intros Hi HU Hk. apply t_read. intros w Hw. destruct (keeps_request _ _ _ i _ Hw Hi) as (r & Hr & Hc & Hf).
  rewrite Hr, Hc. destruct Hw as [_ _ Hu]. destruct (Hu i HU) as (r' & Hr' & [u Eu]).
  assert (r' = r) as -> by congruence. unfold with_uri. rewrite Eu. by apply Hk.
Qed.
Lemma upd_uri_safe X L U i f : safe (keeps X L U) (upd_uri (A := h2_state B) i f).
Proof.
  apply safe_upd_same. split; [by intros []..| |by intros [] []; split]. intros r [u Hu]. cbn. by rewrite Hu.
Qed.
Lemma h2_path_good i value : triple_ (keeps [] [i] []) (h2_path mem app i value) done_.
Proof.
  apply require_uri_step. destruct (split_target value) as [path_ query_]. apply t_after; [leaf|intros k].
  destruct (path_new_some mem Hmem k path_) as (pth & ->).
  apply t_after; [apply upd_uri_safe|intros _].
  apply t_after; [apply set_callbacks_safe; inl|intros _]. apply t_after; [leaf|intros _].
  destruct query_ as [q|]; [|steps]. apply t_conn_uri; [inl|inl|]. intros r u.
  apply t_host. intros c hs h host Hh Hhost _. rewrite Hh. cbn [mbind option_bind]. rewrite Hhost.
  steps_with ltac:(apply upd_uri_safe).
Qed.

Lemma pseudo_header_good i name value : triple_ (keeps [] [i] []) (pseudo_header mem app beyond i name value) done_.
Proof.
  unfold pseudo_header. repeat case_match; [apply h2_method_good|apply h2_path_good|apply h2_scheme_good
    |apply h2_authority_good|steps].
Qed.

Lemma headers_start_step i (k : M (St W) Z) :
  triple_ (keeps [] [i] []) k done_ -> triple_ (keeps [] [i] []) (headers_start app i k) done_.
Proof. intros Hk. unfold headers_start. steps_with ltac:(exact Hk). Qed.

Lemma server_on_header_good sid name value :
  triple_ (keeps [] [] []) (h2__server_on_header_cb_ mem app beyond sid name value) done_.
Proof.
  apply t_request; [intros i|steps]. destruct name as [|c name].
  - apply headers_start_step, h2_field_good.
  - destruct (c =? _); [apply pseudo_header_good|]. apply headers_start_step. unfold ignore.
    steps_with ltac:(apply h2_field_good).
Qed.

(** ** Frames *)

Lemma begin_headers_good f : triple_ (keeps [] [] []) (h2__server_on_begin_headers_cb_ mem app f) done_.
Proof.
  unfold h2__server_on_begin_headers_cb_. destruct (_ || _); [steps|].
  eapply t_bind; [by apply request_new_good|]. intros req [p w] (i & -> & Hg & Hu). cbn in Hg, Hu.
  destruct (gd_session _ _ Hg) as (s & Hs & Hl & Hr). unfold updh, set_user_data, on_session, geth, upd_req.
  rewrite run_updw. cbn [fst snd]. rewrite run_updw, run_assoc, run_getw. cbn [fst snd]. cbn. rewrite Hs.
  exact (good_put i _ (good_begun i (hd_stream_id f) s w Hg Hu Hs) (fun H => H)).
Qed.

Lemma unless_answered_step i sid res (k : M (St W) Z) :
  triple_ (keeps [] [i] []) k done_ -> triple_ (keeps [] [i] []) (unless_answered i sid res k) done_.
Proof. intros Hk. unfold unless_answered, submit_rst. steps_with ltac:(exact Hk). Qed.

(** The virtual host that is found exists, so the connection still has a host. *)
Lemma resolve_vhost_safe i host v :
  val host = Some v -> vlen host = length v ->
  safe (keeps [] [i] []) (resolve_vhost (B := B) i host).
Proof.
  intros Hv Hl. apply t_to_safe, t_with_conn; [inl|]. intros _ _.
  intros [p w] Hw. rewrite !run_getw. cbn [snd]. cbn in Hw. pose proof (kp_good _ _ _ _ Hw) as Hg.
  destruct (gd_htp _ _ Hg) as (h & -> & [hh Hh]). cbn [mbind option_bind]. rewrite Hh.
  destruct (find_vhost_some (w_htps w) hh v (gd_hosts _ _ Hg)) as (res & Hres & Hex).
  rewrite Hv, Hl. cbn [default]. unfold default, from_option, id. rewrite Hres. destruct res as [v'|]; [|done].
  rewrite run_upd_conn. cbn [fst snd].
  assert (keeps [] [i] [] (w <| w_conn := (w_conn w) <| c_htp := Some v' |> |>)) as Hw'.
  { eapply keeps_weaken; [exact Hw| |done..]. apply good_conn; [done| |exists v'; split; [done|by apply Hex]].
    pose proof (gd_conn _ _ Hg) as []. by split. }
  enough (safe (keeps [] [i] []) (upd_req (A := h2_state B) i (fun r => r <| r_htp := Some v' |>) ;;
            htp__request_set_callbacks_ i)) as Hs by apply (Hs (p, _) Hw').
  apply safe_bind; [apply safe_upd_same; split; [by intros []..|by intros [] []; split]|].
  intros _. apply set_callbacks_safe. inl.
Qed.

Lemma find_kv_in l k kv : kvs_find_kv_n l k = Some kv -> kv ∈ l.
Proof.
  induction l as [|x l IH]; cbn; [done|]. case_match; [intros [= ->]; left|right; auto].
Qed.
Lemma headers_vhost_step i sid (k : M (St W) Z) :
  triple_ (keeps [] [i] []) k done_ -> triple_ (keeps [] [i] []) (headers_vhost app i sid k) done_.
Proof.
  intros Hk. unfold headers_vhost. apply t_with_req; [inl|]. intros r _ _. destruct (has _ _); [done|].
  apply t_after; [leaf|intros _]. apply t_with_req; [inl|]. intros r' [[l El] _ _ _ _ Hkv] _.
  unfold evhtp_kvs_find_kv_n. rewrite El. destruct (kvs_find_kv_n _ _) as [host|] eqn:Ehost; [|done].
  pose proof (find_kv_in _ _ _ Ehost) as Hin.
  destruct (Hkv l host El Hin) as (v & Hv & Hlen).
  apply t_after; [by eapply resolve_vhost_safe|intros _]. apply t_after; [leaf|intros res].
  by apply unless_answered_step.
Qed.

Lemma headers_frame_good f : triple_ (keeps [] [] []) (handle_h2_headers_frame app f) done_.
Proof.
  unfold handle_h2_headers_frame. destruct (negb _); [steps|]. apply t_request; [intros i|steps].
  apply t_after; [apply safe_when; intros; leaf|intros _]. apply headers_start_step, headers_vhost_step.
  apply t_after; [apply set_callbacks_safe; inl|intros _]. apply t_after; [leaf|intros res].
  apply unless_answered_step. steps_with ltac:(by apply run_request_cb_good).
Qed.

Lemma t_with_req_known i k Q :
  (forall r, triple_ (fun w => keeps [] [i] [] w /\ w_reqs w !! i = Some r) (k r) Q) ->
  triple_ (keeps [] [i] []) (with_req i k) Q.
Proof.
  intros Hk [p w] Hw. destruct (keeps_request _ _ _ i _ Hw ltac:(by left)) as (r & Hr & _).
  rewrite (with_req_eq _ _ _ r) by done. by apply Hk.
Qed.
(** The body is made the query only of a request that has a URI. *)
Lemma data_dispatch_good i :
  triple_ (keeps [] [i] []) (with_req i (fun r =>
    when (htp__h2_should_parse_query_body_ r) (ignore (htp__request_query_from_body_ mem i)) ;;
    run_request_cb app i ;; ret 0)) done_.
Proof.
  apply t_with_req_known. intros r.
  assert (triple_ (keeps [] [i] []) (run_request_cb app i ;; ret 0) done_) as Hrun.
  { eapply t_bind; [by apply run_request_cb_good|]. intros v. by apply t_ret. }
  destruct (htp__h2_should_parse_query_body_ r) eqn:E; [|eapply t_pre; [apply t_ret_bind, Hrun|by intros w []]].
  unfold htp__h2_should_parse_query_body_ in E. destruct (r_uri r) as [u|] eqn:Eu; [|done].
  apply (t_pre (keeps [] [i] [i])).
  2:{ intros w ([Hg Hp _] & Hr). split; [done..|]. intros j Hj. apply list_elem_of_singleton in Hj as ->.
      exists r. by rewrite Eu. }
  unfold when, ignore. apply t_after.
  - apply t_to_safe, t_after; [|intros; by apply t_ret]. apply t_to_safe, t_with_uri; [inl|inl|]. intros r' u' _.
    apply t_after; [leaf|intros k]. rewrite Hmem. cbn [negb]. steps_with ltac:(apply upd_uri_safe).
  - intros _. eapply t_pre; [apply Hrun|]. intros w. apply keeps_sub; [done|by inversion 1].
Qed.
Lemma set_none_forgets sid s : forgets s (tt, nghttp2_session_set_stream_user_data sid None s).2.
Proof.
  split; cbn; intros sid' x; [|by rewrite user_data_source]. destruct (decide (sid' = sid)) as [->|Hne].
  - intros H. by apply no_user_data in H.
  - by rewrite user_data_other.
Qed.
Lemma data_frame_good f : triple_ (keeps [] [] []) (handle_h2_data_frame mem app f) done_.
Proof.
  unfold handle_h2_data_frame. destruct (negb _); [steps|]. apply t_request; [intros i|steps].
  apply t_after; [leaf|intros _]. apply t_with_req; [inl|]. intros r _ _. destruct (has _ _); [steps|].
  apply t_after; [|intros _; apply data_dispatch_good]. apply safe_session. cbn. intros s. apply set_none_forgets.
Qed.

(** What is pending when it is looked at. *)
Lemma t_pending {C} (k : list nat -> M (St W) C) Q :
  (forall p, triple_ (keeps [] p []) (k p) Q) -> triple_ (keeps [] [] []) (bind (geth h2_pending) k) Q.
Proof.
  intros Hk [p w] [Hg _ _]. unfold geth. rewrite run_getw. apply Hk. by split; [|..|inversion 1].
Qed.
Lemma fail_requests_safe which err l L :
  (forall i, i ∈ l -> i ∈ L) -> safe (keeps [] L []) (fail_requests app which err l).
Proof.
  induction l as [|i l IH]; intros Hl; cbn [fail_requests]; [apply safe_ret|].
  assert (i ∈ L) as Hi by (apply Hl; by left).
  apply t_to_safe, t_after; [|intros _; apply t_safe, IH; intros; apply Hl; by right].
  apply t_to_safe, t_with_req; [done|]. intros r _ _. apply t_after; [|intros _; by apply t_ret].
  apply safe_when. intros _. apply safe_bind; [leaf|intros _]. apply safe_error_hook; [done|by left].
Qed.
Lemma goaway_frame_good f : triple_ (keeps [] [] []) (handle_h2_goaway_frame app f) done_.
Proof.
  apply t_pending. intros p. apply t_after; [by apply fail_requests_safe|intros _]. steps.
Qed.
Lemma frame_recv_good f : triple_ (keeps [] [] []) (h2__on_frame_recv_cb_ mem app f) done_.
Proof.
  unfold h2__on_frame_recv_cb_. destruct (hd_type f);
    [apply data_frame_good|apply headers_frame_good|apply goaway_frame_good|steps].
Qed.

(** Buffers that are there. *)
Ltac buffers :=
  idtac; match goal with
  | Hf : full_request ?r, E : buffer_in ?r = None |- _ => destruct (fr_bin _ Hf); congruence
  | Hf : full_request ?r, E : buffer_out ?r = None |- _ => destruct (fr_bout _ Hf); congruence
  | Hf : full_request ?r, E : headers_out ?r = None |- _ => destruct (fr_out _ Hf); congruence
  end.
Lemma data_chunk_good sid data : triple_ (keeps [] [] []) (h2__on_data_chunk_recv_cb_ app sid data) done_.
Proof.
  unfold h2__on_data_chunk_recv_cb_, consume. apply t_request; [intros i|steps]. steps_with ltac:(buffers).
Qed.
(** The callback frees the request while the stream may still have it as the
    source of a body; then nghttp2 closes the stream. *)
Lemma after_close {C} sid i (v : C) :
  triple_ (good (cl := closing sid i) [])
    (on_session tt (fun s => (tt, nghttp2_stream_closed sid s)) ;; ret v) (fun _ => good []).
Proof.
  intros [p w] Hw. destruct (gd_session _ _ Hw) as (s & Hs & _). unfold on_session, geth.
  rewrite run_assoc, run_getw. cbn [snd]. cbn in Hw, Hs. rewrite Hs. by apply (good_closed [] sid i s w).
Qed.
Lemma free_closing_good sid i :
  triple_ (keeps (cl := closing sid i) [] [i] [])
    (set_user_data sid None ;; h2_request_free app false (Some i)) (fun _ => good (cl := closing sid i) []).
Proof.
  apply t_after; [apply safe_session; intros s; apply set_none_forgets|intros _].
  by apply request_free_good.
Qed.
Lemma stream_close_good sid :
  triple_ (keeps [] [] []) (v <- h2__server_on_stream_close_cb_ app sid ;;
    on_session tt (fun s => (tt, nghttp2_stream_closed sid s)) ;; ret v) done_.
Proof.
  unfold h2__server_on_stream_close_cb_. apply t_assoc. eapply t_bind; [apply t_user_data|]. intros [i|]; cbn.
  - apply (t_bind _ (fun _ => good (cl := closing sid i) [])); [|intros v; apply after_close].
    intros st (Hk & Hi & r & Hr & Hid).
    assert (triple_ (keeps (cl := closing sid i) [] [i] [])
              (set_user_data sid None ;; h2_request_free app false (Some i) ;; ret 0)
              (fun _ => good (cl := closing sid i) [])) as Hrun.
    { apply t_unassoc. eapply t_bind; [apply free_closing_good|]. intros v. by apply t_ret. }
    apply Hrun. split; [by eapply good_closing, Hid; [apply Hk|]| |by inversion 1].
    intros j Hj. by apply list_elem_of_singleton in Hj as ->.
  - apply t_ret_bind. eapply t_pre; [|by intros w []]. steps_with ltac:(apply safe_session; intros; apply closed_forgets).
Qed.

(** ** Sending *)

(** A request that is pending has its output buffer, and is in no cache. *)
Definition readable_from (i : nat) w : Prop := keeps [] [i] [] w.
Lemma readable_out i w : readable_from i w ->
  exists r out, w_reqs w !! i = Some r /\ buffer_out r = Some out.
Proof.
  intros Hk. destruct (keeps_request _ _ _ i _ Hk ltac:(by left)) as (r & Hr & _). destruct Hk as [Hg _ _]. destruct (gd_reqs _ _ Hg i r Hr) as ([_ _ _ [out Ho] _ _] & _). by exists r, out.
Qed.
Lemma set_out_same b : same_req (fun r => r <| buffer_out := Some b |>).
Proof. split; [by intros []..|by intros [] []; split]. Qed.
Lemma read_step {C} i (k : gmap nat evhtp_request -> M (St W) C) :
  (forall rs r out, rs !! i = Some r -> buffer_out r = Some out ->
     triple_ (keeps [] [] []) (k rs) (fun _ => keeps [] [] [])) ->
  triple_ (readable_from i) (bind (getw w_reqs) k) (fun _ => keeps [] [] []).
Proof.
  intros Hk [p w] Hw. destruct (readable_out i w Hw) as (r & out & Hr & Ho). rewrite run_getw.
  eapply Hk; [exact Hr|exact Ho|]. eapply keeps_sub; [..|exact Hw]; by inversion 1.
Qed.
Lemma data_read_good i n : triple_ (readable_from i) (h2__data_read_cb_ (B := B) i n) (fun _ => keeps [] [] []).
Proof.
  apply read_step. intros rs r out Hr Ho. rewrite Hr. cbn [mbind option_bind]. rewrite Ho.
  apply t_after; [apply safe_upd_same, set_out_same|intros _; by apply t_ret].
Qed.
Lemma stream_read_good i n : triple_ (readable_from i) (h2__stream_read_cb_ (B := B) i n) (fun _ => keeps [] [] []).
Proof.
  apply read_step. intros rs r out Hr Ho. rewrite Hr. cbn [mbind option_bind]. rewrite Ho.
  cbn [mbind option_bind]. destruct (_ && _); [by apply t_ret|].
  apply t_after; [apply safe_upd_same, set_out_same|intros _; by apply t_ret].
Qed.

Lemma recycled_in i (cache : gmap nat (list nat)) :
  recycled i cache = true -> exists h l, cache !! h = Some l /\ i ∈ l.
Proof.
  intros ([h l] & Hin & Hi%bool_decide_eq_true)%existsb_exists.
  exists h, l. split; [|done]. by apply elem_of_map_to_list, list_elem_of_In.
Qed.
Lemma in_use_step i k : triple_ (readable_from i) k done_ -> triple_ (readable_from i) (in_use i k) done_.
Proof.
  intros Hk. apply t_read. intros w [Hg Hp _]. destruct (recycled i (w_cache w)) eqn:E; [|done].
  destruct (recycled_in _ _ E) as (h & l & Hl & Hi). destruct (gd_cache _ _ Hg h l Hl) as (_ & Hin & _).
  destruct (Hin i Hi) as (_ & []). apply Hp. by left.
Qed.
Lemma read_cb_good sid n :
  triple_ (keeps [] [] []) (src <- on_session None (fun s => (data_source_of sid s, s)) ;;
    match src with
    | Some (whole_body i) => in_use i (h2__data_read_cb_ i n ;; ret 0)
    | Some (streamed_body i) => in_use i (h2__stream_read_cb_ i n ;; ret 0)
    | None => ret 0
    end) done_.
Proof.
  apply (t_bind _ (fun src w => match src with
    | Some x => readable_from (source_req x) w | None => keeps [] [] [] w end)).
  - apply t_session. cbn. intros w s Hw Hs Hl Hr.
    assert (good [] (w <| w_app := (w_app w) <| ctx_session := Some s |> |>)) as Hw'
      by (apply good_session; [apply Hw|done..]).
    destruct (data_source_of sid s) as [src|] eqn:E; [|by apply keeps_start].
    destruct (Hr sid src E) as (r & Hri & [[]|(Hp & _)]). split; [done| |by inversion 1].
    intros j Hj. by apply list_elem_of_singleton in Hj as ->.
  - intros [[i|i]|]; [apply in_use_step; eapply t_bind; [apply data_read_good|]
      |apply in_use_step; eapply t_bind; [apply stream_read_good|]|steps];
      intros v; cbn beta; apply t_ret; by intros w [].
Qed.

Lemma run_callback_good cb : triple_ (keeps [] [] []) (run_callback mem app beyond cb) done_.
Proof.
  apply t_getc. intros c Hc. rewrite (sc_type _ Hc), bool_decide_true by done. destruct cb as [f|sid name value|f|sid data|sid|data|sid n].
  - apply begin_headers_good.
  - apply server_on_header_good.
  - apply frame_recv_good.
  - apply data_chunk_good.
  - apply stream_close_good.
  - unfold h2__send_cb_, output_add. steps.
  - apply read_cb_good.
Qed.
Lemma run_callbacks_good cbs : triple_ (keeps [] [] []) (run_callbacks mem app beyond cbs) done_.
Proof.
  induction cbs as [|cb cbs IH]; cbn [run_callbacks]; [steps|].
  eapply t_bind; [apply run_callback_good|]. intros v. cbn beta.
  destruct (v =? 0); [|by apply t_ret]. eapply t_pre; [apply IH|]. apply keeps_start.
Qed.
Lemma session_run_safe cbs result : safe (keeps [] [] []) (session_run mem app beyond cbs result).
Proof.
  apply t_to_safe, t_after; [leaf|intros _]. eapply t_bind; [apply run_callbacks_good|]. intros v. cbn beta.
  apply (t_pre (keeps [] [] [])); [|apply keeps_start]. apply t_after; [leaf|intros _]. by apply t_ret.
Qed.

(** ** Answers *)

(** Status codes of at most three digits. *)
Definition h2_reply_ok (a : h2_reply) : Prop :=
  match a with a_reply code | a_start code => 0 <= code < 1000 | _ => True end.
Lemma three_digits code : 0 <= code < 1000 -> (length (default [] (fst <$> evhtp_modp_u32toa code)) <= 3)%nat.
Proof.
  intros Hc.
  assert (forallb (fun n => (length (default [] (fst <$> evhtp_modp_u32toa n)) <=? 3)%nat) (seqZ 0 1000) = true)
    as Hall by (vm_compute; reflexivity).
  rewrite forallb_forall in Hall. apply Nat.leb_le, Hall, list_elem_of_In, elem_of_seqZ. lia.
Qed.
(** [i] is the request of stream [sid]. *)
Definition on_stream (i : nat) (sid : Z) w : Prop := exists r, w_reqs w !! i = Some r /\ stream_id r = sid.
Lemma response_nv_safe {cl : Closing} X L U i sid r code :
  full_request r -> 0 <= code < 1000 ->
  safe (fun w => keeps X L U w /\ on_stream i sid w) (h2__response_nv_ (B := B) mem r code).
Proof.
  intros Hf Hc [p w] [Hk Hi]. unfold h2__response_nv_. destruct (headers_out r) eqn:E; [|buffers].
  rewrite run_allocs. cbn [snd fst]. rewrite Hmem. cbn [negb]. pose proof (three_digits code Hc) as Hd.
  destruct (3 <? _)%nat eqn:E3; [apply Nat.ltb_lt in E3; lia|].
  split; [|exact Hi]. exact (safe_alloc X L U 1 (p, w) Hk).
Qed.
(** The body of a reply is read from its request, for its stream. *)
Lemma submit_safe {cl : Closing} X L U i sid nva prd :
  held X L i -> (forall src, prd = Some src -> source_req src = i) ->
  triple_ (fun w => keeps X L U w /\ on_stream i sid w)
    (on_session (B := B) 0 (nghttp2_submit_response sid nva prd)) (fun _ => keeps X L U).
Proof.
  intros Hi Hprd [p w] [Hw (r & Hri & Hid)]. cbn [snd] in *.
  destruct (gd_session _ _ (kp_good _ _ _ _ Hw)) as (s & Es & Hl & Hr).
  enough (keeps X L U (w <| w_app := (w_app w) <| ctx_session := Some (nghttp2_submit_response sid nva prd s).2 |> |>)) as Hs.
  { unfold on_session, geth. rewrite run_getw. cbn [snd]. rewrite Es.
    by destruct (nghttp2_submit_response sid nva prd s) as [v s']. }
  eapply keeps_weaken; [exact Hw| |done..].
  apply good_session; [apply Hw|..].
  - intros sid' j. rewrite response_data. apply Hl.
  - intros sid' src Hsrc. destruct (response_source _ _ _ _ _ _ Hsrc) as [[-> E]|Hold]; [|by eapply Hr].
    rewrite (Hprd src E). exists r. split; [done|]. destruct Hi as [Hi|[_ Hd]]; [|by left; apply Hd].
    right. split; [|done]. by apply (kp_pending _ _ _ _ Hw).
Qed.
Lemma resume_safe {cl : Closing} X L U i : i ∈ X ++ L -> safe (keeps X L U) (h2__stream_resume_ (B := B) i).
Proof. intros Hi. apply t_to_safe, t_with_conn; [done|]. intros r Hf. steps. Qed.
Lemma add_body_safe {cl : Closing} X L U i buf :
  safe (keeps X L U) (upd_req (A := h2_state B) i (fun r => r <| buffer_out := (fun b => b ++ buf) <$> buffer_out r |>)).
Proof.
  apply safe_upd_same. split; [by intros []..|]. intros r [? ? ? [b Eb] ? ?]. split; cbn; try done. by rewrite Eb.
Qed.
(** A reply with its request known: its number is that of its stream. *)
Lemma t_with_stream {cl : Closing} X L U i k Q :
  i ∈ X ++ L ->
  (forall r, full_request r -> triple_ (fun w => keeps X L U w /\ on_stream i (stream_id r) w) (k r) Q) ->
  triple_ (keeps X L U) (with_conn i k) Q.
Proof.
  intros Hi Hk [p w] Hw. destruct (keeps_request _ _ _ i _ Hw Hi) as (r & Hr & Hc & Hf). unfold with_conn.
  rewrite (with_req_eq _ _ _ r), Hc by done. apply Hk; [done|]. split; [done|]. by exists r.
Qed.
Lemma h2_reply_safe {cl : Closing} X L U i a :
  held X L i -> h2_reply_ok a -> safe (keeps X L U) (run_h2_reply (B := B) mem i a).
Proof.
  intros Hh Ha. pose proof (held_in _ _ _ Hh) as Hi. apply t_to_safe. destruct a as [code|code|buf| |code]; cbn [run_h2_reply].
  - apply t_with_stream; [done|]. intros r Hf.
    apply t_after; [by apply response_nv_safe|intros [nva|]; [|apply t_ret; by intros w []]].
    eapply t_bind; [apply (submit_safe _ _ _ i); [done|]; case_match; by intros ? [= <-]|intros v]. steps.
  - apply t_with_stream; [done|]. intros r Hf.
    apply t_after; [by apply response_nv_safe|intros [nva|]; [|apply t_ret; by intros w []]].
    eapply t_bind; [apply (submit_safe _ _ _ i); [done|]; by intros ? [= <-]|intros v]. steps.
  - apply t_with_req; [done|]. intros r _ _. destruct (_ || _); [by apply t_ret|].
    apply t_after; [apply add_body_safe|intros _]. apply t_after; [by apply resume_safe|intros _; by apply t_ret].
  - apply t_after; [leaf|intros _]. apply t_with_req; [done|]. intros r _ _.
    apply t_after; [|intros _; by apply t_ret]. destruct (has _ _); [by apply resume_safe|leaf].
  - apply t_with_conn; [done|]. intros r Hf. apply t_geth. intros w _. destruct (bool_decide _); [by apply t_ret|].
    apply t_after; [apply safe_session; intros; apply forgets_refl|intros req]. destruct (negb _); [by apply t_ret|].
    unfold submit_rst. steps.
Qed.

(** ** The end of a connection *)

(** Freed, and nothing undefined happened. *)
Definition closed w : Prop := w_ub w = false /\ c_freed (w_conn w) = true.

Lemma filter_head i (p : list nat) : NoDup (i :: p) -> filter (fun j => j <> i) (i :: p) = p.
Proof.
  intros [Hni _]%NoDup_cons. rewrite filter_cons_False by tauto.
  induction p as [|j p IH]; [done|]. apply not_elem_of_cons in Hni as [Hne Hni]. rewrite filter_cons_True by done.
  by rewrite IH.
Qed.
(** The session is freed next, so that nothing more is read. *)
Lemma free_pending_good n :
  triple_ (good (cl := teardown) []) (free_pending app n) (fun _ => good (cl := teardown) []).
Proof.
  induction n as [|n IH]; intros [p w] Hw; cbn [free_pending].
  { unfold geth. by rewrite run_getw. }
  unfold geth. rewrite run_getw. cbn [snd]. cbn in Hw. destruct (h2_pending (w_app w)) as [|i l] eqn:El; [done|].
  unfold updh. rewrite run_updw. cbn [fst snd].
  assert (i ∈ pending w) as Hin by (unfold pending; rewrite El; by left).
  pose proof (good_taken i w Hw Hin (fun _ _ => Logic.I)) as Ht. unfold pending in Ht. rewrite El in Ht.
  pose proof (gd_nodup _ _ Hw) as Hnd. unfold pending in Hnd. rewrite El in Hnd.
  rewrite filter_head in Ht by done.
  assert (triple_ (keeps (cl := teardown) [i] [] []) (h2_request_free app true (Some i) ;; free_pending app n)
    (fun _ => good (cl := teardown) []))
    as Hstep by (eapply t_bind; [by apply request_taken_free_good|intros v; apply IH]).
  apply (Hstep (p, _)). split; [exact Ht|by inversion 1..].
Qed.
Definition usable w : Prop := w_ub w = false /\ server_conn (w_conn w).
Lemma release_closes : triple_ usable (connection_release app) (fun _ => closed).
Proof.
  intros [p w] [Hub [Hlive Hbev Hbl _ Hreq _]]. cbn in *.
  unfold connection_release, getc. rewrite run_assoc, run_getw. cbn [snd]. rewrite Hlive, run_ret, Hreq.
  unfold ignore. rewrite !run_assoc. cbn [htp__request_free_]. rewrite !run_ret, run_upd_conn. cbn [fst snd].
  rewrite run_assoc, run_getw. cbn [snd]. unfold when. cbn. rewrite Hlive. cbn. rewrite Hbev.
  unfold bufferevent_setcb, upd_bev, bufferevent_free.
  destruct (negb _); [destruct (bev_ssl _)|]; rewrite ?run_assoc, ?run_getw; cbn; rewrite ?Hbl; done.
Qed.
Lemma connection_free_closes : triple_ (keeps [] [] []) (h2_connection_free app) (fun _ => closed).
Proof.
  apply t_after; [by apply safe_connection_hook|intros _]. apply t_after; [leaf|intros _]. apply t_geth. intros w _.
  eapply t_bind; [eapply t_pre; [apply free_pending_good|intros w' [Hg _ _]; by apply good_teardown]|intros u]. cbn beta.
  apply (t_bind _ (fun _ => usable)); [|intros _; apply release_closes]. intros [p w'] []. by split.
Qed.

(** ** Events *)

(** The invariant, or the connection was freed. *)
Definition sound w : Prop := good [] w \/ closed w.
Abbreviation sound_ := (fun (_ : unit) (w : W) => sound w).
Lemma t_sound_ret P (b : unit) : (forall w, P w -> good [] w) -> triple_ P (ret b) sound_.
Proof. intros H. apply t_ret. intros w Hw. left. auto. Qed.
Lemma free_sound : triple_ (keeps [] [] []) (getc ;; h2_connection_free app) sound_.
Proof.
  apply t_getc. intros c _. eapply t_post; [apply connection_free_closes|]. by right.
Qed.
Lemma when_free_sound b : triple_ (keeps [] [] []) (when b (getc ;; h2_connection_free app)) sound_.
Proof. destruct b; [apply free_sound|]. apply t_sound_ret. by intros w []. Qed.

Lemma readcb_sound recv nread send err :
  triple_ (keeps [] [] []) (htp__h2_connection_readcb_ mem app beyond recv nread send err) sound_.
Proof.
  apply t_getc. intros c _. destruct (_ =? _)%nat; [apply t_sound_ret; by intros w []|].
  apply t_after; [apply session_run_safe|intros n]. destruct (n <? 0); [apply free_sound|].
  apply t_after; [unfold evbuffer_drain; leaf|intros _]. apply t_after; [apply session_run_safe|intros e]. apply when_free_sound.
Qed.
Lemma flush_sound send rv : triple_ (keeps [] [] []) (h2__flush_cb_ mem app beyond send rv) sound_.
Proof.
  apply t_after; [|intros _; apply t_after; [apply session_run_safe|intros e; apply when_free_sound]].
  intros [p w] Hw. eapply keeps_weaken; [exact Hw| |done..]. apply good_flush, Hw.
Qed.
Lemma writecb_sound recv nread send err last :
  triple_ (keeps [] [] []) (h2_connection_writecb_ mem app beyond recv nread send err last) sound_.
Proof.
  assert (forall b, triple_ (keeps [] [] []) (ret b) sound_) as Hret by (intros b; apply t_sound_ret; by intros w []).
  apply t_getc. intros c _. destruct (has _ _); [apply Hret|]. apply t_after; [by apply safe_connection_hook|intros _].
  apply t_getc. intros c' _. apply t_after.
  { apply t_to_safe. destruct (has _ _); [|by apply t_ret]. apply t_after; [leaf|intros _].
    apply t_after; [unfold enable_read; leaf|intros _]. by apply t_ret. }
  intros [|]; [apply readcb_sound|]. apply t_getc. intros c1 _. apply t_read. intros w _.
  destruct (c_htp c1 ≫= _); [|apply Hret]. destruct (0 <? _); [|apply Hret]. apply t_after; [leaf|intros _].
  apply t_getc. intros c2 _. destruct (_ <=? _); [|apply Hret]. unfold when.
  apply t_after; [leaf|intros _]. apply t_after; [apply session_run_safe|intros v; apply Hret].
Qed.

Lemma mark_requests_safe l L : (forall i, i ∈ l -> i ∈ L) -> safe (keeps [] L []) (mark_requests (B := B) l).
Proof.
  induction l as [|i l IH]; intros Hl; cbn [mark_requests]; [apply safe_ret|].
  apply safe_bind; [|intros _; apply IH; intros; apply Hl; by right]. unfold ignore.
  apply t_to_safe, t_after; [|intros _; by apply t_ret]. apply t_to_safe, t_with_req; [apply Hl; by left|].
  intros r _ _. steps.
Qed.
(** There is no request for the HTTP/1 parser to complete. *)
Lemma parse_fini_safe : safe (keeps [] [] []) (htp__request_parse_fini_ mem app).
Proof.
  apply t_to_safe, t_read. intros w Hw. rewrite (sc_request _ (gd_conn _ _ (kp_good _ _ _ _ Hw))). apply t_getp. intros s _.
  destruct (has _ _); [by apply t_ret|]. apply t_read. intros w' _. cbn [mbind option_bind].
  apply t_ret_bind. cbn [negb Z.eqb]. apply t_ret_bind, t_read. intros w2 _. destruct (has _ _); by apply t_ret.
Qed.
Lemma run_eof_safe : safe (keeps [] [] []) (htparser_run_eof (Some (request_psets mem app beyond))).
Proof.
  unfold htparser_run_eof. apply safe_bind; [apply safe_gets|intros p]. destruct (_ && _); [|apply safe_ret].
  apply safe_bind; [apply safe_updp|intros _]. apply safe_bind; [|intros b; apply safe_ret].
  intros s Hs. unfold HOOK. cbn [request_psets]. pose proof (parse_fini_safe s Hs) as Hf.
  destruct (htp__request_parse_fini_ mem app s) as [v [q w]]. cbn in Hf. by destruct (v =? 0).
Qed.
Lemma set_cbs_safe : safe (keeps [] [] []) (set_bufferevent_cbs (A := h2_state B)).
Proof. apply safe_upd_bev_same. same_conn. Qed.

Lemma eventcb_sound events err :
  triple_ (keeps [] [] []) (h2_connection_eventcb_ mem app beyond events err) sound_.
Proof.
  assert (forall m : M (St W) unit, safe (keeps [] [] []) m -> triple_ (keeps [] [] []) m sound_) as Hsafe.
  { intros m Hm s Hs. left. eapply keeps_good, Hm, Hs. }
  apply t_after; [by apply safe_connection_hook|intros _]. apply t_getc. intros c _. destruct (has events _).
  { apply t_after; [apply safe_when; intros; leaf|intros _]. apply Hsafe, set_cbs_safe. }
  apply t_after.
  { apply safe_when. intros _. apply safe_bind; [leaf|intros _]. intros [p w] Hw.
    unfold geth. rewrite run_getw. cbn [snd]. cbn in Hw.
    pose proof (mark_requests_safe (pending w) (pending w) (fun i Hi => Hi) (p, w)) as Hm.
    eapply keeps_sub; [..|apply Hm]; [by inversion 1|by inversion 1|]. destruct Hw as [Hg _ _]. by split; [|..|inversion 1]. }
  intros _. cbv zeta. destruct (_ && _); [apply Hsafe; unfold enable_read; leaf|].
  apply t_after; [apply safe_when; intros _; unfold ignore; apply safe_bind; [apply run_eof_safe|intros; apply safe_ret]|intros _].
  apply t_after; [leaf|intros _]. eapply (t_bind _ (fun _ => keeps [] [] [])).
  { apply t_pending. intros l. apply t_after; [by apply fail_requests_safe|intros _]. apply t_ret. intros w.
    apply keeps_sub; by inversion 1. }
  intros v. apply t_getc. intros c' _. destruct (has _ _); [apply Hsafe; leaf|].
  eapply t_post; [apply connection_free_closes|]. by right.
Qed.

Definition event_ok (e : h2_event) : Prop :=
  match e with h2_answer _ a => h2_reply_ok a | _ => True end.
Lemma deliver_good e :
  event_ok e -> triple_ (keeps [] [] []) (h2_deliver mem app beyond e) sound_.
Proof.
  intros He. apply t_read. intros w Hw. rewrite (sc_live _ (gd_conn _ _ (kp_good _ _ _ _ Hw))). clear w Hw.
  destruct e as [data recv nread send err|send rv|recv nread send err last|events err|i a].
  - apply t_after; [leaf|intros _; apply readcb_sound].
  - apply t_geth. intros w _. destruct (flush_active _); [apply flush_sound|]. apply t_sound_ret. by intros w' [].
  - apply t_after; [leaf|intros _; apply writecb_sound].
  - apply eventcb_sound.
  - apply t_pending. intros l. unfold when. case_bool_decide as Hi; [|apply t_sound_ret; by intros w []].
    unfold ignore. apply t_after; [apply h2_reply_safe; [by left|done]|intros v]. apply t_sound_ret. by intros w [].
Qed.
Lemma deliver_sound e : event_ok e -> triple_ sound (h2_deliver mem app beyond e) sound_.
Proof.
  intros He [p w] [Hg|[Hub Hf]]; [by apply (deliver_good e He (p, w)), keeps_start|].
  unfold h2_deliver. rewrite run_getw. cbn [snd] in *. rewrite Hf. by right.
Qed.
Lemma deliver_all_sound es : Forall event_ok es -> triple_ sound (h2_deliver_all mem app beyond es) sound_.
Proof.
  induction 1 as [|e es He _ IH]; cbn [h2_deliver_all]; [by apply t_ret|].
  eapply t_bind; [by apply deliver_sound|]. intros u. apply IH.
Qed.

(** C3: on a server's HTTP/2 connection nothing undefined happens, whatever
    nghttp2 reports (headers, data, streams that close, bodies it wants to read)
    and in whatever order reads, writes, flushes, errors and the answers of the
    application come, as long as memory lasts: nothing freed is used, no pointer
    that is followed is NULL, and no body is read from a request that was
    recycled.  Afterwards, that is after any number of events, the connection
    has been freed, or the streams' user data and the pending list name
    requests in use, none of them recycled, and each open stream reads its body
    from a pending request that has its number.  The application's hooks may
    answer and change requests but free nothing; its request callback may free
    the request if nghttp2 has no body to read from it; status codes have at
    most three digits. *)
Theorem h2_events_safe es p w :
  good [] w -> Forall event_ok es ->
  let w' := (h2_deliver_all mem app beyond es (p, w)).2.2 in
  w_ub w' = false /\ (good [] w' \/ c_freed (w_conn w') = true).
Proof.
  intros Hg Hes. cbv zeta. destruct (deliver_all_sound es Hes (p, w) (or_introl Hg)) as [Hg'|[Hub Hf]].
  - split; [apply (gd_ub _ _ Hg')|by left].
  - split; [done|by right].
Qed.

(** ** The start *)

Lemma initial_session_forgets :
  forgets (nghttp2_session_new evhtp_type_server) (initial_session evhtp_type_server).
Proof. apply settings_forget. Qed.
(** An accepted connection without requests, when the handshake chose h2. *)
Record negotiated w : Prop := {
  ng_ub : w_ub w = false;
  ng_conn : server_conn (w_conn w);
  ng_htp : exists h, c_htp (w_conn w) = Some h /\ is_Some (w_htps w !! h);
  ng_hosts : hosts_ok (w_htps w);
  ng_pending : pending w = [];
  ng_reqs : w_reqs w = ∅;
  ng_cache : w_cache w = ∅
}.
Lemma negotiated_good w s :
  negotiated w -> forgets (nghttp2_session_new evhtp_type_server) s ->
  good [] (w <| w_app := (w_app w) <| ctx_session := Some s |> |>).
Proof.
  intros [] [Hf1 Hf2]. split; try done.
  - exists s. split_and!; [done|..].
    + intros sid i Hi. apply Hf1 in Hi. by rewrite (proj1 (new_session _ sid)) in Hi.
    + intros sid src Hs. apply Hf2 in Hs. by rewrite (proj2 (new_session _ sid)) in Hs.
  - unfold pending. cbn. unfold pending in ng_pending0. rewrite ng_pending0. constructor.
  - unfold pending. cbn. unfold pending in ng_pending0. rewrite ng_pending0. by inversion 1.
  - cbn. rewrite ng_reqs0. by intros i r ?%lookup_empty_Some.
  - cbn. rewrite ng_cache0. by intros h l ?%lookup_empty_Some.
Qed.
Lemma ctx_new_good cbs p w :
  negotiated w ->
  let s' := evhtp_h2_conn_ctx_new mem app beyond evhtp_type_server cbs (p, w) in
  s'.1 = true /\ good [] s'.2.2.
Proof.
  intros Hn. cbv zeta. unfold evhtp_h2_conn_ctx_new. rewrite run_allocs. cbn [snd fst]. rewrite Hmem. cbn [negb].
  set (w1 := w <| w_allocs := _ |>). pose proof (ng_conn _ Hn) as [Hl Hb _ _ _ _].
  assert (getbev (p, w1) = (w_conn w1, (p, w1))) as Hbev.
  { unfold getbev, getc. rewrite run_assoc, run_getw. cbn [snd]. change (w_conn w1) with (w_conn w).
    by rewrite Hl, run_ret, Hb. }
  rewrite (bind_eq _ _ _ _ _ Hbev), Hmem. cbn [negb]. unfold updh. rewrite run_updw. cbn [fst snd].
  assert (negotiated w1) as Hn1 by by destruct Hn.
  pose proof (keeps_start _ (negotiated_good w1 _ Hn1 initial_session_forgets)) as Hk.
  pose proof (session_run_safe cbs 0 (p, _) Hk) as Hs. unfold bind. cbn [snd] in Hs.
  destruct (session_run mem app beyond cbs 0 _) as [v s']. cbn in *. split; [done|by apply (keeps_good _ _ _ _ Hs)].
Qed.
End Safe.

(** ** Witness: a POST whose answer is streamed, and a GET *)

(** A session that keeps what it is told and does nothing of its own. *)
Record told := { t_users : gmap Z nat; t_sources : gmap Z data_source }.
#[export] Instance toy_nghttp2 : Nghttp2 := {
  session := told;
  data_source_of sid s := t_sources s !! sid;
  nghttp2_session_new _ := {| t_users := ∅; t_sources := ∅ |};
  nghttp2_submit_settings _ s := s;
  nghttp2_session_set_local_window_size _ s := s;
  nghttp2_session_set_stream_user_data sid i s :=
    {| t_users := partial_alter (fun _ => i) sid (t_users s); t_sources := t_sources s |};
  nghttp2_session_get_stream_user_data sid s := t_users s !! sid;
  nghttp2_submit_response sid _ prd s :=
    (0, {| t_users := t_users s; t_sources := partial_alter (fun _ => prd) sid (t_sources s) |});
  nghttp2_submit_request2 _ prd i s :=
    (1, {| t_users := <[1 := i]> (t_users s); t_sources := partial_alter (fun _ => prd) 1 (t_sources s) |});
  nghttp2_submit_rst_stream _ _ s := (0, s);
  nghttp2_session_resume_data _ s := s;
  nghttp2_session_consume _ _ s := s;
  nghttp2_submit_goaway _ s := s;
  nghttp2_stream_closed sid s := {| t_users := t_users s; t_sources := delete sid (t_sources s) |}
}.
#[export] Instance toy_laws : Nghttp2Laws (H := toy_nghttp2).
Proof.
  split; cbn; try (intros; apply forgets_refl); try done.
  - intros. left. apply lookup_partial_alter_eq.
  - intros. by rewrite lookup_partial_alter_ne.
  - intros sid sid' nva prd s src. destruct (decide (sid = sid')) as [->|Hne].
    + rewrite lookup_partial_alter_eq. auto.
    + rewrite lookup_partial_alter_ne by done. auto.
  - intros sid s. split; cbn; [done|]. intros sid' src. by intros [_ ?]%lookup_delete_Some.
  - intros. apply lookup_delete_eq.
Qed.

(** The callback starts its answer, to be continued later; the connection's
    hooks answer OK. *)
Definition starting_app : App (H := no_regex) (h2_state unit) := {|
  app_hook := fun _ _ _ _ _ => ret EVHTP_RES_OK;
  app_cb := fun i _ _ => ignore (run_h2_reply (fun _ => true) i (a_start 200));
  app_conn := fun _ _ _ _ => ret EVHTP_RES_OK; app_accept := fun _ _ => ret EVHTP_RES_OK
|}.
Lemma starting_app_good : app_good starting_app.
Proof.
  split; [by intros ? ? ? ? ? ? ? ? ? ? ?| |by intros ? ? ? ? ? ? ?]. intros i f arg s Hs.
  assert (safe (keeps [] [i] []) (ignore (run_h2_reply (B := unit) (fun _ => true) i (a_start 200)))) as Ha.
  { unfold ignore. apply safe_bind; [|intros; apply safe_ret]. apply h2_reply_safe; [done|left; by left|cbn; lia]. }
  eapply keeps_good, (Ha s Hs).
Qed.

Definition h2_host : evhtp := (sample_host None [] []) <| defaults := {|
  d_cb := 7; d_cbarg := 0; d_pre_accept := 0; d_pre_accept_cbarg := 0; d_post_accept := 0;
  d_post_accept_cbarg := 0 |} |>.
Definition h2_world : world (H := no_regex) (h2_state unit) := {|
  w_conn := (sample_conn 0 None) <| c_flags := Z.lor EVHTP_CONN_FLAG_OWNER EVHTP_CONN_FLAG_IS_HTTP2 |>;
  w_reqs := ∅; w_cache := ∅; w_htps := {[0%nat := h2_host]}; w_allocs := 0; w_ub := false;
  w_app := {| h2_pending := []; ctx_session := Some (initial_session evhtp_type_server);
              flush_active := false; h2_app := tt |} |}.
Definition frame (t : frame_type) (flags sid : Z) : nghttp2_frame :=
  {| hd_type := t; hd_flags := flags; hd_stream_id := sid; cat_request := true; goaway_last_stream_id := 0 |}.
Definition h2_fields (sid : Z) (method path : list Z) : list h2_callback :=
  [cb_begin_headers (frame NGHTTP2_HEADERS 4 sid); cb_header sid (bytes ":method") method;
   cb_header sid (bytes ":path") path; cb_header sid (bytes ":scheme") (bytes "https");
   cb_header sid (bytes ":authority") (bytes "a.org"); cb_header sid (bytes "x") (bytes "y")].
Definition h2_sample_events : list h2_event :=
  [h2_readable (bytes "frames")
     (h2_fields 1 (bytes "POST") (bytes "/p") ++
      [cb_frame_recv (frame NGHTTP2_HEADERS 4 1); cb_data_chunk_recv 1 (bytes "body");
       cb_frame_recv (frame NGHTTP2_DATA 1 1)] ++
      h2_fields 3 (bytes "GET") (bytes "/g?q=1") ++ [cb_frame_recv (frame NGHTTP2_HEADERS 5 3)]) 6
     [cb_send (bytes "[headers]"); cb_read 1 100] 0;
   h2_answer 0 (a_body (bytes "more")); h2_flushed [cb_read 1 100; cb_send (bytes "[data]")] 0;
   h2_answer 0 a_end; h2_answer 17 a_end;
   h2_flushed [cb_read 1 100; cb_read 3 100; cb_stream_close 3; cb_stream_close 1] 0;
   h2_written [] 0 [] 0 3; h2_reported BEV_EVENT_ERROR 0; h2_readable [] [] 0 [] 0].

Lemma h2_world_good : good [] h2_world.
Proof.
  refine (negotiated_good (h2_world <| w_app := {| h2_pending := []; ctx_session := None;
    flush_active := false; h2_app := tt |} |>) (initial_session evhtp_type_server) _ initial_session_forgets).
  split; try done.
  - by exists 0%nat.
  - intros i h Hh. change (({[0%nat := h2_host]} : gmap nat evhtp) !! i = Some h) in Hh. apply lookup_singleton_Some in Hh as [_ <-].
    split_and!; [intros l cb g [= <-]|intros s [=]|intros a]; by inversion 1.
Qed.
Lemma h2_events_safe_witness :
  let w' := (h2_deliver_all (fun _ => true) starting_app (fun _ => []) h2_sample_events
               (p_init htp_type_request, h2_world)).2.2 in
  bev_sent (w_conn w') = bytes "[headers][data]" /\ w_ub w' = false /\
  (good [] w' \/ c_freed (w_conn w') = true).
Proof.
  split; [vm_compute; reflexivity|].
  apply (h2_events_safe (fun _ => true) starting_app (fun _ => []) (fun _ => eq_refl) starting_app_good
    h2_sample_events); [exact h2_world_good|]. by repeat constructor.
Defined.
