(* ===== verification/H2Facts.v ===== *)
(** * evhtp.c: HTTP/2 connections, what is sent and what is received

    Which header fields are left out of a request or a response
    ([hop_by_hop_correct]), the body of a streamed reply
    ([streamed_reply_delivered]). *)

From S2P Require Import Prelude HtpTypes HtString MsgParser MsgParserFacts Triples Kvs Query Callbacks Numtoa Uri Request ReqParse ReqFacts Reply ReplyFacts Conn ConnInv H2 H2Inv H2Safe.
From stdpp Require Import gmap.
#[local] Open Scope Z_scope.
#[local] Open Scope htp_scope.

(** ** The Connection header *)

(** Its elements: what stands between commas, without the blanks around it. *)
Fixpoint split_commas (p : list Z) : list (list Z) :=
  match p with
  | [] => [[]]
  | c :: p => if c =? ","%c then [] :: split_commas p
              else match split_commas p with t :: ts => (c :: t) :: ts | [] => [[c]] end
  end.
Definition elements (p : list Z) : list (list Z) := map trim (split_commas p).
(** One of them is [name], in any case. *)
Definition named_in (name : list Z) (p : list Z) : bool := existsb (fun t => casecmp_eqb t name) (elements p).

Lemma casecmp_length s t : casecmp_eqb s t = true -> length s = length t.
Proof.
  intros H%bool_decide_eq_true_1. apply (f_equal length) in H. unfold lower in H. by rewrite !length_map in H.
Qed.
Lemma casecmp_and s t : (length s =? length t)%nat && casecmp_eqb s t = casecmp_eqb s t.
Proof.
  destruct (casecmp_eqb s t) eqn:E; [|by rewrite andb_false_r].
  apply casecmp_length in E. by rewrite E, Nat.eqb_refl.
Qed.

Section Elements.
Context (name : list Z) (Hname : name <> []).

Lemma empty_element : casecmp_eqb [] name = false.
Proof. apply bool_decide_eq_false_2. by destruct name. Qed.
Lemma split_commas_cons p : exists t ts, split_commas p = t :: ts.
Proof. destruct p as [|c p]; cbn; [eauto|]. case_match; [eauto|]. destruct (split_commas p); eauto. Qed.
Lemma named_in_sep c p : isblank c || (c =? ","%c) = true -> named_in name (c :: p) = named_in name p.
Proof.
  intros Hc. unfold named_in, elements. cbn [split_commas].
  destruct (Z.eqb_spec c ","%c) as [->|Hne]; cbn [map existsb].
  - change (trim []) with (@nil Z). by rewrite empty_element.
  - rewrite orb_false_r in Hc. destruct (split_commas_cons p) as (t & ts & ->). cbn [map existsb].
    unfold trim. cbn [ltrim]. by rewrite Hc.
Qed.
Lemma named_in_skip p : named_in name (skip_seps p) = named_in name p.
Proof.
  induction p as [|c p IH]; [done|]. cbn [skip_seps]. destruct (_ || _) eqn:E; [|done].
  by rewrite named_in_sep.
Qed.
Lemma skip_seps_head p : match skip_seps p with c :: _ => isblank c = false /\ c <> ","%c | [] => True end.
Proof.
  induction p as [|c p IH]; [done|]. cbn [skip_seps]. destruct (_ || _) eqn:E; [done|].
  apply orb_false_iff in E as [Hb Hc]. split; [done|]. by apply Z.eqb_neq.
Qed.
Lemma skip_seps_length p : (length (skip_seps p) <= length p)%nat.
Proof. induction p as [|c p IH]; [done|]. cbn [skip_seps]. case_match; cbn [length]; lia. Qed.
Lemma until_comma_split p : let '(t, rest) := until_comma p in
  split_commas p = t :: match rest with [] => [] | _ :: rest' => split_commas rest' end /\
  (length t + length rest = length p)%nat /\
  match rest with [] => True | c :: _ => c = ","%c end.
Proof.
  induction p as [|c p IH]; [done|]. cbn [until_comma split_commas]. destruct (Z.eqb_spec c ","%c) as [->|Hne]; [done|].
  destruct (until_comma p) as [t rest]. destruct IH as (-> & Hl & Hr). split_and!; [done|cbn; lia|done].
Qed.
(** One turn of the loop. *)
Lemma named_in_token p : p <> [] -> let '(t, rest) := connection_token p in
  named_in name p = casecmp_eqb t name || named_in name rest /\ (length rest < length p)%nat.
Proof.
  intros Hp. rewrite <- (named_in_skip p). unfold connection_token. pose proof (skip_seps_length p) as Hlen.
  pose proof (skip_seps_head p) as Hhead. pose proof (until_comma_split (skip_seps p)) as Hsplit.
  destruct (skip_seps p) as [|c q] eqn:Eq.
  - cbn. rewrite empty_element. split; [done|]. destruct p; [done|cbn; lia].
  - destruct Hhead as [Hb Hc]. destruct (until_comma (c :: q)) as [t rest] eqn:Eu. destruct Hsplit as (Hs & Hl & Hr).
    assert (exists t', t = c :: t') as [t' ->].
    { cbn in Eu. destruct (Z.eqb_spec c ","%c); [done|]. destruct (until_comma q). injection Eu as <- <-. eauto. }
    unfold named_in, elements. rewrite Hs. cbn [map existsb].
    assert (trim (c :: t') = rtrim (c :: t')) as -> by (unfold trim; cbn [ltrim]; by rewrite Hb).
    split; [|cbn in *; lia]. f_equal. destruct rest as [|c' rest']; [cbn; by rewrite empty_element|].
    subst c'. symmetry. apply named_in_sep. by rewrite orb_true_r.
Qed.
Lemma connection_lists_loop_ok fuel p :
  (length p <= fuel)%nat -> connection_lists_loop fuel p name = named_in name p.
Proof.
  revert p. induction fuel as [|fuel IH]; intros p Hf.
  { destruct p; [|cbn in Hf; lia]. cbn. by rewrite empty_element. }
  destruct p as [|c p]; [cbn; by rewrite empty_element|].
  pose proof (named_in_token (c :: p) ltac:(done)) as Ht. cbn [connection_lists_loop].
  destruct (connection_token (c :: p)) as [t rest]. destruct Ht as [-> Hl]. rewrite casecmp_and.
  destruct (casecmp_eqb t name); [done|]. apply IH. lia.
Qed.
End Elements.

(** ** Header fields that are not sent *)

Definition header_key (x : evhtp_kv) : list Z := default [] (key x).
Definition header_val (x : evhtp_kv) : list Z := default [] (val x).
(** The fields that RFC 9113 8.2.2 forbids in a request, and Host. *)
Definition hop_by_hop (name value : list Z) (hs : evhtp_kvs) : Prop :=
  lower name ∈ map bytes ["host"; "connection"; "keep-alive"; "proxy-connection"; "transfer-encoding"; "upgrade"]%string \/
  (lower name = bytes "te" /\ lower value <> bytes "trailers") \/
  (lower name <> bytes "te" /\ exists x t, x ∈ hs /\ lower (header_key x) = bytes "connection" /\
     t ∈ elements (header_val x) /\ lower t = lower name).

Lemma take_casecmp s t : (length s =? length t)%nat && casecmp_eqb (take (length t) s) t = casecmp_eqb s t.
Proof.
  destruct (Nat.eqb_spec (length s) (length t)) as [E|Hne].
  - by rewrite <- E, firstn_all.
  - destruct (casecmp_eqb s t) eqn:Hc; [|done]. by apply casecmp_length in Hc.
Qed.
Lemma key_is_casecmp x name : kv_wf x -> key_is x name = casecmp_eqb (header_key x) name.
Proof. intros (Hk & _). unfold key_is, header_key. rewrite Hk. apply take_casecmp. Qed.
Lemma casecmp_lower s t : lower t = t -> casecmp_eqb s t = true <-> lower s = t.
Proof. intros Ht. unfold casecmp_eqb. by rewrite Ht, bool_decide_eq_true. Qed.

Lemma named_by_connection_ok hs name :
  name <> [] -> Forall kv_wf hs ->
  h2__named_by_connection hs name = true <->
  exists x t, x ∈ hs /\ lower (header_key x) = bytes "connection" /\ t ∈ elements (header_val x) /\ lower t = lower name.
Proof.
  intros Hn Hwf. unfold h2__named_by_connection. rewrite existsb_exists. setoid_rewrite list_elem_of_In.
  rewrite Forall_forall in Hwf.
  assert (forall x, kv_wf x -> h2__connection_lists (val x) name = named_in name (header_val x)) as Hlist.
  { intros x (_ & _ & _ & Hv). unfold h2__connection_lists, header_val in *. destruct (val x) as [v|].
    - cbn [default from_option id] in *. unfold default, from_option, id in Hv. rewrite Hv.
      by apply connection_lists_loop_ok.
    - cbn. by rewrite empty_element. }
  split.
  - intros (x & Hx & [Hk Hl]%andb_true_iff). pose proof (Hwf x ltac:(by apply list_elem_of_In)) as Hw.
    rewrite key_is_casecmp in Hk by done. rewrite Hlist in Hl by done.
    apply existsb_exists in Hl as (t & Ht & Hc%bool_decide_eq_true_1). exists x, t. split_and!; try done.
    by apply casecmp_lower.
  - intros (x & t & Hx & Hk & Ht & Hl). pose proof (Hwf x ltac:(by apply list_elem_of_In)) as Hw. exists x. split; [done|].
    rewrite key_is_casecmp, Hlist by done. apply andb_true_iff. split; [by apply casecmp_lower|].
    apply existsb_exists. exists t. split; [done|]. by apply bool_decide_eq_true_2.
Qed.

(** C34: the fields of a request that are not sent over HTTP/2 are exactly Host,
    the connection-specific ones, TE unless it is "trailers", and those that an
    element of a Connection header names; names and elements are compared
    without regard to case, the elements being what stands between commas
    without the blanks around it, however many commas and blanks there are.  Of
    a response the five connection-specific fields are left out. *)
Theorem hop_by_hop_correct kv hs :
  kv_wf kv -> Forall kv_wf hs -> header_key kv <> [] ->
  (skip_hop_by_hop_request_header kv hs = true <-> hop_by_hop (header_key kv) (header_val kv) hs) /\
  (skip_h2_response_header kv = true <-> lower (header_key kv) ∈
     map bytes ["upgrade"; "connection"; "keep-alive"; "proxy-connection"; "transfer-encoding"]%string).
Proof.
  intros Hkv Hhs Hk.
  assert (forall l : list string, Forall (fun s => lower (bytes s) = bytes s) l ->
    existsb (key_is kv) (map bytes l) = true <-> lower (header_key kv) ∈ map bytes l) as Hin.
  { intros l Hl. rewrite existsb_exists. setoid_rewrite key_is_casecmp; [|done]. rewrite Forall_forall in Hl. split.
    - intros (n & Hn & Hc). apply in_map_iff in Hn as (s & <- & Hs). rewrite casecmp_lower in Hc by (by apply Hl, list_elem_of_In).
      rewrite Hc. apply list_elem_of_In, in_map_iff. eauto.
    - intros Hn. exists (lower (header_key kv)). apply list_elem_of_In in Hn. split; [done|].
      apply in_map_iff in Hn as (s & E & Hs). apply casecmp_lower; [|done]. rewrite <- E.
      by apply Hl, list_elem_of_In. }
  split; [|apply (Hin ["upgrade"; "connection"; "keep-alive"; "proxy-connection"; "transfer-encoding"]%string); by repeat constructor].
  unfold skip_hop_by_hop_request_header, hop_by_hop.
  pose proof (Hin ["host"; "connection"; "keep-alive"; "proxy-connection"; "transfer-encoding"; "upgrade"]%string
    ltac:(by repeat constructor)) as Hfix. cbn [map] in Hfix.
  destruct (existsb (key_is kv) _); [tauto|]. rewrite key_is_casecmp by done.
  assert (~ lower (header_key kv) ∈ map bytes ["host"; "connection"; "keep-alive"; "proxy-connection"; "transfer-encoding"; "upgrade"]%string)
    as Hno by (rewrite <- Hfix; done).
  destruct (casecmp_eqb (header_key kv) (bytes "te")) eqn:Ete.
  - apply casecmp_lower in Ete; [|done]. destruct Hkv as (_ & Hv & _).
    change (default [] (val kv)) with (header_val kv) in *. rewrite Hv.
    change 8%nat with (length (bytes "trailers")). rewrite take_casecmp, negb_true_iff.
    assert (casecmp_eqb (header_val kv) (bytes "trailers") = false <-> lower (header_val kv) <> bytes "trailers") as ->; [|tauto].
    rewrite <- casecmp_lower by done. by destruct (casecmp_eqb _ _).
  - assert (lower (header_key kv) <> bytes "te") as Hte by (rewrite <- casecmp_lower by done; by rewrite Ete).
    destruct Hkv as (Hlen & _). change (default [] (key kv)) with (header_key kv) in *.
    rewrite Hlen, firstn_all, named_by_connection_ok by done. tauto.
Qed.

Definition named_field (k v : string) : evhtp_kv := {|
  addr := 0; key := Some (bytes k); val := Some (bytes v); klen := length (bytes k); vlen := length (bytes v);
  k_heaped := 0; v_heaped := 0 |}.
Lemma hop_by_hop_correct_witness :
  hop_by_hop (bytes "X-A") (bytes "1") [named_field "X-A" "1"; named_field "Connection" "close, , x-a"].
Proof.
  apply (proj1 (hop_by_hop_correct (named_field "X-A" "1")
    [named_field "X-A" "1"; named_field "Connection" "close, , x-a"] ltac:(by repeat split)
    ltac:(by repeat constructor) ltac:(done))).
  vm_compute. reflexivity.
Defined.

(** ** Streamed replies *)

Section Stream.
Context `{rx : RegexLib} `{ng : Nghttp2} {B : Type} (mem : nat -> bool).
Context (Hmem : forall k, mem k = true).
Abbreviation W := (world (h2_state B)).
Implicit Types (w : W) (r : evhtp_request).

(** What the application does with a streamed reply, and nghttp2's reads. *)
Inductive stream_op := s_body (buf : list Z) | s_end | s_read (n : nat).
(** The results of the reads: [None] is "nothing yet". *)
Fixpoint stream_run (i : nat) (ops : list stream_op) : M (St W) (list (option (list Z * bool))) :=
  match ops with
  | [] => ret []
  | s_body buf :: ops => evhtp_h2_send_reply_body i buf ;; stream_run i ops
  | s_end :: ops => evhtp_h2_send_reply_end i ;; stream_run i ops
  | s_read n :: ops => x <- h2__stream_read_cb_ i n ;; xs <- stream_run i ops ;; ret (x :: xs)
  end.

(** The specification: a queue of bytes and whether its end is known. *)
Fixpoint queue_run (q : list Z) (ended : bool) (ops : list stream_op) :
    list (option (list Z * bool)) * (list Z * bool) :=
  match ops with
  | [] => ([], (q, ended))
  | s_body buf :: ops => queue_run (if ended then q else q ++ buf) ended ops
  | s_end :: ops => queue_run q true ops
  | s_read n :: ops =>
      let x := if bool_decide (take n q = []) && negb ended then None
               else Some (take n q, ended && bool_decide (drop n q = [])) in
      let '(xs, s) := queue_run (drop n q) ended ops in (x :: xs, s)
  end.

(** The reply on [i] is being streamed, with this much to send. *)
Record streaming (i : nat) (q : list Z) (ended : bool) w : Prop := {
  st_req : exists r, w_reqs w !! i = Some r /\ r_conn r = true /\ buffer_out r = Some q /\
    has (r_flags r) EVHTP_REQ_FLAG_H2_STREAMING = true /\ has (r_flags r) EVHTP_REQ_FLAG_FINISHED = ended;
  st_session : is_Some (ctx_session (w_app w));
  st_ub : w_ub w = false
}.

Lemma set_flag_eq i f p w r :
  w_reqs w !! i = Some r ->
  set_req_flag (B := B) i f (p, w) =
    (tt, (p, w <| w_reqs := <[i := r <| r_flags := flag_on (r_flags r) f |>]> (w_reqs w) |>)).
Proof. intros Hr. unfold set_req_flag, upd_req, updw. cbn. by rewrite (alter_known _ _ _ _ Hr). Qed.
(** Waking the stream changes nothing of the reply. *)
Lemma stream_resume_eq i q ended p w :
  streaming i q ended w -> exists w', h2__stream_resume_ (B := B) i (p, w) = (0, (p, w')) /\ streaming i q ended w'.
Proof.
  intros [(r & Hr & Hc & Hb & Hf) [s Hs] Hub]. unfold h2__stream_resume_, with_conn.
  rewrite (with_req_eq _ _ _ r) by done. rewrite Hc. unfold on_session, geth. rewrite run_assoc, run_getw. cbn [snd]. rewrite Hs.
  unfold updh, h2__schedule_flush_, updh. rewrite run_assoc, run_updw, run_ret, run_updw. eexists. split; [reflexivity|].
  split; [by exists r|by eexists|done].
Qed.
Lemma body_step i q ended buf p w :
  streaming i q ended w -> exists v w', evhtp_h2_send_reply_body (B := B) i buf (p, w) = (v, (p, w')) /\
    streaming i (if ended then q else q ++ buf) ended w'.
Proof.
  intros Hst. pose proof Hst as [(r & Hr & Hc & Hb & Hs & Hf) Hses Hub]. unfold evhtp_h2_send_reply_body.
  rewrite (with_req_eq _ _ _ r) by done. rewrite Hs, Hf. cbn [negb orb]. destruct ended; [by eexists _, _|].
  unfold upd_req. rewrite run_updw. cbn [fst snd].
  match goal with |- context [(p, ?x)] => assert (streaming i (q ++ buf) false x) as Hx end.
  { split; [|done..]. eexists. cbn. rewrite lookup_alter_eq, Hr. split; [reflexivity|]. cbn. by rewrite Hb. }
  destruct (stream_resume_eq i _ _ p _ Hx) as (w' & E & Hw'). unfold bind. rewrite E. by eexists _, _.
Qed.
Lemma end_step i q ended p w :
  streaming i q ended w -> exists v w', evhtp_h2_send_reply_end (B := B) i (p, w) = (v, (p, w')) /\
    streaming i q true w'.
Proof.
  intros [(r & Hr & Hc & Hb & Hs & Hf) Hses Hub]. unfold evhtp_h2_send_reply_end.
  rewrite (bind_eq _ _ _ _ _ (set_flag_eq i _ p w r Hr)).
  set (r' := r <| r_flags := _ |>). set (w' := w <| w_reqs := _ |>).
  assert (w_reqs w' !! i = Some r') as Hr' by apply lookup_insert_eq.
  assert (has (r_flags r') EVHTP_REQ_FLAG_H2_STREAMING = true) as Hs' by (cbn; rewrite has_on_ne by done; exact Hs).
  assert (has (r_flags r') EVHTP_REQ_FLAG_FINISHED = true) as Hf' by (cbn; by apply has_on_eq).
  assert (streaming i q true w') as Hst by (split; [by exists r'|done..]).
  rewrite (with_req_eq _ _ _ r') by done. rewrite Hs'. destruct (stream_resume_eq i _ _ p _ Hst) as (w2 & E & Hw2).
  unfold bind. rewrite E. by eexists _, _.
Qed.
Lemma read_step_ok i q ended n p w :
  streaming i q ended w -> exists w',
    h2__stream_read_cb_ (B := B) i n (p, w) =
      (if bool_decide (take n q = []) && negb ended then None
       else Some (take n q, ended && bool_decide (drop n q = [])), (p, w')) /\
    streaming i (drop n q) ended w'.
Proof.
  intros [(r & Hr & Hc & Hb & Hs & Hf) Hses Hub]. unfold h2__stream_read_cb_. rewrite run_getw. cbn [snd]. rewrite Hr.
  cbn [mbind option_bind]. rewrite Hb. cbn [mbind option_bind]. rewrite Hf.
  assert ((Nat.min (length q) n =? 0)%nat = bool_decide (take n q = [])) as ->.
  { destruct q as [|c q], n as [|n]; done. }
  assert (take (Nat.min (length q) n) q = take n q /\ drop (Nat.min (length q) n) q = drop n q) as [-> ->].
  { destruct (Nat.min_spec (length q) n) as [[Hlt ->]|[Hle ->]]; [|done]. rewrite firstn_all, drop_all.
    by rewrite take_ge, drop_ge by lia. }
  destruct (bool_decide (take n q = []) && negb ended) eqn:E.
  - eexists. split; [reflexivity|]. apply andb_true_iff in E as [E1%bool_decide_eq_true_1 E2].
    assert (drop n q = q) as -> by (rewrite <- (take_drop n q) at 2; by rewrite E1).
    split; [by exists r|done..].
  - unfold upd_req. rewrite run_updw. cbn [fst snd]. eexists. split; [reflexivity|]. split; [|done..].
    eexists. cbn. rewrite lookup_alter_eq, Hr. split; [reflexivity|]. cbn. by split_and!.
Qed.

(** The model does what the specification says. *)
Lemma stream_run_ok i ops : forall q ended p w, streaming i q ended w -> exists w',
  stream_run i ops (p, w) = ((queue_run q ended ops).1, (p, w')) /\
  streaming i (queue_run q ended ops).2.1 (queue_run q ended ops).2.2 w'.
Proof.
  induction ops as [|[buf| |n] ops IH]; intros q ended p w Hst; cbn [stream_run queue_run].
  - by exists w.
  - destruct (body_step i q ended buf p w Hst) as (v & w1 & E & H1). rewrite (bind_eq _ _ _ _ _ E). by apply IH.
  - destruct (end_step i q ended p w Hst) as (v & w1 & E & H1). rewrite (bind_eq _ _ _ _ _ E). by apply IH.
  - destruct (read_step_ok i q ended n p w Hst) as (w1 & E & H1). rewrite (bind_eq _ _ _ _ _ E).
    destruct (IH (drop n q) ended p w1 H1) as (w2 & E2 & H2). rewrite (bind_eq _ _ _ _ _ E2).
    destruct (queue_run (drop n q) ended ops) as [xs s]. by exists w2.
Qed.

(** What the reads gave, and what was supplied. *)
Definition read_bytes (xs : list (option (list Z * bool))) : list Z :=
  concat (map (fun x => match x with Some (d, _) => d | None => [] end) xs).
Lemma read_bytes_cons x xs :
  read_bytes (x :: xs) = match x with Some (d, _) => d | None => [] end ++ read_bytes xs.
Proof. done. Qed.
Fixpoint supplied (ops : list stream_op) : list Z :=
  match ops with s_body buf :: ops => buf ++ supplied ops | _ :: ops => supplied ops | [] => [] end.

Lemma queue_run_app ops1 ops2 : forall q ended,
  let '(xs, (q1, e1)) := queue_run q ended ops1 in let '(ys, s) := queue_run q1 e1 ops2 in
  queue_run q ended (ops1 ++ ops2) = (xs ++ ys, s).
Proof.
  induction ops1 as [|[buf| |n] ops1 IH]; intros q ended; cbn [queue_run app]; [by destruct (queue_run _ _ _)|apply IH|apply IH|].
  specialize (IH (drop n q) ended). destruct (queue_run (drop n q) ended ops1) as [xs [q1 e1]].
  destruct (queue_run q1 e1 ops2) as [ys s]. by rewrite IH.
Qed.
(** Before the end: nothing is lost, and no read is told it is the last. *)
Lemma queue_open ops : s_end ∉ ops -> forall q,
  let '(xs, (q', e)) := queue_run q false ops in
  e = false /\ read_bytes xs ++ q' = q ++ supplied ops /\ forall d, Some (d, true) ∉ xs.
Proof.
  induction ops as [|[buf| |n] ops IH]; intros Hne q; cbn [queue_run supplied].
  - rewrite app_nil_r. split_and!; [done..|]. by intros d ?%not_elem_of_nil.
  - specialize (IH ltac:(set_solver) (q ++ buf)). destruct (queue_run (q ++ buf) false ops) as [xs [q' e]].
    by rewrite <- app_assoc in IH.
  - by destruct Hne; left.
  - specialize (IH ltac:(set_solver) (drop n q)). destruct (queue_run (drop n q) false ops) as [xs [q' e]].
    destruct IH as (-> & IH & Hno). split_and!; [done| |].
    + rewrite read_bytes_cons, <- app_assoc, IH, app_assoc. f_equal.
      transitivity (take n q ++ drop n q); [f_equal|apply take_drop].
      destruct (_ && _) eqn:E; [|done]. by apply andb_true_iff in E as [->%bool_decide_eq_true_1 _].
    + intros d [E|Hin]%elem_of_cons; [by case_match|by eapply Hno].
Qed.
(** After it: every read takes its share, and is the last when nothing is left. *)
Lemma queue_ended n k : forall q,
  let '(xs, s) := queue_run q true (replicate k (s_read n)) in
  s = (drop (k * n) q, true) /\
  (forall m, (m <= k)%nat -> read_bytes (take m xs) = take (m * n) q) /\
  forall m d l, xs !! m = Some (Some (d, l)) -> (l = true <-> (length q <= S m * n)%nat).
Proof.
  induction k as [|k IH]; intros q; cbn [replicate queue_run].
  { split_and!; try done. intros m Hm. by assert (m = 0)%nat as -> by lia. }
  specialize (IH (drop n q)). destruct (queue_run (drop n q) true _) as [xs s]. destruct IH as (-> & Hb & Hl).
  rewrite andb_false_r. split_and!.
  - by rewrite drop_drop.
  - intros [|m] Hm; [done|]. cbn [take]. rewrite read_bytes_cons, Hb by lia. apply take_take_drop.
  - intros [|m] d l.
    + intros [= <- <-]. cbn. rewrite bool_decide_eq_true. split.
      * intros E. apply (f_equal length) in E. rewrite length_drop in E. cbn in E. lia.
      * intros Hle. apply drop_ge. lia.
    + intros Hx. rewrite (Hl m d l Hx), length_drop. lia.
Qed.
Lemma queue_ended_length n k q : length (queue_run q true (replicate k (s_read n))).1 = k.
Proof.
  revert q. induction k as [|k IH]; intros q; cbn [replicate queue_run]; [done|].
  specialize (IH (drop n q)). destruct (queue_run _ _ _). cbn in *. by rewrite IH.
Qed.

(** The application has not answered yet; it may have put something into the
    buffer already. *)
Record unanswered (i : nat) (q : list Z) w : Prop := {
  un_req : exists r, w_reqs w !! i = Some r /\ r_conn r = true /\ buffer_out r = Some q /\
    is_Some (headers_out r) /\ has (r_flags r) EVHTP_REQ_FLAG_FINISHED = false;
  un_session : is_Some (ctx_session (w_app w));
  un_ub : w_ub w = false
}.
(** nghttp2 takes the response. *)
Definition submits : Prop := forall sid nva prd s, (nghttp2_submit_response sid nva prd s).1 = 0.
Lemma start_ok i q code p w :
  submits -> unanswered i q w -> 0 <= code < 1000 -> exists w',
    evhtp_h2_send_reply_start (B := B) mem i code (p, w) = (0, (p, w')) /\ streaming i q false w'.
Proof.
  intros Hsub [(r & Hr & Hc & Hb & [hs Hhs] & Hf) [s Hs] Hub] Hcode. unfold evhtp_h2_send_reply_start, with_conn.
  rewrite (with_req_eq _ _ _ r) by done. rewrite Hc. unfold h2__response_nv_. rewrite Hhs, run_assoc, run_allocs. cbn [snd fst].
  rewrite Hmem. cbn [negb]. pose proof (three_digits code Hcode) as Hd.
  destruct (3 <? _)%nat eqn:E3; [apply Nat.ltb_lt in E3; lia|]. rewrite run_ret.
  set (nva := _ :: _). clearbody nva. set (w1 := w <| w_allocs := _ |>).
  assert (ctx_session (w_app w1) = Some s) as Hs1 by done.
  unfold on_session, geth. rewrite run_assoc, run_getw. cbn [snd]. rewrite Hs1.
  pose proof (Hsub (stream_id r) nva (Some (streamed_body i)) s) as Hrv.
  destruct (nghttp2_submit_response _ _ _ s) as [rv s']. cbn in Hrv. subst rv.
  unfold updh, h2__schedule_flush_, updh. rewrite run_assoc, run_updw, run_ret. cbn [negb Z.eqb].
  set (w2 := (p, w1).2 <| w_app := _ |>). assert (w_reqs w2 !! i = Some r) as Hr2 by done.
  rewrite (bind_eq _ _ _ _ _ (set_flag_eq i _ p w2 r Hr2)), run_updw. eexists. split; [reflexivity|].
  split; [|by eexists|done]. eexists. cbn. rewrite lookup_insert_eq. split; [reflexivity|]. cbn. split_and!; [done..|by apply has_on_eq|].
  by rewrite has_on_ne.
Qed.

(** C14: a streamed reply delivers what the application supplies.  After
    evhtp_send_reply_start, however the application's pieces of body and
    nghttp2's reads (of any sizes) follow one another before
    evhtp_send_reply_end, and when nghttp2 then reads on, the reads together are
    what was in the buffer and all the pieces, in order and nothing twice; a
    read is told that it is the last exactly from the moment nothing is left,
    never before the application ended the reply; and the buffer is left
    empty. *)
Theorem streamed_reply_delivered i q code ops n k p w :
  submits -> unanswered i q w -> 0 <= code < 1000 -> s_end ∉ ops ->
  let body := q ++ supplied ops in
  (length body <= k * n)%nat -> (0 < k)%nat ->
  exists early late w',
    (evhtp_h2_send_reply_start mem i code ;; stream_run i (ops ++ s_end :: replicate k (s_read n))) (p, w) =
      (early ++ late, (p, w')) /\
    read_bytes (early ++ late) = body /\
    (forall d, Some (d, true) ∉ early) /\ length late = k /\
    (forall m d l, late !! m = Some (Some (d, l)) ->
       (l = true <-> read_bytes (early ++ take (S m) late) = body)) /\
    streaming i [] true w'.
Proof.
  intros Hsub Hun Hcode Hne body Hlen Hk. destruct (start_ok i q code p w Hsub Hun Hcode) as (w1 & E1 & Hst).
  rewrite (bind_eq _ _ _ _ _ E1). destruct (stream_run_ok i (ops ++ s_end :: replicate k (s_read n)) q false p w1 Hst) as (w2 & E2 & Hst2).
  rewrite E2. pose proof (queue_run_app ops (s_end :: replicate k (s_read n)) q false) as Happ.
  pose proof (queue_open ops Hne q) as Hopen. destruct (queue_run q false ops) as [xs [q1 e1]]. destruct Hopen as (-> & Hb1 & Hno).
  cbn [queue_run] in Happ. pose proof (queue_ended n k q1) as Hend. pose proof (queue_ended_length n k q1) as Hl.
  destruct (queue_run q1 true (replicate k (s_read n))) as [ys s]. destruct Hend as (-> & Hb2 & Hlast). cbn in Hl.
  rewrite Happ in Hst2 |- *. cbn [fst snd] in *.
  assert (forall xs ys, read_bytes (xs ++ ys) = read_bytes xs ++ read_bytes ys) as Hcat.
  { intros. unfold read_bytes. by rewrite map_app, concat_app. }
  assert (length q1 <= k * n)%nat as Hq1.
  { apply (f_equal length) in Hb1. fold body in Hb1. rewrite length_app in Hb1. lia. }
  exists xs, ys, w2. split_and!; try done.
  - rewrite Hcat, <- (firstn_all ys), Hl, Hb2, take_ge by done. done.
  - intros m d l Hm. pose proof (lookup_lt_Some _ _ _ Hm) as Hmk. rewrite (Hlast m d l Hm), Hcat, Hb2 by lia.
    fold body in Hb1. rewrite <- Hb1. split; [intros Hle; by rewrite take_ge|].
    intros E%app_inv_head. apply (f_equal length) in E. rewrite length_take in E. lia.
  - by rewrite drop_ge in Hst2.
Qed.
End Stream.

(** ** Witness: a reply in pieces *)

Definition piece_ops : list stream_op :=
  [s_read 4; s_body (bytes "ab"); s_read 1; s_body (bytes "cde"); s_read 0].
Definition piece_world : world (H := no_regex) (h2_state unit) :=
  h2_world <| w_reqs := {[0%nat := (new_request (Some 0%nat)) <| stream_id := 1 |>]} |> <| w_allocs := 1%nat |>.
Lemma streamed_reply_delivered_witness :
  exists early late w',
    (evhtp_h2_send_reply_start (fun _ => true) 0 200 ;; stream_run 0 (piece_ops ++ s_end :: replicate 3 (s_read 2)))
      (p_init htp_type_request, piece_world) = (early ++ late, (p_init htp_type_request, w')) /\
    read_bytes (early ++ late) = bytes "abcde" /\ w_ub w' = false.
Proof.
  destruct (streamed_reply_delivered (fun _ => true) (fun _ => eq_refl) 0 [] 200 piece_ops 2 3
    (p_init htp_type_request) piece_world) as (early & late & w' & E & Hb & _ & _ & _ & [_ _ Hub]).
  - intros sid nva prd s. reflexivity.
  - split; [|by eexists|done]. eexists. split; [reflexivity|]. by repeat split; eexists.
  - lia.
  - intros H%list_elem_of_In. by repeat destruct H as [H|H].
  - vm_compute. lia.
  - lia.
  - exists early, late, w'. by split_and!.
Defined.
