(* ===== verification/H2Serve.v ===== *)
(** * evhtp.c: a request over HTTP/2, from its frames to the application

    nghttp2 reports a request as a HEADERS frame, its fields one by one, and
    DATA frames; the callbacks of evhtp.c build the request from them, route it
    and run the application's callback ([h2_request_delivered]). *)

From S2P Require Import Prelude HtpTypes HtString MsgParser MsgParserFacts Kvs Query Callbacks Numtoa Uri Request ReqParse ReqFacts ReqEnd Reply ReplyFacts Conn ConnInv H2 H2Inv H2Safe H2Facts.
From stdpp Require Import gmap.
#[local] Open Scope Z_scope.
#[local] Open Scope htp_scope.

(** ** What nghttp2 reports *)

(** A request in the order this library's clients send it; [hm_data]: the
    payloads of the DATA frames. *)
Record h2_message := {
  hm_method : list Z; hm_target : list Z; hm_scheme : list Z;
  hm_authority : list Z; hm_fields : list (list Z * list Z); hm_data : list (list Z)
}.

Definition h2_frame (t : frame_type) (flags sid : Z) : nghttp2_frame :=
  {| hd_type := t; hd_flags := flags; hd_stream_id := sid; cat_request := true;
     goaway_last_stream_id := 0 |}.
(** The last frame of a message ends the stream. *)
Definition end_stream {A} (rest : list A) : Z :=
  match rest with [] => NGHTTP2_FLAG_END_STREAM | _ => 0 end.
Definition pseudo_callbacks (sid : Z) (m : h2_message) : list h2_callback :=
  [cb_header sid (bytes ":method") (hm_method m); cb_header sid (bytes ":path") (hm_target m);
   cb_header sid (bytes ":scheme") (hm_scheme m); cb_header sid (bytes ":authority") (hm_authority m)].
Definition field_callbacks (sid : Z) (fs : list (list Z * list Z)) : list h2_callback :=
  map (fun f => cb_header sid f.1 f.2) fs.
Definition headers_flags (m : h2_message) : Z :=
  Z.lor NGHTTP2_FLAG_END_HEADERS (end_stream (hm_data m)).
(** An empty DATA frame has no chunk. *)
Fixpoint data_callbacks (sid : Z) (ds : list (list Z)) : list h2_callback :=
  match ds with
  | [] => []
  | d :: ds => match d with [] => [] | _ => [cb_data_chunk_recv sid d] end ++
      cb_frame_recv (h2_frame NGHTTP2_DATA (end_stream ds) sid) :: data_callbacks sid ds
  end.
Definition message_callbacks (sid : Z) (m : h2_message) : list h2_callback :=
  cb_begin_headers (h2_frame NGHTTP2_HEADERS (headers_flags m) sid) :: pseudo_callbacks sid m ++
  field_callbacks sid (hm_fields m) ++
  cb_frame_recv (h2_frame NGHTTP2_HEADERS (headers_flags m) sid) :: data_callbacks sid (hm_data m).

(** ** Routing twice is routing once *)

Lemma overlay_idem src buf : overlay src (overlay src buf) = overlay src buf.
Proof. unfold overlay. by rewrite drop_app_length. Qed.
Lemma set_matches_idem so eo p : set_matches so eo (set_matches so eo p) = set_matches so eo p.
Proof.
  unfold set_matches. destruct (so =? 2 ^ 32 - 1) eqn:E; cbn; rewrite ?E; [done|].
  cbn. by rewrite !overlay_idem.
Qed.

Section Routing.
Context `{rx : RegexLib}.
(** The callback that was chosen is chosen again. *)
Lemma select_again host r p r' cb arg so eo :
  r_cb r = 0 -> select_callback host r p = Some (cb, arg, None, so, eo) ->
  r_cb r' = cb -> r_cbarg r' = arg ->
  select_callback host r' (set_matches so eo p) = Some (cb, arg, None, so, eo).
Proof.
  intros Hr Hs Hcb Harg. unfold select_callback in *. rewrite Hr in Hs.
  assert (full (set_matches so eo p) = full p /\ path (set_matches so eo p) = path p /\
    matched_soff (set_matches so eo p) = so /\ matched_eoff (set_matches so eo p) = eo) as (-> & -> & -> & ->).
  { unfold set_matches. by destruct (so =? 2 ^ 32 - 1). }
  destruct (htp__callback_find_ _ (full p)) as [[[[]]|]|]; [done| |done].
  destruct (htp__callback_find_ _ (default [] (path p))) as [[[[]]|]|]; [done| |done].
  cbn [negb Z.eqb] in Hs. injection Hs as -> -> <- <-. rewrite Hcb, Harg. by destruct (cb =? 0).
Qed.
End Routing.

(** ** The request so far *)

Section Serve.
Context `{rx : RegexLib} `{ng : Nghttp2} {B : Type}.
Context (mem : nat -> bool) (Hmem : forall k, mem k = true).
Context (app : App (h2_state B)) (beyond : list Z -> list Z).
Context (h : nat) (host : evhtp) (Hvhosts : vhosts host = []).
Context (sid : Z).
Abbreviation W := (world (h2_state B)).
Implicit Types (w : W) (r : evhtp_request).
Abbreviation callback := (run_callback mem app beyond).
Abbreviation callbacks_ := (run_callbacks mem app beyond).

(** nghttp2 has the stream, keeps its user data, and does not lose it when the
    flow control window is enlarged. *)
Definition stream_open (s : session) : Prop :=
  (forall i, nghttp2_session_get_stream_user_data sid (nghttp2_session_set_stream_user_data sid i s) = i).
Definition consume_keeps : Prop := forall n s,
  nghttp2_session_get_stream_user_data sid (nghttp2_session_consume sid n s) =
  nghttp2_session_get_stream_user_data sid s.

(** The stream's request, at [i], is [r] so far; [w0] is the store from before. *)
Record reading (w0 : W) (i : nat) r w : Prop := {
  rg_serving : serving h host w;
  rg_alive : c_freed (w_conn w) = false;
  rg_session : exists s, ctx_session (w_app w) = Some s /\
    nghttp2_session_get_stream_user_data sid s = Some i;
  rg_req : w_reqs w !! i = Some r;
  rg_rhtp : r_htp r = Some h;
  rg_conn : r_conn r = true;
  rg_hooks : forall t, hook_set (r_hooks r) t = None;
  rg_status : r_status r = EVHTP_RES_OK;
  rg_open : has (r_flags r) EVHTP_REQ_FLAG_FINISHED = false;
  rg_lists : is_Some (headers_in r) /\ is_Some (buffer_in r);
  rg_ub : w_ub w = w_ub w0;
  rg_others : forall j, j <> i -> w_reqs w !! j = w_reqs w0 !! j;
  rg_pending : h2_pending (w_app w) = h2_pending (w_app w0) ++ [i];
  rg_app : h2_app (w_app w) = h2_app (w_app w0)
}.

Section From.
Context (w0 : W) (i : nat).

(** [w] with the request replaced. *)
Lemma reading_upd r w r' w' :
  reading w0 i r w -> w_conn w' = w_conn w -> w_htps w' = w_htps w -> w_app w' = w_app w ->
  w_ub w' = w_ub w -> w_reqs w' = <[i := r']> (w_reqs w) ->
  r_htp r' = r_htp r -> r_conn r' = r_conn r -> r_hooks r' = r_hooks r -> r_status r' = EVHTP_RES_OK ->
  has (r_flags r') EVHTP_REQ_FLAG_FINISHED = false -> is_Some (headers_in r') -> is_Some (buffer_in r') ->
  reading w0 i r' w'.
Proof.
  intros [[] ? ? ? ? ? ? ? ? ? ? Ho ? ?] Hc Hh Ha Hu Hr E1 E2 E3 ? ? ? ?.
  split; rewrite ?Hc, ?Ha, ?Hr; try done; try congruence.
  - split; rewrite ?Hc, ?Hh; done.
  - apply lookup_insert_eq.
  - intros j Hj. rewrite lookup_insert_ne by done. by apply Ho.
Qed.
Lemma reading_same r w w' :
  reading w0 i r w -> w_conn w' = w_conn w -> w_htps w' = w_htps w -> w_app w' = w_app w ->
  w_ub w' = w_ub w -> w_reqs w' = w_reqs w -> reading w0 i r w'.
Proof.
  intros Hw Hc Hh Ha Hu Hr. pose proof (rg_lists _ _ _ _ Hw) as []. eapply reading_upd; try done; try apply Hw.
  rewrite Hr. by rewrite insert_id by apply Hw.
Qed.
Lemma reading_unhooked r w t : reading w0 i r w -> unhooked (w_conn w) r t.
Proof. intros Hw. split; [apply (rg_hooks _ _ _ _ Hw)|by rewrite (sv_hooks _ _ _ (rg_serving _ _ _ _ Hw))]. Qed.
Lemma reading_req r w k p : reading w0 i r w -> with_req i k (p, w) = k r (p, w).
Proof. intros Hw. apply with_req_eq, Hw. Qed.
Lemma reading_with_conn r w k p : reading w0 i r w -> with_conn i k (p, w) = k r (p, w).
Proof. intros Hw. unfold with_conn. rewrite (reading_req r) by done. by rewrite (rg_conn _ _ _ _ Hw). Qed.
Lemma reading_hook r w t d p :
  reading w0 i r w -> hook_request_run app i t d (p, w) = (EVHTP_RES_OK, (p, w)).
Proof. intros Hw. eapply hook_run_none; [apply Hw|by eapply reading_unhooked]. Qed.
Lemma reading_user r w {C} (k : option nat -> M (St W) C) p :
  reading w0 i r w -> exists w', reading w0 i r w' /\ bind (get_user_data sid) k (p, w) = k (Some i) (p, w').
Proof.
  intros Hw. destruct (rg_session _ _ _ _ Hw) as (s & Hs & Hu).
  eexists. split; cycle 1.
  { unfold get_user_data, on_session, geth. rewrite run_assoc, run_getw. cbn [snd]. rewrite Hs.
    unfold updh. rewrite run_assoc, run_updw, run_ret, Hu. reflexivity. }
  eapply (reading_same r w); try done. cbn. rewrite <- Hs. by destruct (w_app w).
Qed.
Lemma reading_server r w {C} (k : evhtp_connection -> M (St W) C) p :
  reading w0 i r w -> bind getc k (p, w) = k (w_conn w) (p, w) /\ c_type (w_conn w) = evhtp_type_server.
Proof.
  intros Hw. unfold getc. rewrite run_assoc, run_getw. cbn [snd]. rewrite (rg_alive _ _ _ _ Hw).
  split; [done|apply (rg_serving _ _ _ _ Hw)].
Qed.
(** One change of the request. *)
Lemma reading_set r w (f : evhtp_request -> evhtp_request) {C} (k : unit -> M (St W) C) p :
  reading w0 i r w ->
  r_htp (f r) = r_htp r -> r_conn (f r) = r_conn r -> r_hooks (f r) = r_hooks r -> r_status (f r) = EVHTP_RES_OK ->
  has (r_flags (f r)) EVHTP_REQ_FLAG_FINISHED = false -> is_Some (headers_in (f r)) -> is_Some (buffer_in (f r)) ->
  exists w', bind (upd_req i f) k (p, w) = k tt (p, w') /\ reading w0 i (f r) w'.
Proof.
  intros Hw ? ? ? ? ? ? ?. erewrite run_upd_req by apply Hw. eexists. split; [reflexivity|].
  by eapply (reading_upd r w).
Qed.

(** The callback takes the request from [r] to one that satisfies [Q]. *)
Definition reads (cbs : list h2_callback) r (Q : evhtp_request -> Prop) : Prop :=
  forall p w, reading w0 i r w -> exists p' w' r',
    callbacks_ cbs (p, w) = (0, (p', w')) /\ reading w0 i r' w' /\ Q r'.

Lemma reads_nil r (Q : evhtp_request -> Prop) : Q r -> reads [] r Q.
Proof. intros HQ p w Hw. by exists p, w, r. Qed.
Lemma reads_one cb r (Q : evhtp_request -> Prop) :
  (forall p w, reading w0 i r w -> exists p' w' r',
    callback cb (p, w) = (0, (p', w')) /\ reading w0 i r' w' /\ Q r') -> reads [cb] r Q.
Proof.
  intros Hcb p w Hw. destruct (Hcb p w Hw) as (p' & w' & r' & E & Hw' & HQ). exists p', w', r'.
  cbn [run_callbacks]. by erewrite bind_eq by exact E.
Qed.
End From.

Lemma callbacks_app cbs1 cbs2 s s' :
  callbacks_ cbs1 s = (0, s') -> callbacks_ (cbs1 ++ cbs2) s = callbacks_ cbs2 s'.
Proof.
  revert s. induction cbs1 as [|cb cbs1 IH]; intros s; cbn [run_callbacks Datatypes.app]; [by intros [= ->]|].
  unfold bind. destruct (callback cb s) as [v s1]. destruct (v =? 0); [apply IH|done].
Qed.
Lemma reads_app w0 i cbs1 cbs2 r (Q1 Q2 : evhtp_request -> Prop) :
  reads w0 i cbs1 r Q1 -> (forall r1, Q1 r1 -> reads w0 i cbs2 r1 Q2) -> reads w0 i (cbs1 ++ cbs2) r Q2.
Proof.
  intros H1 H2 p w Hw. destruct (H1 p w Hw) as (p1 & w1 & r1 & E1 & Hw1 & HQ1).
  destruct (H2 r1 HQ1 p1 w1 Hw1) as (p2 & w2 & r2 & E2 & Hw2 & HQ2). exists p2, w2, r2.
  by rewrite (callbacks_app _ _ _ _ E1).
Qed.

(** ** One field after the other *)

Section Fields.
Context (w0 : W) (i : nat).

Lemma header_callback r w name value p :
  reading w0 i r w -> exists w', reading w0 i r w' /\
    callback (cb_header sid name value) (p, w) =
      (match name with
       | c :: _ =>
           if c =? ":"%c then pseudo_header mem app beyond i name value
           else
             headers_start app i (
               when (casecmp_eqb name (bytes "content-length"))
                 (ignore (with_conn i (fun _ =>
                    updp (htparser_set_content_length (strtoul (value ++ beyond value)).1) ;; ret 0))) ;;
               h2_field mem app i name value)
       | [] => headers_start app i (h2_field mem app i name value)
       end) (p, w').
Proof.
  intros Hw. unfold run_callback.
  match goal with |- context [bind getc ?k] => destruct (reading_server w0 i r w k p Hw) as [-> ->] end.
  cbn beta zeta. change (bool_decide (evhtp_type_server = evhtp_type_server)) with true. cbn iota.
  unfold h2__server_on_header_cb_.
  match goal with |- context [bind (get_user_data sid) ?k] => destruct (reading_user w0 i r w k p Hw) as (w' & Hw' & ->) end.
  by exists w'.
Qed.

(** A request without a URI gets one. *)
Lemma reading_uri r w k p :
  reading w0 i r w -> r_uri r = None \/ r_uri r = Some new_uri ->
  exists w', require_uri (B := B) mem i k (p, w) = k (p, w') /\ reading w0 i (r <| r_uri := Some new_uri |>) w'.
Proof.
  intros Hw Hu. unfold require_uri, htp__require_uri__.
  assert (forall v s s', htp__require_uri__ mem (Some i) s = (v, s') -> v = 0 ->
    bind (htp__require_uri__ mem (Some i)) (fun v => if v =? -1 then ret NGHTTP2_ERR_CALLBACK_FAILURE else k) s = k s') as Hk.
  { intros v s s' E ->. by rewrite (bind_eq _ _ _ _ _ E). }
  destruct Hu as [Hu|Hu]; cycle 1.
  - exists w. split; [|rewrite <- Hu; by destruct r]. eapply Hk; [|reflexivity].
    unfold htp__require_uri__. rewrite (with_req_eq _ _ _ r) by apply Hw. by rewrite Hu.
  - eexists. split.
    + eapply Hk; [|reflexivity]. unfold htp__require_uri__. rewrite (with_req_eq _ _ _ r) by apply Hw.
      rewrite Hu, run_allocs, !Hmem. cbn [htp__uri_new_ negb htp__authority_new_].
      erewrite run_upd_req by (cbn; apply Hw). reflexivity.
    + eapply (reading_upd w0 i r w); try done; try apply Hw.
Qed.

Lemma pseudo_callback r w name value p :
  reading w0 i r w -> exists w', reading w0 i r w' /\
    callback (cb_header sid (":"%c :: name) value) (p, w) =
      pseudo_header mem app beyond i (":"%c :: name) value (p, w').
Proof. apply header_callback. Qed.

Lemma reads_method r name :
  reads w0 i [cb_header sid (bytes ":method") name] r
    (fun r' => r' = r <| r_method := method_from name |>).
Proof.
  apply reads_one. intros p w Hw. destruct (pseudo_callback r w (bytes "method") name p Hw) as (w1 & Hw1 & E).
  change (":"%c :: bytes "method") with (bytes ":method") in E. rewrite E.
  change (pseudo_header mem app beyond i (bytes ":method") name) with (h2_method (B := B) i name).
  unfold h2_method. rewrite (reading_with_conn w0 i r), run_gets by done. cbn [fst]. unfold htparser_parse_method.
  match goal with |- context [bind (upd_req i ?f) ?k] =>
    destruct (reading_set w0 i r w1 f k p Hw1) as (w2 & E2 & Hw2); try done; try apply Hw1 end.
  rewrite E2. by eexists _, _, _.
Qed.

(** The value and the byte after it are compared with "https". *)
Definition scheme_of (value : list Z) : htp_scheme :=
  if bytes_eqb (take 5 (value ++ beyond value)) (bytes "https") then htp_scheme_https else htp_scheme_http.
Lemma reads_scheme r u value :
  r_uri r = Some u ->
  reads w0 i [cb_header sid (bytes ":scheme") value] r
    (fun r' => r' = r <| r_uri := Some (u <| uri_scheme := scheme_of value |>) |>).
Proof.
  intros Hu. apply reads_one. intros p w Hw. destruct (pseudo_callback r w (bytes "scheme") value p Hw) as (w1 & Hw1 & E).
  change (":"%c :: bytes "scheme") with (bytes ":scheme") in E. rewrite E.
  change (pseudo_header mem app beyond i (bytes ":scheme") value) with (h2_scheme (B := B) mem beyond i value).
  unfold h2_scheme, require_uri, htp__require_uri__.
  erewrite bind_eq; cycle 1. { rewrite (with_req_eq _ _ _ r) by apply Hw1. by rewrite Hu. }
  change (0 =? -1) with false. cbn iota zeta. unfold upd_uri.
  match goal with |- context [bind (upd_req i ?f) ?k] =>
    destruct (reading_set w0 i r w1 f k p Hw1) as (w2 & E2 & Hw2); try done; try apply Hw1 end.
  rewrite E2. eexists _, _, _. split; [reflexivity|]. split; [exact Hw2|]. by rewrite Hu.
Qed.

(** htp__request_set_callbacks_, when a callback without hooks of its own is chosen. *)
Lemma reading_callbacks r u pth w cb arg so eo p {C} (k : Z -> M (St W) C) :
  reading w0 i r w -> r_uri r = Some u -> uri_path u = Some pth ->
  select_callback host r pth = Some (cb, arg, None, so, eo) ->
  exists w', bind (htp__request_set_callbacks_ i) k (p, w) = k 0 (p, w') /\
    reading w0 i (r <| r_uri := Some (u <| uri_path := Some (set_matches so eo pth) |>) |>
                    <| r_cb := cb |> <| r_cbarg := arg |>) w'.
Proof.
  intros Hw Hu Hp Hs. unfold htp__request_set_callbacks_. eexists. split.
  - erewrite bind_eq; [reflexivity|]. rewrite (with_req_eq _ _ _ r) by apply Hw. rewrite run_getw. cbn [snd].
    rewrite (rg_rhtp _ _ _ _ Hw). cbn [mbind option_bind]. rewrite (sv_htp _ _ _ (rg_serving _ _ _ _ Hw)).
    rewrite (rg_conn _ _ _ _ Hw). cbn [negb]. rewrite Hu. cbn [mbind option_bind]. rewrite Hp, Hs. unfold upd_uri.
    erewrite run_upd_req by apply Hw. erewrite run_upd_req by (cbn; apply lookup_insert_eq). reflexivity.
  - eapply (reading_upd w0 i r w); try done; try apply Hw. cbn. by rewrite insert_insert_eq, Hu.
Qed.

Lemma set_query_keeps m u q f v u' :
  htp__uri_set_query_ m u q f = (v, u') ->
  authority u' = authority u /\ uri_path u' = uri_path u /\ uri_scheme u' = uri_scheme u.
Proof. unfold htp__uri_set_query_. intros E. repeat case_match; simplify_eq/=; done. Qed.

(** What the path and the query of a target become. *)
Definition target_uri (target : list Z) (so eo : Z) (pth : evhtp_path) (u : evhtp_uri) : Prop :=
  is_Some (authority u) /\ uri_path u = Some (set_matches so eo pth) /\
  match (split_target target).2 with
  | None => query u = None /\ query_raw u = None /\ fragment u = None
  | Some q => exists k u0 u1, htp__uri_set_query_ (kv_mem mem k) u0 q (parser_flags host) = (0, u1) /\
      u = u1 <| uri_scheme := uri_scheme u |>
  end.

Lemma reads_path r target pth cb arg so eo :
  r_uri r = None \/ r_uri r = Some new_uri -> the_path (split_target target).1 = Some pth ->
  select_callback host r pth = Some (cb, arg, None, so, eo) ->
  (forall q, (split_target target).2 = Some q -> forall k u,
     fst (htp__uri_set_query_ (kv_mem mem k) u q (parser_flags host)) = 0) ->
  reads w0 i [cb_header sid (bytes ":path") target] r
    (fun r' => exists u, r' = r <| r_uri := Some u |> <| r_cb := cb |> <| r_cbarg := arg |> /\
       target_uri target so eo pth u).
Proof.
  intros Hu Hp Hs Hq. apply reads_one. intros p w Hw.
  destruct (pseudo_callback r w (bytes "path") target p Hw) as (w1 & Hw1 & E).
  change (":"%c :: bytes "path") with (bytes ":path") in E. rewrite E.
  change (pseudo_header mem app beyond i (bytes ":path") target) with (h2_path (B := B) mem app i target).
  unfold h2_path, target_uri.
  match goal with |- context [require_uri mem i ?k] => destruct (reading_uri r w1 k p Hw1 Hu) as (w2 & -> & Hw2) end.
  destruct (split_target target) as [path_ query_]. cbn [fst snd] in *. rewrite run_allocs.
  rewrite (path_new_ext _ (fun _ => true)) by (intros; apply Hmem). unfold the_path in Hp. rewrite Hp. unfold upd_uri.
  set (w3 := _ <| w_allocs := _ |>). assert (reading w0 i (r <| r_uri := Some new_uri |>) w3) as Hw3 by (eapply reading_same; [exact Hw2|done..]).
  match goal with |- context [bind (upd_req i ?f) ?k] =>
    destruct (reading_set w0 i _ w3 f k p Hw3) as (w4 & E4 & Hw4); try done; try apply Hw3 end.
  cbn [fst]. rewrite E4. clear E4.
  match goal with |- context [bind (htp__request_set_callbacks_ i) ?k] =>
    destruct (reading_callbacks _ (new_uri <| uri_path := Some pth |>) pth w4 cb arg so eo p k Hw4 eq_refl eq_refl Hs) as (w5 & -> & Hw5) end.
  unfold htp__hook_path_. erewrite bind_eq by (eapply reading_hook, Hw5).
  destruct query_ as [q|]; cycle 1.
  { eexists _, _, _. split; [reflexivity|]. split; [exact Hw5|]. eexists. split; [reflexivity|]. by repeat split; try eexists. }
  rewrite (reading_with_conn w0 i _ _ _ _ Hw5). unfold with_uri. cbn [r_uri set_field eta_fields eta_request].
  rewrite run_getw. cbn [snd]. rewrite run_getw. cbn [snd].
  rewrite (sv_chtp _ _ _ (rg_serving _ _ _ _ Hw5)). cbn [mbind option_bind].
  rewrite (sv_htp _ _ _ (rg_serving _ _ _ _ Hw5)), run_allocs. cbn [fst snd].
  set (w6 := _ <| w_allocs := _ |>). pose proof (reading_same w0 i _ w5 w6 Hw5 eq_refl eq_refl eq_refl eq_refl eq_refl) as Hw6.
  match goal with |- context [htp__uri_set_query_ (kv_mem mem ?k) ?u _ _] => pose proof (Hq q eq_refl k u) as Hq0;
    destruct (htp__uri_set_query_ (kv_mem mem k) u q _) as [v u'] eqn:Eq end.
  cbn [fst] in Hq0 |- *. subst v. pose proof (set_query_keeps _ _ _ _ _ _ Eq) as (Ea & Ep & _).
  match goal with |- context [bind (upd_req i ?f) ?k] =>
    destruct (reading_set w0 i _ w6 f k p Hw6) as (w7 & -> & Hw7); try done; try apply Hw6 end.
  eexists _, _, _. split; [reflexivity|]. split; [exact Hw7|]. exists u'. split; [reflexivity|].
  rewrite Ea, Ep. split; [by eexists|]. split; [done|]. eexists _, _, u'. split; [exact Eq|]. by destruct u'.
Qed.

(** [r] with header fields added that read [fs], and perhaps other flags; not
    the one for the end of the stream. *)
Definition same_end (f f' : Z) : Prop := has f' EVHTP_REQ_FLAG_END_STREAM = has f EVHTP_REQ_FLAG_END_STREAM.
Definition gets_fields (fs : list (list Z * list Z)) r r' : Prop :=
  exists f hs hs', headers_in r = Some hs /\ same_end (r_flags r) f /\
    r' = r <| r_flags := f |> <| headers_in := Some hs' |> /\ map view hs' = map view hs ++ map header_view fs.
Lemma gets_no_fields r f : is_Some (headers_in r) -> same_end (r_flags r) f -> gets_fields [] r (r <| r_flags := f |>).
Proof.
  intros [hs Hhs] Hf. exists f, hs, hs. split; [done|]. split; [done|]. rewrite app_nil_r. split; [|done].
  destruct r. cbn in *. by subst.
Qed.
Lemma gets_fields_trans fs gs r1 r2 r3 :
  gets_fields fs r1 r2 -> gets_fields gs r2 r3 -> gets_fields (fs ++ gs) r1 r3.
Proof.
  intros (f1 & hs & xs & Hhs & Hf1 & -> & Hx) (f2 & hs' & ys & Hhs' & Hf2 & -> & Hy).
  injection Hhs' as <-. exists f2, hs, ys. split; [done|]. split; [by transitivity (has f1 EVHTP_REQ_FLAG_END_STREAM)|].
  split; [by destruct r1|]. by rewrite Hy, Hx, map_app, app_assoc.
Qed.

Lemma strndup_all v : htp__strndup_ true v (length v) = Some (cstr v).
Proof. unfold htp__strndup_. by rewrite firstn_all. Qed.
Lemma new_header_view kh vh k v n :
  exists x, new_header mem kh vh (Some k) (Some v) n = Some x /\ view x = header_view (k, v).
Proof.
  unfold new_header, evhtp_header_new, evhtp_kv_new. rewrite Hmem, !andb_false_r. by eexists.
Qed.

Lemma reads_authority r value :
  reads w0 i [cb_header sid (bytes ":authority") value] r (gets_fields [(bytes "host", value)] r).
Proof.
  apply reads_one. intros p w Hw. destruct (pseudo_callback r w (bytes "authority") value p Hw) as (w1 & Hw1 & E).
  change (":"%c :: bytes "authority") with (bytes ":authority") in E. rewrite E.
  change (pseudo_header mem app beyond i (bytes ":authority") value) with (h2_authority (B := B) mem i value).
  unfold h2_authority. rewrite run_allocs, Hmem, strndup_all. cbn [fst snd].
  set (w2 := w1 <| w_allocs := _ |>). pose proof (reading_same w0 i _ w1 w2 Hw1 eq_refl eq_refl eq_refl eq_refl eq_refl) as Hw2.
  match goal with |- context [new_header mem ?a ?b (Some ?k) (Some ?v) ?n] =>
    destruct (new_header_view a b k v n) as (x & -> & Hx) end.
  unfold add_in. destruct (rg_lists _ _ _ _ Hw2) as [[hs Hhs] _].
  match goal with |- context [bind (upd_req i ?f) ?k] =>
    destruct (reading_set w0 i r w2 f k p Hw2) as (w3 & -> & Hw3); try done; try apply Hw2 end.
  { cbn. by rewrite Hhs. }
  eexists _, _, _. split; [reflexivity|]. split; [exact Hw3|]. exists (r_flags r), hs, (hs ++ [x]).
  split; [done|]. split; [done|]. split; [cbn; rewrite Hhs; by destruct r|]. rewrite map_app. cbn. rewrite Hx. unfold header_view. cbn [fst snd]. by rewrite cstr_idem.
Qed.

(** The hook on the start of the header fields, the first time. *)
Lemma reading_start r w k p :
  reading w0 i r w -> exists f w', headers_start app i k (p, w) = k (p, w') /\
    reading w0 i (r <| r_flags := f |>) w' /\ same_end (r_flags r) f.
Proof.
  intros Hw. unfold headers_start. rewrite (reading_req w0 i r) by done. destruct (has (r_flags r) _).
  { exists (r_flags r), w. split; [done|]. split; [by destruct r|done]. }
  unfold set_req_flag.
  match goal with |- context [bind (upd_req i ?f) ?k] =>
    destruct (reading_set w0 i r w f k p Hw) as (w2 & -> & Hw2); try done; try apply Hw end.
  { cbn. rewrite has_on_ne by done. apply Hw. }
  unfold htp__hook_headers_start_. erewrite bind_eq by (eapply reading_hook, Hw2).
  change (EVHTP_RES_OK =? EVHTP_RES_OK) with true. cbn iota. eexists _, _. split; [reflexivity|].
  split; [exact Hw2|by apply has_on_ne].
Qed.

(** A name of a field that is not a pseudo header field. *)
Definition plain_name (name : list Z) : Prop := hd_error name <> Some (":"%c).

Lemma marked_view (l : evhtp_kvs) a :
  map view (map (fun x : evhtp_kv => if addr x =? a then x <| k_heaped := 1 |> <| v_heaped := 1 |> else x) l) = map view l.
Proof. rewrite map_map. apply map_ext. intros x. by destruct (_ =? a). Qed.

Lemma reading_length r w b n {C} (k : unit -> M (St W) C) p :
  reading w0 i r w -> exists p', bind (when b (ignore (with_conn i (fun _ =>
    updp (htparser_set_content_length n) ;; ret 0)))) k (p, w) = k tt (p', w).
Proof.
  intros Hw. destruct b; [|by exists p]. eexists. erewrite bind_eq; [reflexivity|]. unfold when, ignore.
  erewrite bind_eq; [reflexivity|]. by rewrite (reading_with_conn w0 i r).
Qed.
Lemma h2_field_eq r w name value p :
  reading w0 i r w -> exists w' r', h2_field mem app i name value (p, w) = (0, (p, w')) /\
    reading w0 i r' w' /\ gets_fields [(name, value)] r r'.
Proof.
  intros Hw. unfold h2_field. rewrite run_allocs, !Hmem, !strndup_all. cbn [fst snd].
  set (w2 := w <| w_allocs := _ |>). pose proof (reading_same w0 i _ w w2 Hw eq_refl eq_refl eq_refl eq_refl eq_refl) as Hw2.
  match goal with |- context [new_header mem ?a ?b (Some ?k) (Some ?v) ?n] =>
    destruct (new_header_view a b k v n) as (x & -> & Hx) end.
  unfold add_in. destruct (rg_lists _ _ _ _ Hw2) as [[hs Hhs] _].
  match goal with |- context [bind (upd_req i ?f) ?k] =>
    destruct (reading_set w0 i r w2 f k p Hw2) as (w3 & -> & Hw3); try done; try apply Hw2 end.
  { cbn. by rewrite Hhs. }
  unfold htp__hook_header_. erewrite bind_eq by (eapply reading_hook, Hw3).
  match goal with |- context [bind (upd_req i ?f) ?k] =>
    destruct (reading_set w0 i _ w3 f k p Hw3) as (w4 & -> & Hw4); try done; try apply Hw2 end.
  { cbn. by rewrite Hhs. }
  eexists _, _. split; [reflexivity|]. split; [exact Hw4|].
  eexists (r_flags r), hs, _. split; [done|]. split; [done|]. cbn. rewrite Hhs. cbn. split; [by destruct r|].
  rewrite marked_view, map_app. cbn. rewrite Hx. unfold header_view. cbn [fst snd]. by rewrite !cstr_idem.
Qed.

Lemma reads_field r name value :
  plain_name name -> reads w0 i [cb_header sid name value] r (gets_fields [(name, value)] r).
Proof.
  intros Hn. apply reads_one. intros p w Hw. destruct (header_callback r w name value p Hw) as (w1 & Hw1 & ->).
  assert (forall k : M (St W) Z, (forall r' w' q, reading w0 i r' w' -> exists p' w'' r'', k (q, w') = (0, (p', w'')) /\
      reading w0 i r'' w'' /\ gets_fields [(name, value)] r' r'') ->
    exists p' w' r', headers_start app i k (p, w1) = (0, (p', w')) /\ reading w0 i r' w' /\ gets_fields [(name, value)] r r')
    as Hk.
  { intros k Hk. destruct (reading_start r w1 k p Hw1) as (f & w2 & -> & Hw2 & Hf).
    destruct (Hk _ w2 p Hw2) as (p3 & w3 & r3 & E3 & Hw3 & Hg). eexists _, _, _. split; [exact E3|]. split; [exact Hw3|].
    eapply (gets_fields_trans [] [_]); [|exact Hg]. apply gets_no_fields; [apply Hw1|done]. }
  destruct name as [|c name].
  - apply Hk. intros r' w' q Hr. destruct (h2_field_eq r' w' [] value q Hr) as (w'' & r'' & ? & ? & ?). by exists q, w'', r''.
  - destruct (Z.eqb_spec c ":"%c) as [->|_]; [by destruct Hn|]. apply Hk. intros r' w' q Hr.
    match goal with |- context [bind (when ?b (ignore (with_conn i (fun _ => updp (htparser_set_content_length ?n) ;; ret 0)))) ?k] =>
      destruct (reading_length r' w' b n k q Hr) as (q' & ->) end.
    destruct (h2_field_eq r' w' (c :: name) value q' Hr) as (w'' & r'' & ? & ? & ?). by exists q', w'', r''.
Qed.
Lemma reads_fields r fs :
  Forall (fun f => plain_name f.1) fs -> is_Some (headers_in r) ->
  reads w0 i (field_callbacks sid fs) r (gets_fields fs r).
Proof.
  intros Hfs. revert r. induction Hfs as [|[k v] fs Hf _ IH]; intros r Hr.
  - apply reads_nil. pose proof (gets_no_fields r (r_flags r) Hr eq_refl) as H. by destruct r.
  - change (field_callbacks sid ((k, v) :: fs)) with ([cb_header sid k v] ++ field_callbacks sid fs).
    eapply reads_app; [by apply reads_field|]. intros r1 Hr1 p w Hw.
    destruct (IH r1 (proj1 (rg_lists _ _ _ _ Hw)) p w Hw) as (p2 & w2 & r2 & E & Hw2 & H2).
    exists p2, w2, r2. split; [done|]. split; [done|]. by eapply (gets_fields_trans [(k, v)] fs).
Qed.
End Fields.

(** ** Frames *)

Section Frames.
Context (w0 : W) (i : nat).

Lemma reading_flag r w f p :
  reading w0 i r w -> has (flag_on (r_flags r) f) EVHTP_REQ_FLAG_FINISHED = false ->
  exists w', set_req_flag (B := B) i f (p, w) = (tt, (p, w')) /\
    reading w0 i (r <| r_flags := flag_on (r_flags r) f |>) w'.
Proof.
  intros Hw Hf. rewrite (set_flag_eq i f p w r) by apply Hw. eexists. split; [reflexivity|].
  eapply (reading_upd w0 i r w); try done; apply Hw.
Qed.
Lemma reading_unanswered r w res k p :
  reading w0 i r w -> res = EVHTP_RES_OK -> unless_answered i sid res k (p, w) = k (p, w).
Proof.
  intros Hw ->. unfold unless_answered. rewrite (reading_req w0 i r) by done. by rewrite (rg_open _ _ _ _ Hw).
Qed.
(** Without virtual hosts the host of the request changes nothing. *)
Lemma reading_vhost r w k p :
  reading w0 i r w -> exists f w', headers_vhost app i sid k (p, w) = k (p, w') /\
    reading w0 i (r <| r_flags := f |>) w' /\ same_end (r_flags r) f.
Proof.
  intros Hw. unfold headers_vhost. rewrite (reading_req w0 i r) by done. destruct (has (r_flags r) EVHTP_REQ_FLAG_VHOST_RESOLVED).
  { exists (r_flags r), w. split; [done|]. split; [by destruct r|done]. }
  destruct (reading_flag r w EVHTP_REQ_FLAG_VHOST_RESOLVED p Hw) as (w2 & E2 & Hw2).
  { rewrite has_on_ne by done. apply Hw. }
  erewrite bind_eq by exact E2. clear E2.
  rewrite (reading_req _ _ _ _ _ _ Hw2). cbn [headers_in set_field eta_fields eta_request].
  assert (same_end (r_flags r) (flag_on (r_flags r) EVHTP_REQ_FLAG_VHOST_RESOLVED)) as Hes by by apply has_on_ne.
  destruct (evhtp_kvs_find_kv_n _ _ _) as [kv|]; [|by eexists _, w2].
  eexists _, w2. split; [|by split]. unfold resolve_vhost.
  erewrite bind_eq; cycle 1.
  { rewrite (reading_with_conn _ _ _ _ _ _ Hw2), run_getw. cbn [snd]. rewrite run_getw. cbn [snd].
    rewrite (sv_chtp _ _ _ (rg_serving _ _ _ _ Hw2)). cbn [mbind option_bind].
    rewrite (sv_htp _ _ _ (rg_serving _ _ _ _ Hw2)). unfold htp__request_find_vhost_. rewrite Hvhosts. reflexivity. }
  unfold htp__hook_hostname_. erewrite bind_eq by (eapply reading_hook, Hw2).
  by rewrite (reading_unanswered _ _ _ _ _ Hw2).
Qed.

(** The callback was chosen when the path was read. *)
Definition routed (cb arg : Z) r : Prop := exists u pth0 so eo r0,
  r_uri r = Some u /\ uri_path u = Some (set_matches so eo pth0) /\ r_cb r = cb /\ r_cbarg r = arg /\
  r_cb r0 = 0 /\ select_callback host r0 pth0 = Some (cb, arg, None, so, eo).
Lemma reading_routed r cb arg w p {C} (k : Z -> M (St W) C) :
  reading w0 i r w -> routed cb arg r ->
  exists w', bind (htp__request_set_callbacks_ i) k (p, w) = k 0 (p, w') /\ reading w0 i r w'.
Proof.
  intros Hw (u & pth0 & so & eo & r0 & Hu & Hp & Hcb & Harg & H0 & Hs).
  destruct (reading_callbacks w0 i r u _ w cb arg so eo p k Hw Hu Hp) as (w' & E & Hw').
  { by eapply select_again. }
  exists w'. split; [exact E|]. rewrite set_matches_idem in Hw'.
  replace (r <| r_uri := _ |> <| r_cb := cb |> <| r_cbarg := arg |>) with r in Hw'; [done|].
  destruct r as [? ? ? uri]. cbn in *. subst. do 2 f_equal. destruct u. cbn in *. by subst.
Qed.

(** A HEADERS frame that is complete; [fl] says whether it is the last frame. *)
Lemma headers_frame_eq r w fl cb arg p :
  reading w0 i r w -> routed cb arg r -> has fl NGHTTP2_FLAG_END_HEADERS = true ->
  has (r_flags r) EVHTP_REQ_FLAG_END_STREAM = false ->
  exists f w', reading w0 i (r <| r_flags := f |>) w' /\
    has f EVHTP_REQ_FLAG_END_STREAM = has fl NGHTTP2_FLAG_END_STREAM /\
    callback (cb_frame_recv (h2_frame NGHTTP2_HEADERS fl sid)) (p, w) =
      (if has fl NGHTTP2_FLAG_END_STREAM then run_request_cb app i else ret 0) (p, w').
Proof.
  intros Hw Hrt Hfl Hes. unfold run_callback.
  match goal with |- context [bind getc ?k] => destruct (reading_server w0 i r w k p Hw) as [-> _] end.
  unfold h2__on_frame_recv_cb_, handle_h2_headers_frame. cbn [hd_type h2_frame hd_flags hd_stream_id]. rewrite Hfl. cbn [negb].
  match goal with |- context [bind (get_user_data sid) ?k] => destruct (reading_user w0 i r w k p Hw) as (w1 & Hw1 & ->) end.
  assert (exists f w2, reading w0 i (r <| r_flags := f |>) w2 /\ has f EVHTP_REQ_FLAG_END_STREAM = has fl NGHTTP2_FLAG_END_STREAM /\
    when (has fl NGHTTP2_FLAG_END_STREAM) (set_req_flag (B := B) i EVHTP_REQ_FLAG_END_STREAM) (p, w1) = (tt, (p, w2)))
    as (f & w2 & Hw2 & Hf & E2).
  { destruct (has fl NGHTTP2_FLAG_END_STREAM); cbn [when].
    - destruct (reading_flag r w1 EVHTP_REQ_FLAG_END_STREAM p Hw1) as (w2 & E & Hw2).
      { rewrite has_on_ne by done. apply Hw1. }
      eexists _, w2. split; [exact Hw2|]. split; [by apply has_on_eq|done].
    - exists (r_flags r), w1. split; [by destruct r|]. by split. }
  erewrite bind_eq by exact E2. clear E2.
  match goal with |- context [headers_start app i ?k] =>
    destruct (reading_start w0 i _ w2 k p Hw2) as (f3 & w3 & -> & Hw3 & Hf3) end.
  match goal with |- context [headers_vhost app i sid ?k] =>
    destruct (reading_vhost _ w3 k p Hw3) as (f4 & w4 & -> & Hw4 & Hf4) end.
  assert (has f4 EVHTP_REQ_FLAG_END_STREAM = has fl NGHTTP2_FLAG_END_STREAM) as Hfe.
  { rewrite Hf4, <- Hf. exact Hf3. }
  match goal with |- context [bind (htp__request_set_callbacks_ i) ?k] =>
    destruct (reading_routed _ cb arg w4 p k Hw4 Hrt) as (w5 & -> & Hw5) end.
  unfold htp__hook_headers_. erewrite bind_eq by (eapply reading_hook, Hw5).
  rewrite (reading_unanswered _ _ _ _ _ Hw5) by done. rewrite (reading_req _ _ _ _ _ _ Hw5).
  cbn [r_flags set_field eta_fields eta_request]. rewrite Hfe. eexists f4, w5. split; [|by split]. by destruct r.
Qed.

(** The connection after a piece of a body. *)
Lemma reading_body r w r' w' n s :
  reading w0 i r w -> w_conn w' = (w_conn w) <| scratch_buf := Some [] |> <| c_body_bytes_read := n |> ->
  w_htps w' = w_htps w -> w_ub w' = w_ub w -> w_app w' = (w_app w) <| ctx_session := Some s |> ->
  nghttp2_session_get_stream_user_data sid s = Some i ->
  (forall j, j <> i -> w_reqs w' !! j = w_reqs w !! j) -> w_reqs w' !! i = Some r' ->
  (exists b, r' = r <| buffer_in := Some b |>) -> reading w0 i r' w'.
Proof.
  intros [[] ? ? ? ? ? ? ? ? [] ? Ho ? ?] Hc Hh Hu Ha Hs Hr Hri [b ->].
  split; rewrite ?Hc, ?Ha, ?Hu; try done.
  - split; rewrite ?Hc, ?Hh; done.
  - by exists s.
  - intros j Hj. rewrite Hr by done. by apply Ho.
Qed.
(** A piece of the body. *)
Lemma reads_chunk r d b :
  consume_keeps -> buffer_in r = Some b ->
  reads w0 i [cb_data_chunk_recv sid d] r (fun r' => r' = r <| buffer_in := Some (b ++ d) |>).
Proof.
  intros Hkeep Hb. apply reads_one. intros p w Hw. unfold run_callback.
  match goal with |- context [bind getc ?k] => destruct (reading_server w0 i r w k p Hw) as [-> _] end.
  unfold h2__on_data_chunk_recv_cb_.
  match goal with |- context [bind (get_user_data sid) ?k] => destruct (reading_user w0 i r w k p Hw) as (w1 & Hw1 & ->) end.
  rewrite (reading_req w0 i r) by done. rewrite (rg_open _ _ _ _ Hw1), (rg_conn _ _ _ _ Hw1). cbn [negb].
  rewrite run_getw. cbn [snd]. destruct (rg_serving _ _ _ _ Hw1) as [Sh _ _ _ _ Ssc Sm _]. rewrite Sm, Ssc. cbn [Z.ltb Z.compare andb].
  rewrite run_upd_conn. cbn [fst snd]. unfold htp__hook_body_.
  erewrite bind_eq.
  2:{ eapply hook_run_none; [apply Hw1|]. split; [apply (rg_hooks _ _ _ _ Hw1)|cbn; by rewrite Sh]. }
  erewrite run_upd_req by apply Hw1. cbn [fst snd].
  change (EVHTP_RES_OK =? EVHTP_RES_PAUSE) with false. change (negb (EVHTP_RES_OK =? EVHTP_RES_OK)) with false. cbn iota.
  rewrite run_assoc, run_getw. cbn [snd].
  match goal with |- context [default [] (scratch_buf ?c)] => change (default [] (scratch_buf c)) with d end.
  destruct (rg_session _ _ _ _ Hw1) as (s & Hs & Hu).
  assert (forall w2, w_conn w2 = (w_conn w1) <| scratch_buf := Some [] |> ->
      w_htps w2 = w_htps w1 -> w_ub w2 = w_ub w1 -> w_app w2 = w_app w1 ->
      (forall j, j <> i -> w_reqs w2 !! j = w_reqs w1 !! j) -> w_reqs w2 !! i = Some (r <| buffer_in := Some (b ++ d) |>) ->
      exists w3, (when (0 =? 0) (consume sid (length d)) ;;
         upd_conn (fun c => c <| c_body_bytes_read := u64 (c_body_bytes_read c + Z.of_nat (length d)) |>) ;; ret 0) (p, w2) =
         (0, (p, w3)) /\ reading w0 i (r <| buffer_in := Some (b ++ d) |>) w3) as Hend.
  { intros w2 Ec Eh Eu Ea Eo Er. unfold when, consume, on_session, geth. cbn [Z.eqb].
    rewrite run_assoc, run_getw. cbn [snd]. rewrite Ea, Hs. unfold updh. rewrite run_assoc, run_updw, run_ret.
    rewrite run_upd_conn. eexists. split; [reflexivity|].
    eapply (reading_body r w1 _ _ _ (nghttp2_session_consume sid (length d) s)); try done; cbn; rewrite ?Ec, ?Ea; try done.
    - by rewrite Hkeep.
    - by eexists. }
  destruct d as [|c d].
  - rewrite run_ret. edestruct Hend as (w3 & -> & Hw3); [..|eexists _, w3, _; split; [reflexivity|split; [exact Hw3|reflexivity]]];
      try reflexivity.
    + intros j Hj. cbn. by rewrite lookup_insert_ne.
    + cbn. rewrite lookup_insert_eq, app_nil_r, <- Hb. pose proof (rg_status _ _ _ _ Hw1). destruct r. cbn in *. by subst.
  - erewrite bind_eq; cycle 1.
    { erewrite with_req_eq by (cbn; apply lookup_insert_eq). cbn [buffer_in set_field eta_fields eta_request].
      rewrite Hb. erewrite run_upd_req by (cbn; apply lookup_insert_eq). rewrite run_upd_conn. reflexivity. }
    edestruct Hend as (w3 & -> & Hw3); [..|eexists _, w3, _; split; [reflexivity|split; [exact Hw3|reflexivity]]];
      try reflexivity.
    + intros j Hj. cbn. by rewrite !lookup_insert_ne.
    + cbn. rewrite lookup_insert_eq. pose proof (rg_status _ _ _ _ Hw1). destruct r. cbn in *. by subst.
Qed.

(** The store when the application's callback is run with the request [r]. *)
Record handed r w : Prop := {
  hn_serving : serving h host w;
  hn_alive : c_freed (w_conn w) = false;
  hn_session : is_Some (ctx_session (w_app w));
  hn_req : w_reqs w !! i = Some r;
  hn_ub : w_ub w = w_ub w0;
  hn_others : forall j, j <> i -> w_reqs w !! j = w_reqs w0 !! j;
  hn_pending : h2_pending (w_app w) = h2_pending (w_app w0) ++ [i];
  hn_app : h2_app (w_app w) = h2_app (w_app w0)
}.
Lemma reading_handed r w : reading w0 i r w -> handed r w.
Proof. intros []. split; try done. destruct rg_session0 as (s & -> & _). by eexists. Qed.
Lemma request_cb_eq r w cb arg p :
  handed r w -> r_cb r = cb -> r_cbarg r = arg -> cb <> 0 ->
  run_request_cb app i (p, w) = (0, (app_cb app i cb arg (p, w)).2).
Proof.
  intros Hw <- <- Hcb. unfold run_request_cb. rewrite (with_req_eq _ _ _ r) by apply Hw.
  rewrite (proj2 (Z.eqb_neq _ _) Hcb). unfold bind. by destruct (app_cb _ _ _ _ _) as [[] ?].
Qed.

Lemma reads_data_frame r : reads w0 i [cb_frame_recv (h2_frame NGHTTP2_DATA 0 sid)] r (eq r).
Proof.
  apply reads_one. intros p w Hw. unfold run_callback.
  match goal with |- context [bind getc ?k] => destruct (reading_server w0 i r w k p Hw) as [-> _] end.
  by exists p, w, r.
Qed.
Lemma last_data_frame r w cb arg p :
  reading w0 i r w -> r_cb r = cb -> r_cbarg r = arg -> cb <> 0 -> htp__h2_should_parse_query_body_ r = false ->
  exists w', handed (r <| r_flags := flag_on (r_flags r) EVHTP_REQ_FLAG_END_STREAM |>) w' /\
    callback (cb_frame_recv (h2_frame NGHTTP2_DATA NGHTTP2_FLAG_END_STREAM sid)) (p, w) =
      (0, (app_cb app i cb arg (p, w')).2).
Proof.
  intros Hw Hcb Harg Hne Hform. unfold run_callback.
  match goal with |- context [bind getc ?k] => destruct (reading_server w0 i r w k p Hw) as [-> _] end.
  unfold h2__on_frame_recv_cb_, handle_h2_data_frame. cbn [hd_type h2_frame hd_flags hd_stream_id].
  change (negb (has NGHTTP2_FLAG_END_STREAM NGHTTP2_FLAG_END_STREAM)) with false. cbn iota.
  match goal with |- context [bind (get_user_data sid) ?k] => destruct (reading_user w0 i r w k p Hw) as (w1 & Hw1 & ->) end.
  destruct (reading_flag r w1 EVHTP_REQ_FLAG_END_STREAM p Hw1) as (w2 & E2 & Hw2).
  { rewrite has_on_ne by done. apply Hw. }
  erewrite bind_eq by exact E2. rewrite (reading_req _ _ _ _ _ _ Hw2), (rg_open _ _ _ _ Hw2).
  set (r2 := r <| r_flags := _ |>) in *. destruct (rg_session _ _ _ _ Hw2) as (s & Hs & _).
  unfold set_user_data, on_session, geth. rewrite run_assoc, run_getw. cbn [snd]. rewrite Hs. unfold updh.
  rewrite run_assoc, run_updw, run_ret. cbn [fst snd]. set (w3 := w2 <| w_app := _ |>).
  assert (handed r2 w3) as Hw3.
  { pose proof (reading_handed _ _ Hw2) as [[]]. by split; [split|..]; try done; eexists. }
  exists w3. split; [done|]. rewrite (with_req_eq _ _ _ r2) by apply Hw3.
  assert (htp__h2_should_parse_query_body_ r2 = false) as -> by (by rewrite <- Hform; destruct r).
  cbn [when]. rewrite run_ret. by erewrite bind_eq by by eapply (request_cb_eq r2 w3).
Qed.

(** The DATA frames of a message, from the first to the callback. *)
Lemma data_frames ds r b w cb arg p :
  ds <> [] -> consume_keeps -> reading w0 i r w -> buffer_in r = Some b -> r_cb r = cb -> r_cbarg r = arg -> cb <> 0 ->
  htp__h2_should_parse_query_body_ (r <| buffer_in := Some (b ++ concat ds) |>) = false ->
  exists p' w', handed (r <| buffer_in := Some (b ++ concat ds) |>
                          <| r_flags := flag_on (r_flags r) EVHTP_REQ_FLAG_END_STREAM |>) w' /\
    callbacks_ (data_callbacks sid ds) (p, w) = (0, (app_cb app i cb arg (p', w')).2).
Proof.
  intros Hne Hkeep. revert r b p w. induction ds as [|d ds IH]; [done|]. intros r b p w Hw Hb Hcb Harg Hcb0 Hform.
  assert (reads w0 i match d with [] => [] | _ => [cb_data_chunk_recv sid d] end r
    (fun r' => r' = r <| buffer_in := Some (b ++ d) |>)) as Hchunk.
  { destruct d as [|c d]; [|by apply reads_chunk]. apply reads_nil. rewrite app_nil_r, <- Hb. by destruct r. }
  cbn [data_callbacks concat] in *. rewrite app_assoc in *.
  destruct (Hchunk p w Hw) as (p1 & w1 & ? & E1 & Hw1 & ->). rewrite (callbacks_app _ _ _ _ E1).
  destruct ds as [|d2 ds].
  - cbn [concat data_callbacks end_stream run_callbacks] in *. rewrite app_nil_r in *.
    destruct (last_data_frame _ w1 cb arg p1 Hw1 Hcb Harg Hcb0 Hform) as (w2 & Hw2 & E2).
    exists p1, w2. split; [exact Hw2|]. by erewrite bind_eq by exact E2.
  - destruct (reads_data_frame _ p1 w1 Hw1) as (p2 & w2 & ? & E2 & Hw2 & <-).
    change (?a :: ?l) with ([a] ++ l). rewrite (callbacks_app _ _ _ _ E2).
    destruct (IH ltac:(done) _ (b ++ d) p2 w2 Hw2 eq_refl Hcb Harg Hcb0 Hform) as (p3 & w3 & Hw3 & E3).
    exists p3, w3. by split.
Qed.
End Frames.

(** ** The whole message *)

(** A new request, or one from the cache, that nothing else refers to. *)
Lemma h2_request_taken p w :
  ready h host w -> exists i r w', h2_request_new__ mem app (p, w) = (Some i, (p, w')) /\
    blank h r /\ w_reqs w' !! i = Some r /\ (i = w_allocs w \/ i ∈ cached h w) /\
    (forall j, j <> i -> w_reqs w' !! j = w_reqs w !! j) /\
    w_conn w' = w_conn w /\ w_htps w' = w_htps w /\ w_app w' = w_app w /\ w_ub w' = w_ub w.
Proof.
  intros [[? ? ? ? Hchtp ? ? ?] _ Hsp _]. unfold h2_request_new__, get_request_from_cache.
  rewrite run_assoc, run_getw. cbn [snd]. rewrite Hchtp. rewrite run_assoc, run_getw. cbn [snd].
  change (default [] (w_cache w !! h)) with (cached h w) in *. destruct (cached h w) as [|i rest] eqn:Ec.
  - rewrite run_ret. unfold h2_request_new_. rewrite run_allocs, Hmem. cbn [negb fst snd]. rewrite run_getw.
    unfold fill_request. rewrite !Hmem. cbn [negb snd]. rewrite run_updw.
    eexists (w_allocs w), (new_request (Some h)), _. split; [reflexivity|]. split; [apply new_request_blank|].
    split; [cbn; rewrite Hchtp; apply lookup_insert_eq|]. split; [by left|]. split; [|done].
    intros j Hj. cbn. by rewrite lookup_insert_ne.
  - apply Forall_cons in Hsp as [(r & Hr & Hs) _]. rewrite run_assoc, run_updw. cbn [fst snd].
    rewrite run_assoc. erewrite run_upd_req by exact Hr. rewrite !run_ret.
    eexists i, _, _. split; [reflexivity|]. split; [exact Hs|]. split; [cbn; apply lookup_insert_eq|].
    split; [right; left|]. split; [|done]. intros j Hj. cbn. by rewrite lookup_insert_ne.
Qed.

Lemma begin_headers fl p w s :
  ready h host w -> c_freed (w_conn w) = false -> ctx_session (w_app w) = Some s -> stream_open s ->
  exists i r w', callback (cb_begin_headers (h2_frame NGHTTP2_HEADERS fl sid)) (p, w) = (0, (p, w')) /\
    blank h r /\ (i = w_allocs w \/ i ∈ cached h w) /\
    reading w i (r <| r_proto := EVHTP_PROTO_20 |> <| stream_id := sid |>) w'.
Proof.
  intros Hw Hal Hs Hopen. unfold run_callback, getc. rewrite run_assoc, run_getw. cbn [snd]. rewrite Hal, run_ret.
  pose proof (rd_serving _ _ _ Hw) as Hsv. rewrite (sv_type _ _ _ Hsv).
  change (bool_decide (evhtp_type_server = evhtp_type_server)) with true. cbn iota zeta.
  unfold h2__server_on_begin_headers_cb_. change (negb (is_frame _ _) || _) with false. cbn iota.
  destruct (h2_request_taken p w Hw) as (i & r & w1 & E1 & Hbl & Hr & Hi & Ho & Hc & Hh & Ha & Hu).
  erewrite bind_eq by exact E1. cbn beta iota. erewrite run_upd_req by exact Hr. unfold updh. rewrite run_updw.
  unfold set_user_data, on_session, geth. rewrite run_assoc, run_getw. cbn. rewrite Ha, Hs.
  eexists i, r, _. split; [reflexivity|]. split; [done|]. split; [done|].
  destruct Hbl as [Bh Bc Bk Bs Bf _ [Bi _] [Bhi _] _], Hsv as [? ? ? ? ? ? ? ?].
  split; cbn; rewrite ?Hc, ?Hh, ?Ha; try done.
  - eexists. split; [reflexivity|]. apply Hopen.
  - apply lookup_insert_eq.
  - by rewrite Bf.
  - intros j Hj. rewrite lookup_insert_ne by done. by apply Ho.
Qed.

(** What the request object holds of [m]. *)
Record h2_received (m : h2_message) (pth : evhtp_path) (so eo : Z) r : Prop := {
  hr_method : r_method r = method_from (hm_method m);
  hr_proto : r_proto r = EVHTP_PROTO_20;
  hr_stream : stream_id r = sid;
  hr_status : r_status r = EVHTP_RES_OK;
  hr_flags : has (r_flags r) EVHTP_REQ_FLAG_END_STREAM = true /\ has (r_flags r) EVHTP_REQ_FLAG_FINISHED = false;
  hr_headers : header_views r = Some (map header_view ((bytes "host", hm_authority m) :: hm_fields m));
  hr_body : buffer_in r = Some (concat (hm_data m));
  hr_out : buffer_out r = Some [] /\ headers_out r = Some [];
  hr_uri : exists u, r_uri r = Some u /\ target_uri (hm_target m) so eo pth u /\
    uri_scheme u = scheme_of (hm_scheme m)
}.

(** No URL-encoded form is taken from the body. *)
Definition no_h2_form (m : h2_message) : Prop :=
  is_Some (split_target (hm_target m)).2 \/
  Forall (fun f => fold_eq (cstr f.1) (bytes "content-type") = false) (hm_fields m).
Lemma no_h2_form_false m r u :
  no_h2_form m -> r_uri r = Some u -> (is_Some (split_target (hm_target m)).2 -> is_Some (query u)) ->
  header_views r = Some (map header_view ((bytes "host", hm_authority m) :: hm_fields m)) ->
  htp__h2_should_parse_query_body_ r = false.
Proof.
  intros Hno Hu Hq Hh. unfold htp__h2_should_parse_query_body_. rewrite Hu.
  destruct (query u) as [a|] eqn:Equ; [done|]. destruct (default [] (buffer_in r)); [done|].
  destruct Hno as [Hs|Hct]; [by destruct (Hq Hs)|].
  unfold header_views in Hh. destruct (headers_in r) as [hs|]; [|done]. injection Hh as Hh.
  pose proof (view_find_none hs ((bytes "host", hm_authority m) :: hm_fields m) (bytes "content-type") Hh) as Hf.
  rewrite find_no_header; [done| |done]. apply Hf. apply Forall_cons. by split.
Qed.

(** The request when its header fields are read; what is left is its body. *)
Record headed (m : h2_message) (pth : evhtp_path) (so eo cb arg : Z) r : Prop := {
  hd_received : forall d f,
    has f EVHTP_REQ_FLAG_END_STREAM = true -> has f EVHTP_REQ_FLAG_FINISHED = false ->
    h2_received {| hm_method := hm_method m; hm_target := hm_target m; hm_scheme := hm_scheme m;
                   hm_authority := hm_authority m; hm_fields := hm_fields m; hm_data := d |}
      pth so eo (r <| buffer_in := Some (concat d) |> <| r_flags := f |>);
  hd_routed : routed cb arg r;
  hd_body : buffer_in r = Some [];
  hd_unended : has (r_flags r) EVHTP_REQ_FLAG_END_STREAM = false
}.
Lemma message_head m w i r0 pth cb arg so eo :
  blank h r0 -> the_path (split_target (hm_target m)).1 = Some pth ->
  select_callback host (new_request (Some h)) pth = Some (cb, arg, None, so, eo) ->
  (forall q, (split_target (hm_target m)).2 = Some q -> forall k u,
     fst (htp__uri_set_query_ (kv_mem mem k) u q (parser_flags host)) = 0) ->
  Forall (fun f => plain_name f.1) (hm_fields m) ->
  reads w i (pseudo_callbacks sid m ++ field_callbacks sid (hm_fields m))
    (r0 <| r_proto := EVHTP_PROTO_20 |> <| stream_id := sid |>) (headed m pth so eo cb arg).
Proof.
  intros [Bh Bc Bk Bs Bf Bcb [Bi Bo] [Bhi Bho] Bu] Hpath Hsel Hq Hfs.
  unfold pseudo_callbacks. change [?a; ?b; ?c; ?d] with ([a] ++ [b] ++ [c] ++ [d]). rewrite <- !app_assoc.
  eapply reads_app; [apply reads_method|]. intros r1 ->.
  eapply reads_app; [eapply reads_path; [exact Bu|exact Hpath| |exact Hq]|].
  { etransitivity; [apply (select_blank h); exact Bcb|exact Hsel]. }
  intros r2 (u & -> & Hau & Hpu & Hqu).
  eapply reads_app; [by eapply reads_scheme|]. intros r3 ->.
  eapply reads_app; [apply reads_authority|]. intros r4 H4 p w1 Hw1.
  destruct (reads_fields w i r4 (hm_fields m) Hfs (proj1 (rg_lists _ _ _ _ Hw1)) p w1 Hw1) as (p5 & w5 & r5 & E5 & Hw5 & H5).
  exists p5, w5, r5. split; [done|]. split; [done|].
  destruct (gets_fields_trans _ _ _ _ _ H4 H5) as (f & hs & hs' & Hhs & Hf & -> & Hv).
  cbn in Hhs. rewrite Bhi in Hhs. injection Hhs as <-. unfold same_end in Hf. cbn in Hf. rewrite Bf in Hf.
  split; [|exists (u <| uri_scheme := scheme_of (hm_scheme m) |>), pth, so, eo, (new_request (Some h)); by split_and!|exact Bi|exact Hf].
  intros d g Hg1 Hg2. split; cbn; try done.
  - by rewrite Hv.
  - eexists. split; [reflexivity|]. split; [|done]. split; [done|]. split; [done|].
    destruct (split_target (hm_target m)).2; [|done]. destruct Hqu as (k & u0 & u1 & E & Hu1).
    exists k, u0, u1. split; [done|]. by rewrite Hu1.
Qed.

Lemma message_delivered m p w s pth cb arg so eo :
  ready h host w -> c_freed (w_conn w) = false ->
  ctx_session (w_app w) = Some s -> stream_open s -> consume_keeps ->
  the_path (split_target (hm_target m)).1 = Some pth ->
  select_callback host (new_request (Some h)) pth = Some (cb, arg, None, so, eo) -> cb <> 0 ->
  (forall q, (split_target (hm_target m)).2 = Some q -> forall k u,
     fst (htp__uri_set_query_ (kv_mem mem k) u q (parser_flags host)) = 0) ->
  Forall (fun f => plain_name f.1) (hm_fields m) -> no_h2_form m ->
  exists i r q w1,
    run_callbacks mem app beyond (message_callbacks sid m) (p, w) = (0, (app_cb app i cb arg (q, w1)).2) /\
    handed w i r w1 /\ h2_received m pth so eo r /\ (i = w_allocs w \/ i ∈ cached h w).
Proof.
  intros Hw Hal Hs Hopen Hkeep Hpath Hsel Hcb Hq Hfs Hform. unfold message_callbacks.
  destruct (begin_headers (headers_flags m) p w s Hw Hal Hs Hopen) as (i & r0 & w0 & E0 & Hbl & Hi & Hw0).
  cbn [run_callbacks]. erewrite bind_eq by exact E0. cbn [Z.eqb].
  destruct (message_head m w i r0 pth cb arg so eo Hbl Hpath Hsel Hq Hfs p w0 Hw0) as (p1 & w1 & r1 & E1 & Hw1 & [Hrv Hrt Hb Hes]).
  rewrite app_assoc, (callbacks_app _ _ _ _ E1). cbn [run_callbacks].
  destruct (headers_frame_eq w i r1 w1 (headers_flags m) cb arg p1 Hw1 Hrt) as (f & w2 & Hw2 & Hf & E2); [|done|].
  { unfold headers_flags. by destruct (hm_data m). }
  pose proof (rg_open _ _ _ _ Hw2) as Hfin. cbn in Hfin.
  assert (r_cb r1 = cb /\ r_cbarg r1 = arg) as [Hrcb Hrarg] by by destruct Hrt as (? & ? & ? & ? & ? & ? & ? & ? & ? & _).
  destruct m as [me ta sc au fs ds]. cbn [hm_method hm_target hm_scheme hm_authority hm_fields hm_data] in *.
  destruct ds as [|d ds].
  - specialize (Hrv [] f Hf Hfin). exists i, (r1 <| r_flags := f |>), p1, w2.
    assert (r1 <| buffer_in := Some (concat []) |> <| r_flags := f |> = r1 <| r_flags := f |>) as Er.
    { destruct r1. cbn in *. by subst. }
    rewrite Er in Hrv. pose proof (reading_handed _ _ _ _ Hw2) as Hh2. split; [|done].
    change (has _ NGHTTP2_FLAG_END_STREAM) with true in E2. cbn iota in E2.
    rewrite (request_cb_eq w i _ w2 cb arg p1 Hh2 Hrcb Hrarg Hcb) in E2. by erewrite bind_eq by exact E2.
  - erewrite bind_eq by exact E2. cbn [Z.eqb].
    set (f' := flag_on f EVHTP_REQ_FLAG_END_STREAM).
    specialize (Hrv (d :: ds) f' ltac:(unfold f'; by rewrite has_on_eq) ltac:(unfold f'; by rewrite has_on_ne)).
    pose proof (hr_uri _ _ _ _ _ Hrv) as (u & Hu & (_ & _ & Hqu) & _).
    destruct (data_frames w i (d :: ds) (r1 <| r_flags := f |>) [] w2 cb arg p1 ltac:(done) Hkeep Hw2 Hb Hrcb Hrarg Hcb)
      as (p3 & w3 & Hw3 & E3); [|eexists i, _, p3, w3; split_and!; [exact E3|exact Hw3|destruct r1; exact Hrv|done]].
    apply (no_h2_form_false _ _ u Hform Hu); [|apply Hrv].
    intros [q E]. cbn in Hqu, E. rewrite E in Hqu. destruct Hqu as (k & u0 & u1 & Eq & Eu).
    rewrite Eu. by apply set_query_some in Eq.
Qed.

(** C9: a request over HTTP/2, from its frames to the application.  A server
    connection that is ready, without hooks, limits or virtual hosts, is told
    by nghttp2 of a HEADERS frame, its pseudo header fields and header fields,
    and any number of DATA frames, the last frame ending the stream.  The last
    thing its callbacks do is to call the callback selected for the path, with
    a request object - new, or from the cache - that holds the method, the
    path split and matched, the parsed query, the scheme, the authority as
    Host, every field in order and the body of all DATA frames, and nothing of
    an earlier exchange; the request is the last of the pending ones, other
    requests are as they were, and no NULL pointer was followed. *)
Theorem h2_request_delivered m p w s pth cb arg so eo :
  ready h host w -> c_freed (w_conn w) = false ->
  ctx_session (w_app w) = Some s -> stream_open s -> consume_keeps ->
  the_path (split_target (hm_target m)).1 = Some pth ->
  select_callback host (new_request (Some h)) pth = Some (cb, arg, None, so, eo) -> cb <> 0 ->
  (forall q, (split_target (hm_target m)).2 = Some q -> forall k u,
     fst (htp__uri_set_query_ (kv_mem mem k) u q (parser_flags host)) = 0) ->
  Forall (fun f => plain_name f.1) (hm_fields m) -> no_h2_form m ->
  exists i r q w1,
    run_callbacks mem app beyond (message_callbacks sid m) (p, w) = (0, (app_cb app i cb arg (q, w1)).2) /\
    handed w i r w1 /\ h2_received m pth so eo r /\ (i = w_allocs w \/ i ∈ cached h w).
Proof. exact (message_delivered m p w s pth cb arg so eo). Qed.
End Serve.

(** ** Witness: a POST with a query, in three DATA frames *)

Definition post_message : h2_message := {|
  hm_method := bytes "POST"; hm_target := bytes "/a?x=1"; hm_scheme := bytes "https";
  hm_authority := bytes "a.org"; hm_fields := [(bytes "content-length", bytes "3"); (bytes "x-y", bytes "z")];
  hm_data := [bytes "ab"; []; bytes "c"] |}.
Definition post_path : evhtp_path :=
  {| full := bytes "/a"; path := Some (bytes "/"); file := Some (bytes "a"); match_start := None;
     match_end := None; matched_soff := 0; matched_eoff := 0 |}.
Lemma h2_request_delivered_witness :
  exists i r q w1,
    run_callbacks (fun _ => true) starting_app (fun _ => [0]) (message_callbacks 1 post_message)
      (p_init htp_type_request, h2_world) = (0, (app_cb starting_app i 7 0 (q, w1)).2) /\
    handed 0 h2_host h2_world i r w1 /\ r_method r = htp_method_POST /\ buffer_in r = Some (bytes "abc") /\
    header_views r = Some [(Some (bytes "host"), Some (bytes "a.org"));
      (Some (bytes "content-length"), Some (bytes "3")); (Some (bytes "x-y"), Some (bytes "z"))].
Proof.
  destruct (h2_request_delivered (fun _ => true) (fun _ => eq_refl) starting_app (fun _ => [0])
    0 h2_host eq_refl 1 post_message (p_init htp_type_request) h2_world (initial_session evhtp_type_server)
    post_path 7 0 0 2) as (i & r & q & w1 & E & Hh & Hr & _); try reflexivity.
  - split; [by split|done|constructor|constructor].
  - intros i. apply lookup_partial_alter_eq.
  - by intros.
  - done.
  - intros q [= <-] k u. vm_compute. reflexivity.
  - repeat constructor; done.
  - left. by eexists.
  - exists i, r, q, w1. destruct Hr. by split_and!.
Defined.
