(* ===== verification/H2Trip.v ===== *)
(** * evhtp.c: what an HTTP/2 client asks for is what the server is asked

    A request that evhtp_make_request submits on an HTTP/2 connection, with the
    body that nghttp2 reads from it, arrives at a server of this library as the
    request its client made ([client_request_served]). *)

From S2P Require Import Prelude HtpTypes HtString MsgParser MsgParserFacts MsgParserSpec Kvs Query Callbacks Numtoa Uri Request ReqParse ReqFacts ReqEnd Reply ReplyFacts Conn ConnInv H2 H2Inv H2Safe H2Facts H2Serve.
From stdpp Require Import gmap.
#[local] Open Scope Z_scope.
#[local] Open Scope htp_scope.

(** The fields of a request as nghttp2 carries them, and the payloads of its DATA
    frames.  The names that the client submits are copied in lower case (without
    NGHTTP2_NV_FLAG_NO_COPY_NAME, as nghttp2.h documents). *)
Definition lowered (f : nghttp2_nv) : nghttp2_nv := (lower f.1, f.2).
Definition carried (nva : list nghttp2_nv) (ds : list (list Z)) : option h2_message :=
  match nva with
  | (m_, m) :: (p_, t) :: (s_, s) :: (a_, a) :: fs =>
      if bool_decide ([m_; p_; s_; a_] = [bytes ":method"; bytes ":path"; bytes ":scheme"; bytes ":authority"])
      then Some {| hm_method := m; hm_target := t; hm_scheme := s; hm_authority := a;
                   hm_fields := lowered <$> fs; hm_data := ds |}
      else None
  | _ => None
  end.

(** ** The client *)

Section Client.
Context `{rx : RegexLib} `{ng : Nghttp2} {B : Type}.
Context (mem : nat -> bool) (Hmem : forall k, mem k = true).
Context (app : App (h2_state B)) (beyond : list Z -> list Z).
Abbreviation W := (world (h2_state B)).
Implicit Types (w : W) (r : evhtp_request).

(** nghttp2 reads the body, with room for so many bytes each time, up to the
    read that is told it is the last. *)
Fixpoint body_reads (i : nat) (ns : list nat) : M (St W) (option (list (list Z))) :=
  match ns with
  | [] => ret None
  | n :: ns =>
      x <- h2__data_read_cb_ i n ;;
      if x.2 then ret (Some [x.1])
      else xs <- body_reads i ns ;; ret (cons x.1 <$> xs)
  end.
Lemma body_reads_ok i ns : forall r body p w,
  w_reqs w !! i = Some r -> buffer_out r = Some body -> (length body <= sum_list ns)%nat -> ns <> [] ->
  exists ds w', body_reads i ns (p, w) = (Some ds, (p, w')) /\ concat ds = body /\ ds <> [].
Proof.
  induction ns as [|n ns IH]; [done|]. intros r body p w Hr Hb Hlen _. change (sum_list (n :: ns)) with (n + sum_list ns)%nat in Hlen. cbn [body_reads].
  unfold h2__data_read_cb_. rewrite run_assoc, run_getw. cbn [snd]. rewrite Hr. cbn [mbind option_bind]. rewrite Hb.
  assert (take (Nat.min (length body) n) body = take n body /\ drop (Nat.min (length body) n) body = drop n body) as [-> ->].
  { destruct (Nat.min_spec (length body) n) as [[Hlt ->]|[Hle ->]]; [|done]. rewrite firstn_all, drop_all.
    by rewrite take_ge, drop_ge by lia. }
  rewrite run_assoc. erewrite run_upd_req by exact Hr. rewrite run_ret. cbn [fst snd].
  case_bool_decide as Hd.
  - eexists [_], _. split; [reflexivity|]. split; [|done]. cbn [concat]. rewrite app_nil_r.
    rewrite <- (take_drop n body) at 2. by rewrite Hd, app_nil_r.
  - destruct ns as [|n2 ns]; [destruct Hd; apply drop_ge; change (sum_list []) with 0%nat in Hlen; lia|].
    match goal with |- context [bind (body_reads i _) _ (p, ?x)] =>
      destruct (IH (r <| buffer_out := Some (drop n body) |>) (drop n body) p x) as (ds & w' & E & Hds & _); try done end.
    { cbn. apply lookup_insert_eq. }
    { rewrite length_drop. lia. }
    exists (take n body :: ds), w'. erewrite bind_eq by exact E. split; [done|]. split; [|done].
    cbn [concat]. by rewrite Hds, take_drop.
Qed.

(** A request that the application has filled in. *)
Record prepared (i : nat) (hs : evhtp_kvs) (body : list Z) r w : Prop := {
  pr_req : w_reqs w !! i = Some r;
  pr_headers : headers_out r = Some hs;
  pr_body : buffer_out r = Some body;
  pr_alive : c_freed (w_conn w) = false;
  pr_bev : c_bev (w_conn w) = true
}.
Definition client_authority c (hs : evhtp_kvs) (peer : option (list Z * Z)) : list Z :=
  match evhtp_kv_find_n (Some hs) (Some (bytes "host")) 4 with
  | Some v => cstr v
  | None => h2__client_authority c peer 300
  end.
Definition body_source (i : nat) (body : list Z) : option data_source :=
  match body with [] => None | _ => Some (whole_body i) end.
Lemma on_session_eq {C} (d : C) f s w p :
  ctx_session (w_app w) = Some s ->
  on_session (B := B) d f (p, w) = ((f s).1, (p, w <| w_app := (w_app w) <| ctx_session := Some (f s).2 |> |>)).
Proof.
  intros Hs. unfold on_session, geth. rewrite run_getw. cbn [snd]. rewrite Hs. unfold updh. by destruct (f s).
Qed.
Lemma session_run_nil v s w p :
  ctx_session (w_app w) = Some s -> session_run mem app beyond [] v (p, w) = (v, (p, w)).
Proof.
  intros Hs. assert (w <| w_app := (w_app w) <| ctx_session := Some s |> |> = w) as Hid.
  { destruct w as [? ? ? ? ? ? []]. cbn in *. by subst. }
  pose proof (on_session_eq tt (fun s => (tt, s)) s w p Hs) as E. cbn [fst snd] in E. rewrite Hid in E.
  unfold session_run. rewrite (bind_eq _ _ _ _ _ E). cbn [run_callbacks]. by rewrite run_ret, (bind_eq _ _ _ _ _ E).
Qed.
Lemma h2_submit_eq i meth uri peer hs body r w p s :
  prepared i hs body r w -> ctx_session (w_app w) = Some s ->
  let nva := request_nv meth uri (client_authority (w_conn w) hs peer) hs in
  let sub := nghttp2_submit_request2 nva (body_source i body) i s in
  0 <= sub.1 ->
  exists w' r', evhtp_h2_make_request mem app beyond i meth uri peer [] (p, w) = (0, (p, w')) /\
    ctx_session (w_app w') = Some sub.2 /\ w_reqs w' !! i = Some r' /\
    buffer_out r' = Some body /\ stream_id r' = sub.1.
Proof.
  intros [Hr Hh Hb Hal _] Hs nva sub Hsub. unfold evhtp_h2_make_request, getc.
  rewrite run_assoc, run_getw. cbn [snd]. rewrite Hal, run_ret, (with_req_eq _ _ _ r) by done.
  rewrite Hh, run_allocs, Hmem. cbn [negb fst snd]. rewrite Hb.
  change (match default [] (Some body) with [] => None | _ => Some (whole_body i) end) with (body_source i body).
  fold (client_authority (w_conn w) hs peer). fold nva. set (w1 := w <| w_allocs := _ |>).
  rewrite (bind_eq _ _ _ _ _ (on_session_eq _ _ s w1 p Hs)). fold sub. rewrite (proj2 (Z.ltb_ge _ _) Hsub).
  erewrite run_upd_req by exact Hr. unfold updh. rewrite run_updw. cbn [fst snd].
  match goal with |- context [bind (session_run _ _ _ _ _) _ (p, ?x)] => set (w2 := x) end.
  rewrite (bind_eq _ _ _ _ _ (session_run_nil 0 sub.2 w2 p eq_refl)).
  eexists _, _. split; [reflexivity|]. split; [done|]. split; [cbn; apply lookup_insert_eq|]. by split.
Qed.
(** What is submitted; the request then has its stream, and its body is still there. *)
Lemma make_request_eq i meth uri peer hs body r w p s :
  prepared i hs body r w -> ctx_session (w_app w) = Some s ->
  let nva := request_nv meth uri (client_authority (w_conn w) hs peer) hs in
  let sub := nghttp2_submit_request2 nva (body_source i body) i s in
  0 <= sub.1 ->
  exists w' r', h2_make_request mem app beyond i meth uri peer [] (p, w) = (0, (p, w')) /\
    ctx_session (w_app w') = Some sub.2 /\ w_reqs w' !! i = Some r' /\
    buffer_out r' = Some body /\ stream_id r' = sub.1.
Proof.
  intros [Hr Hh Hb Hal Hbev] Hs. unfold h2_make_request, getbev, getc.
  rewrite !run_assoc, run_getw. cbn [snd]. rewrite Hal, run_ret, Hbev, run_ret.
  erewrite run_upd_req by exact Hr. cbn [fst snd].
  match goal with |- context [evhtp_h2_make_request _ _ _ _ _ _ _ _ (p, ?x)] => set (w1 := x) end.
  apply (h2_submit_eq i meth uri peer hs body _ w1 p s ltac:(split; [cbn; apply lookup_insert_eq|done..]) Hs).
Qed.
End Client.

(** ** There and back *)

(** A field of the application: C strings with their lengths, and not a pseudo
    header field. *)
Definition sendable_field (kv : evhtp_kv) : Prop := exists k v,
  key kv = Some k /\ val kv = Some v /\ klen kv = length k /\ vlen kv = length v /\
  cstr k = k /\ cstr v = v /\ plain_name k.
Lemma nv_of_sendable kv k v :
  key kv = Some k -> val kv = Some v -> klen kv = length k -> vlen kv = length v -> nv_of kv = (k, v).
Proof. intros Hk Hv Hkl Hvl. unfold nv_of. by rewrite Hk, Hv, Hkl, Hvl; cbn; rewrite !firstn_all. Qed.
Lemma Forall_kept {A} (P Q : A -> Prop) `{!forall x, Decision (Q x)} (l : list A) : Forall P l -> Forall P (filter Q l).
Proof. rewrite !Forall_forall. by intros Hl x [_ Hx]%list_elem_of_filter; apply Hl. Qed.
(** The field as it arrives. *)
Definition lowered_view (kv : evhtp_kv) : option (list Z) * option (list Z) :=
  (lower <$> key kv, val kv).

Lemma TOLOWER_lowered c : TOLOWER (tolower c) = TOLOWER c.
Proof.
  unfold tolower. destruct (_ && _) eqn:E; [|done].
  apply andb_prop in E as [?%Z.leb_le ?%Z.leb_le].
  assert (exists n, (n < 26)%nat /\ c = 65 + Z.of_nat n) as (n & Hn & ->) by (exists (Z.to_nat (c - 65)); lia).
  do 26 (destruct n as [|n]; [done|]). lia.
Qed.
Lemma fold_eq_lower_name s t : fold_eq (lower s) t = fold_eq s t.
Proof. revert t. induction s as [|c s IH]; intros [|d t]; try done. cbn. by rewrite TOLOWER_lowered, IH. Qed.
Lemma tolower_is c d : d < 65 -> tolower c = d -> c = d.
Proof. unfold tolower. destruct (_ && _) eqn:E; [|done]. apply andb_prop in E as [?%Z.leb_le ?%Z.leb_le]. lia. Qed.
Lemma cstr_lower s : cstr s = s -> cstr (lower s) = lower s.
Proof.
  induction s as [|c s IH]; [done|]. cbn. destruct (Z.eqb_spec c 0); [done|]. intros [= E].
  destruct (Z.eqb_spec (tolower c) 0) as [H|_]; [by apply tolower_is in H|].
  change (map tolower s) with (lower s). by rewrite IH.
Qed.
Lemma plain_lower s : plain_name s -> plain_name (lower s).
Proof. destruct s as [|c s]; [done|]. unfold plain_name. cbn. intros H [= E]. apply H. f_equal. by apply tolower_is. Qed.

(** The fields sent, one by one. *)
Lemma sent_fields hs (P : list Z * list Z -> Prop) :
  Forall (fun kv => forall k v, key kv = Some k -> val kv = Some v -> cstr k = k -> cstr v = v ->
    plain_name k -> P (lower k, v)) hs ->
  Forall sendable_field hs -> Forall P (lowered <$> (nv_of <$> hs)).
Proof.
  intros HP Hs. induction Hs as [|kv hs (k & v & Hk & Hv & Hkl & Hvl & Hck & Hcv & Hp) _ IH]; [constructor|].
  apply Forall_cons in HP as [H1 HP]. cbn [fmap list_fmap]. rewrite (nv_of_sendable kv k v) by done.
  constructor; [by apply (H1 k v)|by apply IH].
Qed.
Lemma views_sent hs :
  Forall sendable_field hs -> map header_view (lowered <$> (nv_of <$> hs)) = map lowered_view hs.
Proof.
  induction 1 as [|kv hs (k & v & Hk & Hv & Hkl & Hvl & Hck & Hcv & _) _ IH]; [done|].
  cbn [fmap list_fmap map]. rewrite (nv_of_sendable kv k v) by done. change (lowered (k, v)) with (lower k, v).
  unfold header_view, lowered_view at 1. cbn [fst snd]. by rewrite Hk, Hv, (cstr_lower _ Hck), Hcv, <- IH.
Qed.
Lemma names_sent hs :
  Forall sendable_field hs -> Forall (fun f => plain_name f.1) (lowered <$> (nv_of <$> hs)).
Proof. apply sent_fields, Forall_true. intros kv k v _ _ _ _ Hp. by apply plain_lower. Qed.
Lemma no_type_sent hs n :
  Forall sendable_field hs -> Forall (fun kv => fold_eq (default [] (key kv)) n = false) hs ->
  Forall (fun f : list Z * list Z => fold_eq (cstr f.1) n = false) (lowered <$> (nv_of <$> hs)).
Proof.
  intros Hs Hn. apply sent_fields; [|done]. eapply Forall_impl; [exact Hn|].
  intros kv H k v Hk _ Hck _ _. cbv beta in H. rewrite Hk in H. cbn. by rewrite (cstr_lower _ Hck), fold_eq_lower_name.
Qed.

Section Trip.
Context `{rx : RegexLib} `{ng : Nghttp2} {B : Type}.
Context (mem : nat -> bool) (Hmem : forall k, mem k = true).
Context (client app : App (h2_state B)) (beyond : list Z -> list Z).
Context (h : nat) (host : evhtp) (Hvhosts : vhosts host = []) (sid : Z).
Abbreviation W := (world (h2_state B)).

(** What the server's callback is called with. *)
Record as_asked (meth : htp_method) (uri authority : list Z) (hs : evhtp_kvs) (body : list Z)
    (pth : evhtp_path) (so eo : Z) (r : evhtp_request) : Prop := {
  aa_method : r_method r = meth;
  aa_uri : exists u, r_uri r = Some u /\ target_uri mem host uri so eo pth u /\ uri_scheme u = htp_scheme_https;
  aa_headers : header_views r = Some ((Some (bytes "host"), Some (cstr authority)) ::
    map lowered_view (filter (fun kv => skip_hop_by_hop_request_header kv hs = false) hs));
  aa_body : buffer_in r = Some body
}.
(** The body the data source [prd] gives, in pieces. *)
Definition reads_body (prd : option data_source) (ns : list nat) (ds : list (list Z)) (s : St W) : Prop :=
  match prd with
  | None => ds = []
  | Some (whole_body i) => exists s', body_reads i ns s = (Some ds, s')
  | Some (streamed_body _) => False
  end.

(** C12: what an HTTP/2 client asks for is what the server is asked.  A client
    of this library submits a request with any header fields and body and any
    known method but PROPPATCH, which it misspells; nghttp2 carries what was
    submitted, with the names in lower case, reads the body in pieces of any
    size, and reports both to a server of this library without virtual hosts.
    The server's callback, chosen by the path, is called with the method, the
    target split into path and query, the scheme https, the authority as Host,
    then every header field that is not hop-by-hop, in the client's order, with
    its name in lower case and its value, and the whole body.  The target has a
    query that can be parsed, or no field is a Content-Type (a body that is a
    form would become the query). *)
Theorem client_request_served meth uri peer hs body ns rc wc pc ic sc p w s pth cb arg so eo :
  let authority := client_authority (w_conn wc) hs peer in
  prepared ic hs body rc wc -> ctx_session (w_app wc) = Some sc -> Forall sendable_field hs ->
  0 <= (nghttp2_submit_request2 (request_nv meth uri authority hs) (body_source ic body) ic sc).1 ->
  meth <> htp_method_UNKNOWN -> meth <> htp_method_PROPPATCH ->
  (length body <= sum_list ns)%nat -> ns <> [] ->
  ready h host w -> c_freed (w_conn w) = false ->
  ctx_session (w_app w) = Some s -> stream_open sid s -> consume_keeps sid ->
  the_path (split_target (cstr uri)).1 = Some pth ->
  select_callback host (new_request (Some h)) pth = Some (cb, arg, None, so, eo) -> cb <> 0 ->
  (forall q, (split_target (cstr uri)).2 = Some q -> forall k u,
     fst (htp__uri_set_query_ (kv_mem mem k) u q (parser_flags host)) = 0) ->
  is_Some (split_target (cstr uri)).2 \/
    Forall (fun kv => fold_eq (default [] (key kv)) (bytes "content-type") = false) hs ->
  exists nva prd wc' ds m i r q w1,
    h2_make_request mem client beyond ic meth uri peer [] (pc, wc) = (0, (pc, wc')) /\
    ctx_session (w_app wc') = Some (nghttp2_submit_request2 nva prd ic sc).2 /\
    reads_body prd ns ds (pc, wc') /\ carried nva ds = Some m /\
    run_callbacks mem app beyond (message_callbacks sid m) (p, w) = (0, (app_cb app i cb arg (q, w1)).2) /\
    handed h host w i r w1 /\ as_asked meth (cstr uri) authority hs body pth so eo r.
Proof.
  intros authority Hpr Hsc Hhs Hsub Hm1 Hm2 Hlen Hns Hw Hal Hs Hopen Hkeep Hpath Hsel Hcb Hq Hform.
  destruct (make_request_eq mem Hmem client beyond ic meth uri peer hs body rc wc pc sc Hpr Hsc Hsub)
    as (wc' & rc' & Emk & Hsc' & Hrc' & Hbody & _).
  assert (exists ds, reads_body (body_source ic body) ns ds (pc, wc') /\ concat ds = body) as (ds & Hds & Hcat).
  { destruct body as [|b body]; [by exists []|].
    destruct (body_reads_ok ic ns rc' (b :: body) pc wc' Hrc' Hbody Hlen Hns) as (ds & w' & E & Hcat & _).
    exists ds. split; [by eexists|done]. }
  set (kept := filter (fun kv => skip_hop_by_hop_request_header kv hs = false) hs).
  assert (Forall sendable_field kept) as Hkept by by apply Forall_kept.
  set (m := {| hm_method := bytes (default EmptyString (htparser_get_methodstr_m (htp_method_index meth)));
    hm_target := cstr uri; hm_scheme := bytes "https"; hm_authority := authority; hm_fields := lowered <$> (nv_of <$> kept); hm_data := ds |}).
  destruct (message_delivered mem Hmem app beyond h host Hvhosts sid m p w s pth cb arg so eo Hw Hal Hs Hopen Hkeep Hpath Hsel Hcb Hq)
    as (i & r & q & w1 & E & Hh & Hr & _).
  - by apply names_sent.
  - destruct Hform as [Hf|Hf]; [by left|right]. apply no_type_sent; [done|]. by apply Forall_kept.
  - exists (request_nv meth uri authority hs), (body_source ic body), wc', ds, m, i, r, q, w1.
    split; [exact Emk|]. split; [exact Hsc'|]. split; [done|]. split; [done|]. split; [done|]. split; [done|].
    destruct Hr as [Rm _ _ _ _ Rh Rb _ (u & Ru & Rt & Rsc)]. split.
    + rewrite Rm. cbn [hm_method m]. pose proof (proj2 (method_from_exact [] meth) Hm1) as Hmeth.
      rewrite bool_decide_eq_false_2 in Hmeth by done. destruct (htparser_get_methodstr_m _) as [str|]; [|done].
      by injection Hmeth.
    + exists u. split_and!; [done..|]. rewrite Rsc. done.
    + rewrite Rh. cbn [hm_authority hm_fields m map]. by rewrite views_sent.
    + rewrite Rb. cbn [hm_data m]. by rewrite Hcat.
Qed.
End Trip.

(** ** Witness: a POST with a hop-by-hop field and a body read in three pieces *)

Definition asked_fields : evhtp_kvs :=
  [named_field "host" "a.org"; named_field "X-A" "1"; named_field "Connection" "x-b"; named_field "X-B" "2"].
Definition asking_request : evhtp_request :=
  (new_request (Some 0%nat)) <| headers_out := Some asked_fields |> <| buffer_out := Some (bytes "hello") |>.
Definition asking_world : world (H := no_regex) (h2_state unit) :=
  h2_world <| w_conn := (w_conn h2_world) <| c_type := evhtp_type_client |> |>
           <| w_reqs := {[5%nat := asking_request]} |> <| w_allocs := 9%nat |>.
Lemma client_request_served_witness :
  exists nva prd wc' ds m i r q w1,
    h2_make_request (fun _ => true) starting_app (fun _ => [0]) 5 htp_method_POST (bytes "/a?x=1") None []
      (p_init htp_type_response, asking_world) = (0, (p_init htp_type_response, wc')) /\
    reads_body prd [2; 2; 2]%nat ds (p_init htp_type_response, wc') /\ carried nva ds = Some m /\
    run_callbacks (fun _ => true) starting_app (fun _ => [0]) (message_callbacks 1 m) (p_init htp_type_request, h2_world) =
      (0, (app_cb starting_app i 7 0 (q, w1)).2) /\
    r_method r = htp_method_POST /\ buffer_in r = Some (bytes "hello") /\
    header_views r = Some [(Some (bytes "host"), Some (bytes "a.org")); (Some (bytes "x-a"), Some (bytes "1"))].
Proof.
  destruct (client_request_served (fun _ => true) (fun _ => eq_refl) starting_app starting_app (fun _ => [0])
    0 h2_host eq_refl 1 htp_method_POST (bytes "/a?x=1") None asked_fields (bytes "hello") [2; 2; 2]%nat asking_request
    asking_world (p_init htp_type_response) 5 (initial_session evhtp_type_server) (p_init htp_type_request) h2_world
    (initial_session evhtp_type_server) post_path 7 0 0 2)
    as (nva & prd & wc' & ds & m & i & r & q & w1 & Emk & _ & Hds & Hm & E & _ & Hr); try reflexivity; try done.
  - repeat constructor; eexists _, _; by repeat split.
  - vm_compute. lia.
  - split; [by split|done|constructor|constructor].
  - intros i. apply lookup_partial_alter_eq.
  - intros q [= <-] k u. vm_compute. reflexivity.
  - left. by eexists.
  - exists nva, prd, wc', ds, m, i, r, q, w1. destruct Hr. by split_and!.
Defined.
