(* ===== verification/Tls.v ===== *)
(** * evhtp.c: TLS

    What OpenSSL calls during and after a handshake: the choice of a protocol
    (ALPN), of a virtual host (SNI), the session cache and the notice that the
    handshake is done, with which a connection becomes an HTTP/2 connection.
    OpenSSL is the parameter [Tls] (an SSL object, its context);
    evhtp_ssl_init is in TlsInit.v.  [handshake_protocol]: the
    protocol a connection speaks; [sni_vhost_chosen]: the host that serves it. *)

From S2P Require Import Prelude HtpTypes HtString MsgParser Query Kvs Callbacks Request ReqParse Conn MsgParserFacts ReqFacts H2 H2Inv H2Safe.
From stdpp Require Import gmap.
#[local] Open Scope Z_scope.
#[local] Open Scope htp_scope.

Definition SSL_TLSEXT_ERR_OK : Z := 0.
Definition SSL_TLSEXT_ERR_NOACK : Z := 3.
Definition OPENSSL_NPN_NEGOTIATED : Z := 1.
Definition SSL_CB_HANDSHAKE_DONE : Z := 32.
Definition SSL_VERIFY_NONE : Z := 0.

(** [SSL_select_next_proto server client]: its result and the protocol it
    points at. *)
Class Tls := {
  SSL : Type;
  SSL_CTX : Type;
  SSL_select_next_proto : list Z -> list Z -> Z * list Z;
  SSL_get_SSL_CTX : SSL -> SSL_CTX;
  SSL_set_SSL_CTX : option SSL_CTX -> SSL -> SSL;
  SSL_CTX_get_options : SSL_CTX -> Z;
  SSL_set_options : Z -> SSL -> SSL;
  SSL_get_verify_mode : SSL -> Z;
  SSL_num_renegotiations : SSL -> Z;
  SSL_CTX_get_verify_mode : SSL_CTX -> Z;
  SSL_CTX_get_verify_callback : SSL_CTX -> Z;
  SSL_set_verify : Z -> Z -> SSL -> SSL
}.

(** The members of [evhtp_ssl_cfg_t] that the session cache uses; a function of
    the application is 0 when it is not set. *)
Record scache_cfg := {
  scache_timeout : Z; scache_add : Z; scache_get : Z; scache_del : Z
}.

Section Tls.
Context `{lib : HtStringLib} `{rx : RegexLib} `{ng : Nghttp2} `{tls : Tls} {B : Type}.
Abbreviation W := (world (h2_state B)).
Context (mem : nat -> bool) (app : App (h2_state B)).
Context (beyond : list Z -> list Z).

(** ** The protocol *)

Definition h2_proto : list Z := 2 :: bytes "h2".
Definition http11_proto : list Z := 8 :: bytes "http/1.1".

(** The result, and the protocol [out] points at. *)
Definition htp__ssl_alpn_select_ (in_ : list Z) : Z * list Z :=
  let '(v, out) := SSL_select_next_proto h2_proto in_ in
  if v =? OPENSSL_NPN_NEGOTIATED then (SSL_TLSEXT_ERR_OK, out)
  else
    let '(v, out) := SSL_select_next_proto http11_proto in_ in
    if v =? OPENSSL_NPN_NEGOTIATED then (SSL_TLSEXT_ERR_OK, out)
    else (SSL_TLSEXT_ERR_NOACK, out).

(** [proto]: what SSL_get0_alpn_selected gives; [send]: what the first
    nghttp2_session_send calls. *)
Definition htp__ssl_info_cb_ (where_ : Z) (proto : list Z) (send : list h2_callback) :
    M (St W) unit :=
  if negb (has where_ SSL_CB_HANDSHAKE_DONE) then ret tt
  else if (length proto =? 2)%nat && bytes_eqb (take 2 proto) (bytes "h2") then
    c <- getc ;;
    ctx <- evhtp_h2_conn_ctx_new mem app beyond (c_type c) send ;;
    if negb ctx then evhtp_connection_free app
    else
      upd_conn (fun c => c <| c_flags := flag_on (c_flags c) EVHTP_CONN_FLAG_IS_HTTP2 |>) ;;
      upd_bev (fun c => c <| bev_readcb := htp__h2_connection_readcb |>)
  else ret tt.

(** ** The virtual host *)

(** [ssl_ctx_of]: [ssl_ctx] of each [evhtp_t]; [app_data]: whether the
    connection was attached to the SSL object. *)
Definition htp__ssl_servername_ (ssl_ctx_of : nat -> option SSL_CTX) (app_data : bool)
    (ssl : option SSL) : M (St W) (Z * option SSL) :=
  match ssl with
  | None => ret (SSL_TLSEXT_ERR_NOACK, None)
  | Some s =>
      c <- getc ;;
      match c_sni c with
      | None => ret (SSL_TLSEXT_ERR_NOACK, ssl)
      | Some sname =>
          if negb app_data then ret (SSL_TLSEXT_ERR_NOACK, ssl)
          else
            hs <- getw w_htps ;;
            match c_htp c with
            | None => ret (SSL_TLSEXT_ERR_NOACK, ssl)
            | Some h =>
                match hs !! h with
                | None => ub (SSL_TLSEXT_ERR_NOACK, ssl)
                | Some host =>
                    match htp__request_find_vhost_ hs host (sname ++ [0]) (length sname) with
                    | None => ub (SSL_TLSEXT_ERR_NOACK, ssl)
                    | Some None => ret (SSL_TLSEXT_ERR_NOACK, ssl)
                    | Some (Some evhtp_vhost) =>
                        let ctx := SSL_get_SSL_CTX s in
                        upd_conn (fun c => c <| c_htp := Some evhtp_vhost |>
                          <| c_flags := flag_on (c_flags c) EVHTP_CONN_FLAG_VHOST_VIA_SNI |>) ;;
                        let s := SSL_set_SSL_CTX (ssl_ctx_of evhtp_vhost) s in
                        let s := SSL_set_options (SSL_CTX_get_options ctx) s in
                        let s := if (SSL_get_verify_mode s =? SSL_VERIFY_NONE) ||
                                    (SSL_num_renegotiations s =? 0)
                                 then SSL_set_verify (SSL_CTX_get_verify_mode ctx)
                                        (SSL_CTX_get_verify_callback ctx) s
                                 else s in
                        ret (SSL_TLSEXT_ERR_OK, Some s)
                    end
                end
            end
      end
  end.

(** ** The session cache *)

(** [cfg]: [ssl_cfg] of each [evhtp_t]; the functions of the application are
    given the session by its identity and number.  The result of
    [htp__ssl_add_scache_ent_] and of [htp__ssl_get_scache_ent_] is theirs. *)
Context (cfg : nat -> option scache_cfg).
Context (app_add : Z -> list Z -> Z -> M (St W) Z) (app_get : Z -> list Z -> M (St W) (option Z)).
Context (app_del : Z -> nat -> list Z -> M (St W) unit).

(** [htp]: the server the context was made for. *)
Definition htp__ssl_delete_scache_ent_ (htp : nat) (sid : list Z) : M (St W) unit :=
  match cfg htp with
  | None => ub tt
  | Some k => when (negb (scache_del k =? 0)) (app_del (scache_del k) htp sid)
  end.
(** The timeout set on the session, and the result. *)
Definition htp__ssl_add_scache_ent_ (sid : list Z) (sess : Z) : M (St W) (option Z * Z) :=
  c <- getc ;;
  match c_htp c with
  | None => ret (None, 0)
  | Some h =>
      match cfg h with
      | None => ub (None, 0)
      | Some k =>
          if negb (scache_add k =? 0)
          then v <- app_add (scache_add k) sid sess ;; ret (Some (scache_timeout k), v)
          else ret (Some (scache_timeout k), 0)
      end
  end.
(** The session and what [*copy] becomes. *)
Definition htp__ssl_get_scache_ent_ (sid : list Z) : M (St W) (option Z * option Z) :=
  c <- getc ;;
  match c_htp c with
  | None => ret (None, None)
  | Some h =>
      match cfg h with
      | None => ub (None, None)
      | Some k =>
          sess <- (if negb (scache_get k =? 0) then app_get (scache_get k) sid else ret None) ;;
          ret (sess, Some 0)
      end
  end.
End Tls.

(** ** What OpenSSL documents *)

(** A list of protocols as ALPN sends it. *)
Definition wire (ps : list (list Z)) : list Z := flat_map (fun p => Z.of_nat (length p) :: p) ps.
Definition offer_ok (ps : list (list Z)) : Prop :=
  ps <> [] /\ Forall (fun p => (0 < length p < 256)%nat) ps.

(** SSL_select_next_proto finds the one protocol of the server's list when the
    client offers it.  An SSL object has the context and the verification that
    were set last. *)
Class TlsLaws `{Tls} : Prop := {
  select_one p ps : (0 < length p < 256)%nat -> offer_ok ps ->
    (fst (SSL_select_next_proto (wire [p]) (wire ps)) = OPENSSL_NPN_NEGOTIATED <-> p ∈ ps) /\
    (p ∈ ps -> snd (SSL_select_next_proto (wire [p]) (wire ps)) = p);
  get_set_ctx x s : SSL_get_SSL_CTX (SSL_set_SSL_CTX (Some x) s) = x;
  ctx_set_options o s : SSL_get_SSL_CTX (SSL_set_options o s) = SSL_get_SSL_CTX s;
  ctx_set_verify m cb s : SSL_get_SSL_CTX (SSL_set_verify m cb s) = SSL_get_SSL_CTX s;
  reneg_set_ctx x s : SSL_num_renegotiations (SSL_set_SSL_CTX x s) = SSL_num_renegotiations s;
  reneg_set_options o s : SSL_num_renegotiations (SSL_set_options o s) = SSL_num_renegotiations s;
  get_set_verify m cb s : SSL_get_verify_mode (SSL_set_verify m cb s) = m
}.

Section Facts.
Context `{lib : HtStringLib} `{rx : RegexLib} `{ng : Nghttp2} `{tls : Tls} {B : Type}.
Context `{!TlsLaws}.
Abbreviation W := (world (h2_state B)).
Context (mem : nat -> bool) (app : App (h2_state B)).
Context (beyond : list Z -> list Z).
Implicit Types (w : W) (c : evhtp_connection).

(** ** The protocol a connection speaks *)

(** HTTP/2 when the client offers it, else HTTP/1.1 when it offers that. *)
Definition chosen (ps : list (list Z)) : option (list Z) :=
  if decide (bytes "h2" ∈ ps) then Some (bytes "h2")
  else if decide (bytes "http/1.1" ∈ ps) then Some (bytes "http/1.1") else None.

Lemma alpn_select ps : offer_ok ps ->
  fst (htp__ssl_alpn_select_ (wire ps)) =
    (if chosen ps is Some _ then SSL_TLSEXT_ERR_OK else SSL_TLSEXT_ERR_NOACK) /\
  forall p, chosen ps = Some p -> snd (htp__ssl_alpn_select_ (wire ps)) = p.
Proof.
  intros Hps. unfold htp__ssl_alpn_select_, chosen.
  destruct (select_one (bytes "h2") ps) as [H1 H1']; [by change (length (bytes "h2")) with 2%nat; lia|done|].
  destruct (select_one (bytes "http/1.1") ps) as [H2 H2']; [by change (length (bytes "http/1.1")) with 8%nat; lia|done|].
  change h2_proto with (wire [bytes "h2"]). change http11_proto with (wire [bytes "http/1.1"]).
  destruct (SSL_select_next_proto (wire [bytes "h2"]) _) as [v1 o1].
  destruct (SSL_select_next_proto (wire [bytes "http/1.1"]) _) as [v2 o2].
  cbn [fst snd] in *.
  destruct (decide (bytes "h2" ∈ ps)) as [Hin|Hin].
  { rewrite (proj2 H1 Hin). rewrite Z.eqb_refl. split; [done|]. intros p [= <-]. by apply H1'. }
  destruct (Z.eqb_spec v1 OPENSSL_NPN_NEGOTIATED) as [E|_]; [by apply H1 in E|].
  destruct (decide (bytes "http/1.1" ∈ ps)) as [Hin2|Hin2].
  { rewrite (proj2 H2 Hin2). rewrite Z.eqb_refl. split; [done|]. intros p [= <-]. by apply H2'. }
  destruct (Z.eqb_spec v2 OPENSSL_NPN_NEGOTIATED) as [E|_]; [by apply H2 in E|]. done.
Qed.

(** A connection with a bufferevent. *)
Definition usable (c : evhtp_connection) : Prop :=
  c_freed c = false /\ c_bev c = true /\ bev_freed c = false.

Definition sent (d : list Z) w : W :=
  w <| w_conn := (w_conn w) <| bev_output := bev_output (w_conn w) ++ d |> |>.

Lemma live_getc p w : c_freed (w_conn w) = false -> getc (p, w) = (w_conn w, (p, w)).
Proof. intros E. unfold getc, getw, bind. cbn. by rewrite E. Qed.
Lemma usable_getbev p w : usable (w_conn w) -> getbev (p, w) = (w_conn w, (p, w)).
Proof. intros (Hf & Hb & _). unfold getbev, bind. rewrite live_getc by done. by rewrite Hb. Qed.

Lemma upd_bev_eq f p w : bev_freed (w_conn w) = false ->
  upd_bev f (p, w) = (tt, (p, w <| w_conn := f (w_conn w) |>)).
Proof. intros E. unfold upd_bev, upd_conn, updw, getw, bind. cbn. by rewrite E. Qed.

Lemma send_one d p w : usable (w_conn w) ->
  run_callback mem app beyond (cb_send d) (p, w) = (0, (p, sent d w)).
Proof.
  intros Hu. unfold run_callback, h2__send_cb_. unfold bind.
  rewrite live_getc by apply Hu. cbv zeta. rewrite usable_getbev by done. done.
Qed.
Lemma send_all ds p w : usable (w_conn w) ->
  run_callbacks mem app beyond (map cb_send ds) (p, w) = (0, (p, sent (concat ds) w)).
Proof.
  revert w. induction ds as [|d ds IH]; intros w Hu; cbn [map run_callbacks concat].
  { unfold sent, ret. rewrite app_nil_r. by destruct w as [[]]. }
  unfold bind. rewrite send_one by done. rewrite Z.eqb_refl, IH by done.
  unfold sent. cbn. by rewrite <- app_assoc.
Qed.

(** The session sends [ds]. *)
Lemma sends_ok ds p w s0 :
  usable (w_conn w) -> ctx_session (w_app w) = Some s0 ->
  session_run mem app beyond (map cb_send ds) 0 (p, w) =
  (0, (p, sent (concat ds) w)).
Proof.
  intros Hu Hs. unfold session_run. unfold bind.
  assert (forall v, ctx_session (w_app v) = Some s0 ->
    on_session (B := B) tt (fun s => (tt, s)) (p, v) = (tt, (p, v))) as Hon.
  { intros v Hv. unfold on_session, geth, getw, updh, updw, bind, ret. cbn [snd fst]. rewrite Hv.
    destruct v as [? ? ? ? ? ? []]. cbn in *. by subst. }
  rewrite Hon by done. rewrite send_all by done. rewrite Hon by done. done.
Qed.

Ltac step := cbv beta iota zeta delta [negb ret]; cbn [fst snd].
Lemma ctx_new_ok role ds p w : usable (w_conn w) -> (forall k, mem k = true) ->
  evhtp_h2_conn_ctx_new mem app beyond role (map cb_send ds) (p, w) =
  (true, (p, sent (concat ds) (w <| w_allocs := (w_allocs w + 2)%nat |>
    <| w_app := (w_app w) <| ctx_session := Some (initial_session role) |> |>))).
Proof.
  intros Hu Hm. unfold evhtp_h2_conn_ctx_new, allocs, getw, updh, updw, bind. step.
  cbn [fst snd]. rewrite Hm. step. rewrite usable_getbev by done. step. rewrite Hm. step.
  cbn [fst snd]. rewrite (sends_ok ds p _ (initial_session role)) by done. done.
Qed.

(** An HTTP/2 connection that has sent [ds], its first frames. *)
Definition upgraded (ds : list (list Z)) w : W :=
  let c := w_conn w in
  w <| w_allocs := (w_allocs w + 2)%nat |>
    <| w_app := (w_app w) <| ctx_session := Some (initial_session (c_type c)) |> |>
    <| w_conn := c <| bev_output := bev_output c ++ concat ds |>
                   <| c_flags := flag_on (c_flags c) EVHTP_CONN_FLAG_IS_HTTP2 |>
                   <| bev_readcb := htp__h2_connection_readcb |> |>.

(** Nothing is lost of what HTTP/2 relies on. *)
Lemma upgraded_good {laws : Nghttp2Laws} ds w : negotiated w -> good [] (upgraded ds w).
Proof.
  intros Hn. pose proof (sc_type _ (ng_conn _ Hn)) as Ht. unfold upgraded. rewrite Ht.
  set (c' := _ <| bev_readcb := _ |>).
  assert (negotiated (w <| w_allocs := (w_allocs w + 2)%nat |> <| w_conn := c' |>)) as Hn'.
  { destruct Hn as [? [] ? ? ? ? ?]. by split. }
  exact (negotiated_good _ _ Hn' initial_session_forgets).
Qed.

(** C8: the protocol a connection speaks is the one agreed on.  To a client that
    offers HTTP/2 the server answers h2, to one that offers HTTP/1.1 only,
    http/1.1, to any other nothing; and when the handshake is done, the
    connection is an HTTP/2 connection, with a session of its own and its first
    frames sent, exactly if h2 was agreed on; otherwise, and while the handshake
    goes on, nothing about it changes.  An HTTP/2 connection of a server starts
    out in a state in which all that HTTP/2 relies on holds. *)
Theorem handshake_protocol {laws : Nghttp2Laws} ps where_ ds p w :
  offer_ok ps -> usable (w_conn w) -> (forall k, mem k = true) ->
  let '(v, out) := htp__ssl_alpn_select_ (wire ps) in
  let proto := if v =? SSL_TLSEXT_ERR_OK then out else [] in
  proto = default [] (chosen ps) /\
  htp__ssl_info_cb_ mem app beyond where_ proto (map cb_send ds) (p, w) =
    (tt, (p, if has where_ SSL_CB_HANDSHAKE_DONE && bool_decide (bytes "h2" ∈ ps)
             then upgraded ds w else w)) /\
  (negotiated w -> good [] (upgraded ds w)).
Proof.
  intros Hps (Hf & Hb & Hbf) Hm. destruct (alpn_select ps Hps) as [Hv Ho].
  destruct (htp__ssl_alpn_select_ (wire ps)) as [v out]. cbn [fst snd] in Hv, Ho. subst v.
  cbv zeta. set (proto := if _ =? _ then out else []).
  assert (proto = default [] (chosen ps)) as ->.
  { subst proto. destruct (chosen ps) as [q|]; [|done]. cbn. by apply Ho. }
  split; [done|]. split; [|apply upgraded_good]. unfold htp__ssl_info_cb_.
  destruct (has where_ SSL_CB_HANDSHAKE_DONE); [|done]. cbn [negb andb].
  unfold chosen. case_bool_decide as Hin.
  2:{ rewrite decide_False by done. by destruct (decide _). }
  rewrite decide_True by done. change (default [] (Some (bytes "h2"))) with (bytes "h2").
  change ((length (bytes "h2") =? 2)%nat && bytes_eqb (take 2 (bytes "h2")) (bytes "h2")) with true.
  unfold bind at 1. rewrite live_getc by done. unfold bind at 1. rewrite ctx_new_ok by done.
  unfold bind, upd_conn, updw. cbn [negb fst snd]. rewrite upd_bev_eq by exact Hbf. reflexivity.
Qed.

(** ** The host that serves a connection *)

(** The connection once SNI has chosen [v]. *)
Definition moved (v : nat) w : W :=
  w <| w_conn := (w_conn w) <| c_htp := Some v |>
         <| c_flags := flag_on (c_flags (w_conn w)) EVHTP_CONN_FLAG_VHOST_VIA_SNI |> |>.

Lemma moved_flag v w : has (c_flags (w_conn (moved v w))) EVHTP_CONN_FLAG_VHOST_VIA_SNI = true.
Proof. by apply has_on_eq. Qed.

(** C18: the host a TLS connection is for is chosen by the name the client gives
    in the handshake: the first virtual host that serves the name, its
    certificate being the one shown; with none, or without a name, the connection
    stays with the server that accepted it.  The choice is final: neither the
    Host field of a request nor the end of a request changes it.  But whether
    the client has to show a certificate is what the server that accepted the
    connection says, whatever the virtual host was configured to ask for. *)
Theorem sni_vhost_chosen ssl_ctx_of ssl p w h host name :
  c_freed (w_conn w) = false -> c_sni (w_conn w) = Some name -> name <> [] ->
  c_htp (w_conn w) = Some h -> w_htps w !! h = Some host ->
  (Forall (fun v => ~ serves (w_htps w) v name) (vhosts host) /\
   htp__ssl_servername_ ssl_ctx_of true (Some ssl) (p, w) = ((SSL_TLSEXT_ERR_NOACK, Some ssl), (p, w))) \/
  exists v l1 l2 ssl',
    vhosts host = l1 ++ v :: l2 /\ serves (w_htps w) v name /\
    Forall (fun v => ~ serves (w_htps w) v name) l1 /\
    htp__ssl_servername_ ssl_ctx_of true (Some ssl) (p, w) =
      ((SSL_TLSEXT_ERR_OK, Some ssl'), (p, moved v w)) /\
    (forall x, ssl_ctx_of v = Some x -> SSL_get_SSL_CTX ssl' = x) /\
    (SSL_num_renegotiations ssl = 0 ->
     SSL_get_verify_mode ssl' = SSL_CTX_get_verify_mode (SSL_get_SSL_CTX ssl)) /\
    (forall hs, leave_vhost hs (w_conn (moved v w)) = w_conn (moved v w)) /\
    (forall data q, htp__request_parse_hostname_ app beyond data (q, moved v w) =
       status_hook (fun i => htp__hook_hostname_ app i name) (q, moved v w)).
Proof.
  intros Hf Hn Hne Hh Hhost.
  destruct (find_vhost_first (w_htps w) host name [0] Hne) as (r & Hr & Hspec).
  assert (forall k : evhtp_connection -> M (St W) (Z * option SSL),
    bind getc k (p, w) = k (w_conn w) (p, w)) as Hget
    by (intros k; unfold bind; by rewrite live_getc).
  unfold htp__ssl_servername_. rewrite Hget, Hn. cbn [negb].
  assert (forall k : htps -> M (St W) (Z * option SSL),
    bind (getw w_htps) k (p, w) = k (w_htps w) (p, w)) as -> by done.
  rewrite Hh, Hhost, Hr.
  destruct r as [v|]; [right|by left].
  destruct Hspec as (l1 & l2 & El & Hs & Hno). exists v, l1, l2. eexists.
  split; [done|]. split; [done|]. split; [done|]. split; [reflexivity|].
  split; [|split; [|split]].
  - intros x ->. case_match; by rewrite ?ctx_set_verify, ctx_set_options, get_set_ctx.
  - intros Hz. rewrite reneg_set_options, reneg_set_ctx, Hz, orb_true_r. by rewrite get_set_verify.
  - intros hs. unfold leave_vhost. rewrite moved_flag. by repeat case_match.
  - intros data q. unfold htp__request_parse_hostname_, bind, getw. cbn [fst snd].
    rewrite moved_flag. change (c_sni (w_conn (moved v w))) with (c_sni (w_conn w)). by rewrite Hn.
Qed.
End Facts.

(** ** Witnesses *)

Fixpoint unwire (fuel : nat) (s : list Z) : list (list Z) :=
  match fuel, s with
  | S fuel, n :: s => take (Z.to_nat n) s :: unwire fuel (drop (Z.to_nat n) s)
  | _, _ => []
  end.
Lemma unwire_wire ps fuel : (length ps <= fuel)%nat -> unwire fuel (wire ps) = ps.
Proof.
  revert fuel. induction ps as [|p ps IH]; intros [|fuel] Hl; cbn in *; try done; [lia|].
  rewrite Nat2Z.id, take_app_length, drop_app_length. by rewrite IH by lia.
Qed.
Lemma wire_length ps : (length ps <= length (wire ps))%nat.
Proof.
  induction ps as [|p ps IH]; [done|].
  change (wire (p :: ps)) with ((Z.of_nat (length p) :: p) ++ wire ps).
  rewrite length_app. cbn [length]. lia.
Qed.

(** An SSL object: the number of its context and how it verifies; a context
    verifies as its number says. *)
#[local] Instance toy_tls : Tls := {
  SSL := Z * Z; SSL_CTX := Z;
  SSL_select_next_proto server client :=
    match unwire (length server) server with
    | p :: _ => if bool_decide (p ∈ unwire (length client) client) then (1, p) else (2, [])
    | [] => (2, [])
    end;
  SSL_get_SSL_CTX s := s.1; SSL_set_SSL_CTX x s := (default s.1 x, s.2);
  SSL_CTX_get_options _ := 0; SSL_set_options _ s := s;
  SSL_get_verify_mode s := s.2; SSL_num_renegotiations _ := 0;
  SSL_CTX_get_verify_mode x := x; SSL_CTX_get_verify_callback _ := 0;
  SSL_set_verify m _ s := (s.1, m) }.
#[local] Instance toy_tls_laws : TlsLaws.
Proof.
  split; try done. intros p ps Hp Hps. unfold SSL_select_next_proto, toy_tls.
  rewrite !unwire_wire by apply wire_length. case_bool_decide; cbn; by split.
Qed.

(** The connection of a client that asked for www.b.org, and the server it
    reached, with the virtual hosts of [sample_hosts]. *)
Definition tls_world : world (H := no_regex) (h2_state unit) := {|
  w_conn := (sample_conn 0 None) <| c_ssl := true |> <| c_sni := Some (bytes "www.b.org") |>;
  w_reqs := ∅; w_cache := ∅;
  w_htps := <[0%nat := sample_host None [] [1; 2]%nat]> sample_hosts;
  w_allocs := 0; w_ub := false;
  w_app := {| h2_pending := []; ctx_session := None; flush_active := false; h2_app := tt |} |}.

Lemma handshake_protocol_witness :
  let '(v, out) := htp__ssl_alpn_select_ (wire [bytes "http/1.1"; bytes "h2"]) in
  v = SSL_TLSEXT_ERR_OK /\ out = bytes "h2" /\
  htp__ssl_info_cb_ (fun _ => true) starting_app (fun _ => []) SSL_CB_HANDSHAKE_DONE out
      (map cb_send [bytes "[settings]"]) (p_init htp_type_request, tls_world) =
    (tt, (p_init htp_type_request, upgraded [bytes "[settings]"] tls_world)) /\
  bev_readcb (w_conn (upgraded [bytes "[settings]"] tls_world)) = htp__h2_connection_readcb.
Proof.
  pose proof (handshake_protocol (fun _ => true) starting_app (fun _ => [])
    [bytes "http/1.1"; bytes "h2"] SSL_CB_HANDSHAKE_DONE [bytes "[settings]"]
    (p_init htp_type_request) tls_world) as H.
  assert (htp__ssl_alpn_select_ (wire [bytes "http/1.1"; bytes "h2"]) =
    (SSL_TLSEXT_ERR_OK, bytes "h2")) as E by by vm_compute.
  rewrite E in H |- *. split; [done|]. split; [done|]. split; [|done].
  destruct H as (_ & H & _); [| |done|].
  - split; [done|]. repeat constructor; vm_compute; lia.
  - done.
  - rewrite bool_decide_true in H by (right; left). exact H.
Defined.

Definition toy_ctx (v : nat) : option SSL_CTX := Some (Z.of_nat (10 * v)).
Definition toy_ssl : SSL := (0, 0).

Lemma sni_vhost_chosen_witness :
  exists ssl', htp__ssl_servername_ (B := unit) toy_ctx true (Some toy_ssl)
      (p_init htp_type_request, tls_world) =
    ((SSL_TLSEXT_ERR_OK, Some ssl'), (p_init htp_type_request, moved 2 tls_world)) /\
  SSL_get_SSL_CTX ssl' = 20 /\ SSL_get_verify_mode ssl' = 0.
Proof.
  assert (htp__ssl_servername_ (B := unit) toy_ctx true (Some toy_ssl)
      (p_init htp_type_request, tls_world) =
    ((SSL_TLSEXT_ERR_OK, Some (20, 0)), (p_init htp_type_request, moved 2 tls_world))) as E0
    by (vm_compute; reflexivity).
  destruct (sni_vhost_chosen starting_app (fun _ => []) toy_ctx toy_ssl
    (p_init htp_type_request) tls_world 0%nat (sample_host None [] [1; 2]%nat) (bytes "www.b.org"))
    as [[_ E]|(v & l1 & l2 & ssl' & _ & _ & _ & E & _ & Hv & _)]; try done.
  rewrite E0 in E. injection E as <- _. exists (20, 0). split; [exact E0|].
  split; [reflexivity|exact (Hv eq_refl)].
Defined.
