(* ===== verification/Sched.v ===== *)
(** * Threads: programs of atomic actions and their interleaving

    A thread is a [prog]: a sequence of atomic actions on a shared state [S],
    with loops.  An action is given the choice of the environment (which event
    of a loop comes first) and is blocked when it returns [None].  [run1] is
    one step of a thread, [sys_step] of a system of threads; any thread may be
    the next, so the runs of a system are all its interleavings.  [exec] runs a
    given schedule. *)

From S2P Require Import Prelude.
From stdpp Require Import list relations.

Section Sched.
Context {S : Type}.

Inductive prog (A : Type) : Type :=
| Ret (a : A)
| Act {B : Type} (f : bool -> S -> option (B * S)) (k : B -> prog A)
| While (body : prog bool) (k : prog A).
#[global] Arguments Ret {A}.
#[global] Arguments Act {A B}.
#[global] Arguments While {A}.

Fixpoint pbind {A B} (m : prog A) (k : A -> prog B) : prog B :=
  match m with
  | Ret a => k a
  | Act f g => Act f (fun b => pbind (g b) k)
  | While body m => While body (pbind m k)
  end.

(** An action that is never blocked. *)
Definition atomic {B} (f : S -> B * S) : prog B := Act (fun _ s => Some (f s)) Ret.

(** A loop takes a step to start its next turn. *)
Definition run1 {A} (c : bool) (m : prog A) (s : S) : option (prog A * S) :=
  match m with
  | Ret _ => None
  | Act f k => '(b, s) ← f c s; Some (k b, s)
  | While body m => Some (pbind body (fun b => if b then While body m else m), s)
  end.

Record sys := { sh : S; code : list (prog unit) }.

Definition sys_step (c : bool) (i : nat) (σ : sys) : option sys :=
  p ← code σ !! i;
  '(p, s) ← run1 c p (sh σ);
  Some {| sh := s; code := <[i := p]> (code σ) |}.
Definition steps (σ σ' : sys) : Prop := exists c i, sys_step c i σ = Some σ'.
Definition reachable (σ σ' : sys) : Prop := rtc steps σ σ'.

Fixpoint exec (sched : list (bool * nat)) (σ : sys) : option sys :=
  match sched with
  | [] => Some σ
  | (c, i) :: sched => σ ← sys_step c i σ; exec sched σ
  end.

Lemma exec_reachable sched σ σ' : exec sched σ = Some σ' -> reachable σ σ'.
Proof.
  revert σ. induction sched as [|[c i] sched IH]; intros σ H; cbn in H.
  - injection H as ->. apply rtc_refl.
  - destruct (sys_step c i σ) as [σ1|] eqn:E; [|done]. eapply rtc_l; [by exists c, i|by apply IH].
Qed.

(** A program without loops run with no other thread in between. *)
Fixpoint alone {A} (m : prog A) (s : S) : option (A * S) :=
  match m with
  | Ret a => Some (a, s)
  | Act f k => match f true s with Some (b, s) => alone (k b) s | None => None end
  | While _ _ => None
  end.
Lemma alone_bind {A B} (m : prog A) (k : A -> prog B) s :
  alone (pbind m k) s = match alone m s with Some (a, s) => alone (k a) s | None => None end.
Proof.
  revert k s. induction m as [? a|? C f g IH|? body _ m IH]; intros k s; cbn; [done| |done].
  destruct (f true s) as [[b s']|]; [apply IH|done].
Qed.

(** A property of the initial state that every step keeps. *)
Lemma reachable_ind (I : sys -> Prop) σ σ' :
  (forall c i σ1 σ2, I σ1 -> sys_step c i σ1 = Some σ2 -> I σ2) ->
  I σ -> reachable σ σ' -> I σ'.
Proof. intros Hstep H0 Hr. induction Hr as [|σ1 σ2 σ3 (c & i & E)]; eauto. Qed.

(** ** Threads that are followed stage by stage *)

(** [text i st] is what is left of thread [i]'s program at the stage [st];
    [turn] is the step of the stage. *)
Context {stage : Type} (text : nat -> stage -> prog unit)
  (turn : bool -> nat -> stage -> S -> option (stage * S)).
Context (Hturn : forall c i st s,
  run1 c (text i st) s = '(st, s) ← turn c i st s; Some (text i st, s)).

Definition texts (sts : list stage) : list (prog unit) := imap text sts.

Lemma texts_step c i s sts σ' :
  sys_step c i {| sh := s; code := texts sts |} = Some σ' ->
  exists st st' s', sts !! i = Some st /\ turn c i st s = Some (st', s') /\
    σ' = {| sh := s'; code := texts (<[i := st']> sts) |}.
Proof.
  unfold sys_step, texts. cbn [sh code]. rewrite list_lookup_imap.
  destruct (sts !! i) as [st|] eqn:Hi; [|done]. cbn. rewrite Hturn.
  destruct (turn c i st s) as [[st' s']|] eqn:Et; [|done]. cbn. intros [= <-].
  exists st, st', s'. split; [done|]. split; [done|]. f_equal.
  apply list_eq. intros j. destruct (decide (i = j)) as [<-|Hne].
  - rewrite list_lookup_imap, list_lookup_insert_eq, list_lookup_insert_eq; [done| |].
    + by eapply lookup_lt_Some.
    + rewrite length_imap. by eapply lookup_lt_Some.
  - by rewrite list_lookup_insert_ne, !list_lookup_imap, list_lookup_insert_ne.
Qed.

(** An invariant of the stages is one of the programs. *)
Lemma staged_ind (I : S -> list stage -> Prop) s sts σ' :
  (forall c i s st sts st' s', I s sts -> sts !! i = Some st -> turn c i st s = Some (st', s') ->
     I s' (<[i := st']> sts)) ->
  I s sts -> reachable {| sh := s; code := texts sts |} σ' ->
  exists s' sts', σ' = {| sh := s'; code := texts sts' |} /\ I s' sts'.
Proof.
  intros Hstep H0. apply (reachable_ind (fun σ => exists s' sts',
    σ = {| sh := s'; code := texts sts' |} /\ I s' sts')); [|by exists s, sts].
  intros c i ? σ2 (s1 & sts1 & -> & H1) E.
  destruct (texts_step c i s1 sts1 σ2 E) as (st & st' & s2 & Hi & Et & ->). eauto.
Qed.
End Sched.
#[global] Arguments prog : clear implicits.
#[global] Arguments sys : clear implicits.
