(* ===== verification/EvThread.v ===== *)
(** * thread.c: worker threads and the pool that feeds them

    The queues of a thread (mpsc-queue.h, spsc_queue.h), evthr_defer, the loop
    of a worker and the choice of a worker by evthr_pool_defer, as programs of
    atomic actions on the memory the threads share (Sched.v): one action per
    access to a shared word; what only one thread reads or writes is read or
    written with the next such access.  Memory is sequentially consistent.

    A thread is known by its number, which is also its [evthr], if it has one
    ([tls_thread]).  A pointer to a [mpsc_queue_node] is a [node]: the stub of
    a thread's queue, or the first member of a command; commands are known by
    their address, a key of [cmds].  [inserted] and [ran] are history: the
    commands in the order in which they were exchanged into a queue's head,
    with the thread that did it, and in the order in which they were run. *)

From S2P Require Import Prelude Sched.
From stdpp Require Import gmap.
#[local] Open Scope Z_scope.

Declare Scope sched_scope.
Delimit Scope sched_scope with sched.
#[local] Open Scope sched_scope.
Notation "x <- m ;; k" := (pbind m (fun x => k)) : sched_scope.
Notation "m ;; k" := (pbind m (fun _ => k)) : sched_scope.

Inductive evthr_res :=
| EVTHR_RES_OK | EVTHR_RES_BACKLOG | EVTHR_RES_RETRY | EVTHR_RES_NOCB | EVTHR_RES_FATAL.

Inductive node := stub (t : nat) | cmd_node (c : nat).
#[export] Instance node_eq_dec : EqDecision node.
Proof. solve_decision. Defined.

(** [struct evthr_cmd]; its [node] is [next], [msg_cache] its [msg_cache_p]:
    the thread whose cache it is. *)
Record evthr_cmd := {
  next : option node; msg_cache : option nat; args : Z; cb : Z
}.
#[export] Instance eta_evthr_cmd : EtaFields evthr_cmd := fun c =>
  Build_evthr_cmd (next c) (msg_cache c) (args c) (cb c).

Record producer_q := { p_head : nat; cached_tail : nat; p_cap : nat }.
#[export] Instance eta_producer_q : EtaFields producer_q := fun q =>
  Build_producer_q (p_head q) (cached_tail q) (p_cap q).
Record consumer_q := { c_tail : nat; cached_head : nat; c_cap : nat }.
#[export] Instance eta_consumer_q : EtaFields consumer_q := fun q =>
  Build_consumer_q (c_tail q) (cached_head q) (c_cap q).

(** [struct evthr]: [q_head], [q_tail], [stub_next] are its [queue]; [msg_fd]
    and [stop_fd] the counters of the two eventfds; [tail] the number of
    commands the pool gave it; [joined]: its thread has ended. *)
Record evthr := {
  q_head : node; q_tail : node; stub_next : option node;
  msg_cache_p : producer_q; msg_cache_c : consumer_q; msg_cache_buf : list (option nat);
  init_cb : Z; exit_cb : Z; arg : Z; aux : Z;
  msg_fd : Z; stop_fd : Z; tail : Z; joined : bool
}.
#[export] Instance eta_evthr : EtaFields evthr := fun e =>
  Build_evthr (q_head e) (q_tail e) (stub_next e) (msg_cache_p e) (msg_cache_c e) (msg_cache_buf e)
    (init_cb e) (exit_cb e) (arg e) (aux e) (msg_fd e) (stop_fd e) (tail e) (joined e).

Record memory := {
  thrs : gmap nat evthr; cmds : gmap nat evthr_cmd; next_choice : Z;
  inserted : list (nat * nat * (Z * Z)); ran : list (nat * (Z * Z)); m_ub : bool
}.
#[export] Instance eta_memory : EtaFields memory := fun s =>
  Build_memory (thrs s) (cmds s) (next_choice s) (inserted s) (ran s) (m_ub s).

Abbreviation thread_prog := (prog memory).

(** Undefined behaviour: a pointer to an object that is not there. *)
Definition mem_ub {B} (b : B) (s : memory) : B * memory := (b, s <| m_ub := true |>).

Definition on_thr {B} (d : B) (t : nat) (f : evthr -> B * evthr) : thread_prog B :=
  atomic (fun s =>
    match thrs s !! t with
    | Some e => let '(b, e) := f e in (b, s <| thrs := <[t := e]> (thrs s) |>)
    | None => mem_ub d s
    end).
Definition get_thr {B} (d : B) (t : nat) (f : evthr -> B) : thread_prog B :=
  on_thr d t (fun e => (f e, e)).
Definition set_thr (t : nat) (f : evthr -> evthr) : thread_prog unit :=
  on_thr tt t (fun e => (tt, f e)).

Definition on_cmd {B} (d : B) (c : nat) (f : evthr_cmd -> B * evthr_cmd) : thread_prog B :=
  atomic (fun s =>
    match cmds s !! c with
    | Some m => let '(b, m) := f m in (b, s <| cmds := <[c := m]> (cmds s) |>)
    | None => mem_ub d s
    end).

(** ** mpsc-queue.h *)

Inductive mpsc_queue_poll_result := MPSC_QUEUE_EMPTY | MPSC_QUEUE_ITEM (n : node) | MPSC_QUEUE_RETRY.

(** [&node->next], read and written. *)
Definition load_next (n : node) : thread_prog (option node) :=
  match n with
  | stub t => get_thr None t stub_next
  | cmd_node c => on_cmd None c (fun m => (next m, m))
  end.
Definition store_next (n : node) (v : option node) : thread_prog unit :=
  match n with
  | stub t => set_thr t (fun e => e <| stub_next := v |>)
  | cmd_node c => on_cmd tt c (fun m => (tt, m <| next := v |>))
  end.

Definition payload (s : memory) (n : node) : option (Z * Z) :=
  match n with
  | stub _ => None
  | cmd_node c => (fun m => (cb m, args m)) <$> cmds s !! c
  end.

(** atomic_exchange of [queue->head], entered into the history of thread [me]. *)
Definition exchange_head (me t : nat) (last : node) : thread_prog node :=
  atomic (fun s =>
    match thrs s !! t with
    | Some e =>
        (q_head e, s <| thrs := <[t := e <| q_head := last |>]> (thrs s) |>
                     <| inserted := inserted s ++
                          (match payload s last with Some x => [(me, t, x)] | None => [] end) |>)
    | None => mem_ub last s
    end).

Definition mpsc_queue_insert_list (me t : nat) (first last : node) : thread_prog unit :=
  store_next last None ;;
  prev <- exchange_head me t last ;;
  store_next prev (Some first).
Definition mpsc_queue_insert (me t : nat) (n : node) : thread_prog unit :=
  mpsc_queue_insert_list me t n n.

Definition mpsc_queue_init (t : nat) (e : evthr) : evthr :=
  e <| q_head := stub t |> <| q_tail := stub t |> <| stub_next := None |>.

(** Only the thread [t] itself polls its queue. *)
Definition take_next (t : nat) (tl next : node) : thread_prog mpsc_queue_poll_result :=
  set_thr t (fun e => e <| q_tail := next |>) ;; Ret (MPSC_QUEUE_ITEM tl).
Definition poll_item (t : nat) (tl : node) (next : option node) :
    thread_prog mpsc_queue_poll_result :=
  match next with
  | Some n => take_next t tl n
  | None =>
      head <- get_thr tl t q_head ;;
      if negb (bool_decide (tl = head)) then Ret MPSC_QUEUE_RETRY
      else
        mpsc_queue_insert t t (stub t) ;;
        next <- load_next tl ;;
        match next with
        | Some n => take_next t tl n
        | None => Ret MPSC_QUEUE_RETRY
        end
  end.
Definition mpsc_queue_poll (t : nat) : thread_prog mpsc_queue_poll_result :=
  tl <- get_thr (stub t) t q_tail ;;
  next <- load_next tl ;;
  if bool_decide (tl = stub t) then
    match next with
    | None =>
        head <- get_thr tl t q_head ;;
        Ret (if negb (bool_decide (tl = head)) then MPSC_QUEUE_RETRY else MPSC_QUEUE_EMPTY)
    | Some n =>
        set_thr t (fun e => e <| q_tail := n |>) ;;
        next <- load_next n ;;
        poll_item t n next
    end
  else poll_item t tl next.

(** ** spsc_queue.h: the cache of a thread's commands *)

Definition spsc_queue_init (size : nat) (e : evthr) : evthr :=
  e <| msg_cache_p := {| p_head := 0; cached_tail := 0; p_cap := size |} |>
    <| msg_cache_c := {| c_tail := 0; cached_head := 0; c_cap := size |} |>
    <| msg_cache_buf := replicate size None |>.

Definition ring_next (i cap : nat) : nat := if (i + 1 =? cap)%nat then 0%nat else (i + 1)%nat.

(** Whether there was room. *)
Definition spsc_enqueue (t : nat) (data : nat) : thread_prog bool :=
  q <- get_thr (Build_producer_q 0 0 0) t msg_cache_p ;;
  let head := p_head q in
  let next := ring_next head (p_cap q) in
  full <- (if (next =? cached_tail q)%nat then
             on_thr true t (fun e =>
               let ct := c_tail (msg_cache_c e) in
               ((next =? ct)%nat,
                e <| msg_cache_p := (msg_cache_p e) <| cached_tail := ct |> |>))
           else Ret false) ;;
  if full : bool then Ret false
  else
    set_thr t (fun e => e <| msg_cache_buf := <[head := Some data]> (msg_cache_buf e) |>) ;;
    set_thr t (fun e => e <| msg_cache_p := (msg_cache_p e) <| p_head := next |> |>) ;;
    Ret true.

(** A slot that was never written holds what malloc left there. *)
Definition read_slot (t i : nat) : thread_prog nat :=
  atomic (fun s =>
    match mjoin (thrs s !! t ≫= fun e => msg_cache_buf e !! i) with
    | Some c => (c, s)
    | None => mem_ub 0%nat s
    end).

Definition spsc_dequeue (t : nat) : thread_prog (option nat) :=
  q <- get_thr (Build_consumer_q 0 0 0) t msg_cache_c ;;
  let tl := c_tail q in
  empty <- (if (tl =? cached_head q)%nat then
              on_thr true t (fun e =>
                let ch := p_head (msg_cache_p e) in
                ((tl =? ch)%nat,
                 e <| msg_cache_c := (msg_cache_c e) <| cached_head := ch |> |>))
            else Ret false) ;;
  if empty : bool then Ret None
  else
    data <- read_slot t tl ;;
    set_thr t (fun e => e <| msg_cache_c :=
      (msg_cache_c e) <| c_tail := ring_next tl (c_cap q) |> |>) ;;
    Ret (Some data).

(** ** thread.c *)

(** [calls t cb arg]: what the callback [cb] asks of the pool when thread [t] runs
    it with [arg], a list of evthr_defer calls; the rest of what it does is the
    application's.  [alloc]: the address calloc gives a new command, NULL when
    there is no memory. *)
Definition call : Type := nat * (Z * Z).

Section Threads.
Context (calls : nat -> Z -> Z -> list call) (alloc : gmap nat evthr_cmd -> option nat).

Definition calloc_cmd : thread_prog (option nat) :=
  atomic (fun s =>
    match alloc (cmds s) with
    | Some c => (Some c, s <| cmds := <[c := Build_evthr_cmd None None 0 0]> (cmds s) |>)
    | None => (None, s)
    end).
Definition free_cmd (c : nat) : thread_prog unit :=
  atomic (fun s =>
    match cmds s !! c with
    | Some _ => (tt, s <| cmds := delete c (cmds s) |>)
    | None => mem_ub tt s
    end).

(** A write of 1 to an eventfd: EAGAIN when the counter is at its maximum. *)
Definition eventfd_write (v : Z) : option Z := if v <? 2 ^ 64 - 2 then Some (v + 1) else None.
Definition write_msg_fd (t : nat) : thread_prog evthr_res :=
  on_thr EVTHR_RES_FATAL t (fun e =>
    match eventfd_write (msg_fd e) with
    | Some v => (EVTHR_RES_OK, e <| msg_fd := v |>)
    | None => (EVTHR_RES_RETRY, e)
    end).

(** [me] runs it; [sender] is its [tls_thread]. *)
Definition evthr_defer (me : nat) (sender thread : option nat) (cb_ arg_ : Z) :
    thread_prog evthr_res :=
  match thread with
  | None => Ret EVTHR_RES_FATAL
  | Some t =>
      if cb_ =? 0 then Ret EVTHR_RES_NOCB
      else
        reused <- match sender with Some s => spsc_dequeue s | None => Ret None end ;;
        cmd <- match reused with Some c => Ret (Some c) | None => calloc_cmd end ;;
        match cmd with
        | None => Ret EVTHR_RES_FATAL
        | Some c =>
            on_cmd tt c (fun m =>
              (tt, m <| msg_cache := sender |> <| cb := cb_ |> <| args := arg_ |>)) ;;
            mpsc_queue_insert me t (cmd_node c) ;;
            write_msg_fd t
        end
  end.

(** The evthr_defer calls of a callback, or of a thread of the application. *)
Fixpoint defers (me : nat) (sender : option nat) (l : list call) : thread_prog unit :=
  match l with
  | [] => Ret tt
  | (t, (cb, arg)) :: l => evthr_defer me sender (Some t) cb arg ;; defers me sender l
  end.

(** [cmd->cb(thread, cmd->args, thread->arg)] *)
Definition run_cb (t : nat) (cb arg : Z) : thread_prog unit :=
  atomic (fun s => (tt, s <| ran := ran s ++ [(t, (cb, arg))] |>)) ;;
  defers t (Some t) (calls t cb arg).

Definition run_cmd (t c : nat) : thread_prog unit :=
  m <- on_cmd (Build_evthr_cmd None None 0 0) c (fun m => (m, m)) ;;
  run_cb t (cb m) (args m) ;;
  match msg_cache m with
  | None => free_cmd c
  | Some pq => ok <- spsc_enqueue pq c ;; if ok : bool then Ret tt else free_cmd c
  end.

Definition run_callbacks_turn (t : nat) : thread_prog bool :=
  r <- mpsc_queue_poll t ;;
  match r with
  | MPSC_QUEUE_ITEM (cmd_node c) => run_cmd t c ;; Ret true
  | MPSC_QUEUE_ITEM (stub _) => atomic (mem_ub false)
  | _ => Ret false
  end.
Definition _evthr_run_callbacks (t : nat) : thread_prog unit :=
  While (run_callbacks_turn t) (Ret tt).

(** The next event of the thread's event base: [true] for [msg_fd], [false] for
    [stop_fd]; when both are readable, either may come first. *)
Definition event_wait (t : nat) : thread_prog bool :=
  Act (fun c s =>
    match thrs s !! t with
    | Some e => if 0 <? (if c then msg_fd e else stop_fd e) then Some (c, s) else None
    | None => None
    end) Ret.

(** Whether the loop goes on. *)
Definition _evthr_read_cmd (t : nat) (msg : bool) : thread_prog bool :=
  value <- on_thr 0 t (fun e => if msg then (msg_fd e, e <| msg_fd := 0 |>)
                                else (stop_fd e, e <| stop_fd := 0 |>)) ;;
  if value =? 0 then Ret true
  else if msg then _evthr_run_callbacks t ;; Ret true else Ret false.

(** The init and exit callbacks; the lock around them is taken nowhere else. *)
Definition run_hook (t : nat) (f : evthr -> Z) : thread_prog unit :=
  h <- get_thr (0, 0) t (fun e => (f e, arg e)) ;;
  if h.1 =? 0 then Ret tt else defers t (Some t) (calls t h.1 h.2).

Definition _evthr_loop (t : nat) : thread_prog unit :=
  run_hook t init_cb ;;
  While (msg <- event_wait t ;; _evthr_read_cmd t msg)
    (run_hook t exit_cb ;; set_thr t (fun e => e <| joined := true |>)).

(** pthread_join waits for the end of the thread. *)
Definition evthr_stop (thread : option nat) : thread_prog evthr_res :=
  match thread with
  | None => Ret EVTHR_RES_FATAL
  | Some t =>
      ok <- on_thr false t (fun e =>
        match eventfd_write (stop_fd e) with
        | Some v => (true, e <| stop_fd := v |>)
        | None => (false, e)
        end) ;;
      if ok : bool then
        Act (fun _ s =>
          match thrs s !! t with
          | Some e => if joined e then Some (tt, s) else None
          | None => None
          end) Ret ;;
        Ret EVTHR_RES_OK
      else Ret EVTHR_RES_RETRY
  end.

Definition evthr_set_aux (aux_ : Z) (thr : option evthr) : option evthr :=
  (fun e => e <| aux := aux_ |>) <$> thr.
Definition evthr_get_aux (thr : option evthr) : Z := from_option aux 0 thr.
Definition evthr_set_initcb (cb : Z) (thr : option evthr) : Z * option evthr :=
  (match thr with Some _ => 0 | None => -1 end, (fun e => e <| init_cb := cb |>) <$> thr).
Definition evthr_set_exitcb (cb : Z) (thr : option evthr) : Z * option evthr :=
  (match thr with Some _ => 0 | None => -1 end, (fun e => e <| exit_cb := cb |>) <$> thr).

(** The cells are those of a new structure; [fds], [mem], [lock]: whether the
    eventfds, the structure and the mutex could be made.  The buffer of the
    cache is not checked. *)
Definition msg_cache_size : nat := 64.
Definition _evthr_new (t : nat) (fds mem lock : bool) (init exit_ arg_ : Z) : option evthr :=
  if fds && mem && lock then
    Some (spsc_queue_init msg_cache_size (mpsc_queue_init t
      (Build_evthr (stub t) (stub t) None (Build_producer_q 0 0 0) (Build_consumer_q 0 0 0) []
         init exit_ arg_ 0 0 0 0 false)))
  else None.
Definition evthr_new (t : nat) (fds mem lock : bool) (init arg_ : Z) : option evthr :=
  _evthr_new t fds mem lock init 0 arg_.
Definition evthr_wexit_new (t : nat) (fds mem lock : bool) (init exit_ arg_ : Z) : option evthr :=
  _evthr_new t fds mem lock init exit_ arg_.

(** What is left in the cache is freed, what is left in the queue is not. *)
Definition evthr_free (t : nat) : thread_prog unit :=
  While (cmd <- spsc_dequeue t ;;
         match cmd with Some c => free_cmd c ;; Ret true | None => Ret false end)
    (atomic (fun s => (tt, s <| thrs := delete t (thrs s) |>))).

(** ** The pool *)

Definition get_second_index_ (i n : nat) : nat :=
  if (n <=? 1)%nat then i
  else
    let step := (n / 2)%nat in
    let step := if (step =? 0)%nat then 1%nat else step in
    ((i + step) mod n)%nat.

Definition load_tail (t : nat) : thread_prog Z := get_thr 0 t tail.
Definition bump_tail (t : nat) : thread_prog unit :=
  set_thr t (fun e => e <| tail := u64 (tail e + 1) |>).
Definition take_ticket : thread_prog Z :=
  atomic (fun s => (next_choice s, s <| next_choice := u32 (next_choice s + 1) |>)).

(** The worker the next command goes to. *)
Definition pool_choose (threads : list nat) : thread_prog (option nat) :=
  let nthreads := length threads in
  ticket <- take_ticket ;;
  let i := Z.to_nat (ticket mod Z.of_nat nthreads) in
  match threads !! i, threads !! get_second_index_ i nthreads with
  | Some a, Some b =>
      backlog_a <- load_tail a ;;
      if backlog_a =? 0 then bump_tail a ;; Ret (Some a)
      else
        backlog_b <- load_tail b ;;
        if backlog_b =? 0 then bump_tail b ;; Ret (Some b)
        else
          let c := if backlog_a <=? backlog_b then a else b in
          bump_tail c ;; Ret (Some c)
  | _, _ => atomic (mem_ub None)
  end.
Definition evthr_pool_defer (me : nat) (sender : option nat) (pool : option (list nat))
    (cb arg : Z) : thread_prog evthr_res :=
  match pool with
  | None => Ret EVTHR_RES_FATAL
  | Some threads =>
      if cb =? 0 then Ret EVTHR_RES_NOCB
      else
        match threads with
        | [] => Ret EVTHR_RES_FATAL
        | [t] => evthr_defer me sender (Some t) cb arg
        | _ =>
            c <- pool_choose threads ;;
            match c with
            | Some t => evthr_defer me sender (Some t) cb arg
            | None => Ret EVTHR_RES_FATAL
            end
        end
  end.

Fixpoint defer_each (me : nat) (sender : option nat) (threads : list nat) (cb arg : Z) :
    thread_prog evthr_res :=
  match threads with
  | [] => Ret EVTHR_RES_OK
  | t :: threads =>
      res <- evthr_defer me sender (Some t) cb arg ;;
      match res with
      | EVTHR_RES_OK => defer_each me sender threads cb arg
      | _ => Ret res
      end
  end.
Definition evthr_pool_defer_all (me : nat) (sender : option nat) (pool : option (list nat))
    (cb arg : Z) : thread_prog evthr_res :=
  match pool with
  | None => Ret EVTHR_RES_FATAL
  | Some threads => defer_each me sender threads cb arg
  end.
Fixpoint stop_each (threads : list nat) : thread_prog unit :=
  match threads with
  | [] => Ret tt
  | t :: threads => evthr_stop (Some t) ;; stop_each threads
  end.
Definition evthr_pool_stop (pool : option (list nat)) : thread_prog evthr_res :=
  match pool with
  | None => Ret EVTHR_RES_FATAL
  | Some threads => stop_each threads ;; Ret EVTHR_RES_OK
  end.
Definition evthr_pool_get_nthreads (pool : option (list nat)) : Z :=
  from_option (fun l => Z.of_nat (length l)) 0 pool.
End Threads.

(** ** A system of threads *)

(** Worker threads; threads of the application with an [evthr] of their own
    (evthr_pool_new makes one for its caller) or without, and their calls. *)
Inductive role := worker | caller (tls : bool) (l : list call).

Definition has_evthr (r : role) : bool :=
  match r with worker => true | caller tls _ => tls end.
Definition tls_of (i : nat) (tls : bool) : option nat := if tls then Some i else None.

(** The memory when a pool made with [init], [exit_] and [shared] starts. *)
Definition new_evthr (init exit_ shared : Z) (i : nat) (r : role) : option evthr :=
  match r with
  | worker => evthr_wexit_new i true true true init exit_ shared
  | caller tls _ => if tls then _evthr_new i true true true 0 0 0 else None
  end.
Definition start_memory (init exit_ shared : Z) (roles : list role) : memory := {|
  thrs := map_imap (new_evthr init exit_ shared) (map_seq 0 roles);
  cmds := ∅; next_choice := 0; inserted := []; ran := []; m_ub := false |}.

Section Start.
Context (calls : nat -> Z -> Z -> list call) (alloc : gmap nat evthr_cmd -> option nat).
Context (init exit_ shared : Z).
Definition role_prog (i : nat) (r : role) : thread_prog unit :=
  match r with
  | worker => _evthr_loop calls alloc i
  | caller tls l => defers alloc i (tls_of i tls) l
  end.
Definition start (roles : list role) : sys memory :=
  {| sh := start_memory init exit_ shared roles; code := imap role_prog roles |}.
End Start.
