(* ===== verification/EvStages.v ===== *)
(** * thread.c: the stages of a thread

    Every program a thread of EvThread.v can have left is [text] of a [stage],
    and [turn] is the step it takes there ([text_turn]): the explicit
    automaton about which EvInv.v states its invariant. *)

From S2P Require Import Prelude Sched EvThread.
From stdpp Require Import gmap.
#[local] Open Scope Z_scope.
#[local] Open Scope sched_scope.

(** Where a list of evthr_defer calls is made: by a thread of the application,
    by the init or exit callback, by the callback of the command [c]. *)
Inductive site := in_caller | in_init | in_exit | in_cmd (c : nat) (pq : option nat).

(** Inside evthr_defer, with [q] the thread's view of its cache. *)
Inductive defer_stage :=
| D_look                          (** spsc_dequeue reads its end *)
| D_refresh (q : consumer_q)      (** looks where the other end is *)
| D_slot (q : consumer_q)
| D_pop (q : consumer_q) (c : nat)
| D_calloc
| D_fill (c : nat)
| D_clear (c : nat)               (** mpsc_queue_insert: the node's next *)
| D_exchange (c : nat)
| D_link (c : nat) (prev : node)
| D_write.

Inductive stage :=
| finished
| W_hook (init : bool) | W_loop | W_wait | W_read (msg : bool) | W_drain | W_joined
| Q_tail | Q_next (tl : node) | Q_stub_head (tl : node) | Q_skip (n : node) | Q_next2 (n : node)
| Q_head (tl : node) | Q_clear (tl : node) | Q_exchange (tl : node) | Q_link (tl prev : node)
| Q_again (tl : node) | Q_take (tl n : node) | Q_bad
| C_load (c : nat) | C_run (c : nat) (m : evthr_cmd)
| C_look (pq c : nat) | C_refresh (pq c : nat) (q : producer_q) | C_slot (pq c : nat) (q : producer_q)
| C_push (pq c : nat) (q : producer_q) | C_free (c : nat)
| Defer (at_ : site) (d : defer_stage) (sender : option nat) (t : nat) (x : Z * Z) (l : list call).

Section Stages.
Context (calls : nat -> Z -> Z -> list call) (alloc : gmap nat evthr_cmd -> option nat).

(** ** Programs *)

Definition event_turn (i : nat) : thread_prog bool :=
  msg <- event_wait i ;; _evthr_read_cmd calls alloc i msg.
Definition wind_up (i : nat) : thread_prog unit :=
  run_hook calls alloc i exit_cb ;; set_thr i (fun e => e <| joined := true |>).
Definition loop (i : nat) : thread_prog unit := While (event_turn i) (wind_up i).
Definition drain (i : nat) : thread_prog unit := While (run_callbacks_turn calls alloc i) (loop i).
Definition go_on (i : nat) (b : bool) : thread_prog unit := if b then drain i else loop i.
Definition handled (i : nat) (r : mpsc_queue_poll_result) : thread_prog bool :=
  match r with
  | MPSC_QUEUE_ITEM (cmd_node c) => run_cmd calls alloc i c ;; Ret true
  | MPSC_QUEUE_ITEM (stub _) => atomic (mem_ub false)
  | _ => Ret false
  end.
(** In a turn of _evthr_run_callbacks: polling, running a command. *)
Definition polling (i : nat) (m : thread_prog mpsc_queue_poll_result) : thread_prog unit :=
  pbind (pbind m (handled i)) (go_on i).
Definition running (i : nat) (m : thread_prog unit) : thread_prog unit :=
  pbind (m ;; Ret true) (go_on i).

Definition give_back (c : nat) (pq : option nat) : thread_prog unit :=
  match pq with
  | None => free_cmd c
  | Some pq => ok <- spsc_enqueue pq c ;; if ok : bool then Ret tt else free_cmd c
  end.
Definition around (i : nat) (at_ : site) (m : thread_prog unit) : thread_prog unit :=
  match at_ with
  | in_caller => m
  | in_init => m ;; loop i
  | in_exit => m ;; set_thr i (fun e => e <| joined := true |>)
  | in_cmd c pq => running i (m ;; give_back c pq)
  end.

Definition refreshed (q : consumer_q) (t : nat) : thread_prog bool :=
  on_thr true t (fun e =>
    let ch := p_head (msg_cache_p e) in
    ((c_tail q =? ch)%nat, e <| msg_cache_c := (msg_cache_c e) <| cached_head := ch |> |>)).
Definition popped (q : consumer_q) (t : nat) : thread_prog unit :=
  set_thr t (fun e => e <| msg_cache_c :=
    (msg_cache_c e) <| c_tail := ring_next (c_tail q) (c_cap q) |> |>).
Definition filled (sender : option nat) (x : Z * Z) (c : nat) : thread_prog unit :=
  on_cmd tt c (fun m => (tt, m <| msg_cache := sender |> <| cb := x.1 |> <| args := x.2 |>)).

(** What is left of evthr_defer at each of its stages. *)
Definition with_cmd (i : nat) (sender : option nat) (t : nat) (x : Z * Z) (cmd : option nat) :
    thread_prog evthr_res :=
  match cmd with
  | None => Ret EVTHR_RES_FATAL
  | Some c => filled sender x c ;; mpsc_queue_insert i t (cmd_node c) ;; write_msg_fd t
  end.
Definition with_reused (i : nat) (sender : option nat) (t : nat) (x : Z * Z) (reused : option nat) :
    thread_prog evthr_res :=
  cmd <- match reused with Some c => Ret (Some c) | None => calloc_cmd alloc end ;;
  with_cmd i sender t x cmd.
Definition defer_text (i : nat) (d : defer_stage) (sender : option nat) (t : nat) (x : Z * Z) :
    thread_prog evthr_res :=
  match d with
  | D_look => pbind (spsc_dequeue (default i sender)) (with_reused i sender t x)
  | D_refresh q =>
      empty <- refreshed q (default i sender) ;;
      pbind (if empty : bool then Ret None
             else
               data <- read_slot (default i sender) (c_tail q) ;;
               popped q (default i sender) ;; Ret (Some data)) (with_reused i sender t x)
  | D_slot q =>
      pbind (data <- read_slot (default i sender) (c_tail q) ;;
             popped q (default i sender) ;; Ret (Some data)) (with_reused i sender t x)
  | D_pop q c => popped q (default i sender) ;; with_reused i sender t x (Some c)
  | D_calloc => with_reused i sender t x None
  | D_fill c => with_cmd i sender t x (Some c)
  | D_clear c => mpsc_queue_insert i t (cmd_node c) ;; write_msg_fd t
  | D_exchange c =>
      (prev <- exchange_head i t (cmd_node c) ;; store_next prev (Some (cmd_node c))) ;;
      write_msg_fd t
  | D_link c prev => store_next prev (Some (cmd_node c)) ;; write_msg_fd t
  | D_write => write_msg_fd t
  end.

Definition stub_inserted (i : nat) (tl : node) : thread_prog mpsc_queue_poll_result :=
  next <- load_next tl ;;
  match next with
  | Some n => take_next i tl n
  | None => Ret MPSC_QUEUE_RETRY
  end.

Definition pushed (q : producer_q) (pq : nat) : thread_prog unit :=
  set_thr pq (fun e => e <| msg_cache_p :=
    (msg_cache_p e) <| p_head := ring_next (p_head q) (p_cap q) |> |>).
Definition push_slot (q : producer_q) (pq c : nat) : thread_prog unit :=
  set_thr pq (fun e => e <| msg_cache_buf := <[p_head q := Some c]> (msg_cache_buf e) |>).
Definition enqueue_ended (c : nat) (ok : bool) : thread_prog unit :=
  if ok then Ret tt else free_cmd c.

Definition text (i : nat) (st : stage) : thread_prog unit :=
  match st with
  | finished => Ret tt
  | W_hook true => run_hook calls alloc i init_cb ;; loop i
  | W_hook false => wind_up i
  | W_loop => loop i
  | W_wait => pbind (event_turn i) (fun b => if b then loop i else wind_up i)
  | W_read msg =>
      pbind (_evthr_read_cmd calls alloc i msg) (fun b => if b then loop i else wind_up i)
  | W_drain => drain i
  | W_joined => set_thr i (fun e => e <| joined := true |>)
  | Q_tail => polling i (mpsc_queue_poll i)
  | Q_next tl => polling i (
      next <- load_next tl ;;
      if bool_decide (tl = stub i) then
        match next with
        | None =>
            head <- get_thr tl i q_head ;;
            Ret (if negb (bool_decide (tl = head)) then MPSC_QUEUE_RETRY else MPSC_QUEUE_EMPTY)
        | Some n =>
            set_thr i (fun e => e <| q_tail := n |>) ;;
            next <- load_next n ;; poll_item i n next
        end
      else poll_item i tl next)
  | Q_stub_head tl => polling i (
      head <- get_thr tl i q_head ;;
      Ret (if negb (bool_decide (tl = head)) then MPSC_QUEUE_RETRY else MPSC_QUEUE_EMPTY))
  | Q_skip n => polling i (
      set_thr i (fun e => e <| q_tail := n |>) ;; next <- load_next n ;; poll_item i n next)
  | Q_next2 n => polling i (next <- load_next n ;; poll_item i n next)
  | Q_head tl => polling i (poll_item i tl None)
  | Q_clear tl => polling i (mpsc_queue_insert i i (stub i) ;; stub_inserted i tl)
  | Q_exchange tl => polling i (
      (prev <- exchange_head i i (stub i) ;; store_next prev (Some (stub i))) ;;
      stub_inserted i tl)
  | Q_link tl prev => polling i (store_next prev (Some (stub i)) ;; stub_inserted i tl)
  | Q_again tl => polling i (stub_inserted i tl)
  | Q_take tl n => polling i (take_next i tl n)
  | Q_bad => pbind (atomic (mem_ub false)) (go_on i)
  | C_load c => running i (run_cmd calls alloc i c)
  | C_run c m => running i (run_cb calls alloc i (cb m) (args m) ;; give_back c (msg_cache m))
  | C_look pq c => running i (give_back c (Some pq))
  | C_refresh pq c q => running i (
      full <- on_thr true pq (fun e =>
        let ct := c_tail (msg_cache_c e) in
        ((ring_next (p_head q) (p_cap q) =? ct)%nat,
         e <| msg_cache_p := (msg_cache_p e) <| cached_tail := ct |> |>)) ;;
      pbind (if full : bool then Ret false
             else push_slot q pq c ;; pushed q pq ;; Ret true) (enqueue_ended c))
  | C_slot pq c q => running i (pbind (push_slot q pq c ;; pushed q pq ;; Ret true) (enqueue_ended c))
  | C_push pq c q => running i (pbind (pushed q pq ;; Ret true) (enqueue_ended c))
  | C_free c => running i (free_cmd c)
  | Defer at_ d sender t x l =>
      around i at_ (defer_text i d sender t x ;; defers alloc i sender l)
  end.

(** ** Steps *)

Definition after_stage (i : nat) (at_ : site) : stage :=
  match at_ with
  | in_caller => finished
  | in_init => W_loop
  | in_exit => W_joined
  | in_cmd c pq => match pq with Some pq => C_look pq c | None => C_free c end
  end.

(** The first stage of a list of calls; a call without a callback does nothing. *)
Fixpoint calls_stage (i : nat) (at_ : site) (sender : option nat) (l : list call) : stage :=
  match l with
  | [] => after_stage i at_
  | (t, x) :: l =>
      if x.1 =? 0 then calls_stage i at_ sender l
      else Defer at_ (match sender with Some _ => D_look | None => D_calloc end) sender t x l
  end.

(** A program of one action, and what follows it. *)
Definition one {B} (m : thread_prog B) (k : B -> stage) (c : bool) (s : memory) :
    option (stage * memory) :=
  match m with
  | Act f g =>
      match f c s with
      | Some (b, s) => match g b with Ret x => Some (k x, s) | _ => None end
      | None => None
      end
  | _ => None
  end.

Definition polled_stage (r : mpsc_queue_poll_result) : stage :=
  match r with
  | MPSC_QUEUE_ITEM (cmd_node c) => C_load c
  | MPSC_QUEUE_ITEM (stub _) => Q_bad
  | _ => W_loop
  end.
Definition item_stage (tl : node) (next : option node) : stage :=
  match next with Some n => Q_take tl n | None => Q_head tl end.
Definition next_stage (i : nat) (tl : node) (next : option node) : stage :=
  if bool_decide (tl = stub i)
  then match next with None => Q_stub_head tl | Some n => Q_skip n end
  else item_stage tl next.
Definition read_stage (msg : bool) (value : Z) : stage :=
  if value =? 0 then W_loop else if msg then W_drain else W_hook false.

Definition defer_turn (c : bool) (i : nat) (d : defer_stage) (sender : option nat) (t : nat)
    (x : Z * Z) (k : defer_stage -> stage) (k_end : stage) (s : memory) : option (stage * memory) :=
  let ring := default i sender in
  match d with
  | D_look => one (get_thr (Build_consumer_q 0 0 0) ring msg_cache_c) (fun q =>
      k (if (c_tail q =? cached_head q)%nat then D_refresh q else D_slot q)) c s
  | D_refresh q => one (refreshed q ring) (fun empty : bool =>
      k (if empty then D_calloc else D_slot q)) c s
  | D_slot q => one (read_slot ring (c_tail q)) (fun data => k (D_pop q data)) c s
  | D_pop q data => one (popped q ring) (fun _ => k (D_fill data)) c s
  | D_calloc => one (calloc_cmd alloc) (fun cmd =>
      match cmd with Some cmd => k (D_fill cmd) | None => k_end end) c s
  | D_fill cmd => one (filled sender x cmd) (fun _ => k (D_clear cmd)) c s
  | D_clear cmd => one (store_next (cmd_node cmd) None) (fun _ => k (D_exchange cmd)) c s
  | D_exchange cmd => one (exchange_head i t (cmd_node cmd)) (fun prev => k (D_link cmd prev)) c s
  | D_link cmd prev => one (store_next prev (Some (cmd_node cmd))) (fun _ => k D_write) c s
  | D_write => one (write_msg_fd t) (fun _ => k_end) c s
  end.

Definition turn (c : bool) (i : nat) (st : stage) (s : memory) : option (stage * memory) :=
  match st with
  | finished => None
  | W_hook init =>
      one (get_thr (0, 0) i (fun e => ((if init then init_cb e else exit_cb e), arg e))) (fun h =>
        let at_ := if init then in_init else in_exit in
        if h.1 =? 0 then after_stage i at_
        else calls_stage i at_ (Some i) (calls i h.1 h.2)) c s
  | W_loop => Some (W_wait, s)
  | W_wait => one (event_wait i) W_read c s
  | W_read msg =>
      one (on_thr 0 i (fun e => if msg then (msg_fd e, e <| msg_fd := 0 |>)
                                else (stop_fd e, e <| stop_fd := 0 |>)))
        (read_stage msg) c s
  | W_drain => Some (Q_tail, s)
  | W_joined => one (set_thr i (fun e => e <| joined := true |>)) (fun _ => finished) c s
  | Q_tail => one (get_thr (stub i) i q_tail) Q_next c s
  | Q_next tl => one (load_next tl) (next_stage i tl) c s
  | Q_stub_head tl => one (get_thr tl i q_head) (fun _ => W_loop) c s
  | Q_skip n => one (set_thr i (fun e => e <| q_tail := n |>)) (fun _ => Q_next2 n) c s
  | Q_next2 n => one (load_next n) (item_stage n) c s
  | Q_head tl =>
      one (get_thr tl i q_head)
        (fun head => if negb (bool_decide (tl = head)) then W_loop else Q_clear tl) c s
  | Q_clear tl => one (store_next (stub i) None) (fun _ => Q_exchange tl) c s
  | Q_exchange tl => one (exchange_head i i (stub i)) (Q_link tl) c s
  | Q_link tl prev => one (store_next prev (Some (stub i))) (fun _ => Q_again tl) c s
  | Q_again tl =>
      one (load_next tl) (fun next => match next with Some n => Q_take tl n | None => W_loop end) c s
  | Q_take tl n =>
      one (set_thr i (fun e => e <| q_tail := n |>))
        (fun _ => polled_stage (MPSC_QUEUE_ITEM tl)) c s
  | Q_bad => one (atomic (mem_ub false)) (fun _ => W_loop) c s
  | C_load cmd => one (on_cmd (Build_evthr_cmd None None 0 0) cmd (fun m => (m, m))) (C_run cmd) c s
  | C_run cmd m =>
      one (atomic (fun s => (tt, s <| ran := ran s ++ [(i, (cb m, args m))] |>)))
        (fun _ => calls_stage i (in_cmd cmd (msg_cache m)) (Some i) (calls i (cb m) (args m))) c s
  | C_look pq cmd =>
      one (get_thr (Build_producer_q 0 0 0) pq msg_cache_p) (fun q =>
        if (ring_next (p_head q) (p_cap q) =? cached_tail q)%nat then C_refresh pq cmd q
        else C_slot pq cmd q) c s
  | C_refresh pq cmd q =>
      one (on_thr true pq (fun e =>
        let ct := c_tail (msg_cache_c e) in
        ((ring_next (p_head q) (p_cap q) =? ct)%nat,
         e <| msg_cache_p := (msg_cache_p e) <| cached_tail := ct |> |>)))
        (fun full : bool => if full then C_free cmd else C_slot pq cmd q) c s
  | C_slot pq cmd q => one (push_slot q pq cmd) (fun _ => C_push pq cmd q) c s
  | C_push pq cmd q => one (pushed q pq) (fun _ => W_drain) c s
  | C_free cmd => one (free_cmd cmd) (fun _ => W_drain) c s
  | Defer at_ d sender t x l =>
      defer_turn c i d sender t x (fun d => Defer at_ d sender t x l)
        (calls_stage i at_ sender l) s
  end.

Definition runs_to (i : nat) (r : option (stage * memory)) : option (thread_prog unit * memory) :=
  match r with Some (st, s) => Some (text i st, s) | None => None end.

Lemma calls_stage_text i at_ sender l :
  text i (calls_stage i at_ sender l) = around i at_ (defers alloc i sender l).
Proof.
  induction l as [|[t [cb arg]] l IH].
  - destruct at_ as [| | |c [pq|]]; reflexivity.
  - cbn [calls_stage fst snd defers evthr_defer]. destruct (cb =? 0) eqn:E; cbn [pbind]; [exact IH|].
    cbn [text around defer_text]. destruct sender; reflexivity.
Qed.

(** An action and what it leads to. *)
Lemma run1_act {B} (f : bool -> memory -> option (B * memory)) K k c i s :
  (forall b, K b = text i (k b)) ->
  run1 c (Act f K) s = runs_to i (one (Act f Ret) k c s).
Proof.
  intros HK. cbn. destruct (f c s) as [[b s']|]; [|done]. cbn. by rewrite HK.
Qed.

Ltac act := refine (run1_act _ _ _ _ _ _ _); intros ?; cbv zeta;
  try match goal with b : unit |- _ => destruct b end.
(** One action on a node. *)
Ltac act_on n := destruct n; act.
Ltac cases := repeat case_match; try reflexivity.

Lemma defer_text_turn c i at_ d sender t x l s :
  run1 c (text i (Defer at_ d sender t x l)) s =
  runs_to i (turn c i (Defer at_ d sender t x l) s).
Proof.
  pose proof (calls_stage_text i at_ sender l) as Hl. cbn [turn].
  destruct d; cbn [defer_turn]; destruct at_; try (act; cases; done).
  all: try (act_on prev; cases; done).
  all: act; cases; symmetry; exact Hl.
Qed.

Lemma text_turn c i st s : run1 c (text i st) s = runs_to i (turn c i st s).
Proof.
  destruct st; try reflexivity; try apply defer_text_turn; cbn [turn].
  - destruct init; act; destruct (_ =? 0); try reflexivity; symmetry; apply calls_stage_text.
  - act. reflexivity.
  - act. unfold read_stage. cases.
  - act. reflexivity.
  - act. reflexivity.
  - act_on tl; unfold next_stage, item_stage; cases.
  - act. cases.
  - act. reflexivity.
  - act_on n; unfold item_stage; cases.
  - act. cases.
  - act. reflexivity.
  - act. reflexivity.
  - act_on prev; reflexivity.
  - act_on tl; cases.
  - act. destruct tl; reflexivity.
  - act. reflexivity.
  - act. symmetry. apply calls_stage_text.
  - act. cases.
  - act. cases.
  - act. reflexivity.
  - act. reflexivity.
  - act. reflexivity.
Qed.
End Stages.
