(* ===== verification/EvRing.v ===== *)
(** * spsc_queue.h: the ring of a thread's cached commands

    [ring_ok e R]: the ring of the thread [e] holds the commands [R], oldest
    first, at the slots from [c_tail] on; each side's view of the other's end
    is out of date by no more than the other has done since.  One lemma per
    access of spsc_enqueue and spsc_dequeue. *)

From S2P Require Import Prelude Sched EvThread.
From stdpp Require Import list.
#[local] Open Scope nat_scope.

(** The slot [i] places from the start, for [i] up to twice the size. *)
Definition wrap (cap i : nat) : nat := if i <? cap then i else i - cap.

Lemma ring_next_wrap i cap : i < cap -> ring_next i cap = wrap cap (i + 1).
Proof.
  intros H. unfold ring_next, wrap. destruct (Nat.eqb_spec (i + 1) cap), (Nat.ltb_spec (i + 1) cap); lia.
Qed.
Lemma wrap_lt cap i : i < 2 * cap -> wrap cap i < cap.
Proof. intros H. unfold wrap. destruct (Nat.ltb_spec i cap); lia. Qed.

(** Splits every [wrap] of the goal and the hypotheses. *)
Ltac wraps :=
  unfold wrap in *; repeat match goal with
    | H : context [(?i <? ?n)] |- _ => destruct (Nat.ltb_spec i n)
    | |- context [(?i <? ?n)] => destruct (Nat.ltb_spec i n)
    end; try lia.

Record ring_ok (e : evthr) (R : list nat) : Prop := {
  r_cap : p_cap (msg_cache_p e) = c_cap (msg_cache_c e);
  r_buf : length (msg_cache_buf e) = c_cap (msg_cache_c e);
  r_tail : c_tail (msg_cache_c e) < c_cap (msg_cache_c e);
  r_head : p_head (msg_cache_p e) = wrap (c_cap (msg_cache_c e)) (c_tail (msg_cache_c e) + length R);
  r_len : length R < c_cap (msg_cache_c e);
  r_slots : forall k c, R !! k = Some c ->
    msg_cache_buf e !! wrap (c_cap (msg_cache_c e)) (c_tail (msg_cache_c e) + k) = Some (Some c);
  r_cached_head : exists j, j <= length R /\
    cached_head (msg_cache_c e) = wrap (c_cap (msg_cache_c e)) (c_tail (msg_cache_c e) + j);
  r_cached_tail : exists j, length R + j < c_cap (msg_cache_c e) /\
    wrap (c_cap (msg_cache_c e)) (cached_tail (msg_cache_p e) + j) = c_tail (msg_cache_c e) /\
    cached_tail (msg_cache_p e) < c_cap (msg_cache_c e)
}.

(** What the two sides use of a thread. *)
Definition same_ring (e e' : evthr) : Prop :=
  msg_cache_p e' = msg_cache_p e /\ msg_cache_c e' = msg_cache_c e /\
  msg_cache_buf e' = msg_cache_buf e.
Lemma ring_same e e' R : same_ring e e' -> ring_ok e R -> ring_ok e' R.
Proof. intros (E1 & E2 & E3) []. split; rewrite ?E1, ?E2, ?E3; done. Qed.

(** ** The consumer *)

(** Its view says that there is something. *)
Definition seen (e : evthr) : Prop := c_tail (msg_cache_c e) <> cached_head (msg_cache_c e).

Lemma ring_seen e R : ring_ok e R -> seen e -> exists c R', R = c :: R'.
Proof.
  intros [] Hs. destruct r_cached_head0 as (j & Hj & E). destruct R as [|c R]; [|by eexists _, _].
  destruct Hs. rewrite E. cbn in Hj. wraps.
Qed.
Definition view_head (e : evthr) : evthr :=
  e <| msg_cache_c := (msg_cache_c e) <| cached_head := p_head (msg_cache_p e) |> |>.
Lemma ring_view_head e R : ring_ok e R -> ring_ok (view_head e) R.
Proof. intros []. split; cbn; try done. by exists (length R). Qed.
Lemma ring_slot e c R :
  ring_ok e (c :: R) -> msg_cache_buf e !! c_tail (msg_cache_c e) = Some (Some c).
Proof.
  intros []. specialize (r_slots0 0 c eq_refl). rewrite Nat.add_0_r in r_slots0.
  by unfold wrap in r_slots0; rewrite (proj2 (Nat.ltb_lt _ _) r_tail0) in r_slots0.
Qed.
Definition pop_ring (e : evthr) : evthr :=
  e <| msg_cache_c := (msg_cache_c e) <| c_tail :=
    ring_next (c_tail (msg_cache_c e)) (c_cap (msg_cache_c e)) |> |>.
Lemma ring_pop e c R : ring_ok e (c :: R) -> seen e -> ring_ok (pop_ring e) R.
Proof.
  intros [] Hs. unfold seen in Hs. cbn [length] in *. destruct r_cached_head0 as (j & Hj & Ej).
  destruct r_cached_tail0 as (k & Hk & Ek & Hk').
  split; unfold pop_ring; cbn [msg_cache_c msg_cache_p msg_cache_buf set_field eta_fields eta_evthr
    c_tail cached_head c_cap eta_consumer_q]; rewrite ?ring_next_wrap by done; try done.
  - apply wrap_lt. lia.
  - rewrite r_head0. wraps.
  - lia.
  - intros i d Hi. rewrite <- (r_slots0 (S i) d Hi). apply lookup_lt_Some in Hi. f_equal. wraps.
  - exists (j - 1). split; [lia|]. rewrite Ej in *. wraps.
  - exists (S k). split; [lia|]. split; [|done]. wraps.
Qed.

(** ** The producer *)

(** Its view says that there is room. *)
Definition room (e : evthr) : Prop :=
  ring_next (p_head (msg_cache_p e)) (p_cap (msg_cache_p e)) <> cached_tail (msg_cache_p e).

Lemma ring_head_lt e R : ring_ok e R -> p_head (msg_cache_p e) < c_cap (msg_cache_c e).
Proof. intros []. rewrite r_head0. apply wrap_lt. lia. Qed.
Lemma ring_room e R :
  ring_ok e R -> room e ->
  exists j, length R + 1 + j < c_cap (msg_cache_c e) /\
    wrap (c_cap (msg_cache_c e)) (cached_tail (msg_cache_p e) + j) = c_tail (msg_cache_c e) /\
    cached_tail (msg_cache_p e) < c_cap (msg_cache_c e).
Proof.
  intros H Hr. pose proof (ring_head_lt e R H) as Hh. destruct H. unfold room in Hr.
  rewrite r_cap0, ring_next_wrap in Hr by done.
  destruct r_cached_tail0 as (j & Hj & E & Hc). exists j. split; [|done].
  destruct (decide (length R + 1 + j = c_cap (msg_cache_c e))) as [Ej|]; [|lia]. destruct Hr. wraps.
Qed.
Definition view_tail (e : evthr) : evthr :=
  e <| msg_cache_p := (msg_cache_p e) <| cached_tail := c_tail (msg_cache_c e) |> |>.
Lemma ring_view_tail e R : ring_ok e R -> ring_ok (view_tail e) R.
Proof. intros []. split; cbn; try done. exists 0. split; [lia|]. split; [|done]. wraps. Qed.
Definition write_slot (c : nat) (e : evthr) : evthr :=
  e <| msg_cache_buf := <[p_head (msg_cache_p e) := Some c]> (msg_cache_buf e) |>.
Lemma ring_write e R c : ring_ok e R -> ring_ok (write_slot c e) R.
Proof.
  intros []. split; cbn [write_slot msg_cache_c msg_cache_p msg_cache_buf set_field eta_fields eta_evthr];
    try done; [by rewrite length_insert|].
  intros k d Hk. rewrite list_lookup_insert_ne; [by apply r_slots0|].
  apply lookup_lt_Some in Hk. rewrite r_head0. intros E. wraps.
Qed.
Lemma slot_written e R c :
  ring_ok e R -> msg_cache_buf (write_slot c e) !! p_head (msg_cache_p e) = Some (Some c).
Proof.
  intros H. cbn. apply list_lookup_insert_eq. rewrite (r_buf _ _ H). by eapply ring_head_lt.
Qed.
Definition push_ring (e : evthr) : evthr :=
  e <| msg_cache_p := (msg_cache_p e) <| p_head :=
    ring_next (p_head (msg_cache_p e)) (p_cap (msg_cache_p e)) |> |>.
Lemma ring_push e R c :
  ring_ok e R -> room e -> msg_cache_buf e !! p_head (msg_cache_p e) = Some (Some c) ->
  ring_ok (push_ring e) (R ++ [c]).
Proof.
  intros H Hr Hc. destruct (ring_room e R H Hr) as (j & Hj & Ej & Hct).
  pose proof (ring_head_lt e R H) as Hh. destruct H. destruct r_cached_head0 as (k & Hk & Ek).
  split; cbn [push_ring msg_cache_c msg_cache_p msg_cache_buf set_field eta_fields eta_evthr
    p_head cached_tail p_cap eta_producer_q]; rewrite ?length_app; cbn [length];
    rewrite ?r_cap0, ?ring_next_wrap by done; try done.
  - rewrite r_head0. wraps.
  - lia.
  - intros i d Hi. apply lookup_app_Some in Hi as [Hi|[Hi Hd]]; [by apply r_slots0|].
    apply list_lookup_singleton_Some in Hd as [E <-].
    replace i with (length R) by lia. by rewrite <- r_head0.
  - exists k. split; [lia|done].
  - exists j. split; [lia|done].
Qed.
