(* ===== verification/EvInv.v ===== *)
(** * thread.c: the invariant of a pool at work

    [good] relates the memory, the stages of the threads and a ghost state
    that says who has each node ([own]), the order of every queue ([ord]) and
    the contents of every cache ([ring]).  Its part about one thread, [at_ok],
    is stable under what the other threads may do ([env]), so that a step of a
    thread only has to account for its own changes. *)

From S2P Require Import Prelude Sched EvThread EvStages EvRing.
From stdpp Require Import gmap.
#[local] Open Scope Z_scope.

(** Where a node is: with thread [i] (a stub: outside its queue); in the queue
    of [w], its predecessor [prev] not yet linked to it by [i]; in the queue of
    [w]; in the cache of [t]. *)
Inductive place :=
| Nowhere | Hand (i : nat) | Linking (i w : nat) (prev : node) | Queued (w : nat) | Cached (t : nat).

Record ghost := { own : node -> place; ord : nat -> list node; ring : nat -> list nat }.

Definition in_queue (w : nat) (p : place) : Prop := p = Queued w \/ exists i q, p = Linking i w q.

Definition nx (s : memory) (n : node) : option node :=
  match n with
  | stub t => thrs s !! t ≫= stub_next
  | cmd_node c => cmds s !! c ≫= next
  end.

(** [b] follows [a] in a queue. *)
Definition linked (s : memory) (o : node -> place) (a b : node) : Prop :=
  match o b with
  | Queued _ => nx s a = Some b
  | Linking _ _ p => p = a /\ nx s a = None
  | _ => False
  end.

Record queue_ok (s : memory) (g : ghost) (w : nat) (e : evthr) : Prop := {
  q_first : head (ord g w) = Some (q_tail e);
  q_last : last (ord g w) = Some (q_head e);
  q_nodup : NoDup (ord g w);
  q_in : forall n, n ∈ ord g w <-> in_queue w (own g n);
  q_start : own g (q_tail e) = Queued w;
  q_chain : forall k a b, ord g w !! k = Some a -> ord g w !! S k = Some b -> linked s (own g) a b;
  q_end : nx s (q_head e) = None
}.

(** ** What a thread has in hand at a stage *)

Definition defer_held (d : defer_stage) : list nat :=
  match d with D_fill c | D_clear c | D_exchange c => [c] | _ => [] end.
Definition site_held (at_ : site) : list nat := match at_ with in_cmd c _ => [c] | _ => [] end.
Definition held (st : stage) : list nat :=
  match st with
  | C_load c | C_run c _ | C_look _ c | C_refresh _ c _ | C_slot _ c _ | C_push _ c _ | C_free c => [c]
  | Defer at_ d _ _ _ _ => defer_held d ++ site_held at_
  | _ => []
  end.
(** The node it is linking, the queue and the predecessor. *)
Definition linking (i : nat) (st : stage) : option (node * nat * node) :=
  match st with
  | Q_link _ prev => Some (stub i, i, prev)
  | Defer _ (D_link c prev) _ t _ _ => Some (cmd_node c, t, prev)
  | _ => None
  end.
(** The thread it is about to wake. *)
Definition waking (st : stage) : option nat :=
  match st with Defer _ (D_link _ _ | D_write) _ t _ _ => Some t | _ => None end.
(** The command it has taken from its queue and not run yet. *)
Definition unrun (st : stage) : option nat :=
  match st with C_load c | C_run c _ => Some c | _ => None end.
(** The calls it has not yet entered into a queue. *)
Definition real_calls (l : list call) : list call := filter (fun x => x.2.1 <> 0) l.
Definition pending (st : stage) : list call :=
  match st with
  | Defer in_caller d _ t x l =>
      match d with D_link _ _ | D_write => [] | _ => [(t, x)] end ++ real_calls l
  | _ => []
  end.

Definition signal (s : memory) (sts : list stage) (w : nat) : Prop :=
  (exists e, thrs s !! w = Some e /\ 0 < msg_fd e) \/
  exists j st, sts !! j = Some st /\ waking st = Some w.

Section Inv.
Context (calls : nat -> Z -> Z -> list call) (alloc : gmap nat evthr_cmd -> option nat).
Context (roles : list role) (feed : nat -> nat).

Definition has_thr (i : nat) : Prop := exists r, roles !! i = Some r /\ has_evthr r = true.
(** A thread with a cache gives all its commands to one worker, [feed i]. *)
Definition sender_ok (i : nat) (sender : option nat) (t : nat) : Prop :=
  roles !! t = Some worker /\
  match sender with None => True | Some j => j = i /\ has_thr i /\ feed i = t end.
Definition calls_ok (i : nat) (sender : option nat) (l : list call) : Prop :=
  Forall (fun x => sender_ok i sender x.1) l.

(** A cache the worker [i] gives commands back to. *)
Definition cache_ok (i : nat) (pq : option nat) : Prop :=
  match pq with Some t => feed t = i /\ has_thr t | None => True end.

Section At.
Context (s : memory) (sts : list stage) (g : ghost) (i : nat).

(** Commands beyond the first of the queue, [x], are being announced. *)
Definition announced (x : node) : Prop := ord g i <> [x] -> signal s sts i.
Definition on_poll (tl : node) : Prop := head (ord g i) = Some tl.

Definition defer_ok (d : defer_stage) (sender : option nat) (x : Z * Z) : Prop :=
  match d with
  | D_look => sender = Some i
  | D_refresh q =>
      sender = Some i /\ exists e, thrs s !! i = Some e /\ q = msg_cache_c e
  | D_slot q =>
      sender = Some i /\ exists e, thrs s !! i = Some e /\ c_tail q = c_tail (msg_cache_c e) /\
        c_cap q = c_cap (msg_cache_c e) /\ seen e
  | D_pop q c =>
      sender = Some i /\ (exists e, thrs s !! i = Some e /\ c_tail q = c_tail (msg_cache_c e) /\
        c_cap q = c_cap (msg_cache_c e) /\ seen e) /\ head (ring g i) = Some c
  | D_clear c | D_exchange c =>
      (exists m, cmds s !! c = Some m /\ (cb m, args m) = x /\ msg_cache m = sender) /\
      (d = D_exchange c -> nx s (cmd_node c) = None)
  | _ => True
  end.

Definition site_ok (at_ : site) : Prop :=
  match at_ with
  | in_caller => exists tls l, roles !! i = Some (caller tls l)
  | in_init => roles !! i = Some worker /\ announced (stub i)
  | in_exit => roles !! i = Some worker
  | in_cmd c pq => roles !! i = Some worker /\ cache_ok i pq
  end.

Definition producing (pq : nat) (q : producer_q) (P : evthr -> Prop) : Prop :=
  cache_ok i (Some pq) /\ exists e, thrs s !! pq = Some e /\
    p_head q = p_head (msg_cache_p e) /\ p_cap q = p_cap (msg_cache_p e) /\ P e.

Definition worker_ok (st : stage) : Prop :=
  match st with
  | W_hook true | W_loop | W_wait | W_read _ => announced (stub i)
  | Q_next tl => on_poll tl
  | Q_stub_head tl => announced (stub i)
  | Q_skip n => exists L, ord g i = stub i :: n :: L /\ own g n = Queued i
  | Q_next2 n => on_poll n /\ n <> stub i
  | Q_head tl => on_poll tl /\ tl <> stub i /\ announced tl
  | Q_clear tl => on_poll tl /\ tl <> stub i /\ own g (stub i) = Hand i
  | Q_exchange tl => on_poll tl /\ tl <> stub i /\ own g (stub i) = Hand i /\ nx s (stub i) = None
  | Q_link tl _ => on_poll tl /\ tl <> stub i
  | Q_again tl => on_poll tl /\ tl <> stub i /\ own g (stub i) = Queued i
  | Q_take tl n => tl <> stub i /\ exists L, ord g i = tl :: n :: L /\ own g n = Queued i
  | Q_bad => False
  | C_load c => exists m, cmds s !! c = Some m /\ cache_ok i (msg_cache m)
  | C_run c m => cmds s !! c = Some m /\ cache_ok i (msg_cache m)
  | C_look pq c => cache_ok i (Some pq)
  | C_refresh pq c q => producing pq q (fun e => q = msg_cache_p e)
  | C_slot pq c q => producing pq q room
  | C_push pq c q =>
      producing pq q (fun e => room e /\ msg_cache_buf e !! p_head q = Some (Some c))
  | _ => True
  end.

Definition at_ok (st : stage) : Prop :=
  NoDup (held st) /\
  match st with
  | finished => True
  | Defer at_ d sender t x l =>
      site_ok at_ /\ sender_ok i sender t /\ calls_ok i sender l /\ defer_ok d sender x
  | _ => roles !! i = Some worker /\ worker_ok st
  end.
End At.

(** ** The invariant *)

Definition ran_of (s : memory) (w : nat) : list (Z * Z) :=
  (filter (fun x => x.1 = w) (ran s)).*2.
Definition inserted_for (s : memory) (w : nat) : list (Z * Z) :=
  (filter (fun x => x.1.2 = w) (inserted s)).*2.
Definition inserted_by (s : memory) (i : nat) : list call :=
  (fun x => (x.1.2, x.2)) <$> filter (fun x => x.1.1 = i) (inserted s).
Definition in_hand (s : memory) (sts : list stage) (w : nat) : list (Z * Z) :=
  match sts !! w ≫= unrun with
  | Some c => match payload s (cmd_node c) with Some x => [x] | None => [] end
  | None => []
  end.

Record good (s : memory) (sts : list stage) (g : ghost) : Prop := {
  g_len : length sts = length roles;
  g_thr : forall i, is_Some (thrs s !! i) <-> has_thr i;
  g_queue : forall w e, thrs s !! w = Some e -> queue_ok s g w e;
  g_ring : forall t e, thrs s !! t = Some e -> ring_ok e (ring g t);
  g_hand : forall i c, own g (cmd_node c) = Hand i <-> exists st, sts !! i = Some st /\ c ∈ held st;
  g_link : forall i n w p,
    own g n = Linking i w p <-> exists st, sts !! i = Some st /\ linking i st = Some (n, w, p);
  g_cmds : forall c, own g (cmd_node c) = Nowhere <-> cmds s !! c = None;
  g_cached : forall c t, own g (cmd_node c) = Cached t <-> (has_thr t /\ c ∈ ring g t);
  g_nodup : forall t, NoDup (ring g t);
  g_stub : forall w, own g (stub w) = Hand w \/ own g (stub w) = Queued w \/
    exists p, own g (stub w) = Linking w w p;
  g_queued : forall c w, in_queue w (own g (cmd_node c)) ->
    has_thr w /\ exists m, cmds s !! c = Some m /\ cache_ok w (msg_cache m);
  g_at : forall i st, sts !! i = Some st -> at_ok s sts g i st;
  g_ub : m_ub s = false;
  g_fd : forall w e, thrs s !! w = Some e -> 0 <= msg_fd e;
  g_run : forall w, has_thr w -> inserted_for s w =
    ran_of s w ++ in_hand s sts w ++ omap (payload s) (ord g w);
  g_calls : forall i tls l st, roles !! i = Some (caller tls l) -> sts !! i = Some st ->
    inserted_by s i ++ pending st = real_calls l
}.

(** ** What the other threads may do *)

Record env (s : memory) (sts : list stage) (g : ghost) (s' : memory) (sts' : list stage) (g' : ghost)
    (j : nat) : Prop := {
  e_ord : exists X, ord g' j = ord g j ++ X /\ (X <> [] -> signal s' sts' j);
  e_signal : signal s sts j -> signal s' sts' j;
  e_queued : forall n, own g n = Queued j -> own g' n = Queued j;
  e_stub : own g (stub j) = Hand j ->
    own g' (stub j) = Hand j /\ nx s' (stub j) = nx s (stub j);
  e_hand : forall c, own g (cmd_node c) = Hand j -> cmds s' !! c = cmds s !! c;
  e_ring : exists Y, ring g' j = ring g j ++ Y;
  e_view : forall e, thrs s !! j = Some e ->
    exists e', thrs s' !! j = Some e' /\ msg_cache_c e' = msg_cache_c e;
  e_feed : forall t e, feed t = j -> thrs s !! t = Some e ->
    exists e', thrs s' !! t = Some e' /\ msg_cache_p e' = msg_cache_p e /\
      msg_cache_buf e' !! p_head (msg_cache_p e) = msg_cache_buf e !! p_head (msg_cache_p e)
}.

Section Env.
Context s sts g s' sts' g' j (He : env s sts g s' sts' g' j).

Lemma announced_env x : announced s sts g j x -> announced s' sts' g' j x.
Proof.
  intros H Hx. destruct (e_ord _ _ _ _ _ _ _ He) as (X & E & HX).
  destruct (decide (X = [])) as [->|]; [|by apply HX].
  rewrite app_nil_r in E. apply (e_signal _ _ _ _ _ _ _ He), H. by rewrite <- E.
Qed.
Lemma on_poll_env tl : on_poll g j tl -> on_poll g' j tl.
Proof.
  unfold on_poll. destruct (e_ord _ _ _ _ _ _ _ He) as (X & -> & _).
  by destruct (ord g j).
Qed.
Lemma front_env a n : (exists L, ord g j = a :: n :: L /\ own g n = Queued j) ->
  exists L, ord g' j = a :: n :: L /\ own g' n = Queued j.
Proof.
  intros (L & E & Hn). destruct (e_ord _ _ _ _ _ _ _ He) as (X & E' & _).
  exists (L ++ X). split; [by rewrite E', E|by apply (e_queued _ _ _ _ _ _ _ He)].
Qed.
Lemma producing_env pq q (P : evthr -> Prop) :
  (forall e e', thrs s !! pq = Some e -> msg_cache_p e' = msg_cache_p e ->
     msg_cache_buf e' !! p_head (msg_cache_p e) = msg_cache_buf e !! p_head (msg_cache_p e) ->
     p_head q = p_head (msg_cache_p e) -> P e -> P e') ->
  producing s j pq q P -> producing s' j pq q P.
Proof.
  intros HP ([Hf Ht] & e & E & E1 & E2 & Hp). split; [done|].
  destruct (e_feed _ _ _ _ _ _ _ He pq e Hf E) as (e' & E' & Ep & Eb).
  exists e'. rewrite Ep. do 3 (split; [done|]). by eapply HP.
Qed.
Lemma seen_env q :
  (exists e, thrs s !! j = Some e /\ c_tail q = c_tail (msg_cache_c e) /\
     c_cap q = c_cap (msg_cache_c e) /\ seen e) ->
  exists e, thrs s' !! j = Some e /\ c_tail q = c_tail (msg_cache_c e) /\
     c_cap q = c_cap (msg_cache_c e) /\ seen e.
Proof.
  intros (e & E & H). destruct (e_view _ _ _ _ _ _ _ He e E) as (e' & E' & Ev).
  exists e'. unfold seen in *. by rewrite Ev.
Qed.

Lemma at_ok_env st :
  (forall c, c ∈ held st -> own g (cmd_node c) = Hand j) ->
  at_ok s sts g j st -> at_ok s' sts' g' j st.
Proof.
  intros Hh [Hnd H]. split; [done|].
  assert (forall c, c ∈ held st -> cmds s' !! c = cmds s !! c) as Hc.
  { intros c Hin. by apply (e_hand _ _ _ _ _ _ _ He), Hh. }
  destruct st; try done; cbn [held] in *; try (destruct H as [Hw H]; split; [done|]);
    cbn [worker_ok] in *; try done; try (by apply announced_env); try (by apply on_poll_env).
  - destruct init; [|done]. by apply announced_env.
  - by apply front_env.
  - destruct H. split; [by apply on_poll_env|done].
  - destruct H as (? & ? & ?). split; [by apply on_poll_env|]. split; [done|by apply announced_env].
  - destruct H as (? & ? & ?). split; [by apply on_poll_env|]. split; [done|].
    by apply (e_stub _ _ _ _ _ _ _ He).
  - destruct H as (? & ? & Ho & Hn). destruct (e_stub _ _ _ _ _ _ _ He Ho) as [Ho' Hn'].
    split; [by apply on_poll_env|]. split; [done|]. split; [done|]. by rewrite Hn'.
  - destruct H. split; [by apply on_poll_env|done].
  - destruct H as (? & ? & ?). split; [by apply on_poll_env|]. split; [done|].
    by apply (e_queued _ _ _ _ _ _ _ He).
  - destruct H. split; [done|]. by apply front_env.
  - rewrite Hc by constructor. done.
  - rewrite Hc by constructor. done.
  - eapply producing_env, H. intros e e' _ E _ _ ->. done.
  - eapply producing_env, H. intros e e' _ E _ _ Hr. unfold room. by rewrite E.
  - eapply producing_env, H. intros e e' _ E Eb Eh [Hr Hs]. unfold room. rewrite E. split; [done|].
    by rewrite Eh, Eb, <- Eh.
  - destruct H as (Hs & Hx & Hl & Hd). split.
    { destruct at_; try done. destruct Hs. split; [done|by apply announced_env]. }
    split; [done|]. split; [done|].
    assert (forall c, c ∈ defer_held d -> cmds s' !! c = cmds s !! c) as Hc'.
    { intros c Hin. apply Hc, elem_of_app. by left. }
    destruct d; cbn [defer_ok defer_held] in *; try done.
    + destruct Hd as (? & e & E & ->). split; [done|].
      destruct (e_view _ _ _ _ _ _ _ He e E) as (e' & E' & Ev). by exists e'.
    + destruct Hd. split; [done|]. by apply seen_env.
    + destruct Hd as (? & ? & Hr). split; [done|]. split; [by apply seen_env|].
      destruct (e_ring _ _ _ _ _ _ _ He) as (Y & ->). by destruct (ring g j).
    + destruct Hd as [Hd _]. rewrite Hc' by constructor. by split.
    + unfold nx in *. by rewrite Hc' by constructor.
Qed.
End Env.

(** ** Moving a node *)

(** [o'] is [o] after a step of thread [i] to the stage [st']. *)
Record moves (i : nat) (st' : stage) (o o' : node -> place) : Prop := {
  m_hand : forall c, o' (cmd_node c) = Hand i <-> c ∈ held st';
  m_hand_other : forall j c, j <> i -> o' (cmd_node c) = Hand j <-> o (cmd_node c) = Hand j;
  m_link : forall n w p, o' n = Linking i w p <-> linking i st' = Some (n, w, p);
  m_link_other : forall j n w p, j <> i -> o' n = Linking j w p <-> o n = Linking j w p
}.

Definition set_own (n : node) (p : place) (o : node -> place) : node -> place :=
  fun m => if decide (m = n) then p else o m.
Lemma set_own_eq n p o : set_own n p o n = p.
Proof. unfold set_own. by rewrite decide_True. Qed.
Lemma set_own_ne n p o m : m <> n -> set_own n p o m = o m.
Proof. intros H. unfold set_own. by rewrite decide_False. Qed.

(** A place that is not another thread's. *)
Definition mine (i : nat) (p : place) : Prop :=
  match p with Hand j | Linking j _ _ => j = i | _ => True end.

Lemma moves_set i st st' n p o :
  (forall c, o (cmd_node c) = Hand i <-> c ∈ held st) ->
  (forall m w q, o m = Linking i w q <-> linking i st = Some (m, w, q)) ->
  mine i (o n) -> mine i p ->
  (forall c, c ∈ held st' <-> if decide (cmd_node c = n) then p = Hand i else c ∈ held st) ->
  (forall m w q, linking i st' = Some (m, w, q) <->
     if decide (m = n) then p = Linking i w q else linking i st = Some (m, w, q)) ->
  moves i st' o (set_own n p o).
Proof.
  intros Hh Hl Ho Hp Hh' Hl'. split.
  - intros c. rewrite Hh'. unfold set_own. by destruct (decide (cmd_node c = n)).
  - intros j c Hj. unfold set_own. destruct (decide _) as [<-|]; [|done].
    split; intros E; [rewrite E in Hp|rewrite E in Ho]; done.
  - intros m w q. rewrite Hl'. unfold set_own. by destruct (decide (m = n)).
  - intros j m w q Hj. unfold set_own. destruct (decide _) as [<-|]; [|done].
    split; intros E; [rewrite E in Hp|rewrite E in Ho]; done.
Qed.
End Inv.
