(* ===== verification/EvStep.v ===== *)
(** * thread.c: every step of a thread keeps the invariant *)

From S2P Require Import Prelude Sched EvThread EvStages EvRing EvInv.
From stdpp Require Import gmap.
#[local] Open Scope Z_scope.

Lemma omap_eq {A B} (f f' : A -> option B) (L : list A) :
  (forall x, x ∈ L -> f x = f' x) -> omap f L = omap f' L.
Proof.
  induction L as [|x L IH]; intros H; [done|]. cbn. rewrite (H x) by constructor.
  by rewrite IH by (intros; apply H; by constructor).
Qed.

(** The sequence of one thread, replaced. *)
Definition set_at {B} (w : nat) (L : B) (o : nat -> B) : nat -> B :=
  fun v => if decide (v = w) then L else o v.
Lemma set_at_eq {B} w (L : B) o : set_at w L o w = L.
Proof. unfold set_at. by rewrite decide_True. Qed.
Lemma set_at_ne {B} w (L : B) o v : v <> w -> set_at w L o v = o v.
Proof. intros H. unfold set_at. by rewrite decide_False. Qed.

Section Step.
Context (calls : nat -> Z -> Z -> list call) (alloc : gmap nat evthr_cmd -> option nat).
Context (roles : list role) (feed : nat -> nat).
Abbreviation good := (good roles feed).
Abbreviation at_ok := (at_ok roles feed).
Abbreviation env := (env feed).

(** A step of thread [i], from [st] to [st']. *)
Context (s : memory) (sts : list stage) (g : ghost) (Hgood : good s sts g).
Context (i : nat) (st st' : stage) (Hi : sts !! i = Some st).
Abbreviation sts' := (<[i := st']> sts).

Lemma lookup_self : sts' !! i = Some st'.
Proof. apply list_lookup_insert_eq. by eapply lookup_lt_Some. Qed.
Lemma lookup_other j : j <> i -> sts' !! j = sts !! j.
Proof. intros H. by rewrite list_lookup_insert_ne. Qed.
Lemma held_mine c : own g (cmd_node c) = Hand i <-> c ∈ held st.
Proof.
  rewrite (g_hand _ _ _ _ _ Hgood). split; [|by eauto].
  intros (st0 & E & H). rewrite Hi in E. by injection E as ->.
Qed.
Lemma linking_mine n w p : own g n = Linking i w p <-> linking i st = Some (n, w, p).
Proof.
  rewrite (g_link _ _ _ _ _ Hgood). split; [|by eauto].
  intros (st0 & E & H). rewrite Hi in E. by injection E as ->.
Qed.

Lemma good_intro s' g' :
  (forall w, is_Some (thrs s' !! w) <-> is_Some (thrs s !! w)) ->
  (forall w e, thrs s' !! w = Some e -> queue_ok s' g' w e) ->
  (forall t e, thrs s' !! t = Some e -> ring_ok e (ring g' t)) ->
  moves i st' (own g) (own g') ->
  (forall c, own g' (cmd_node c) = Nowhere <-> cmds s' !! c = None) ->
  (forall c t, own g' (cmd_node c) = Cached t <-> (has_thr roles t /\ c ∈ ring g' t)) ->
  (forall t, NoDup (ring g' t)) ->
  (forall w, own g' (stub w) = Hand w \/ own g' (stub w) = Queued w \/
     exists p, own g' (stub w) = Linking w w p) ->
  (forall c w, in_queue w (own g' (cmd_node c)) ->
     has_thr roles w /\ exists m, cmds s' !! c = Some m /\ cache_ok roles feed w (msg_cache m)) ->
  (forall j, j <> i -> env s sts g s' sts' g' j) ->
  at_ok s' sts' g' i st' ->
  m_ub s' = false ->
  (forall w e, thrs s' !! w = Some e -> 0 <= msg_fd e) ->
  (forall w, has_thr roles w ->
     inserted_for s' w = ran_of s' w ++ in_hand s' sts' w ++ omap (payload s') (ord g' w)) ->
  (forall j tls l, roles !! j = Some (caller tls l) ->
     inserted_by s' j ++ (if decide (j = i) then pending st' else default [] (pending <$> sts !! j)) =
     real_calls l) ->
  good s' sts' g'.
Proof.
  intros Hthr Hq Hr Hm Hc Hca Hnd Hst Hqd Henv Hat Hub Hfd Hrun Hcalls. destruct Hm as [M1 M2 M3 M4].
  split; try done.
  - rewrite length_insert. apply (g_len _ _ _ _ _ Hgood).
  - intros w. rewrite Hthr. apply (g_thr _ _ _ _ _ Hgood).
  - intros j c. destruct (decide (j = i)) as [->|Hj].
    + rewrite M1. split; [intros H; exists st'; by rewrite lookup_self|].
      intros (st0 & E & H). rewrite lookup_self in E. by injection E as <-.
    + rewrite M2, (g_hand _ _ _ _ _ Hgood) by done. by rewrite lookup_other.
  - intros j n w p. destruct (decide (j = i)) as [->|Hj].
    + rewrite M3. split; [intros H; exists st'; by rewrite lookup_self|].
      intros (st0 & E & H). rewrite lookup_self in E. by injection E as <-.
    + rewrite M4, (g_link _ _ _ _ _ Hgood) by done. by rewrite lookup_other.
  - intros j st0. destruct (decide (j = i)) as [->|Hj].
    + rewrite lookup_self. by intros [= <-].
    + rewrite lookup_other by done. intros E.
      apply (at_ok_env _ _ s sts g s' sts' g' j (Henv j Hj)); [|by apply (g_at _ _ _ _ _ Hgood)].
      intros c Hin. apply (g_hand _ _ _ _ _ Hgood). by exists st0.
  - intros j tls l st0 Hrole. rewrite <- (Hcalls j tls l Hrole). destruct (decide (j = i)) as [->|Hj].
    + rewrite lookup_self. by intros [= <-].
    + rewrite lookup_other by done. by intros ->.
Qed.

Lemma staged j r : roles !! j = Some r -> exists st0, sts !! j = Some st0.
Proof.
  intros Hr. apply lookup_lt_is_Some. rewrite (g_len _ _ _ _ _ Hgood). by eapply lookup_lt_Some.
Qed.

(** The pending calls of the threads, as [good_intro] wants them. *)
Lemma calls_kept s' :
  inserted s' = inserted s -> pending st' = pending st ->
  forall j tls l, roles !! j = Some (caller tls l) ->
    inserted_by s' j ++ (if decide (j = i) then pending st' else default [] (pending <$> sts !! j)) =
    real_calls l.
Proof.
  intros E Hp j tls l Hrole. destruct (staged j _ Hrole) as (st0 & Hj). unfold inserted_by. rewrite E.
  destruct (decide (j = i)) as [->|].
  - rewrite Hp. rewrite Hi in Hj. injection Hj as <-. by eapply (g_calls _ _ _ _ _ Hgood).
  - rewrite Hj. by eapply (g_calls _ _ _ _ _ Hgood).
Qed.

Lemma signal_kept s' j :
  (forall e, thrs s !! j = Some e -> 0 < msg_fd e -> exists e', thrs s' !! j = Some e' /\ 0 < msg_fd e') ->
  (waking st = Some j ->
     waking st' = Some j \/ exists e', thrs s' !! j = Some e' /\ 0 < msg_fd e') ->
  signal s sts j -> signal s' sts' j.
Proof.
  intros Hfd Hw [(e & E & H)|(k & st0 & E & H)]; [left; by eapply Hfd|].
  destruct (decide (k = i)) as [->|Hk].
  - rewrite Hi in E. injection E as <-. destruct (Hw H) as [?|?]; [right|by left].
    exists i, st'. by rewrite lookup_self.
  - right. exists k, st0. by rewrite lookup_other.
Qed.

(** ** Steps that change no queue *)

Definition same_ends (e e' : evthr) : Prop := q_head e' = q_head e /\ q_tail e' = q_tail e.

(** The nodes of a queue, seen from elsewhere. *)
Lemma queue_same s' g' w e e' :
  queue_ok s g w e -> same_ends e e' -> ord g' w = ord g w ->
  (forall n, in_queue w (own g n) \/ in_queue w (own g' n) -> own g' n = own g n /\ nx s' n = nx s n) ->
  queue_ok s' g' w e'.
Proof.
  intros [] (E1 & E2) Eo Hn.
  assert (forall n, n ∈ ord g w -> own g' n = own g n /\ nx s' n = nx s n) as Hin.
  { intros n H. apply Hn. left. by apply q_in. }
  assert (q_head e ∈ ord g w) as Hlast by by apply last_Some_elem_of.
  assert (q_tail e ∈ ord g w) as Hfirst by by apply head_Some_elem_of.
  split; rewrite ?Eo, ?E1, ?E2; try done.
  - intros n. rewrite q_in. split; intros H; destruct (Hn n) as [E _]; auto; by rewrite ?E in *.
  - by rewrite (proj1 (Hin _ Hfirst)).
  - intros k a b Ha Hb. specialize (q_chain k a b Ha Hb). unfold linked in *.
    rewrite (proj1 (Hin b (list_elem_of_lookup_2 _ _ _ Hb))).
    by rewrite (proj2 (Hin a (list_elem_of_lookup_2 _ _ _ Ha))).
  - by rewrite (proj2 (Hin _ Hlast)).
Qed.

(** A change of one thread [t] outside its queue. *)
Lemma good_tweak t e e' s' :
  thrs s !! t = Some e -> thrs s' = <[t := e']> (thrs s) -> cmds s' = cmds s ->
  inserted s' = inserted s -> m_ub s' = false ->
  same_ends e e' -> (stub_next e' = stub_next e \/ own g (stub t) = Hand i) ->
  ring_ok e' (ring g t) -> 0 <= msg_fd e' ->
  (t <> i -> msg_cache_c e' = msg_cache_c e) ->
  (feed t <> i -> msg_cache_p e' = msg_cache_p e /\
     msg_cache_buf e' !! p_head (msg_cache_p e) = msg_cache_buf e !! p_head (msg_cache_p e)) ->
  (t <> i -> 0 < msg_fd e -> 0 < msg_fd e') ->
  (forall w, waking st = Some w -> waking st' = Some w \/ (w = t /\ 0 < msg_fd e')) ->
  (forall c, c ∈ held st' <-> c ∈ held st) -> linking i st' = linking i st ->
  pending st' = pending st ->
  (forall w, ran_of s' w ++ in_hand s sts' w = ran_of s w ++ in_hand s sts w) ->
  at_ok s' sts' g i st' ->
  good s' sts' g.
Proof.
  intros Ht Ets Ecs Ein Hub Hq Hsn Hr Hfd Hv Hf Hpos Hwake Hheld Hlink Hpend Hran Hat.
  assert (forall w e0, thrs s' !! w = Some e0 ->
    exists e1, thrs s !! w = Some e1 /\ same_ends e1 e0) as Hback.
  { intros w e0. rewrite Ets. destruct (decide (t = w)) as [<-|Hne].
    - rewrite lookup_insert_eq. intros [= <-]. by exists e.
    - rewrite lookup_insert_ne by done. intros E. by exists e0. }
  assert (forall n, (forall w, n = stub w -> own g n <> Hand i) -> nx s' n = nx s n) as Hnx.
  { intros [w|c] Hn; cbn; [|by rewrite Ecs]. rewrite Ets. destruct (decide (t = w)) as [<-|Hne].
    - rewrite lookup_insert_eq, Ht. destruct Hsn as [|Hs]; [done|]. by destruct (Hn t).
    - by rewrite lookup_insert_ne. }
  assert (forall n, payload s' n = payload s n) as Hpay.
  { intros [w|c]; cbn; [done|by rewrite Ecs]. }
  assert (forall w, in_hand s' sts' w = in_hand s sts' w) as Hhand.
  { intros w. unfold in_hand. case_match; [|done]. by rewrite Hpay. }
  apply good_intro; try done.
  - intros w. rewrite Ets. destruct (decide (t = w)) as [<-|Hne].
    + by rewrite lookup_insert_eq, Ht.
    + by rewrite lookup_insert_ne.
  - intros w e0 E. destruct (Hback w e0 E) as (e1 & E1 & H1).
    eapply queue_same; [by apply (g_queue _ _ _ _ _ Hgood)|done|done|].
    intros n Hin. split; [done|]. apply Hnx. intros v -> E0.
    rewrite E0 in Hin. by destruct Hin as [[?|(?&?&?)]|[?|(?&?&?)]].
  - intros w e0. rewrite Ets. destruct (decide (t = w)) as [<-|Hne].
    + rewrite lookup_insert_eq. by intros [= <-].
    + rewrite lookup_insert_ne by done. apply (g_ring _ _ _ _ _ Hgood).
  - split; try done.
    + intros c. by rewrite held_mine, Hheld.
    + intros n w p. by rewrite linking_mine, Hlink.
  - intros c. rewrite Ecs. apply (g_cmds _ _ _ _ _ Hgood).
  - intros c w. apply (g_cached _ _ _ _ _ Hgood).
  - apply (g_nodup _ _ _ _ _ Hgood).
  - apply (g_stub _ _ _ _ _ Hgood).
  - intros c w. rewrite Ecs. apply (g_queued _ _ _ _ _ Hgood).
  - intros j Hj.
    assert (forall e0, thrs s !! j = Some e0 -> exists e1, thrs s' !! j = Some e1 /\
      msg_cache_c e1 = msg_cache_c e0 /\ (0 < msg_fd e0 -> 0 < msg_fd e1)) as Hthr.
    { intros e0 E0. rewrite Ets. destruct (decide (t = j)) as [<-|Hne].
      - rewrite lookup_insert_eq. exists e'. rewrite Ht in E0. injection E0 as <-. auto.
      - rewrite lookup_insert_ne by done. by exists e0. }
    split; try done.
    + exists []. by rewrite app_nil_r.
    + apply signal_kept.
      * intros e0 E0 H0. destruct (Hthr e0 E0) as (e1 & ? & _ & ?). exists e1. auto.
      * intros Hw. destruct (Hwake j Hw) as [?|[-> ?]]; [by left|right].
        exists e'. by rewrite Ets, lookup_insert_eq.
    + intros Hs. split; [done|]. apply Hnx. intros v [= <-]. congruence.
    + by rewrite Ecs.
    + exists []. by rewrite app_nil_r.
    + intros e0 E0. destruct (Hthr e0 E0) as (e1 & ? & ? & _). by exists e1.
    + intros w e0 Hw E0. rewrite Ets. destruct (decide (t = w)) as [<-|Hne].
      * rewrite lookup_insert_eq. exists e'. rewrite Ht in E0. injection E0 as <-.
        split; [done|]. apply Hf. congruence.
      * rewrite lookup_insert_ne by done. by exists e0.
  - intros w e0. rewrite Ets. destruct (decide (t = w)) as [<-|Hne].
    + rewrite lookup_insert_eq. by intros [= <-].
    + rewrite lookup_insert_ne by done. apply (g_fd _ _ _ _ _ Hgood).
  - intros w Hw. unfold inserted_for. rewrite Ein. fold (inserted_for s w).
    rewrite (g_run _ _ _ _ _ Hgood) by done. rewrite !app_assoc, Hhand, Hran.
    f_equal. apply omap_eq. intros; by rewrite Hpay.
  - by apply calls_kept.
Qed.

Lemma in_hand_kept w : unrun st' = unrun st -> in_hand s sts' w = in_hand s sts w.
Proof.
  intros E. unfold in_hand. destruct (decide (w = i)) as [->|Hw].
  - rewrite lookup_self, Hi. cbn. by rewrite E.
  - by rewrite lookup_other.
Qed.

(** A step that reads. *)
Lemma good_stay e :
  thrs s !! i = Some e ->
  (forall w, waking st = Some w -> waking st' = Some w) ->
  (forall c, c ∈ held st' <-> c ∈ held st) -> linking i st' = linking i st ->
  pending st' = pending st -> unrun st' = unrun st ->
  at_ok s sts' g i st' ->
  good s sts' g.
Proof.
  intros Ht Hw Hh Hl Hp Hu Hat. pose proof Hgood as [].
  apply (good_tweak i e e s); try done; auto.
  - by rewrite insert_id.
  - eauto.
  - intros w. by rewrite in_hand_kept.
Qed.

(** ** Steps that change a command the thread has in hand *)

Lemma good_cmd c p s' :
  (own g (cmd_node c) = Nowhere \/ own g (cmd_node c) = Hand i) ->
  (p = Nowhere \/ p = Hand i) ->
  thrs s' = thrs s -> (forall d, d <> c -> cmds s' !! d = cmds s !! d) ->
  (p = Nowhere <-> cmds s' !! c = None) ->
  inserted s' = inserted s -> ran s' = ran s -> m_ub s' = false ->
  waking st = None -> unrun st = None -> unrun st' = None ->
  (forall d, d ∈ held st' <-> if decide (d = c) then p = Hand i else d ∈ held st) ->
  linking i st = None -> linking i st' = None -> pending st' = pending st ->
  (let g' := {| own := set_own (cmd_node c) p (own g); ord := ord g; ring := ring g |} in
   at_ok s' sts' g' i st' ->
   good s' sts' g').
Proof.
  intros Ho Hp Ets Ecs Ec Ein Eran Hub Hw Hu Hu' Hheld Hl Hl' Hpend g' Hat.
  assert (forall n w, in_queue w (own g n) \/ in_queue w (own g' n) -> n <> cmd_node c) as Hne.
  { intros n w [H|H] ->; [|cbn in H; rewrite set_own_eq in H];
      destruct H as [H|(? & ? & H)]; destruct Ho as [Ho|Ho]; destruct Hp as [Hp|Hp]; congruence. }
  assert (forall n, n <> cmd_node c -> nx s' n = nx s n) as Hnx.
  { intros [w|d] Hn; cbn; [by rewrite Ets|]. rewrite Ecs; [done|congruence]. }
  assert (forall n, n <> cmd_node c -> payload s' n = payload s n) as Hpay.
  { intros [w|d] Hn; cbn; [done|]. rewrite Ecs; [done|congruence]. }
  assert (forall n, n <> cmd_node c -> own g' n = own g n) as Hown.
  { intros n Hn. by apply set_own_ne. }
  assert (mine i (own g (cmd_node c)) /\ mine i p) as [Hm1 Hm2].
  { destruct Ho as [->| ->], Hp as [->| ->]; done. }
  apply good_intro; try done.
  - intros w. by rewrite Ets.
  - intros w e. rewrite Ets. intros E.
    eapply queue_same; [by apply (g_queue _ _ _ _ _ Hgood)|done|done|].
    intros n Hin. split; [apply Hown|apply Hnx]; by eapply Hne.
  - rewrite Ets. apply (g_ring _ _ _ _ _ Hgood).
  - eapply moves_set; try done.
    + apply held_mine.
    + apply linking_mine.
    + intros d. rewrite Hheld. destruct (decide (d = c)) as [->|Hd].
      * by rewrite decide_True.
      * rewrite decide_False; [done|congruence].
    + intros m w q. rewrite Hl, Hl'. destruct (decide _); [|done].
      destruct Hp as [->| ->]; by split.
  - intros d. destruct (decide (d = c)) as [->|Hd].
    + cbn. by rewrite set_own_eq.
    + rewrite Hown, Ecs by congruence. apply (g_cmds _ _ _ _ _ Hgood).
  - intros d t. destruct (decide (d = c)) as [->|Hd].
    + cbn. rewrite set_own_eq. rewrite <- (g_cached _ _ _ _ _ Hgood).
      destruct Ho as [->| ->], Hp as [->| ->]; done.
    + rewrite Hown by congruence. apply (g_cached _ _ _ _ _ Hgood).
  - apply (g_nodup _ _ _ _ _ Hgood).
  - intros w. rewrite !Hown by done. apply (g_stub _ _ _ _ _ Hgood).
  - intros d w Hq. assert (d <> c) as Hd by (intros ->; by eapply Hne; [by right|]).
    rewrite Hown in Hq by congruence. rewrite Ecs by done. by apply (g_queued _ _ _ _ _ Hgood).
  - intros j Hj. assert (forall n, own g n = Hand j -> n <> cmd_node c) as Hnj.
    { intros n E ->. destruct Ho as [H|H]; congruence. }
    split; try done.
    + exists []. by rewrite app_nil_r.
    + apply signal_kept; [|by rewrite Hw]. rewrite Ets. eauto.
    + intros n E. rewrite Hown; [done|]. eapply Hne. left. by left.
    + intros E. rewrite Hown, Hnx by done. done.
    + intros d E. apply Ecs. intros ->. by eapply Hnj.
    + exists []. by rewrite app_nil_r.
    + rewrite Ets. eauto.
    + rewrite Ets. eauto.
  - rewrite Ets. apply (g_fd _ _ _ _ _ Hgood).
  - intros w Hth. unfold inserted_for, ran_of. rewrite Ein, Eran.
    fold (inserted_for s w) (ran_of s w). rewrite (g_run _ _ _ _ _ Hgood) by done. f_equal. f_equal.
    + unfold in_hand. destruct (decide (w = i)) as [->|Hwi].
      * rewrite lookup_self, Hi. cbn. by rewrite Hu, Hu'.
      * rewrite lookup_other by done. destruct (sts !! w) as [st0|] eqn:E0; [|done].
        cbn [mbind option_bind].
        destruct (unrun st0) as [d|] eqn:Ed; [|done]. rewrite Hpay; [done|].
        assert (own g (cmd_node d) = Hand w) as Hd.
        { apply (g_hand _ _ _ _ _ Hgood). exists st0. split; [done|].
          destruct st0; cbn in *; try done; injection Ed as ->; by constructor. }
        intros [= ->]. destruct Ho as [H|H]; congruence.
    + apply omap_eq. intros n Hin. rewrite Hpay; [done|]. eapply (Hne _ w). left.
      destruct (proj2 (g_thr _ _ _ _ _ Hgood w) Hth) as [e E].
      by apply (q_in _ _ _ _ (g_queue _ _ _ _ _ Hgood w e E)).
  - by apply calls_kept.
Qed.

(** ** Steps on a queue *)


(** The thread's end of a queue moves past its first node. *)
Lemma good_advance e tl n L s' :
  thrs s !! i = Some e -> ord g i = tl :: n :: L -> own g n = Queued i ->
  s' = s <| thrs := <[i := e <| q_tail := n |>]> (thrs s) |> ->
  (tl = stub i \/ exists c, tl = cmd_node c) ->
  waking st = None -> linking i st = None -> linking i st' = None ->
  pending st' = pending st -> unrun st = None ->
  unrun st' = match tl with cmd_node c => Some c | stub _ => None end ->
  (forall c, c ∈ held st' <-> c ∈ held st \/ tl = cmd_node c) ->
  let g' := {| own := set_own tl (Hand i) (own g); ord := set_at i (n :: L) (ord g); ring := ring g |} in
  at_ok s' sts' g' i st' ->
  good s' sts' g'.
Proof.
  intros Ht Ho Hn Es Htl Hw Hl Hl' Hpend Hu Hu' Hheld g' Hat.
  pose proof (g_queue _ _ _ _ _ Hgood i e Ht) as Hq. destruct Hq.
  rewrite Ho in *. cbn [head] in q_first. injection q_first as Etl.
  assert (own g tl = Queued i) as Howntl by by rewrite Etl.
  apply NoDup_cons in q_nodup as [Hnin Hnd].
  assert (forall m, nx s' m = nx s m) as Hnx.
  { intros [w|c]; rewrite Es; cbn; [|done]. destruct (decide (i = w)) as [<-|Hne].
    - by rewrite lookup_insert_eq, Ht.
    - by rewrite lookup_insert_ne. }
  assert (cmds s' = cmds s) as Ecs by by rewrite Es.
  assert (forall m, payload s' m = payload s m) as Hpay by (intros [|]; by rewrite Es).
  assert (forall m, m <> tl -> own g' m = own g m) as Hown by (intros; by apply set_own_ne).
  assert (own g' tl = Hand i) as Hown' by by apply set_own_eq.
  assert (ord g' i = n :: L) as Eo by by apply set_at_eq.
  apply good_intro; try done.
  - intros w. rewrite Es. cbn. destruct (decide (i = w)) as [<-|Hne].
    + by rewrite lookup_insert_eq, Ht.
    + by rewrite lookup_insert_ne.
  - intros w e0. rewrite Es at 1. cbn. destruct (decide (i = w)) as [<-|Hne].
    + rewrite lookup_insert_eq. intros [= <-].
      split; cbn [q_tail q_head set_field eta_fields eta_evthr]; rewrite ?Eo; try done.
      * intros m. destruct (decide (m = tl)) as [->|Hm].
        -- rewrite Hown'. split; [done|]. intros [?|(?&?&?)]; done.
        -- rewrite Hown by done. rewrite <- q_in, (elem_of_cons (n :: L)).
           split; [by right|]. by intros [?|?].
      * rewrite Hown; [done|]. intros ->. apply Hnin. by constructor.
      * intros k a b Ha Hb. specialize (q_chain (S k) a b Ha Hb). unfold linked in *.
        rewrite Hown; [by rewrite Hnx|]. intros ->. apply Hnin.
        by eapply list_elem_of_lookup_2.
      * by rewrite Hnx.
    + rewrite lookup_insert_ne by done. intros E.
      eapply queue_same; [by apply (g_queue _ _ _ _ _ Hgood)|done| |].
      * by apply set_at_ne.
      * intros m Hin. split; [|done]. apply Hown. intros ->.
        rewrite Hown', Howntl in Hin.
        destruct Hin as [[?|(?&?&?)]|[?|(?&?&?)]]; congruence.
  - intros t e0. rewrite Es. cbn. destruct (decide (i = t)) as [<-|Hne].
    + rewrite lookup_insert_eq. intros [= <-]. eapply ring_same; [|by apply (g_ring _ _ _ _ _ Hgood)].
      done.
    + rewrite lookup_insert_ne by done. apply (g_ring _ _ _ _ _ Hgood).
  - eapply moves_set; try done.
    + apply held_mine.
    + apply linking_mine.
    + by rewrite Howntl.
    + intros c. rewrite Hheld. destruct (decide (cmd_node c = tl)) as [<-|Hc].
      * split; [done|]. by right.
      * split; [by intros [?|?]|by left].
    + intros m w q. rewrite Hl, Hl'. by destruct (decide _).
  - intros c. rewrite Ecs, <- (g_cmds _ _ _ _ _ Hgood). destruct (decide (cmd_node c = tl)) as [<-|Hc].
    + by rewrite Hown', Howntl.
    + by rewrite Hown.
  - intros c t. change (ring g' t) with (ring g t). rewrite <- (g_cached _ _ _ _ _ Hgood).
    destruct (decide (cmd_node c = tl)) as [<-|Hc].
    + by rewrite Hown', Howntl.
    + by rewrite Hown.
  - apply (g_nodup _ _ _ _ _ Hgood).
  - intros w. destruct (decide (stub w = tl)) as [<-|Hc].
    + rewrite Hown'. destruct Htl as [[= ->]|(? & ?)]; [by left|done].
    + rewrite Hown by done. apply (g_stub _ _ _ _ _ Hgood).
  - intros c w Hin. rewrite Ecs. apply (g_queued _ _ _ _ _ Hgood).
    destruct (decide (cmd_node c = tl)) as [<-|Hc]; [|by rewrite Hown in Hin].
    rewrite Hown' in Hin. by destruct Hin as [?|(?&?&?)].
  - intros j Hj. split; try done.
    + exists []. rewrite app_nil_r. split; [by apply set_at_ne|done].
    + apply signal_kept; [|by rewrite Hw]. intros e0 E0 H0. exists e0. rewrite Es. cbn.
      by rewrite lookup_insert_ne.
    + intros m E. rewrite Hown; [done|]. congruence.
    + intros E. rewrite Hown, Hnx; [done|]. congruence.
    + by rewrite Ecs.
    + exists []. by rewrite app_nil_r.
    + intros e0 E0. exists e0. rewrite Es. cbn. by rewrite lookup_insert_ne.
    + intros t e0 _ E0. rewrite Es. cbn. destruct (decide (i = t)) as [<-|Hne].
      * rewrite lookup_insert_eq. eexists. split; [done|]. rewrite Ht in E0. by injection E0 as ->.
      * rewrite lookup_insert_ne by done. by exists e0.
  - rewrite Es. apply (g_ub _ _ _ _ _ Hgood).
  - intros w e0. rewrite Es. cbn. destruct (decide (i = w)) as [<-|Hne].
    + rewrite lookup_insert_eq. intros [= <-]. apply (g_fd _ _ _ _ _ Hgood i e Ht).
    + rewrite lookup_insert_ne by done. apply (g_fd _ _ _ _ _ Hgood).
  - intros w Hth. transitivity (inserted_for s w); [by rewrite Es|].
    rewrite (g_run _ _ _ _ _ Hgood) by done. replace (ran_of s' w) with (ran_of s w) by by rewrite Es.
    f_equal. rewrite (omap_eq (payload s') (payload s)) by done.
    unfold in_hand. destruct (decide (w = i)) as [->|Hwi].
    + rewrite lookup_self, Hi, Eo, Ho. cbn [mbind option_bind]. rewrite Hu, Hu'.
      destruct tl as [?|c]; [done|]. rewrite Hpay. cbn. by destruct (cmds s !! c).
    + rewrite lookup_other by done. replace (ord g' w) with (ord g w) by by rewrite <- (set_at_ne i (n :: L) (ord g) w).
      destruct (sts !! w ≫= unrun); [|done]. by rewrite Hpay.
  - apply calls_kept; [by rewrite Es|done].
Qed.

(** A node becomes the last of a queue. *)
Lemma good_exchange e n w s' :
  thrs s !! w = Some e -> own g n = Hand i -> nx s n = None ->
  (n = stub i /\ w = i \/ exists c m, n = cmd_node c /\ cmds s !! c = Some m /\
     cache_ok roles feed w (msg_cache m)) ->
  let X := match payload s n with Some x => [(i, w, x)] | None => [] end in
  s' = s <| thrs := <[w := e <| q_head := n |>]> (thrs s) |> <| inserted := inserted s ++ X |> ->
  (w <> i -> waking st' = Some w) ->
  waking st = None -> unrun st = None -> unrun st' = None -> linking i st = None ->
  linking i st' = Some (n, w, q_head e) ->
  (forall c, c ∈ held st <-> c ∈ held st' \/ n = cmd_node c) ->
  (forall c, n = cmd_node c -> c ∉ held st') ->
  (forall tls l, roles !! i = Some (caller tls l) ->
     ((fun x => (x.1.2, x.2)) <$> X) ++ pending st' = pending st) ->
  let g' := {| own := set_own n (Linking i w (q_head e)) (own g);
               ord := set_at w (ord g w ++ [n]) (ord g); ring := ring g |} in
  at_ok s' sts' g' i st' ->
  good s' sts' g'.
Proof.
  intros Ht Hn Hnn Hkind X Es Hwk Hw Hu Hu' Hl Hl' Hheld Hheld' Hpend g' Hat.
  pose proof (g_queue _ _ _ _ _ Hgood w e Ht) as Hq. destruct Hq.
  assert (forall m, nx s' m = nx s m) as Hnx.
  { intros [v|c]; rewrite Es; cbn; [|done]. destruct (decide (w = v)) as [<-|Hne].
    - by rewrite lookup_insert_eq, Ht.
    - by rewrite lookup_insert_ne. }
  assert (cmds s' = cmds s) as Ecs by by rewrite Es.
  assert (forall m, payload s' m = payload s m) as Hpay by (intros [|]; by rewrite Es).
  assert (forall m, m <> n -> own g' m = own g m) as Hown by (intros; by apply set_own_ne).
  assert (own g' n = Linking i w (q_head e)) as Hown' by by apply set_own_eq.
  assert (ord g' w = ord g w ++ [n]) as Eo by by apply set_at_eq.
  assert (forall v, v <> w -> ord g' v = ord g v) as Eo' by (intros; by apply set_at_ne).
  assert (n ∉ ord g w) as Hnin.
  { rewrite q_in, Hn. by intros [?|(?&?&?)]. }
  assert (X = [] \/ exists x, payload s n = Some x /\ X = [(i, w, x)]) as HX.
  { unfold X. destruct (payload s n); [right; by eexists|by left]. }
  assert (forall v e0, thrs s' !! v = Some e0 -> exists e1 h, thrs s !! v = Some e1 /\
    e0 = e1 <| q_head := h |>) as Hback.
  { intros v e0. rewrite Es. cbn. destruct (decide (w = v)) as [<-|Hne].
    - rewrite lookup_insert_eq. intros [= <-]. by exists e, n.
    - rewrite lookup_insert_ne by done. intros E. exists e0, (q_head e0). split; [done|]. by destruct e0. }
  assert (forall v e0, thrs s !! v = Some e0 -> exists e1 h, thrs s' !! v = Some e1 /\
    e1 = e0 <| q_head := h |>) as Hforth.
  { intros v e0 E0. rewrite Es. cbn. destruct (decide (w = v)) as [<-|Hne].
    - rewrite lookup_insert_eq. eexists _, n. split; [done|]. rewrite Ht in E0. by injection E0 as ->.
    - rewrite lookup_insert_ne by done. exists e0, (q_head e0). split; [done|]. by destruct e0. }
  apply good_intro; try done.
  - intros v. split; intros [e0 E].
    + destruct (Hback v e0 E) as (e1 & ? & ? & _). by exists e1.
    + destruct (Hforth v e0 E) as (e1 & ? & ? & _). by exists e1.
  - intros v e0. destruct (decide (w = v)) as [<-|Hne].
    + rewrite Es at 1. cbn. rewrite lookup_insert_eq. intros [= <-].
      split; cbn [q_tail q_head set_field eta_fields eta_evthr]; rewrite ?Eo.
      * by destruct (ord g w).
      * by rewrite last_snoc.
      * apply NoDup_app. split; [done|]. split; [|apply NoDup_singleton].
        intros m Hm ->%list_elem_of_singleton. done.
      * intros m. destruct (decide (m = n)) as [->|Hm].
        -- rewrite Hown'. split; [right; by eexists _, _|]. intros _. apply elem_of_app. right. by constructor.
        -- rewrite Hown, <- q_in, elem_of_app by done. rewrite list_elem_of_singleton.
           split; [by intros [?|?]|by left].
      * rewrite Hown; [done|]. intros E. rewrite E in q_start. congruence.
      * intros k a b Ha Hb. unfold linked. rewrite Hnx. apply lookup_app_Some in Hb as [Hb|[Hk Hb]].
        -- assert (ord g w !! k = Some a) as Ha'.
           { rewrite lookup_app_l in Ha; [done|]. apply lookup_lt_Some in Hb. lia. }
           rewrite Hown; [by apply (q_chain k)|]. intros ->. apply Hnin. by eapply list_elem_of_lookup_2.
        -- apply list_lookup_singleton_Some in Hb as [Hk' ->]. rewrite Hown'.
           assert (a = q_head e) as ->; [|done].
           rewrite lookup_app_l in Ha by lia. rewrite last_lookup in q_last.
           replace (Init.Nat.pred (length (ord g w))) with k in q_last by lia. congruence.
      * by rewrite Hnx.
    + intros E. destruct (Hback v e0 E) as (e1 & h & E1 & Ee).
      assert (e0 = e1) as ->.
      { rewrite Es in E. cbn in E. rewrite lookup_insert_ne in E by done. congruence. }
      eapply queue_same; [by apply (g_queue _ _ _ _ _ Hgood)|done|by apply Eo'|].
      intros m Hin. split; [|done]. apply Hown. intros ->. rewrite Hown', Hn in Hin.
      destruct Hin as [[?|(?&?&?)]|[?|(?&?&?)]]; congruence.
  - intros t e0 E. destruct (Hback t e0 E) as (e1 & h & E1 & ->).
    eapply ring_same; [|by apply (g_ring _ _ _ _ _ Hgood)]. done.
  - eapply moves_set; try done.
    + apply held_mine.
    + apply linking_mine.
    + by rewrite Hn.
    + intros c. destruct (decide (cmd_node c = n)) as [E|Hc].
      * split; [intros Hin; by destruct (Hheld' c)|done].
      * rewrite Hheld. split; [by left|]. intros [?|?]; [done|congruence].
    + intros m v q. rewrite Hl, Hl'. destruct (decide _) as [->|Hm].
      * split; [by intros [= <- <-]|by intros [= <- <-]].
      * split; [|done]. intros [= <- _ _]. done.
  - intros c. rewrite Ecs, <- (g_cmds _ _ _ _ _ Hgood). destruct (decide (cmd_node c = n)) as [<-|Hc].
    + by rewrite Hown', Hn.
    + by rewrite Hown.
  - intros c t. change (ring g' t) with (ring g t). rewrite <- (g_cached _ _ _ _ _ Hgood).
    destruct (decide (cmd_node c = n)) as [<-|Hc].
    + by rewrite Hown', Hn.
    + by rewrite Hown.
  - apply (g_nodup _ _ _ _ _ Hgood).
  - intros v. destruct (decide (stub v = n)) as [<-|Hc].
    + destruct Hkind as [[[= ->] ->]|(? & ? & ? & _)]; [|done]. right. right. by eexists.
    + rewrite Hown by done. apply (g_stub _ _ _ _ _ Hgood).
  - intros c v Hin. rewrite Ecs. destruct (decide (cmd_node c = n)) as [<-|Hc].
    + rewrite Hown' in Hin. destruct Hin as [?|(? & ? & [= <- <- _])]; [done|].
      split; [apply (g_thr _ _ _ _ _ Hgood); by eexists|].
      destruct Hkind as [[? _]|(? & m & [= <-] & ?)]; [done|]. by exists m.
    + rewrite Hown in Hin by done. by apply (g_queued _ _ _ _ _ Hgood).
  - intros j Hj. split; try done.
    + destruct (decide (j = w)) as [->|Hjw].
      * exists [n]. split; [done|]. intros _. right. exists i, st'. rewrite lookup_self. auto.
      * exists []. rewrite app_nil_r. split; [by apply Eo'|done].
    + apply signal_kept; [|by rewrite Hw]. intros e0 E0 H0.
      destruct (Hforth j e0 E0) as (e1 & h & E1 & ->). by eexists.
    + intros m E. rewrite Hown; [done|]. congruence.
    + intros E. rewrite Hown, Hnx; [done|]. congruence.
    + by rewrite Ecs.
    + exists []. by rewrite app_nil_r.
    + intros e0 E0. destruct (Hforth j e0 E0) as (e1 & h & E1 & ->). by eexists.
    + intros t e0 _ E0. destruct (Hforth t e0 E0) as (e1 & h & E1 & ->). by eexists.
  - rewrite Es. apply (g_ub _ _ _ _ _ Hgood).
  - intros v e0 E. destruct (Hback v e0 E) as (e1 & h & E1 & ->). apply (g_fd _ _ _ _ _ Hgood v e1 E1).
  - intros v Hth. replace (ran_of s' v) with (ran_of s v) by by rewrite Es.
    rewrite (omap_eq (payload s') (payload s)) by done.
    replace (in_hand s' sts' v) with (in_hand s sts v).
    2:{ rewrite <- in_hand_kept by congruence. unfold in_hand. destruct (_ ≫= _); [|done]. by rewrite Hpay. }
    unfold inserted_for. rewrite Es. cbn [inserted set_field eta_fields eta_memory].
    rewrite filter_app, fmap_app. fold (inserted_for s v). rewrite (g_run _ _ _ _ _ Hgood) by done.
    rewrite <- !app_assoc. do 2 f_equal. destruct (decide (v = w)) as [->|Hv].
    + rewrite Eo, omap_app. f_equal. cbn. unfold X. destruct (payload s n); [|done].
      by rewrite filter_cons_True by done.
    + rewrite Eo' by done. replace (filter _ X) with (@nil (nat * nat * (Z * Z))); [by rewrite app_nil_r|].
      destruct HX as [->|(x & _ & ->)]; [done|]. by rewrite filter_cons_False by naive_solver.
  - intros j tls l Hrole. destruct (staged j _ Hrole) as (st0 & Hj).
    unfold inserted_by. rewrite Es. cbn [inserted set_field eta_fields eta_memory].
    rewrite filter_app, fmap_app. fold (inserted_by s j).
    destruct (decide (j = i)) as [->|Hji].
    + rewrite <- app_assoc. replace (filter _ X) with X.
      * transitivity (inserted_by s i ++ pending st); [f_equal; exact (Hpend tls l Hrole)|].
        rewrite Hi in Hj. injection Hj as <-. by eapply (g_calls _ _ _ _ _ Hgood).
      * destruct HX as [->|(x & _ & ->)]; [done|]. by rewrite filter_cons_True by done.
    + replace (filter _ X) with (@nil (nat * nat * (Z * Z))).
      * rewrite app_nil_r, Hj. by eapply (g_calls _ _ _ _ _ Hgood).
      * destruct HX as [->|(x & _ & ->)]; [done|]. by rewrite filter_cons_False by naive_solver.
Qed.

(** [prev->next = n]: the link of a node that was exchanged in. *)
Definition set_next (n : node) (v : option node) (s0 : memory) : memory :=
  match n with
  | stub t =>
      match thrs s0 !! t with
      | Some e => s0 <| thrs := <[t := e <| stub_next := v |>]> (thrs s0) |>
      | None => (mem_ub tt s0).2
      end
  | cmd_node c =>
      match cmds s0 !! c with
      | Some m => s0 <| cmds := <[c := m <| next := v |>]> (cmds s0) |>
      | None => (mem_ub tt s0).2
      end
  end.

(** The node is there. *)
Definition there (n : node) : Prop :=
  match n with stub t => is_Some (thrs s !! t) | cmd_node c => is_Some (cmds s !! c) end.

Section SetNext.
Context (n : node) (v : option node) (Hn : there n).
Lemma set_next_nx m : nx (set_next n v s) m = if decide (m = n) then v else nx s m.
Proof.
  destruct n as [t|c], Hn as [x E]; cbn; rewrite E; destruct m as [t'|c']; cbn; try done.
  - destruct (decide (t' = t)) as [->|Ht].
    + by rewrite lookup_insert_eq, decide_True.
    + rewrite lookup_insert_ne by done. rewrite decide_False by congruence. done.
  - destruct (decide (c' = c)) as [->|Hc].
    + by rewrite lookup_insert_eq, decide_True.
    + rewrite lookup_insert_ne by done. rewrite decide_False by congruence. done.
Qed.
Lemma set_next_payload m : payload (set_next n v s) m = payload s m.
Proof.
  destruct n as [t|c], Hn as [x E]; cbn; rewrite E; destruct m as [t'|c']; cbn; try done.
  destruct (decide (c' = c)) as [->|Hc].
  - by rewrite lookup_insert_eq, E.
  - by rewrite lookup_insert_ne.
Qed.
Lemma set_next_thr t :
  (thrs (set_next n v s) !! t = None /\ thrs s !! t = None) \/
  exists e x, thrs s !! t = Some e /\ thrs (set_next n v s) !! t = Some (e <| stub_next := x |>).
Proof.
  destruct (thrs s !! t) as [e|] eqn:E.
  - right. destruct n as [t'|c], Hn as [x Ex]; cbn; rewrite Ex.
    + cbn. destruct (decide (t' = t)) as [->|Hne].
      * exists e, v. rewrite lookup_insert_eq. split; [done|]. congruence.
      * exists e, (stub_next e). rewrite lookup_insert_ne by done. split; [done|]. rewrite E. by destruct e.
    + exists e, (stub_next e). split; [done|]. cbn. rewrite E. by destruct e.
  - left. split; [|done]. destruct n as [t'|c], Hn as [x Ex]; cbn; rewrite Ex; cbn; [|done].
    rewrite lookup_insert_ne; [done|congruence].
Qed.
Lemma set_next_cmd c :
  (cmds (set_next n v s) !! c = None /\ cmds s !! c = None) \/
  exists m x, cmds s !! c = Some m /\ cmds (set_next n v s) !! c = Some (m <| next := x |>).
Proof.
  destruct (cmds s !! c) as [m|] eqn:E.
  - right. destruct n as [t'|c'], Hn as [x Ex]; cbn; rewrite Ex.
    + exists m, (next m). split; [done|]. cbn. rewrite E. by destruct m.
    + cbn. destruct (decide (c' = c)) as [->|Hne].
      * exists m, v. rewrite lookup_insert_eq. split; [done|]. congruence.
      * exists m, (next m). rewrite lookup_insert_ne by done. split; [done|]. rewrite E. by destruct m.
  - left. split; [|done]. destruct n as [t'|c'], Hn as [x Ex]; cbn; rewrite Ex; cbn; [done|].
    rewrite lookup_insert_ne; [done|congruence].
Qed.
Lemma set_next_cmd_ne c : cmd_node c <> n -> cmds (set_next n v s) !! c = cmds s !! c.
Proof.
  intros Hc. destruct n as [t'|c'], Hn as [x Ex]; cbn; rewrite Ex; cbn; [done|].
  rewrite lookup_insert_ne; [done|congruence].
Qed.
Lemma set_next_rest :
  inserted (set_next n v s) = inserted s /\ ran (set_next n v s) = ran s /\
  m_ub (set_next n v s) = m_ub s.
Proof. destruct n as [t|c], Hn as [x E]; cbn; by rewrite E. Qed.
End SetNext.

(** The node before one that is being linked. *)
Lemma linking_position e n w prev :
  thrs s !! w = Some e -> own g n = Linking i w prev ->
  (exists k, ord g w !! k = Some prev /\ ord g w !! S k = Some n) /\ in_queue w (own g prev) /\
  there prev.
Proof.
  intros Ht Hn. destruct (g_queue _ _ _ _ _ Hgood w e Ht).
  assert (n ∈ ord g w) as Hin by (apply q_in; rewrite Hn; right; by eexists _, _).
  apply list_elem_of_lookup in Hin as [k Hk].
  assert (exists k', k = S k') as [k' ->].
  { destruct k as [|k']; [|by eexists]. rewrite <- head_lookup, q_first in Hk. injection Hk as E.
    rewrite E in q_start. congruence. }
  assert (is_Some (ord g w !! k')) as [a Ha].
  { apply lookup_lt_is_Some. apply lookup_lt_Some in Hk. lia. }
  pose proof (q_chain k' a n Ha Hk) as Hl. unfold linked in Hl. rewrite Hn in Hl. destruct Hl as [<- _].
  assert (in_queue w (own g prev)) as Hp by by apply q_in; eapply list_elem_of_lookup_2.
  split; [by exists k'|]. split; [done|]. destruct prev as [v|c]; cbn.
  - destruct (g_stub _ _ _ _ _ Hgood v) as [E|[E|[p E]]]; rewrite E in Hp;
      destruct Hp as [Hp|(? & ? & Hp)]; simplify_eq; by eexists.
  - destruct (g_queued _ _ _ _ _ Hgood c w Hp) as (_ & m & E & _). by eexists.
Qed.

Lemma good_link e n w prev s' :
  thrs s !! w = Some e -> linking i st = Some (n, w, prev) -> linking i st' = None ->
  s' = set_next prev (Some n) s ->
  waking st' = waking st -> unrun st' = unrun st -> pending st' = pending st ->
  (forall c, c ∈ held st' <-> c ∈ held st) -> (forall c, n = cmd_node c -> c ∉ held st') ->
  let g' := {| own := set_own n (Queued w) (own g); ord := ord g; ring := ring g |} in
  at_ok s' sts' g' i st' ->
  good s' sts' g'.
Proof.
  intros Ht Hl Hl' Es Hw Hu Hpend Hheld Hheld' g' Hat.
  assert (own g n = Linking i w prev) as Hn by by apply linking_mine.
  destruct (linking_position e n w prev Ht Hn) as ((k & Hk & HSk) & Hprev & Hthere).
  destruct (set_next_rest prev (Some n) Hthere) as (Ein & Eran & Eub).
  assert (forall m, nx s' m = if decide (m = prev) then Some n else nx s m) as Hnx.
  { intros m. rewrite Es. by apply set_next_nx. }
  assert (forall m, payload s' m = payload s m) as Hpay.
  { intros m. rewrite Es. by apply set_next_payload. }
  assert (forall m, m <> n -> own g' m = own g m) as Hown by (intros; by apply set_own_ne).
  assert (own g' n = Queued w) as Hown' by by apply set_own_eq.
  assert (forall v e0, thrs s' !! v = Some e0 -> exists e1 x, thrs s !! v = Some e1 /\
    e0 = e1 <| stub_next := x |>) as Hback.
  { intros v e0 E. rewrite Es in E. destruct (set_next_thr prev (Some n) Hthere v) as [[E' _]|(e1 & x & E1 & E2)].
    - congruence.
    - exists e1, x. split; [done|]. congruence. }
  assert (forall v e0, thrs s !! v = Some e0 -> exists x, thrs s' !! v = Some (e0 <| stub_next := x |>))
    as Hforth.
  { intros v e0 E. rewrite Es. destruct (set_next_thr prev (Some n) Hthere v) as [[_ E']|(e1 & x & E1 & E2)].
    - congruence.
    - exists x. by rewrite E2; rewrite E in E1; injection E1 as ->. }
  apply good_intro; try done.
  - intros v. split; intros [e0 E].
    + destruct (Hback v e0 E) as (e1 & ? & ? & _). by exists e1.
    + destruct (Hforth v e0 E) as (x & ?). by eexists.
  - intros v e0 E. destruct (Hback v e0 E) as (e1 & x & E1 & ->). clear E.
    destruct (decide (v = w)) as [->|Hv].
    + rewrite Ht in E1. injection E1 as <-. destruct (g_queue _ _ _ _ _ Hgood w e Ht).
      split; cbn [q_tail q_head set_field eta_fields eta_evthr]; try done.
      * intros m. change (ord g' w) with (ord g w). destruct (decide (m = n)) as [->|Hm].
        -- rewrite Hown', q_in, Hn. split; intros _; [by left|right; by eexists _, _].
        -- by rewrite Hown.
      * rewrite Hown; [done|]. intros E. rewrite E in q_start. congruence.
      * intros j a b Ha Hb. change (ord g' w) with (ord g w) in Ha, Hb. specialize (q_chain j a b Ha Hb). unfold linked in *. rewrite Hnx.
        destruct (decide (b = n)) as [->|Hbn].
        -- rewrite Hown'. rewrite Hn in q_chain. destruct q_chain as [<- _]. by rewrite decide_True.
        -- rewrite Hown by done. rewrite decide_False; [done|]. intros ->.
           assert (j = k) as -> by by eapply NoDup_lookup. congruence.
      * rewrite Hnx, decide_False; [done|]. intros E. rewrite last_lookup, E in q_last.
        assert (Init.Nat.pred (length (ord g w)) = k) by by eapply NoDup_lookup.
        apply lookup_lt_Some in HSk. lia.
    + eapply queue_same; [by apply (g_queue _ _ _ _ _ Hgood)|done|done|].
      intros m Hin. assert (m <> n) as Hmn.
      { intros ->. rewrite Hown', Hn in Hin. destruct Hin as [[?|(?&?&?)]|[?|(?&?&?)]]; congruence. }
      split; [by apply Hown|]. rewrite Hnx, decide_False; [done|]. intros ->.
      rewrite Hown in Hin by done.
      destruct Hin as [[?|(?&?&?)]|[?|(?&?&?)]], Hprev as [?|(?&?&?)]; congruence.
  - intros t e0 E. destruct (Hback t e0 E) as (e1 & x & E1 & ->).
    eapply ring_same; [|by apply (g_ring _ _ _ _ _ Hgood)]. done.
  - eapply moves_set; try done.
    + apply held_mine.
    + apply linking_mine.
    + by rewrite Hn.
    + intros c. destruct (decide (cmd_node c = n)) as [E|Hc]; [|by rewrite Hheld].
      split; [intros Hin; by destruct (Hheld' c)|done].
    + intros m v q. rewrite Hl, Hl'. destruct (decide (m = n)) as [->|Hm]; [done|].
      split; [done|]. intros [= <- _ _]. done.
  - intros c. assert (own g' (cmd_node c) = Nowhere <-> own g (cmd_node c) = Nowhere) as ->.
    { destruct (decide (cmd_node c = n)) as [<-|Hc]; [by rewrite Hown', Hn|by rewrite Hown]. }
    rewrite (g_cmds _ _ _ _ _ Hgood), Es.
    destruct (set_next_cmd prev (Some n) Hthere c) as [[-> ->]|(m & x & -> & ->)]; done.
  - intros c t. change (ring g' t) with (ring g t). rewrite <- (g_cached _ _ _ _ _ Hgood).
    destruct (decide (cmd_node c = n)) as [<-|Hc].
    + by rewrite Hown', Hn.
    + by rewrite Hown.
  - apply (g_nodup _ _ _ _ _ Hgood).
  - intros v. destruct (decide (stub v = n)) as [<-|Hc].
    + destruct (g_stub _ _ _ _ _ Hgood v) as [E|[E|[p E]]]; rewrite E in Hn; try done.
      injection Hn as -> -> _. right. by left.
    + rewrite Hown by done. apply (g_stub _ _ _ _ _ Hgood).
  - intros c v Hin. assert (in_queue v (own g (cmd_node c))) as Hin'.
    { destruct (decide (cmd_node c = n)) as [<-|Hc]; [|by rewrite Hown in Hin].
      rewrite Hown' in Hin. destruct Hin as [[= <-]|(?&?&?)]; [|done]. rewrite Hn. right. by eexists _, _. }
    destruct (g_queued _ _ _ _ _ Hgood c v Hin') as (? & m & E & Hc). split; [done|]. rewrite Es.
    destruct (set_next_cmd prev (Some n) Hthere c) as [[_ ?]|(m' & x & E' & ->)]; [congruence|].
    eexists. split; [done|]. cbn. congruence.
  - intros j Hj. split; try done.
    + exists []. by rewrite app_nil_r.
    + apply signal_kept; [|rewrite Hw; auto]. intros e0 E0 H0.
      destruct (Hforth j e0 E0) as (x & E1). by eexists.
    + intros m E. rewrite Hown; [done|]. intros ->. congruence.
    + intros E. rewrite Hown; [|intros <-; congruence]. split; [done|].
      rewrite Hnx, decide_False; [done|]. intros <-. rewrite E in Hprev. by destruct Hprev as [?|(?&?&?)].
    + intros c E. rewrite Es. apply set_next_cmd_ne; [done|]. intros <-. rewrite E in Hprev.
      by destruct Hprev as [?|(?&?&?)].
    + exists []. by rewrite app_nil_r.
    + intros e0 E0. destruct (Hforth j e0 E0) as (x & E1). by eexists.
    + intros t e0 _ E0. destruct (Hforth t e0 E0) as (x & E1). by eexists.
  - rewrite Es, Eub. apply (g_ub _ _ _ _ _ Hgood).
  - intros v e0 E. destruct (Hback v e0 E) as (e1 & x & E1 & ->). apply (g_fd _ _ _ _ _ Hgood v e1 E1).
  - intros v Hth. unfold inserted_for, ran_of. rewrite Es, Ein, Eran, <- Es.
    fold (inserted_for s v) (ran_of s v). rewrite (g_run _ _ _ _ _ Hgood) by done. f_equal.
    rewrite <- (in_hand_kept v Hu). f_equal.
    + unfold in_hand. destruct (_ ≫= _); [|done]. by rewrite Hpay.
    + apply omap_eq. intros; by rewrite Hpay.
  - apply calls_kept; [by rewrite Es|done].
Qed.

(** ** Steps on a cache *)

(** A command [c] goes from the cache of [t] to thread [i] or back. *)
Lemma good_cache e e' t c p R s' :
  thrs s !! t = Some e -> s' = s <| thrs := <[t := e']> (thrs s) |> ->
  (own g (cmd_node c) = Hand i /\ p = Cached t \/ own g (cmd_node c) = Cached t /\ p = Hand i) ->
  same_ends e e' -> stub_next e' = stub_next e -> msg_fd e' = msg_fd e -> ring_ok e' R ->
  (t <> i -> msg_cache_c e' = msg_cache_c e /\ exists Y, R = ring g t ++ Y) ->
  (feed t <> i -> msg_cache_p e' = msg_cache_p e /\ msg_cache_buf e' = msg_cache_buf e) ->
  has_thr roles t -> NoDup R ->
  (forall d, d ∈ R <-> if decide (d = c) then p = Cached t else d ∈ ring g t) ->
  (forall d, d ∈ held st' <-> if decide (d = c) then p = Hand i else d ∈ held st) ->
  waking st = None -> linking i st = None -> linking i st' = None ->
  pending st' = pending st -> unrun st' = unrun st ->
  let g' := {| own := set_own (cmd_node c) p (own g); ord := ord g; ring := set_at t R (ring g) |} in
  at_ok s' sts' g' i st' ->
  good s' sts' g'.
Proof.
  intros Ht Es Hc Hends Hsn Hfd HR Hv Hf Hth Hnd HinR Hheld Hw Hl Hl' Hpend Hu g' Hat.
  assert (forall v e0, thrs s' !! v = Some e0 ->
    (v = t /\ e0 = e') \/ (v <> t /\ thrs s !! v = Some e0)) as Hback.
  { intros v e0. rewrite Es. cbn. destruct (decide (t = v)) as [<-|Hne].
    - rewrite lookup_insert_eq. intros [= <-]. by left.
    - rewrite lookup_insert_ne by done. by right. }
  assert (forall v e0, thrs s !! v = Some e0 ->
    (v = t /\ e0 = e /\ thrs s' !! v = Some e') \/ (v <> t /\ thrs s' !! v = Some e0)) as Hforth.
  { intros v e0 E0. rewrite Es. cbn. destruct (decide (t = v)) as [<-|Hne].
    - left. split; [done|]. split; [congruence|]. by rewrite lookup_insert_eq.
    - right. by rewrite lookup_insert_ne. }
  assert (forall m, nx s' m = nx s m) as Hnx.
  { intros [v|d]; rewrite Es; cbn; [|done]. destruct (decide (t = v)) as [<-|Hne].
    - by rewrite lookup_insert_eq, Ht.
    - by rewrite lookup_insert_ne. }
  assert (cmds s' = cmds s) as Ecs by by rewrite Es.
  assert (forall m, payload s' m = payload s m) as Hpay by (intros [|]; by rewrite Es).
  assert (forall m, m <> cmd_node c -> own g' m = own g m) as Hown by (intros; by apply set_own_ne).
  assert (own g' (cmd_node c) = p) as Hown' by by apply set_own_eq.
  assert (forall m v, in_queue v (own g m) \/ in_queue v (own g' m) -> m <> cmd_node c) as Hne.
  { intros m v Hin ->. rewrite Hown' in Hin.
    destruct Hc as [[E ->]|[E ->]]; rewrite E in Hin;
      destruct Hin as [[?|(?&?&?)]|[?|(?&?&?)]]; congruence. }
  apply good_intro; try done.
  - intros v. split; intros [e0 E].
    + destruct (Hback v e0 E) as [[-> _]|[_ ?]]; by eexists.
    + destruct (Hforth v e0 E) as [(_ & _ & ?)|[_ ?]]; by eexists.
  - intros v e0 E. assert (exists e1, thrs s !! v = Some e1 /\ same_ends e1 e0) as (e1 & E1 & H1).
    { destruct (Hback v e0 E) as [[-> ->]|[_ ?]]; [by exists e|by exists e0]. }
    eapply queue_same; [by apply (g_queue _ _ _ _ _ Hgood)|done|done|].
    intros m Hin. split; [apply Hown|apply Hnx]. by eapply Hne.
  - intros v e0 E. destruct (Hback v e0 E) as [[-> ->]|[Hv' E0]].
    + cbn. by rewrite set_at_eq.
    + cbn. rewrite set_at_ne by done. by apply (g_ring _ _ _ _ _ Hgood).
  - eapply moves_set; try done.
    + apply held_mine.
    + apply linking_mine.
    + by destruct Hc as [[-> _]|[-> _]].
    + by destruct Hc as [[_ ->]|[_ ->]].
    + intros d. rewrite Hheld. destruct (decide (d = c)) as [->|Hd].
      * by rewrite decide_True.
      * rewrite decide_False; [done|congruence].
    + intros m v q. rewrite Hl, Hl'. destruct (decide _); [|done].
      by destruct Hc as [[_ ->]|[_ ->]].
  - intros d. rewrite Ecs, <- (g_cmds _ _ _ _ _ Hgood). destruct (decide (d = c)) as [->|Hd].
    + rewrite Hown'. by destruct Hc as [[-> ->]|[-> ->]].
    + by rewrite Hown by congruence.
  - intros d v. destruct (decide (d = c)) as [->|Hd].
    + rewrite Hown'. cbn [g' ring]. destruct (decide (v = t)) as [->|Hvt].
      * rewrite set_at_eq, HinR, decide_True by done. split; [by intros ->|by intros [_ ->]].
      * rewrite set_at_ne by done. rewrite <- (g_cached _ _ _ _ _ Hgood).
        destruct Hc as [[-> ->]|[-> ->]]; split; congruence.
    + rewrite Hown, (g_cached _ _ _ _ _ Hgood) by congruence. cbn [g' ring].
      destruct (decide (v = t)) as [->|Hvt]; [|by rewrite set_at_ne].
      by rewrite set_at_eq, HinR, decide_False.
  - intros v. cbn [g' ring]. destruct (decide (v = t)) as [->|Hvt]; [by rewrite set_at_eq|].
    rewrite set_at_ne by done. apply (g_nodup _ _ _ _ _ Hgood).
  - intros v. rewrite Hown by done. apply (g_stub _ _ _ _ _ Hgood).
  - intros d v Hin. rewrite Ecs. apply (g_queued _ _ _ _ _ Hgood). rewrite <- Hown; [done|].
    eapply Hne. by right.
  - intros j Hj. split; try done.
    + exists []. by rewrite app_nil_r.
    + apply signal_kept; [|by rewrite Hw]. intros e0 E0 H0.
      destruct (Hforth j e0 E0) as [(-> & -> & E1)|[_ E1]]; eexists; (split; [done|]); by rewrite ?Hfd.
    + intros m E. rewrite Hown; [done|]. eapply Hne. left. by left.
    + by rewrite Ecs.
    + cbn [g' ring]. destruct (decide (j = t)) as [->|Hjt].
      * rewrite set_at_eq. by apply Hv.
      * exists []. by rewrite set_at_ne, app_nil_r.
    + intros e0 E0. destruct (Hforth j e0 E0) as [(-> & -> & E1)|[_ E1]]; eexists; (split; [done|]); [|done].
      by apply Hv.
    + intros v e0 Hfv E0. destruct (Hforth v e0 E0) as [(-> & -> & E1)|[_ E1]]; eexists; (split; [done|]);
        [|done]. destruct Hf as [E2 E3]; [congruence|]. by rewrite E2, E3.
  - rewrite Es. apply (g_ub _ _ _ _ _ Hgood).
  - intros v e0 E. destruct (Hback v e0 E) as [[-> ->]|[_ E0]]; [rewrite Hfd|];
      by apply (g_fd _ _ _ _ _ Hgood _ _ ltac:(eassumption)).
  - intros v Hthv. transitivity (inserted_for s v); [by rewrite Es|].
    rewrite (g_run _ _ _ _ _ Hgood) by done. replace (ran_of s' v) with (ran_of s v) by by rewrite Es.
    f_equal. rewrite <- (in_hand_kept v Hu). f_equal.
    + unfold in_hand. destruct (_ ≫= _); [|done]. by rewrite Hpay.
    + apply omap_eq. intros; by rewrite Hpay.
  - apply calls_kept; [by rewrite Es|done].
Qed.
End Step.
