(* ===== verification/EvTurns.v ===== *)
(** * thread.c: what a pool of threads does

    The invariant of EvInv.v is kept by every step ([turn_good]) and holds when
    the threads start. *)

From S2P Require Import Prelude Sched EvThread EvStages EvRing EvInv EvStep.
From stdpp Require Import gmap.
#[local] Open Scope Z_scope.

(** ** The actions of EvThread.v on a memory where their objects are *)

Section Actions.
Context {B : Type} (k : B -> stage) (c : bool) (s : memory).

Lemma on_thr_turn d t f e :
  thrs s !! t = Some e ->
  one (on_thr d t f) k c s = Some (k (f e).1, s <| thrs := <[t := (f e).2]> (thrs s) |>).
Proof. intros E. cbn. rewrite E. by destruct (f e). Qed.
Lemma get_thr_turn (d : B) t f e :
  thrs s !! t = Some e -> one (get_thr d t f) k c s = Some (k (f e), s).
Proof.
  intros E. unfold get_thr. rewrite (on_thr_turn _ _ _ _ E). cbn. rewrite insert_id by done.
  by destruct s.
Qed.
Lemma on_cmd_turn d t f m :
  cmds s !! t = Some m ->
  one (on_cmd d t f) k c s = Some (k (f m).1, s <| cmds := <[t := (f m).2]> (cmds s) |>).
Proof. intros E. cbn. rewrite E. by destruct (f m). Qed.
End Actions.

Lemma set_thr_turn (k : unit -> stage) c s t f e :
  thrs s !! t = Some e ->
  one (set_thr t f) k c s = Some (k tt, s <| thrs := <[t := f e]> (thrs s) |>).
Proof. intros E. unfold set_thr. by rewrite (on_thr_turn _ _ _ _ _ _ _ E). Qed.
Lemma load_next_turn (k : option node -> stage) c s n :
  there s n -> one (load_next n) k c s = Some (k (nx s n), s).
Proof.
  destruct n as [t|t]; intros [x E]; cbn [load_next nx]; rewrite E.
  - by rewrite (get_thr_turn _ _ _ _ _ _ _ E).
  - rewrite (on_cmd_turn _ _ _ _ _ _ _ E). cbn. rewrite insert_id by done. by destruct s.
Qed.
Lemma store_next_turn (k : unit -> stage) c s n v :
  there s n -> one (store_next n v) k c s = Some (k tt, set_next n v s).
Proof.
  destruct n as [t|t]; intros [x E]; cbn [store_next set_next]; rewrite E.
  - by rewrite (set_thr_turn _ _ _ _ _ _ E).
  - by rewrite (on_cmd_turn _ _ _ _ _ _ _ E).
Qed.

Section Pool.
Context (calls : nat -> Z -> Z -> list call) (alloc : gmap nat evthr_cmd -> option nat).
Context (roles : list role) (feed : nat -> nat).
Context (Halloc : forall m, exists c, alloc m = Some c /\ m !! c = None).
Context (Hcalls : forall i cb arg,
  roles !! i = Some worker -> calls_ok roles feed i (Some i) (calls i cb arg)).
Abbreviation good := (good roles feed).
Abbreviation at_ok := (at_ok roles feed).

Section Turn.
Context (s : memory) (sts : list stage) (g : ghost) (Hgood : good s sts g) (i : nat).

Lemma worker_thr : roles !! i = Some worker -> exists e, thrs s !! i = Some e.
Proof.
  intros Hr. destruct (proj2 (g_thr _ _ _ _ _ Hgood i)) as [e E]; [by exists worker|by exists e].
Qed.
Lemma thr_of t : has_thr roles t -> exists e, thrs s !! t = Some e.
Proof. intros H. destruct (proj2 (g_thr _ _ _ _ _ Hgood t) H) as [e E]. by exists e. Qed.
Lemma worker_has t : roles !! t = Some worker -> has_thr roles t.
Proof. intros H. by exists worker. Qed.

(** A node of a queue is there. *)
Lemma queue_there w n : (exists e, thrs s !! w = Some e) -> in_queue w (own g n) -> there s n.
Proof.
  intros [e He] Hin. destruct n as [v|c]; cbn.
  - destruct (g_stub _ _ _ _ _ Hgood v) as [E|[E|[p E]]]; rewrite E in Hin;
      destruct Hin as [?|(?&?&?)]; simplify_eq; by eexists.
  - destruct (g_queued _ _ _ _ _ Hgood c w Hin) as (_ & m & E & _). by eexists.
Qed.

(** ** The node after the first *)

Section Front.
Context (e : evthr) (Ht : thrs s !! i = Some e) (tl : node) (Htl : on_poll g i tl).

Lemma front_tail : tl = q_tail e.
Proof.
  pose proof (q_first _ _ _ _ (g_queue _ _ _ _ _ Hgood i e Ht)) as E.
  unfold on_poll in Htl. congruence.
Qed.
Lemma front_queued : own g tl = Queued i.
Proof. rewrite front_tail. apply (q_start _ _ _ _ (g_queue _ _ _ _ _ Hgood i e Ht)). Qed.
Lemma front_there : there s tl.
Proof. eapply (queue_there i); [by eexists|]. left. apply front_queued. Qed.

Lemma front_next n :
  nx s tl = Some n -> exists L, ord g i = tl :: n :: L /\ own g n = Queued i.
Proof.
  intros Hn. destruct (g_queue _ _ _ _ _ Hgood i e Ht). unfold on_poll in Htl.
  destruct (ord g i) as [|a [|b L]] eqn:E; [done|..]; cbn in Htl; injection Htl as ->.
  - cbn in q_last. injection q_last as E1. congruence.
  - pose proof (q_chain 0%nat tl b eq_refl eq_refl) as Hl. unfold linked in Hl.
    assert (in_queue i (own g b)) as Hb by (apply q_in; by do 2 constructor).
    destruct Hb as [Hb|(j & q & Hb)]; rewrite Hb in Hl.
    + rewrite Hl in Hn. injection Hn as ->. by exists L.
    + destruct Hl as [_ Hl]. congruence.
Qed.
Lemma front_alone :
  nx s tl = None -> (forall st, sts !! i = Some st -> linking i st = None) ->
  announced s sts g i tl.
Proof.
  intros Hn Hl Hne. destruct (g_queue _ _ _ _ _ Hgood i e Ht). unfold on_poll in Htl.
  destruct (ord g i) as [|a [|b L]] eqn:E; [done|..]; cbn in Htl; injection Htl as ->; [done|].
  pose proof (q_chain 0%nat tl b eq_refl eq_refl) as Hb. unfold linked in Hb.
  assert (in_queue i (own g b)) as Hq by (apply q_in; by do 2 constructor).
  destruct Hq as [Hq|(j & q & Hq)]; rewrite Hq in Hb; [congruence|].
  pose proof Hq as Hq'. apply (g_link _ _ _ _ _ Hgood) in Hq' as (st0 & Hj & Hl0).
  right. exists j, st0. split; [done|]. destruct st0; cbn in Hl0; try done.
  - injection Hl0 as <- <- <-. by specialize (Hl _ Hj).
  - by destruct d; cbn in Hl0; try done; injection Hl0 as <- <- <-.
Qed.
Lemma stub_out : tl <> stub i -> tl = q_head e -> own g (stub i) = Hand i.
Proof.
  intros Hns Hh. destruct (g_queue _ _ _ _ _ Hgood i e Ht). unfold on_poll in Htl.
  assert (ord g i = [tl]) as E.
  { destruct (ord g i) as [|a L]; [done|]. cbn in Htl. injection Htl as ->. destruct L as [|b L]; [done|].
    exfalso. apply NoDup_cons in q_nodup as [Hnin _]. apply Hnin. rewrite Hh. 
    rewrite last_cons_cons in q_last. by apply last_Some_elem_of. }
  assert (stub i ∉ ord g i) as Hnin by (rewrite E, list_elem_of_singleton; congruence).
  destruct (g_stub _ _ _ _ _ Hgood i) as [?|[H|[p H]]]; [done|..];
    destruct Hnin; apply q_in; rewrite H; [by left|right; by eexists _, _].
Qed.
End Front.

(** ** Lists of calls *)

Lemma real_calls_cons (x : call) l :
  real_calls (x :: l) = if x.2.1 =? 0 then real_calls l else x :: real_calls l.
Proof.
  unfold real_calls. destruct (Z.eqb_spec x.2.1 0) as [E|E].
  - apply filter_cons_False. by intros H.
  - by apply filter_cons_True.
Qed.
Lemma calls_stage_shape at_ sender l :
  let st := calls_stage i at_ sender l in
  held st = site_held at_ /\ linking i st = None /\ waking st = None /\ unrun st = None /\
  pending st = match at_ with in_caller => real_calls l | _ => [] end.
Proof.
  induction l as [|[t x] l IH].
  - destruct at_ as [| | |c [pq|]]; done.
  - cbn [calls_stage]. rewrite real_calls_cons. cbn [snd]. destruct (x.1 =? 0); [exact IH|].
    by destruct at_, sender.
Qed.

Lemma site_nodup at_ : NoDup (site_held at_).
Proof. destruct at_; try apply NoDup_nil_2. apply NoDup_singleton. Qed.

Lemma calls_stage_ok s1 sts1 g1 at_ sender l :
  site_ok roles feed s1 sts1 g1 i at_ -> calls_ok roles feed i sender l ->
  at_ok s1 sts1 g1 i (calls_stage i at_ sender l).
Proof.
  intros Hs Hl. split.
  { rewrite (proj1 (calls_stage_shape at_ sender l)). apply site_nodup. }
  induction l as [|[t x] l IH]; cbn.
  - destruct at_ as [| | |c [pq|]]; cbn in *; naive_solver.
  - apply Forall_cons in Hl as [Ht Hl]. destruct (x.1 =? 0); [by apply IH|].
    split; [done|]. split; [done|]. split; [done|]. destruct sender as [j|]; [|done].
    cbn. destruct Ht as (_ & -> & _). done.
Qed.

Lemma site_kept s1 sts1 g1 at_ :
  site_ok roles feed s sts g i at_ ->
  (ord g1 i = ord g i \/ signal s1 sts1 i) ->
  (signal s sts i -> signal s1 sts1 i) ->
  site_ok roles feed s1 sts1 g1 i at_.
Proof.
  intros Hs Ho Hsig. destruct at_; try done. destruct Hs as [Hr Ha]. split; [done|].
  intros Hne. destruct Ho as [E|?]; [|done]. apply Hsig, Ha. congruence.
Qed.
Lemma announced_kept s1 sts1 x :
  announced s sts g i x -> (signal s sts i -> signal s1 sts1 i) -> announced s1 sts1 g i x.
Proof. intros Ha Hsig Hne. by apply Hsig, Ha. Qed.
End Turn.

(** ** Every step *)

Section Worker.
Context (s : memory) (sts : list stage) (g : ghost) (Hgood : good s sts g) (i : nat).
Context (e : evthr) (Ht : thrs s !! i = Some e).
Abbreviation goes st' s' := (exists g', good s' (<[i := st']> sts) g').

(** A read that takes nothing into the hand. *)
Lemma goes_stay st st' :
  sts !! i = Some st -> waking st = None -> (forall c, c ∈ held st' <-> c ∈ held st) -> linking i st' = linking i st ->
  pending st' = pending st -> unrun st' = unrun st ->
  at_ok s (<[i := st']> sts) g i st' -> goes st' s.
Proof.
  intros Hi Hw. intros. exists g. eapply good_stay; try done. by rewrite Hw.
Qed.
Lemma signal_stays st st' :
  sts !! i = Some st -> waking st = None -> signal s sts i -> signal s (<[i := st']> sts) i.
Proof. intros Hi Hw. apply (signal_kept s sts i st st' Hi s); [eauto|by rewrite Hw]. Qed.
Lemma announced_stays st st' x :
  sts !! i = Some st -> waking st = None -> announced s sts g i x -> announced s (<[i := st']> sts) g i x.
Proof. intros Hi Hw Ha Hne. eapply signal_stays; [done..|by apply Ha]. Qed.

Definition step_to (r : option (stage * memory)) : Prop :=
  match r with Some (st', s') => goes st' s' | None => True end.

Lemma turn_loop c st :
  sts !! i = Some st ->
  match st with
  | W_hook _ | W_loop | W_wait | W_read _ | W_drain | W_joined => True
  | _ => False
  end -> step_to (turn calls alloc c i st s).
Proof.
  intros Hi. pose proof (g_at _ _ _ _ _ Hgood i st Hi) as [Hnd Hat].
  intros Hst. destruct st; try done; destruct Hat as [Hr Hok]; cbn [turn].
  - rewrite (get_thr_turn _ _ _ _ _ _ _ Ht).
    set (at_ := if init then in_init else in_exit).
    assert (site_held at_ = [] /\ at_ <> in_caller) as [Hsh Hsc] by by destruct init.
    assert (forall l, calls_ok roles feed i (Some i) l ->
      goes (calls_stage i at_ (Some i) l) s) as Hgo.
    { intros l Hl. destruct (calls_stage_shape i at_ (Some i) l) as (E1 & E2 & E3 & E4 & E5).
      eapply goes_stay; try done.
      - by rewrite E1, Hsh.
      - rewrite E5. by destruct at_.
      - apply calls_stage_ok; [|done]. unfold at_. destruct init; [|done]. split; [done|].
        by eapply announced_stays. }
    cbn. destruct (_ =? 0); [apply (Hgo []); constructor|]. apply Hgo. by apply Hcalls.
  - eapply goes_stay; try done. split; [done|]. split; [done|]. by eapply announced_stays.
  - cbn. rewrite Ht. destruct (0 <? _); [|done]. cbn.
    eapply goes_stay; try done. split; [done|]. split; [done|]. by eapply announced_stays.
  - rewrite (on_thr_turn _ _ _ _ _ _ _ Ht). exists g.
    pose proof (g_fd _ _ _ _ _ Hgood i e Ht) as Hfd.
    set (e' := (if msg then _ else _ : Z * evthr).2).
    assert (same_ends e e' /\ stub_next e' = stub_next e /\ same_ring e e' /\ 0 <= msg_fd e' /\
      (msg = false -> msg_fd e' = msg_fd e)) as (H1 & H2 & H3 & H4 & H5).
    { unfold e'. destruct msg; cbn; by repeat split. }
    eapply (good_tweak _ _ _ _ _ Hgood i _ _ Hi i e e'); try done.
    + apply (g_ub _ _ _ _ _ Hgood).
    + by left.
    + apply (ring_same e); [done|by apply (g_ring _ _ _ _ _ Hgood)].
    + intros _. destruct H3 as (-> & _ & ->). done.
    + intros c0. unfold read_stage. by repeat case_match.
    + unfold read_stage. by repeat case_match.
    + unfold read_stage. by repeat case_match.
    + intros w. rewrite in_hand_kept with (st := W_read msg); [done|done|].
      unfold read_stage. by repeat case_match.
    + split; [unfold read_stage; repeat case_match; apply NoDup_nil_2|].
      unfold read_stage. cbn [fst]. destruct msg; cbn [fst].
      * destruct (Z.eqb_spec (msg_fd e) 0) as [E0|]; [|done]. split; [done|]. intros Hne.
        destruct (Hok Hne) as [(e0 & E & Hpos)|(j & st0 & Hj & Hw)]; [rewrite Ht in E; injection E as <-; lia|].
        right. exists j, st0. split; [|done]. rewrite list_lookup_insert_ne; [done|].
        intros <-. rewrite Hi in Hj. injection Hj as <-. done.
      * destruct (stop_fd e =? 0); [|done]. split; [done|]. eapply announced_kept; [exact Hok|].
        apply (signal_kept s sts i _ _ Hi); [|done]. intros e0 E Hpos. exists e'. cbn.
        rewrite lookup_insert_eq. split; [done|]. rewrite Ht in E. by injection E as <-.
  - eapply goes_stay; try done.
  - rewrite (set_thr_turn _ _ _ _ _ _ Ht). exists g.
    eapply (good_tweak _ _ _ _ _ Hgood i _ _ Hi i e); try done.
    + apply (g_ub _ _ _ _ _ Hgood).
    + by left.
    + apply (ring_same e); [done|by apply (g_ring _ _ _ _ _ Hgood)].
    + apply (g_fd _ _ _ _ _ Hgood i e Ht).
    + intros w. by rewrite in_hand_kept with (st := W_joined).
Qed.

(** *** Polling *)

Lemma poll_signal st st' s' :
  sts !! i = Some st -> waking st = None ->
  (forall e0, thrs s !! i = Some e0 -> 0 < msg_fd e0 -> exists e', thrs s' !! i = Some e' /\ 0 < msg_fd e') ->
  signal s sts i -> signal s' (<[i := st']> sts) i.
Proof. intros Hi Hw Hfd. apply (signal_kept s sts i st st' Hi s'); [done|by rewrite Hw]. Qed.

Lemma turn_poll_read c st :
  sts !! i = Some st ->
  match st with
  | Q_tail | Q_next _ | Q_stub_head _ | Q_next2 _ | Q_head _ | Q_again _ => True
  | _ => False
  end -> step_to (turn calls alloc c i st s).
Proof.
  intros Hi. pose proof (g_at _ _ _ _ _ Hgood i st Hi) as [Hnd Hat].
  assert (forall st0, sts !! i = Some st0 -> linking i st = None -> linking i st0 = None) as Hlk.
  { intros st0 E. rewrite Hi in E. by injection E as <-. }
  intros Hst. destruct st; try done; destruct Hat as [Hr Hok]; cbn [turn]; cbn [worker_ok] in Hok.
  - rewrite (get_thr_turn _ _ _ _ _ _ _ Ht). eapply goes_stay; try done.
    split; [done|]. split; [done|]. apply (q_first _ _ _ _ (g_queue _ _ _ _ _ Hgood i e Ht)).
  - rewrite (load_next_turn _ _ _ _ (front_there s sts g Hgood i e Ht tl Hok)).
    unfold next_stage, item_stage. case_bool_decide as Htl; destruct (nx s tl) as [n|] eqn:En;
      eapply goes_stay; try done; (split; [done|]); (split; [done|]); cbn [worker_ok].
    + rewrite <- Htl. by eapply front_next.
    + eapply announced_stays; [done|done|]. rewrite <- Htl. eapply front_alone; try done.
      intros st0 E. by apply Hlk.
    + split; [done|]. by eapply front_next.
    + split; [done|]. split; [done|]. eapply announced_stays; [done|done|].
      eapply front_alone; try done. intros st0 E. by apply Hlk.
  - rewrite (get_thr_turn _ _ _ _ _ _ _ Ht). eapply goes_stay; try done.
    split; [done|]. split; [done|]. by eapply announced_stays.
  - destruct Hok as [Hp Hn]. rewrite (load_next_turn _ _ _ _ (front_there s sts g Hgood i e Ht n Hp)).
    unfold item_stage. destruct (nx s n) as [m|] eqn:En; eapply goes_stay; try done;
      (split; [done|]); (split; [done|]); cbn [worker_ok].
    + split; [done|]. by eapply front_next.
    + split; [done|]. split; [done|]. eapply announced_stays; [done|done|].
      eapply front_alone; try done. intros st0 E. by apply Hlk.
  - destruct Hok as (Hp & Hn & Ha). rewrite (get_thr_turn _ _ _ _ _ _ _ Ht).
    case_bool_decide as Hh; cbn [negb]; eapply goes_stay; try done; (split; [done|]); (split; [done|]); cbn [worker_ok].
    + split; [done|]. split; [done|]. by eapply stub_out.
    + intros _. eapply signal_stays; [done|done|]. apply Ha. intros E. apply Hh.
      pose proof (q_last _ _ _ _ (g_queue _ _ _ _ _ Hgood i e Ht)) as El. rewrite E in El.
      cbn in El. congruence.
  - destruct Hok as (Hp & Hn & Ho). rewrite (load_next_turn _ _ _ _ (front_there s sts g Hgood i e Ht tl Hp)).
    destruct (nx s tl) as [m|] eqn:En; eapply goes_stay; try done; (split; [done|]); (split; [done|]); cbn [worker_ok].
    + split; [done|]. by eapply front_next.
    + intros _. eapply signal_stays; [done|done|].
      assert (announced s sts g i tl) as Ha.
      { eapply front_alone; try done. intros st0 E. by apply Hlk. }
      apply Ha. intros E. assert (stub i ∈ ord g i) as Hin.
      { apply (q_in _ _ _ _ (g_queue _ _ _ _ _ Hgood i e Ht)). rewrite Ho. by left. }
      rewrite E, list_elem_of_singleton in Hin. congruence.
Qed.

Lemma turn_poll_write c st :
  sts !! i = Some st ->
  match st with
  | Q_skip _ | Q_clear _ | Q_exchange _ | Q_link _ _ | Q_take _ _ | Q_bad => True
  | _ => False
  end -> step_to (turn calls alloc c i st s).
Proof.
  intros Hi. pose proof (g_at _ _ _ _ _ Hgood i st Hi) as [Hnd Hat].
  pose proof (g_queue _ _ _ _ _ Hgood i e Ht) as Hq.
  pose proof (g_ring _ _ _ _ _ Hgood i e Ht) as Hring.
  assert (there s (stub i)) as Hstub by by eexists.
  intros Hst. destruct st; try done; destruct Hat as [Hr Hok]; cbn [turn]; cbn [worker_ok] in Hok.
  - destruct Hok as (L & EL & Hn). rewrite (set_thr_turn _ _ _ _ _ _ Ht).
    eexists. eapply (good_advance _ _ _ _ _ Hgood i _ _ Hi e (stub i) n L); try done.
    + by left.
    + intros c0. split; [by left|]. by intros [?|?].
    + split; [apply NoDup_nil_2|]. split; [done|]. cbn [worker_ok]. unfold on_poll. cbn [ord]. rewrite set_at_eq.
      split; [done|]. intros ->. pose proof (q_nodup _ _ _ _ Hq) as Hnd'. rewrite EL in Hnd'.
      apply NoDup_cons in Hnd' as [Hnin _]. apply Hnin. by constructor.
  - destruct Hok as (Hp & Hn & Ho). rewrite (store_next_turn _ _ _ _ _ Hstub). exists g.
    cbn [set_next]. rewrite Ht.
    eapply (good_tweak _ _ _ _ _ Hgood i _ _ Hi i e (e <| stub_next := None |>)); try done.
    + apply (g_ub _ _ _ _ _ Hgood).
    + by right.
    + by apply (ring_same e).
    + apply (g_fd _ _ _ _ _ Hgood i e Ht).
    + intros w. by rewrite in_hand_kept with (st := Q_clear tl).
    + split; [apply NoDup_nil_2|]. do 2 (split; [done|]). split; [done|]. split; [done|].
      cbn. by rewrite lookup_insert_eq.
  - destruct Hok as (Hp & Hn & Ho & Hnx). cbn [one exchange_head atomic]. rewrite Ht.
    eexists. eapply (good_exchange _ _ _ _ _ Hgood i _ _ Hi e (stub i) i); try done.
    + by left.
    + intros c0. split; [by left|]. by intros [?|?].
    + split; [apply NoDup_nil_2|]. split; [done|]. cbn [worker_ok]. unfold on_poll in *. cbn [ord]. rewrite set_at_eq.
      split; [by destruct (ord g i)|done].
  - destruct Hok as [Hp Hn].
    assert (own g (stub i) = Linking i i prev) as Ho.
    { apply (g_link _ _ _ _ _ Hgood). by eexists. }
    destruct (linking_position roles feed s sts g Hgood i e _ _ _ Ht Ho) as (_ & _ & Hth).
    rewrite (store_next_turn _ _ _ _ _ Hth). eexists.
    eapply (good_link _ _ _ _ _ Hgood i _ _ Hi e (stub i) i prev); try done.
    split; [apply NoDup_nil_2|]. split; [done|]. split; [done|]. split; [done|].
    cbn [own]. by rewrite set_own_eq.
  - destruct Hok as (Hn & L & EL & Ho). rewrite (set_thr_turn _ _ _ _ _ _ Ht).
    assert (own g tl = Queued i) as Htl.
    { eapply front_queued; [done|exact Ht|]. unfold on_poll. by rewrite EL. }
    assert (exists d, tl = cmd_node d) as [d ->].
    { destruct tl as [v|d]; [|by exists d]. exfalso. apply Hn.
      destruct (g_stub _ _ _ _ _ Hgood v) as [E|[E|[p E]]]; congruence. }
    destruct (g_queued _ _ _ _ _ Hgood d i) as (_ & m & Em & Hm); [by left|].
    eexists. eapply (good_advance _ _ _ _ _ Hgood i _ _ Hi e (cmd_node d) n L); try done.
    + right. by eexists.
    + intros c0. cbn. rewrite list_elem_of_singleton. split; [intros ->; by right|].
      intros [H|[= ->]]; [by inversion H|done].
    + split; [apply NoDup_singleton|]. split; [done|]. by exists m.
  - done.
Qed.

(** *** Running a command and giving it back *)

Lemma cache_thr pq : cache_ok roles feed i (Some pq) -> exists e0, thrs s !! pq = Some e0.
Proof. intros [_ H]. by eapply thr_of. Qed.

Lemma emptied d p :
  p <> Hand i -> forall x, x ∈ @nil nat <-> if decide (x = d) then p = Hand i else x ∈ [d].
Proof.
  intros Hp x. split; [intros H; inversion H|]. destruct (decide (x = d)) as [->|Hx]; [done|].
  by rewrite list_elem_of_singleton.
Qed.
Lemma turn_cmd c st :
  sts !! i = Some st ->
  match st with
  | C_load _ | C_run _ _ | C_look _ _ | C_refresh _ _ _ | C_slot _ _ _ | C_push _ _ _ | C_free _ => True
  | _ => False
  end -> step_to (turn calls alloc c i st s).
Proof.
  intros Hi. pose proof (g_at _ _ _ _ _ Hgood i st Hi) as [Hnd Hat].
  pose proof (g_ub _ _ _ _ _ Hgood) as Hub.
  assert (forall c0, c0 ∈ held st -> own g (cmd_node c0) = Hand i) as Hheld.
  { intros c0 Hin. apply (g_hand _ _ _ _ _ Hgood). by exists st. }
  intros Hst. destruct st as [| | | | | | | | | | | | | | | | | | |d|d m|pq d|pq d q|pq d q|pq d q|d|];
    try done; destruct Hat as [Hr Hok]; cbn [turn]; cbn [worker_ok] in Hok.
  - destruct Hok as (m & Em & Hm). rewrite (on_cmd_turn _ _ _ _ _ _ _ Em).
    cbn [fst snd]. rewrite insert_id by done.
    assert (s <| cmds := cmds s |> = s) as -> by by destruct s.
    by eapply goes_stay.
  - destruct Hok as [Em Hm]. cbn [one atomic step_to]. exists g.
    set (s1 := s <| ran := _ |>). set (at_ := in_cmd d (msg_cache m)).
    destruct (calls_stage_shape i at_ (Some i) (calls i (cb m) (args m))) as (E1 & E2 & E3 & E4 & E5).
    eapply (good_tweak _ _ _ _ _ Hgood i _ _ Hi i e e s1); try done.
    + by rewrite insert_id.
    + by left.
    + by apply (g_ring _ _ _ _ _ Hgood).
    + by apply (g_fd _ _ _ _ _ Hgood i).
    + by rewrite E1.
    + intros w. unfold in_hand, ran_of. cbn [s1 ran set_field eta_fields eta_memory].
      rewrite filter_app, fmap_app, <- app_assoc. f_equal. destruct (decide (w = i)) as [->|Hw].
      * rewrite list_lookup_insert_eq by by eapply lookup_lt_Some. rewrite Hi. cbn [mbind option_bind].
        rewrite E4. cbn. rewrite Em. cbn. rewrite decide_True by done. done.
      * rewrite list_lookup_insert_ne by done.
        by rewrite filter_cons_False by (intros H; cbn in H; congruence).
    + apply calls_stage_ok; [by split|by apply Hcalls].
  - destruct (cache_thr pq Hok) as [e0 E0]. rewrite (get_thr_turn _ _ _ _ _ _ _ E0).
    destruct (Nat.eqb_spec (ring_next (p_head (msg_cache_p e0)) (p_cap (msg_cache_p e0)))
      (cached_tail (msg_cache_p e0))) as [Eq|Eq]; eapply goes_stay; try done;
      (split; [done|]); (split; [done|]); cbn [worker_ok]; (split; [done|]); by exists e0.
  - destruct Hok as (Hc & e0 & E0 & Hph & Hpc & Eq). rewrite (on_thr_turn _ _ _ _ _ _ _ E0). exists g.
    pose proof (g_ring _ _ _ _ _ Hgood pq e0 E0) as Hring. cbn [fst snd].
    set (st' := if _ : bool then _ else _).
    assert (held st' = [d] /\ linking i st' = None /\ pending st' = [] /\ unrun st' = None)
      as (F1 & F2 & F3 & F4) by (unfold st'; by case_match).
    eapply (good_tweak _ _ _ _ _ Hgood i _ _ Hi pq e0 (view_tail e0)); try done.
    + by left.
    + by apply ring_view_tail.
    + exact (g_fd _ _ _ _ _ Hgood pq e0 E0).
    + by destruct Hc.
    + by rewrite F1.
    + intros w. by rewrite in_hand_kept with (st := C_refresh pq d q).
    + split; [rewrite F1; apply NoDup_singleton|]. unfold st'.
      destruct (Nat.eqb_spec (ring_next (p_head q) (p_cap q)) (c_tail (msg_cache_c e0))) as [En|En]; [done|].
      split; [done|]. split; [done|]. exists (view_tail e0). cbn. rewrite lookup_insert_eq.
      split; [done|]. split; [done|]. split; [done|]. unfold room. cbn. by rewrite <- Hph, <- Hpc.
  - destruct Hok as (Hc & e0 & E0 & Hph & Hpc & Hroom). unfold push_slot.
    rewrite (set_thr_turn _ _ _ _ _ _ E0). exists g.
    pose proof (g_ring _ _ _ _ _ Hgood pq e0 E0) as Hring. rewrite Hph.
    change (e0 <| msg_cache_buf := _ |>) with (write_slot d e0).
    eapply (good_tweak _ _ _ _ _ Hgood i _ _ Hi pq e0 (write_slot d e0)); try done.
    + by left.
    + by apply ring_write.
    + exact (g_fd _ _ _ _ _ Hgood pq e0 E0).
    + by destruct Hc.
    + intros w. by rewrite in_hand_kept with (st := C_slot pq d q).
    + split; [done|]. split; [done|]. split; [done|]. exists (write_slot d e0). cbn [thrs set_field eta_fields eta_memory].
      rewrite lookup_insert_eq. split; [done|]. split; [done|]. split; [done|]. split; [done|].
      rewrite Hph. by eapply slot_written.
  - destruct Hok as (Hc & e0 & E0 & Hph & Hpc & Hroom & Hslot). unfold pushed.
    rewrite (set_thr_turn _ _ _ _ _ _ E0).
    pose proof (g_ring _ _ _ _ _ Hgood pq e0 E0) as Hring. rewrite Hph in Hslot. rewrite Hph, Hpc.
    change (e0 <| msg_cache_p := _ |>) with (push_ring e0).
    assert (own g (cmd_node d) = Hand i) as Hd by (apply Hheld; by constructor).
    assert (d ∉ ring g pq) as Hnin.
    { intros Hin. destruct Hc as [_ Hth].
      assert (own g (cmd_node d) = Cached pq) by by apply (g_cached _ _ _ _ _ Hgood). congruence. }
    eexists. eapply (good_cache _ _ _ _ _ Hgood i _ _ Hi e0 (push_ring e0) pq d (Cached pq)
      (ring g pq ++ [d])); try done.
    + by left.
    + by apply ring_push.
    + intros _. split; [done|]. by eexists.
    + by destruct Hc.
    + apply Hc.
    + apply NoDup_app. split; [apply (g_nodup _ _ _ _ _ Hgood)|]. split; [|apply NoDup_singleton].
      by intros x Hx ->%list_elem_of_singleton.
    + intros x. rewrite elem_of_app, list_elem_of_singleton. destruct (decide (x = d)) as [->|Hx].
      * split; [done|by right].
      * split; [by intros [?|?]|by left].
    + by apply emptied.
    + split; [apply NoDup_nil_2|]. done.
  - assert (own g (cmd_node d) = Hand i) as Hd by (apply Hheld; by constructor).
    cbn [one free_cmd atomic]. destruct (cmds s !! d) as [m|] eqn:Em.
    2:{ apply (g_cmds _ _ _ _ _ Hgood) in Em. congruence. }
    cbn [step_to]. eexists. eapply (good_cmd _ _ _ _ _ Hgood i _ _ Hi d Nowhere); try done.
    + by right.
    + by left.
    + intros x Hx. cbn. by rewrite lookup_delete_ne.
    + cbn. by rewrite lookup_delete_eq.
    + by apply emptied.
    + split; [apply NoDup_nil_2|]. done.
Qed.
End Worker.

(** *** evthr_defer *)

Section Defer.
Context (s : memory) (sts : list stage) (g : ghost) (Hgood : good s sts g) (i : nat).
Context (at_ : site) (sender : option nat) (t : nat) (x : Z * Z) (l : list call).
Abbreviation here := (fun d => Defer at_ d sender t x l).
Abbreviation goes st' s' := (exists g', good s' (<[i := st']> sts) g').
Context (d : defer_stage) (Hi : sts !! i = Some (here d)).

Lemma defer_at :
  NoDup (defer_held d ++ site_held at_) /\ site_ok roles feed s sts g i at_ /\
  sender_ok roles feed i sender t /\ calls_ok roles feed i sender l /\ defer_ok s g i d sender x.
Proof. exact (g_at _ _ _ _ _ Hgood i _ Hi). Qed.

(** The next stage of the same call. *)
Lemma here_ok s1 sts1 g1 d' :
  NoDup (defer_held d' ++ site_held at_) ->
  (ord g1 i = ord g i \/ signal s1 sts1 i) -> (signal s sts i -> signal s1 sts1 i) ->
  defer_ok s1 g1 i d' sender x -> at_ok s1 sts1 g1 i (here d').
Proof.
  intros Hnd Ho Hs Hd. destruct defer_at as (_ & H1 & H2 & H3 & _).
  split; [exact Hnd|]. split; [by eapply site_kept|done].
Qed.
Lemma held_hand c : c ∈ defer_held d ++ site_held at_ -> own g (cmd_node c) = Hand i.
Proof. intros H. apply (g_hand _ _ _ _ _ Hgood). by exists (here d). Qed.
Lemma target_thr : exists e, thrs s !! t = Some e.
Proof.
  destruct defer_at as (_ & _ & [Ht _] & _). eapply thr_of; [exact Hgood|]. by exists worker.
Qed.

(** A read by a thread with a cache of its own. *)
Lemma defer_stay e d' :
  thrs s !! i = Some e -> waking (here d) = None -> waking (here d') = None ->
  defer_held d' = defer_held d ->
  linking i (here d) = None -> linking i (here d') = None ->
  pending (here d') = pending (here d) -> defer_ok s g i d' sender x ->
  goes (here d') s.
Proof.
  intros Ht Hw Hw' Hh Hl Hl' Hp Hd. exists g.
  eapply (good_stay _ _ _ _ _ Hgood i _ _ Hi e); try done.
  - by rewrite Hw.
  - intros c. cbn. by rewrite Hh.
  - by rewrite Hl.
  - apply here_ok; [|by left| |done].
    + rewrite Hh. apply defer_at.
    + apply (signal_kept s sts i _ _ Hi); [eauto|by rewrite Hw].
Qed.
End Defer.

Lemma pending_same at_ d d' sender t x l :
  match d with D_link _ _ | D_write => False | _ => True end ->
  match d' with D_link _ _ | D_write => False | _ => True end ->
  pending (Defer at_ d sender t x l) = pending (Defer at_ d' sender t x l).
Proof. by destruct at_, d, d'. Qed.

Lemma turn_defer_cache s sts g i at_ sender t x l d c :
  good s sts g -> sts !! i = Some (Defer at_ d sender t x l) ->
  match d with D_look | D_refresh _ | D_slot _ | D_pop _ _ => True | _ => False end ->
  step_to sts i (turn calls alloc c i (Defer at_ d sender t x l) s).
Proof.
  intros Hgood Hi Hst. cbn [turn].
  destruct (defer_at s sts g Hgood i at_ sender t x l d Hi) as (Hnd & Hs & [Htw Hse] & Hl & Hd).
  assert (sender = Some i) as Esender by (destruct d; cbn in Hd; naive_solver).
  rewrite Esender in Hse. destruct Hse as (_ & Hth & Hfeed).
  destruct (thr_of s sts g Hgood i Hth) as [e Ht].
  pose proof (g_ring _ _ _ _ _ Hgood i e Ht) as Hring.
  pose proof (g_fd _ _ _ _ _ Hgood i e Ht) as Hfd.
  pose proof (g_ub _ _ _ _ _ Hgood) as Hub.
  assert (default i sender = i) as Ei by by rewrite Esender.
  destruct d as [|q|q|q cmd| | | | | |]; try done; cbn [defer_turn]; rewrite Ei; cbn [defer_ok] in Hd.
  - rewrite (get_thr_turn _ _ _ _ _ _ _ Ht).
    destruct (Nat.eqb_spec (c_tail (msg_cache_c e)) (cached_head (msg_cache_c e))) as [E|E];
      eapply (defer_stay s sts g Hgood i at_ sender t x l D_look Hi e); try done; try by apply pending_same.
    + split; [done|]. by exists e.
    + split; [done|]. by exists e.
  - destruct Hd as (_ & e0 & E0 & ->). rewrite Ht in E0. injection E0 as <-.
    unfold refreshed. rewrite (on_thr_turn _ _ _ _ _ _ _ Ht). exists g. cbn [fst snd].
    set (d' := if _ : bool then _ else _).
    assert (d' = D_calloc \/ d' = D_slot (msg_cache_c e) /\
      c_tail (msg_cache_c e) <> p_head (msg_cache_p e)) as Hd'.
    { unfold d'. destruct (Nat.eqb_spec (c_tail (msg_cache_c e)) (p_head (msg_cache_p e))); [by left|by right]. }
    clearbody d'.
    assert (defer_held d' = []) as Hh by by destruct Hd' as [->|[-> _]].
    eapply (good_tweak _ _ _ _ _ Hgood i _ _ Hi i e (view_head e)); try done.
    + by left.
    + by apply ring_view_head.
    + intros c0. cbn. by rewrite Hh.
    + by destruct Hd' as [->|[-> _]].
    + apply pending_same; [by destruct Hd' as [->|[-> _]]|done].
    + intros w. by rewrite in_hand_kept with (st := Defer at_ (D_refresh (msg_cache_c e)) sender t x l).
    + eapply (here_ok s sts g Hgood i at_ sender t x l _ Hi).
      * rewrite Hh. exact Hnd.
      * by left.
      * apply (signal_kept s sts i _ _ Hi); [|done]. intros e0 E0 Hpos. exists (view_head e).
        cbn. rewrite lookup_insert_eq. rewrite Ht in E0. by injection E0 as <-.
      * destruct Hd' as [->|[-> Hne]]; [done|]. split; [done|]. exists (view_head e).
        cbn. by rewrite lookup_insert_eq.
  - destruct Hd as (_ & e0 & E0 & Eq1 & Eq2 & Hseen). rewrite Ht in E0. injection E0 as <-.
    destruct (ring_seen e _ Hring Hseen) as (cmd & R & ER). rewrite ER in Hring.
    pose proof (ring_slot e cmd R Hring) as Hslot. rewrite <- Eq1 in Hslot.
    cbn [one read_slot atomic]. rewrite Ht. cbn [mbind option_bind]. rewrite Hslot. cbn [mjoin option_join].
    eapply (defer_stay s sts g Hgood i at_ sender t x l (D_slot q) Hi e); try done.
    split; [done|]. split; [by exists e|]. by rewrite ER.
  - destruct Hd as (_ & (e0 & E0 & Eq1 & Eq2 & Hseen) & Hhd). rewrite Ht in E0. injection E0 as <-.
    destruct (ring g i) as [|cmd' R] eqn:ER; [done|]. cbn in Hhd. injection Hhd as ->.
    unfold popped. rewrite (set_thr_turn _ _ _ _ _ _ Ht), Eq1, Eq2.
    change (e <| msg_cache_c := _ |>) with (pop_ring e).
    assert (own g (cmd_node cmd) = Cached i) as Hown.
    { apply (g_cached _ _ _ _ _ Hgood). rewrite ER. split; [done|]. by constructor. }
    pose proof (g_nodup _ _ _ _ _ Hgood i) as Hrn. rewrite ER in Hrn. apply NoDup_cons in Hrn as [Hnin HR].
    assert (cmd ∉ site_held at_) as Hns.
    { intros Hin. assert (own g (cmd_node cmd) = Hand i); [|congruence].
      by eapply (held_hand s sts g Hgood i at_ sender t x l). }
    eexists. eapply (good_cache _ _ _ _ _ Hgood i _ _ Hi e (pop_ring e) i cmd (Hand i) R); try done.
    + by right.
    + by eapply ring_pop.
    + intros y. rewrite ER. destruct (decide (y = cmd)) as [->|Hy]; [by split|].
      split; [by right|]. by intros [?|?]%elem_of_cons.
    + intros y. cbn. destruct (decide (y = cmd)) as [->|Hy]; [split; [done|by left]|].
      split; [by intros [?|?]%elem_of_cons|by right].
    + eapply (here_ok s sts g Hgood i at_ sender t x l _ Hi).
      * cbn. by apply NoDup_cons.
      * by left.
      * apply (signal_kept s sts i _ _ Hi); [|done]. intros e0 E0 Hpos. exists (pop_ring e).
        cbn. rewrite lookup_insert_eq. rewrite Ht in E0. by injection E0 as <-.
      * done.
Qed.

Lemma hold_new (i c : nat) L y : y ∈ c :: L <-> if decide (y = c) then Hand i = Hand i else y ∈ L.
Proof.
  destruct (decide (y = c)) as [->|Hy]; [split; [done|by left]|].
  split; [by intros [?|?]%elem_of_cons|by right].
Qed.
Lemma hold_same (i c : nat) L y :
  y ∈ c :: L <-> if decide (y = c) then Hand i = Hand i else y ∈ c :: L.
Proof. rewrite hold_new at 1. case_decide; [done|]. rewrite elem_of_cons. naive_solver. Qed.

(** A command that is in hand is in memory. *)
Lemma hand_there s sts g i c : good s sts g -> own g (cmd_node c) = Hand i ->
  exists m, cmds s !! c = Some m.
Proof.
  intros Hgood H. destruct (cmds s !! c) as [m|] eqn:E; [by exists m|].
  apply (g_cmds _ _ _ _ _ Hgood) in E. congruence.
Qed.

Lemma turn_defer_cmd s sts g i at_ sender t x l d c :
  good s sts g -> sts !! i = Some (Defer at_ d sender t x l) ->
  match d with D_calloc | D_fill _ | D_clear _ => True | _ => False end ->
  step_to sts i (turn calls alloc c i (Defer at_ d sender t x l) s).
Proof.
  intros Hgood Hi Hst. cbn [turn].
  destruct (defer_at s sts g Hgood i at_ sender t x l d Hi) as (Hnd & Hs & [Htw Hse] & Hl & Hd).
  pose proof (g_ub _ _ _ _ _ Hgood) as Hub.
  assert (forall cmd, cmd ∈ defer_held d ++ site_held at_ -> own g (cmd_node cmd) = Hand i) as Hown.
  { intros cmd. by apply (held_hand s sts g Hgood i at_ sender t x l). }
  destruct d as [| | | | |cmd|cmd| | |]; try done; cbn [defer_turn]; cbn [defer_ok] in Hd.
  - cbn [one calloc_cmd atomic]. destruct (Halloc (cmds s)) as (cmd & -> & Hnew). cbn [step_to].
    assert (own g (cmd_node cmd) = Nowhere) as Hno by by apply (g_cmds _ _ _ _ _ Hgood).
    eexists. eapply (good_cmd _ _ _ _ _ Hgood i _ _ Hi cmd (Hand i)); try done.
    + by left.
    + by right.
    + intros y Hy. cbn. by rewrite lookup_insert_ne.
    + cbn. by rewrite lookup_insert_eq.
    + apply hold_new.
    + eapply (here_ok s sts g Hgood i at_ sender t x l _ Hi); [|by left| |done].
      * apply NoDup_cons. split; [|done]. intros Hin. specialize (Hown cmd Hin). congruence.
      * apply (signal_kept s sts i _ _ Hi); [eauto|done].
  - assert (own g (cmd_node cmd) = Hand i) as Hc by (apply Hown; by left).
    destruct (hand_there s sts g i cmd Hgood Hc) as [m Em].
    unfold filled. rewrite (on_cmd_turn _ _ _ _ _ _ _ Em). cbn [step_to fst snd].
    eexists. eapply (good_cmd _ _ _ _ _ Hgood i _ _ Hi cmd (Hand i)); try done.
    + by right.
    + by right.
    + intros y Hy. cbn. by rewrite lookup_insert_ne.
    + cbn. by rewrite lookup_insert_eq.
    + apply hold_same.
    + eapply (here_ok s sts g Hgood i at_ sender t x l _ Hi); [done|by left| |].
      * apply (signal_kept s sts i _ _ Hi); [eauto|done].
      * cbn. rewrite lookup_insert_eq. split; [|done]. eexists. split; [done|]. by destruct x.
  - assert (own g (cmd_node cmd) = Hand i) as Hc by (apply Hown; by left).
    destruct Hd as [(m & Em & Hx & Hm) _].
    assert (there s (cmd_node cmd)) as Hth by by eexists.
    rewrite (store_next_turn _ _ _ _ _ Hth). cbn [step_to set_next]. rewrite Em.
    eexists. eapply (good_cmd _ _ _ _ _ Hgood i _ _ Hi cmd (Hand i)); try done.
    + by right.
    + by right.
    + intros y Hy. cbn. by rewrite lookup_insert_ne.
    + cbn. by rewrite lookup_insert_eq.
    + apply hold_same.
    + eapply (here_ok s sts g Hgood i at_ sender t x l _ Hi); [done|by left| |].
      * apply (signal_kept s sts i _ _ Hi); [eauto|done].
      * cbn. rewrite lookup_insert_eq. split; [by eexists|done].
Qed.

Lemma eventfd_write_pos v : 0 <= v -> 0 < default v (eventfd_write v).
Proof. intros H. unfold eventfd_write. destruct (Z.ltb_spec v (2 ^ 64 - 2)); cbn; lia. Qed.

Lemma turn_defer_queue s sts g i at_ sender t x l d c :
  good s sts g -> sts !! i = Some (Defer at_ d sender t x l) ->
  match d with D_exchange _ | D_link _ _ | D_write => True | _ => False end ->
  step_to sts i (turn calls alloc c i (Defer at_ d sender t x l) s).
Proof.
  intros Hgood Hi Hst. cbn [turn].
  destruct (defer_at s sts g Hgood i at_ sender t x l d Hi) as (Hnd & Hs & [Htw Hse] & Hl & Hd).
  pose proof (g_ub _ _ _ _ _ Hgood) as Hub.
  destruct (target_thr s sts g Hgood i at_ sender t x l d Hi) as [e Ht].
  assert (cache_ok roles feed t sender) as Hcache by (destruct sender; naive_solver).
  destruct d as [| | | | | | |cmd|cmd prev|]; try done; cbn [defer_turn]; cbn [defer_ok] in Hd.
  - assert (own g (cmd_node cmd) = Hand i) as Hc.
    { apply (held_hand s sts g Hgood i at_ sender t x l _ Hi). by left. }
    destruct Hd as [(m & Em & Hx & Hm) Hnx]. specialize (Hnx eq_refl).
    assert (payload s (cmd_node cmd) = Some x) as Hpay by (cbn; rewrite Em; cbn; by rewrite Hx).
    cbn [one exchange_head atomic]. rewrite Ht. cbn [step_to].
    apply NoDup_cons in Hnd as [Hnin Hsn].
    eexists. eapply (good_exchange _ _ _ _ _ Hgood i _ _ Hi e (cmd_node cmd) t); try done.
    + right. exists cmd, m. rewrite Hm. done.
    + intros y. change (y ∈ cmd :: site_held at_ <-> y ∈ site_held at_ \/ cmd_node cmd = cmd_node y).
      rewrite elem_of_cons. split; [intros [->|?]; [by right|by left]|intros [?|[= ->]]; [by right|by left]].
    + by intros y [= <-].
    + intros tls l0 Hr. rewrite Hpay. destruct at_; [done|destruct Hs|cbn in Hs|destruct Hs]; congruence.
    + eapply (here_ok s sts g Hgood i at_ sender t x l _ Hi); [done| | |done].
      * cbn [ord]. destruct (decide (i = t)) as [<-|Hne]; [|left; by rewrite set_at_ne].
        right. right. exists i. eexists. rewrite list_lookup_insert_eq; [done|by eapply lookup_lt_Some].
      * apply (signal_kept s sts i _ _ Hi); [|done]. intros e0 E0 Hpos. cbn.
        destruct (decide (t = i)) as [->|Hne]; [rewrite lookup_insert_eq|by rewrite lookup_insert_ne; eauto].
        rewrite Ht in E0. injection E0 as <-. by eexists.
  - assert (own g (cmd_node cmd) = Linking i t prev) as Ho.
    { apply (g_link _ _ _ _ _ Hgood). by eexists. }
    destruct (linking_position roles feed s sts g Hgood i e _ _ _ Ht Ho) as (_ & _ & Hth).
    rewrite (store_next_turn _ _ _ _ _ Hth). cbn [step_to]. eexists.
    eapply (good_link _ _ _ _ _ Hgood i _ _ Hi e (cmd_node cmd) t prev); try done.
    + intros y [= <-] Hin.
      assert (own g (cmd_node cmd) = Hand i); [|congruence].
      by apply (held_hand s sts g Hgood i at_ sender t x l _ Hi).
    + eapply (here_ok s sts g Hgood i at_ sender t x l _ Hi); [done|by left| |done].
      apply (signal_kept s sts i _ _ Hi); [|by left]. intros e0 E0 Hpos.
      destruct (set_next_thr s prev (Some (cmd_node cmd)) Hth i) as [[? ?]|(e1 & y & E1 & E2)]; [congruence|].
      eexists. split; [exact E2|]. cbn. congruence.
  - unfold write_msg_fd. rewrite (on_thr_turn _ _ _ _ _ _ _ Ht). cbn [step_to].
    pose proof (g_fd _ _ _ _ _ Hgood t e Ht) as Hfd. pose proof (eventfd_write_pos _ Hfd) as Hpos.
    set (e' := (match eventfd_write (msg_fd e) with Some _ => _ | None => _ end).2).
    assert (same_ends e e' /\ stub_next e' = stub_next e /\ same_ring e e' /\ 0 < msg_fd e')
      as (H1 & H2 & H3 & H4).
    { unfold e'. by destruct (eventfd_write (msg_fd e)). }
    destruct (calls_stage_shape i at_ sender l) as (E1 & E2 & E3 & E4 & E5). exists g.
    eapply (good_tweak _ _ _ _ _ Hgood i _ _ Hi t e e'); try done.
    + by left.
    + apply (ring_same e); [done|by apply (g_ring _ _ _ _ _ Hgood)].
    + lia.
    + by destruct H3 as (_ & -> & _).
    + intros _. by destruct H3 as (-> & _ & ->).
    + intros w [= <-]. by right.
    + intros y. by rewrite E1.
    + intros w. by rewrite in_hand_kept with (st := Defer at_ D_write sender t x l).
    + apply calls_stage_ok; [|done]. eapply site_kept; [exact Hs|by left|].
      apply (signal_kept s sts i _ _ Hi).
      * intros e0 E0 Hp0. cbn. destruct (decide (t = i)) as [->|Hne].
        -- rewrite lookup_insert_eq. by eexists.
        -- rewrite lookup_insert_ne by done. by eexists.
      * intros [= ->]. right. exists e'. cbn. by rewrite lookup_insert_eq.
Qed.

Lemma turn_good c s sts g i st st' s' :
  good s sts g -> sts !! i = Some st -> turn calls alloc c i st s = Some (st', s') ->
  exists g', good s' (<[i := st']> sts) g'.
Proof.
  intros Hgood Hi E. enough (step_to sts i (turn calls alloc c i st s)) as H by by rewrite E in H.
  destruct st as [| | | | | | | | | | | | | | | | | | | | | | | | | |at_ d sender t x l]; [done|..].
  all: try (destruct (g_at _ _ _ _ _ Hgood i _ Hi) as (_ & Hr & _);
    destruct (worker_thr s sts g Hgood i Hr) as [e Ht];
    first [by eapply turn_loop | by eapply turn_poll_read | by eapply turn_poll_write | by eapply turn_cmd]).
  destruct d; first [by eapply turn_defer_cache | by eapply turn_defer_cmd | by eapply turn_defer_queue].
Qed.
End Pool.
