(* ===== verification/EvPool.v ===== *)
(** * thread.c: what a pool of threads does

    The invariant of EvInv.v holds when the threads start and is kept by every
    step (EvTurns.v), so it holds of every interleaving. *)

From S2P Require Import Prelude Sched EvThread EvStages EvRing EvInv EvStep EvTurns.
From stdpp Require Import gmap.
#[local] Open Scope Z_scope.

(** ** Nobody stops the workers *)

(** evthr_stop is not among the calls of these threads: no stop_fd is written. *)
Definition unstopped (s : memory) : Prop := forall w e, thrs s !! w = Some e -> stop_fd e = 0.
Definition at_work (st : stage) : Prop :=
  match st with
  | finished | W_joined | W_hook false | W_read false | Defer (in_caller | in_exit) _ _ _ _ _ => False
  | _ => True
  end.

Definition keeps_stop {B} (m : thread_prog B) : Prop :=
  forall (k : B -> stage) c s st' s', one m k c s = Some (st', s') -> unstopped s ->
    unstopped s' /\ exists x, st' = k x.

Lemma unstopped_insert s s' t e e' :
  unstopped s -> thrs s !! t = Some e -> stop_fd e' = stop_fd e \/ stop_fd e' = 0 ->
  thrs s' = <[t := e']> (thrs s) -> unstopped s'.
Proof.
  intros Hs Et He E w e0. rewrite E. destruct (decide (t = w)) as [<-|Hne].
  - rewrite lookup_insert_eq. intros [= <-]. specialize (Hs t e Et). lia.
  - rewrite lookup_insert_ne by done. apply Hs.
Qed.
Lemma keeps_on_thr {B} (d : B) t f :
  (forall e, stop_fd (f e).2 = stop_fd e \/ stop_fd (f e).2 = 0) -> keeps_stop (on_thr d t f).
Proof.
  intros Hf k c s st' s' E Hs. cbn in E. destruct (thrs s !! t) as [e|] eqn:Et.
  - specialize (Hf e). destruct (f e) as [b e'] eqn:Ef. injection E as <- <-. split; [|by eexists].
    by eapply unstopped_insert.
  - injection E as <- <-. split; [exact Hs|by eexists].
Qed.
Lemma keeps_atomic {B} (f : memory -> B * memory) :
  (forall s, thrs (f s).2 = thrs s) -> keeps_stop (atomic f).
Proof.
  intros Hf k c s st' s' E Hs. cbn in E. specialize (Hf s). destruct (f s) as [b s1].
  injection E as <- <-. split; [|by eexists]. unfold unstopped. cbn in Hf. by rewrite Hf.
Qed.
Lemma keeps_get_thr {B} (d : B) t f : keeps_stop (get_thr d t f).
Proof. apply keeps_on_thr. by left. Qed.
Lemma keeps_set_thr t f :
  (forall e, stop_fd (f e) = stop_fd e) -> keeps_stop (set_thr t f).
Proof. intros Hf. apply keeps_on_thr. intros e. left. apply Hf. Qed.
Lemma keeps_on_cmd {B} (d : B) n f : keeps_stop (on_cmd d n f).
Proof.
  apply keeps_atomic. intros s. destruct (cmds s !! n) as [m|]; [|done]. by destruct (f m).
Qed.
Lemma keeps_load_next n : keeps_stop (load_next n).
Proof. destruct n; [apply keeps_get_thr|apply keeps_on_cmd]. Qed.
Lemma keeps_store_next n v : keeps_stop (store_next n v).
Proof. destruct n; [by apply keeps_set_thr|apply keeps_on_cmd]. Qed.

Lemma keeps_free_cmd n : keeps_stop (free_cmd n).
Proof. apply keeps_atomic. intros s. by destruct (cmds s !! n). Qed.
Lemma keeps_read_slot t k : keeps_stop (read_slot t k).
Proof. apply keeps_atomic. intros s. by destruct (mjoin _). Qed.
Lemma keeps_calloc alloc : keeps_stop (calloc_cmd alloc).
Proof. apply keeps_atomic. intros s. by destruct (alloc _). Qed.
Lemma keeps_write t : keeps_stop (write_msg_fd t).
Proof. apply keeps_on_thr. intros e. left. by destruct (eventfd_write _). Qed.
Lemma keeps_exchange me t n : keeps_stop (exchange_head me t n).
Proof.
  intros k c s st' s' E Hs. cbn in E. destruct (thrs s !! t) as [e|] eqn:Et; injection E as <- <-.
  - split; [|by eexists]. eapply unstopped_insert; [done|exact Et| |reflexivity]. by left.
  - split; [exact Hs|by eexists].
Qed.

Create HintDb keeps.
#[local] Hint Resolve keeps_get_thr keeps_on_cmd keeps_load_next keeps_store_next keeps_free_cmd
  keeps_read_slot keeps_calloc keeps_write keeps_exchange : keeps.
#[local] Hint Extern 2 (keeps_stop (set_thr _ _)) => by apply keeps_set_thr : keeps.
#[local] Hint Extern 2 (keeps_stop (on_thr _ _ _)) => by apply keeps_on_thr; left : keeps.
#[local] Hint Extern 2 (keeps_stop (atomic _)) => by apply keeps_atomic : keeps.

Lemma calls_at_work i at_ sender l :
  match at_ with in_caller | in_exit => False | _ => True end -> at_work (calls_stage i at_ sender l).
Proof.
  intros Hat. induction l as [|[t x] l IH]; cbn.
  - by destruct at_ as [| | |? []].
  - destruct (_ =? 0); [done|by destruct at_].
Qed.

Lemma turn_unstopped calls alloc c i st s st' s' :
  turn calls alloc c i st s = Some (st', s') -> unstopped s ->
  unstopped s' /\ (at_work st -> at_work st').
Proof.
  intros E Hs.
  assert (forall B (m : thread_prog B) k, one m k c s = Some (st', s') -> keeps_stop m ->
    (forall x, at_work st -> at_work (k x)) -> unstopped s' /\ (at_work st -> at_work st')) as Hone.
  { intros B m k E' Hm Hk. destruct (Hm _ _ _ _ _ E' Hs) as [? [x ->]]. auto. }
  destruct st as [|b| | |b| | | | | | | | | | | | | | | | | | | | | |at_ d sender t x l];
    cbn [turn] in E; try done; try (injection E as <- <-; done).
  23: destruct d; cbn [defer_turn] in E.
  all: unfold push_slot, pushed, popped, refreshed, filled in E.
  all: try (eapply Hone; [exact E|by eauto with keeps|]; intros y Hw;
    unfold next_stage, item_stage, polled_stage; repeat case_match; try done;
    apply calls_at_work; by repeat case_match).
  - cbn in E. destruct (thrs s !! i) as [e|] eqn:Et; [|done]. specialize (Hs i e Et) as Hz.
    destruct c; [|by rewrite Hz in E]. destruct (0 <? msg_fd e); [|done]. by injection E as <- <-.
  - eapply Hone; [exact E| |].
    + apply keeps_on_thr. intros e. destruct b; [by left|by right].
    + intros y Hw. unfold read_stage. destruct b; [|done]. by case_match.
Qed.

(** ** What can block *)

Lemma atomic_goes {B} (f : memory -> B * memory) k c s : one (atomic f) k c s <> None.
Proof. cbn. by destruct (f s). Qed.
Lemma turn_blocked calls alloc c i st s :
  turn calls alloc c i st s = None -> st = finished \/ st = W_wait.
Proof.
  destruct st as [|b| | |b| | | | | | | | | | | | | | | | | | | | | |at_ d sender t x l];
    cbn [turn]; auto; try (intros H; by apply atomic_goes in H); try (destruct tl); try (destruct prev);
    try (destruct n); try done; try (intros H; by apply atomic_goes in H).
  destruct d; cbn [defer_turn]; try (destruct prev); intros H; by apply atomic_goes in H.
Qed.

Definition stuck (σ : sys memory) : Prop := forall c i, sys_step c i σ = None.
Lemma stuck_turn calls alloc s sts i st :
  stuck {| sh := s; code := texts (text calls alloc) sts |} -> sts !! i = Some st ->
  forall c, turn calls alloc c i st s = None.
Proof.
  intros Hst Hi c. specialize (Hst c i). unfold sys_step, texts in Hst. cbn [sh code] in Hst.
  rewrite list_lookup_imap, Hi in Hst. cbn [option_map fmap option_fmap mbind option_bind] in Hst.
  rewrite text_turn in Hst. by destruct (turn calls alloc c i st s) as [[]|].
Qed.

Section Runs.
Context (calls : nat -> Z -> Z -> list call) (alloc : gmap nat evthr_cmd -> option nat).
Context (init exit_ shared : Z).
Context (roles : list role) (feed : nat -> nat).
Abbreviation good := (good roles feed).

(** ** The start *)

Definition role_stage (i : nat) (r : role) : stage :=
  match r with
  | worker => W_hook true
  | caller tls l => calls_stage i in_caller (tls_of i tls) l
  end.
Definition start_stages : list stage := imap role_stage roles.
Definition start_ghost : ghost := {|
  own n := match n with stub w => Queued w | cmd_node _ => Nowhere end;
  ord w := [stub w];
  ring _ := []
|}.

Lemma start_texts :
  start calls alloc init exit_ shared roles =
  {| sh := start_memory init exit_ shared roles; code := texts (text calls alloc) start_stages |}.
Proof.
  unfold start, texts, start_stages. f_equal. apply list_eq. intros i.
  rewrite !list_lookup_imap. destruct (roles !! i) as [[|tls l]|]; cbn; [done| |done].
  by rewrite calls_stage_text.
Qed.

Lemma start_thr i :
  thrs (start_memory init exit_ shared roles) !! i = roles !! i ≫= new_evthr init exit_ shared i.
Proof. unfold start_memory. cbn. by rewrite map_lookup_imap, lookup_map_seq_0. Qed.
Lemma start_new i e :
  thrs (start_memory init exit_ shared roles) !! i = Some e ->
  has_thr roles i /\ exists a b c, _evthr_new i true true true a b c = Some e.
Proof.
  rewrite start_thr. unfold has_thr. destruct (roles !! i) as [[|[] l]|]; [| |done|done];
    intros E; (split; [by eexists|by eexists _, _, _]).
Qed.
Lemma new_ring i a b c e : _evthr_new i true true true a b c = Some e -> ring_ok e [].
Proof.
  intros [= <-]. split; cbn; unfold msg_cache_size; try done; try lia.
  - exists 0%nat. split; [lia|done].
  - exists 0%nat. split; [lia|]. split; [done|lia].
Qed.

Context (Hcallers : forall i tls l,
  roles !! i = Some (caller tls l) -> calls_ok roles feed i (tls_of i tls) l).

Lemma start_stage i st : start_stages !! i = Some st ->
  held st = [] /\ linking i st = None /\ unrun st = None /\
  (roles !! i = Some worker /\ st = W_hook true \/
   exists tls l, roles !! i = Some (caller tls l) /\ st = calls_stage i in_caller (tls_of i tls) l /\
     pending st = real_calls l).
Proof.
  unfold start_stages. rewrite list_lookup_imap.
  destruct (roles !! i) as [[|tls l]|]; [| |done]; intros [= <-]; cbn [role_stage].
  - do 3 (split; [done|]). by left.
  - destruct (calls_stage_shape i in_caller (tls_of i tls) l) as (E1 & E2 & _ & E4 & E5).
    do 3 (split; [done|]). right. by exists tls, l.
Qed.

Lemma start_good : good (start_memory init exit_ shared roles) start_stages start_ghost.
Proof.
  split; cbn [own ord ring start_ghost].
  - apply length_imap.
  - intros i. rewrite start_thr. unfold has_thr. destruct (roles !! i) as [[|[] l]|]; cbn.
    all: split; [intros [? H]|intros (r & [= <-] & H)]; first [discriminate H|by eexists].
  - intros w e E. pose proof E as (_ & a & b & c & [= <-])%start_new. split; cbn; try done.
    + apply NoDup_singleton.
    + intros [v|c']; rewrite list_elem_of_singleton; unfold in_queue; naive_solver.
    + cbn in E. by rewrite E.
  - intros t e (_ & a & b & c & E)%start_new. by eapply new_ring.
  - intros i c. split; [done|]. intros (st & (-> & _)%start_stage & Hin). inversion Hin.
  - intros i n w p. split; [by destruct n|]. intros (st & (_ & E & _)%start_stage & H). congruence.
  - intros c. done.
  - intros c t. split; [done|]. intros [_ H]. inversion H.
  - intros t. apply NoDup_nil_2.
  - intros w. by right; left.
  - intros c w [?|(?&?&?)]; done.
  - intros i st Hi. destruct (start_stage i st Hi) as (_ & _ & _ & [[Hr ->]|(tls & l & Hr & -> & _)]).
    + split; [apply NoDup_nil_2|]. split; [done|]. by intros H.
    + apply calls_stage_ok; [by eexists _, _|by apply Hcallers].
  - done.
  - by intros w e (_ & a & b & c & [= <-])%start_new.
  - intros w _. unfold in_hand. destruct (start_stages !! w) as [st|] eqn:E; [|done]. cbn.
    by apply start_stage in E as (_ & _ & -> & _).
  - intros i tls l st Hr Hi. destruct (start_stage i st Hi) as (_ & _ & _ & [[? _]|(? & ? & Hr' & _ & E)]).
    + congruence.
    + rewrite E. cbn. congruence.
Qed.

Context (Halloc : forall m, exists c, alloc m = Some c /\ m !! c = None).
Context (Hcalls : forall i cb arg,
  roles !! i = Some worker -> calls_ok roles feed i (Some i) (calls i cb arg)).

Lemma reachable_good σ : reachable (start calls alloc init exit_ shared roles) σ ->
  exists s sts g, σ = {| sh := s; code := texts (text calls alloc) sts |} /\ good s sts g /\
    unstopped s /\ forall i st, roles !! i = Some worker -> sts !! i = Some st -> at_work st.
Proof.
  rewrite start_texts. intros Hr.
  destruct (staged_ind (text calls alloc) (turn calls alloc)) with
    (I := fun s sts => exists g, good s sts g /\ unstopped s /\
       forall i st, roles !! i = Some worker -> sts !! i = Some st -> at_work st)
    (4 := Hr) as (s & sts & -> & g & Hg).
  - intros c i st s. rewrite text_turn. by destruct (turn calls alloc c i st s) as [[]|].
  - intros c i s st sts st' s' (g & Hg & Hs & Hw) Hi E.
    destruct (turn_good calls alloc roles feed Halloc Hcalls _ _ _ _ _ _ _ _ Hg Hi E) as [g' Hg'].
    destruct (turn_unstopped _ _ _ _ _ _ _ _ E Hs) as [Hs' Hw']. exists g'. split; [done|]. split; [done|].
    intros j st0 Hrj Hj. destruct (decide (i = j)) as [<-|Hne].
    + rewrite list_lookup_insert_eq in Hj by by eapply lookup_lt_Some. injection Hj as <-. eauto.
    + rewrite list_lookup_insert_ne in Hj by done. eauto.
  - exists start_ghost. split; [apply start_good|]. split.
    + by intros w e (_ & a & b & c & [= <-])%start_new.
    + intros i st Hri Hi. destruct (start_stage i st Hi) as (_ & _ & _ & [[_ ->]|(? & ? & ? & _)]); [done|].
      congruence.
  - by exists s, sts, g.
Qed.

(** ** What the workers do *)

(** C4: every interleaving of the threads uses only memory that is there, and
    the commands a worker has run are the first ones of those entered for it,
    each once and in the order of the entries, which is for every thread of the
    application the order of its evthr_defer calls. *)
Theorem deferred_fifo σ :
  reachable (start calls alloc init exit_ shared roles) σ ->
  m_ub (sh σ) = false /\
  (forall w, roles !! w = Some worker -> ran_of (sh σ) w `prefix_of` inserted_for (sh σ) w) /\
  (forall i tls l, roles !! i = Some (caller tls l) -> inserted_by (sh σ) i `prefix_of` real_calls l).
Proof.
  intros (s & sts & g & -> & Hg & _)%reachable_good. cbn [sh]. split; [apply (g_ub _ _ _ _ _ Hg)|]. split.
  - intros w Hw. rewrite (g_run _ _ _ _ _ Hg w) by by exists worker. by eexists.
  - intros i tls l Hi. destruct (lookup_lt_is_Some_2 sts i) as [st Hst].
    { rewrite (g_len _ _ _ _ _ Hg). by eapply lookup_lt_Some. }
    rewrite <- (g_calls _ _ _ _ _ Hg i tls l st Hi Hst). by eexists.
Qed.

(** C5: when each caching thread feeds one worker ([calls_ok]) and nobody stops
    the threads, no wake-up is lost: the threads can only come to rest when every
    thread of the application has made all its calls and every worker has run
    all the commands that were entered for it. *)
Theorem no_lost_wakeup σ :
  reachable (start calls alloc init exit_ shared roles) σ -> stuck σ ->
  (forall w, roles !! w = Some worker -> ran_of (sh σ) w = inserted_for (sh σ) w) /\
  (forall i tls l, roles !! i = Some (caller tls l) ->
     code σ !! i = Some (Ret tt) /\ inserted_by (sh σ) i = real_calls l).
Proof.
  intros (s & sts & g & -> & Hg & Hs & Hat)%reachable_good Hstuck. cbn [sh code].
  assert (forall j st, sts !! j = Some st -> st = finished \/ st = W_wait) as Hb.
  { intros j st Hj. eapply (turn_blocked _ _ true), (stuck_turn _ _ _ _ _ _ Hstuck Hj). }
  assert (forall i, i < length roles -> exists st, sts !! i = Some st)%nat as Hsts.
  { intros i Hi. apply lookup_lt_is_Some_2. by rewrite (g_len _ _ _ _ _ Hg). }
  split.
  - intros w Hw. destruct (Hsts w) as [st Hst]; [by eapply lookup_lt_Some|].
    destruct (thr_of roles feed s sts g Hg w) as [e He]; [by exists worker|].
    destruct (Hb w st Hst) as [->| ->]; [by specialize (Hat w _ Hw Hst)|].
    rewrite (g_run _ _ _ _ _ Hg w) by by exists worker.
    unfold in_hand. rewrite Hst. cbn [mbind option_bind unrun].
    assert (ord g w = [stub w]) as ->; [|by rewrite !app_nil_r].
    destruct (decide (ord g w = [stub w])) as [|Hne]; [done|exfalso].
    destruct (g_at _ _ _ _ _ Hg w _ Hst) as (_ & _ & Ha).
    destruct (Ha Hne) as [(e0 & E0 & Hpos)|(j & st & Hj & Hwk)].
    + pose proof (stuck_turn _ _ _ _ _ _ Hstuck Hst true) as Ht. cbn in Ht. rewrite E0 in Ht.
      apply Z.ltb_lt in Hpos. by rewrite Hpos in Ht.
    + by destruct (Hb j st Hj) as [->| ->].
  - intros i tls l Hi. destruct (Hsts i) as [st Hst]; [by eapply lookup_lt_Some|].
    pose proof (g_calls _ _ _ _ _ Hg i tls l st Hi Hst) as Hp.
    destruct (Hb i st Hst) as [->| ->].
    + split; [|by rewrite app_nil_r in Hp]. unfold texts. by rewrite list_lookup_imap, Hst.
    + destruct (g_at _ _ _ _ _ Hg i _ Hst) as (_ & Hr & _). congruence.
Qed.
End Runs.

(** ** A run *)

(** Two threads of the application, one with an evthr of its own, and a worker
    whose callback 8 defers another one to the worker itself. *)
Definition fresh_cmd (m : gmap nat evthr_cmd) : option nat := Some (fresh (dom m)).
Definition again_calls (t : nat) (cb arg : Z) : list call := if cb =? 8 then [(1%nat, (9, arg))] else [].
Definition two_callers : list role :=
  [caller true [(1%nat, (7, 1)); (1%nat, (7, 2))]; worker; caller false [(1%nat, (8, 3))]].
Definition two_callers_start : sys memory := start again_calls fresh_cmd 5 6 0 two_callers.
Definition turns (n i : nat) : list (bool * nat) := repeat (true, i) n.
(** The worker polls while the other thread has entered its command and not
    linked it yet. *)
Definition half_linked : list (bool * nat) := turns 16 0 ++ turns 4 2 ++ turns 20 1.
Definition whole_run : list (bool * nat) := half_linked ++ turns 2 2 ++ turns 59 1.

Lemma fresh_alloc m : exists c, fresh_cmd m = Some c /\ m !! c = None.
Proof. exists (fresh (dom m)). split; [done|]. apply not_elem_of_dom, is_fresh. Qed.
Lemma two_callers_ok i tls l :
  two_callers !! i = Some (caller tls l) -> calls_ok two_callers (fun _ => 1%nat) i (tls_of i tls) l.
Proof.
  assert (has_thr two_callers 0) as H0 by by eexists.
  destruct i as [|[|[|i]]]; intros [= <- <-]; by repeat constructor.
Qed.
Lemma again_calls_ok i cb arg :
  two_callers !! i = Some worker -> calls_ok two_callers (fun _ => 1%nat) i (Some i) (again_calls i cb arg).
Proof.
  intros Hi. unfold again_calls. destruct (cb =? 8); [|constructor].
  repeat constructor. by exists worker.
Qed.

(** The ends of a run. *)
Definition ends_with (sched : list (bool * nat)) (σ : sys memory) (P : sys memory -> Prop) : Prop :=
  exists σ', exec sched σ = Some σ' /\ P σ'.
Lemma ends_intro sched σ (P Q : sys memory -> Prop) :
  match exec sched σ with Some σ' => P σ' | None => False end ->
  (forall σ', reachable σ σ' -> P σ' -> Q σ') -> ends_with sched σ Q.
Proof.
  unfold ends_with. destruct (exec sched σ) as [σ'|] eqn:E; [|done]. intros HP HQ. exists σ'.
  split; [done|]. apply HQ; [by eapply exec_reachable|done].
Qed.
Definition is_stuck (σ : sys memory) : bool :=
  forallb (fun i => forallb (fun c => match sys_step c i σ with None => true | Some _ => false end)
    [true; false]) (seq 0 (length (code σ))).
Lemma is_stuck_stuck σ : is_stuck σ = true -> stuck σ.
Proof.
  intros H c i. destruct (decide (i < length (code σ))%nat) as [Hi|Hi].
  - unfold is_stuck in H. rewrite forallb_forall in H. specialize (H i).
    rewrite in_seq in H. specialize (H ltac:(lia)). rewrite forallb_forall in H.
    specialize (H c). destruct (sys_step c i σ); [|done]. discriminate H. destruct c; cbn; auto.
  - unfold sys_step. by rewrite (proj2 (lookup_ge_None _ _)) by lia.
Qed.

Lemma deferred_fifo_witness :
  ends_with half_linked two_callers_start (fun σ =>
    ran_of (sh σ) 1 = [(7, 1)] /\ inserted_for (sh σ) 1 = [(7, 1); (7, 2); (8, 3)] /\
    m_ub (sh σ) = false /\ ran_of (sh σ) 1 `prefix_of` inserted_for (sh σ) 1).
Proof.
  apply (ends_intro _ _ (fun σ => ran_of (sh σ) 1 = [(7, 1)] /\
    inserted_for (sh σ) 1 = [(7, 1); (7, 2); (8, 3)])).
  - vm_compute. split; reflexivity.
  - intros σ Hσ [H1 H2]. split; [exact H1|]. split; [exact H2|].
    destruct (deferred_fifo again_calls fresh_cmd 5 6 0 two_callers (fun _ => 1%nat)
      two_callers_ok fresh_alloc again_calls_ok σ Hσ) as (Hu & Hr & _).
    split; [exact Hu|]. apply (Hr 1%nat). reflexivity.
Defined.

Lemma no_lost_wakeup_witness :
  ends_with whole_run two_callers_start (fun σ =>
    ran_of (sh σ) 1 = [(7, 1); (7, 2); (8, 3); (9, 3)] /\ inserted_by (sh σ) 2 = [(1%nat, (8, 3))] /\
    ran_of (sh σ) 1 = inserted_for (sh σ) 1).
Proof.
  apply (ends_intro _ _ (fun σ =>
    ran_of (sh σ) 1 = [(7, 1); (7, 2); (8, 3); (9, 3)] /\ is_stuck σ = true)).
  - vm_compute. split; reflexivity.
  - intros σ Hσ [H1 H2]. split; [exact H1|].
    destruct (no_lost_wakeup again_calls fresh_cmd 5 6 0 two_callers (fun _ => 1%nat)
      two_callers_ok fresh_alloc again_calls_ok σ Hσ (is_stuck_stuck σ H2)) as [Hr Hc].
    split; [|apply (Hr 1%nat); reflexivity].
    destruct (Hc 2%nat false [(1%nat, (8, 3))] eq_refl) as [_ Hi]. rewrite Hi. reflexivity.
Defined.

(** ** Two workers behind one cache *)

Definition two_workers : list role :=
  [caller true [(1%nat, (7, 1)); (2%nat, (7, 2)); (2%nat, (7, 3)); (1%nat, (7, 4));
                (2%nat, (7, 5)); (2%nat, (7, 6))]; worker; worker].
Definition two_workers_start : sys memory := start (fun _ _ _ => []) fresh_cmd 0 0 0 two_workers.

(** When a thread with a cache feeds two workers, both give its commands
    back to the ring of the one producer and one consumer, and a schedule makes
    the thread read a slot of it that was never written. *)
Theorem cache_race :
  exists σ, reachable two_workers_start σ /\
    m_ub (sh σ) = true.
Proof.
  assert (ends_with
    (turns 24 0 ++ turns 19 1 ++ turns 34 2 ++ turns 16 0 ++ turns 1 1 ++ turns 4 0)
    two_workers_start
    (fun σ => reachable two_workers_start σ /\ m_ub (sh σ) = true)) as (σ & _ & H); [|exists σ; exact H].
  apply (ends_intro _ _ (fun σ => m_ub (sh σ) = true)).
  - vm_compute. reflexivity.
  - intros σ Hσ H. split; [exact Hσ|exact H].
Qed.
