(* ===== verification/EvChoose.v ===== *)
(** * thread.c: the worker evthr_pool_defer chooses

    [pool_choose] (EvThread.v) run by one thread with no other in between. *)

From stdpp Require Import gmap.
From S2P Require Import Prelude Sched EvThread.
#[local] Open Scope Z_scope.

Lemma second_in_range i n : (0 < n -> i < n -> get_second_index_ i n < n)%nat.
Proof.
  intros Hn Hi. unfold get_second_index_. destruct (n <=? 1)%nat; [done|].
  apply Nat.mod_upper_bound. lia.
Qed.

Lemma second_other i n : (1 < n -> i < n -> get_second_index_ i n <> i)%nat.
Proof.
  intros Hn Hi. unfold get_second_index_. destruct (Nat.leb_spec n 1) as [?|_]; [lia|].
  assert (1 <= n / 2 < n)%nat as Hh.
  { split; [apply Nat.div_le_lower_bound; lia|apply Nat.div_lt; lia]. }
  destruct (Nat.eqb_spec (n / 2) 0); [lia|].
  destruct (decide (i + n / 2 < n)%nat) as [Hl|Hl].
  - rewrite Nat.mod_small by done. lia.
  - replace (i + n / 2)%nat with (i + n / 2 - n + 1 * n)%nat by lia.
    rewrite Nat.Div0.mod_add, Nat.mod_small by lia. lia.
Qed.

Lemma alone_get {B} (d : B) t f s e :
  thrs s !! t = Some e -> alone (get_thr d t f) s = Some (f e, s).
Proof. intros E. cbn. rewrite E. cbn. rewrite insert_id by done. by destruct s. Qed.
Lemma alone_bump t s e :
  thrs s !! t = Some e ->
  alone (bump_tail t) s = Some (tt, s <| thrs := <[t := e <| tail := u64 (tail e + 1) |>]> (thrs s) |>).
Proof. intros E. cbn. by rewrite E. Qed.
Lemma alone_bump_ret {B} t s e (b : B) :
  thrs s !! t = Some e ->
  alone (pbind (bump_tail t) (fun _ => Ret b)) s =
  Some (b, s <| thrs := <[t := e <| tail := u64 (tail e + 1) |>]> (thrs s) |>).
Proof. intros E. by rewrite alone_bind, (alone_bump _ _ _ E). Qed.

(** The workers chosen for [k] commands in turn. *)
Fixpoint choices (threads : list nat) (k : nat) (s : memory) : option (list (option nat) * memory) :=
  match k with
  | O => Some ([], s)
  | S k =>
      match choices threads k s with
      | Some (l, s) =>
          match alone (pool_choose threads) s with Some (c, s) => Some (l ++ [c], s) | None => None end
      | None => None
      end
  end.

Section Choose.
Context (threads : list nat) (Hnd : NoDup threads) (Hlen : (1 < length threads)%nat).

(** After [q] rounds and [r] more commands, each worker was given [q] of them,
    and the first [r] one more. *)
Definition rounds (q r : nat) (s : memory) : Prop :=
  (r < length threads)%nat /\
  next_choice s = u32 (Z.of_nat (q * length threads + r)) /\
  forall j t, threads !! j = Some t ->
    exists e, thrs s !! t = Some e /\ tail e = Z.of_nat (if decide (j < r)%nat then S q else q).

Lemma bumped q r s t e :
  rounds q r s -> threads !! r = Some t -> thrs s !! t = Some e -> Z.of_nat (S q) < 2 ^ 64 ->
  forall j v, threads !! j = Some v ->
    exists e', <[t := e <| tail := u64 (tail e + 1) |>]> (thrs s) !! v = Some e' /\
      tail e' = Z.of_nat (if decide (j < S r)%nat then S q else q).
Proof.
  intros (_ & _ & Hr) Ht He Hq j v Hj. destruct (Hr r t Ht) as (e0 & E0 & E1).
  rewrite He in E0. injection E0 as <-. rewrite decide_False in E1 by lia.
  destruct (decide (j = r)) as [->|Hne].
  - rewrite Ht in Hj. injection Hj as <-. rewrite lookup_insert_eq, decide_True by lia.
    eexists. split; [done|]. cbn. rewrite E1. unfold u64. rewrite Z.mod_small by lia. lia.
  - rewrite lookup_insert_ne by (intros <-; apply Hne; by eapply NoDup_lookup).
    destruct (Hr j v Hj) as (e1 & ? & E2). exists e1. split; [done|]. rewrite E2.
    destruct (decide (j < r)%nat), (decide (j < S r)%nat); lia || done.
Qed.

Lemma choice_round q r s :
  rounds q r s -> Z.of_nat (q * length threads + r) < 2 ^ 32 ->
  exists s', alone (pool_choose threads) s = Some (threads !! r, s') /\
    if decide (S r < length threads)%nat then rounds q (S r) s' else rounds (S q) 0 s'.
Proof.
  intros H Hk. pose proof H as (Hrn & Hc & Hr). set (n := length threads) in *.
  destruct (lookup_lt_is_Some_2 threads r Hrn) as [a Ha].
  destruct (lookup_lt_is_Some_2 threads (get_second_index_ r n)) as [b Hb].
  { apply second_in_range; lia. }
  destruct (Hr r a Ha) as (ea & Ea & Ta), (Hr _ b Hb) as (eb & Eb & Tb).
  rewrite decide_False in Ta by lia.
  assert (u32 (Z.of_nat (q * n + r)) = Z.of_nat (q * n + r)) as Hu by (apply Z.mod_small; lia).
  set (s1 := s <| next_choice := u32 (next_choice s + 1) |>).
  exists (s1 <| thrs := <[a := ea <| tail := u64 (tail ea + 1) |>]> (thrs s1) |>). split.
  - unfold pool_choose. rewrite alone_bind. cbn [alone take_ticket atomic]. fold s1 n.
    replace (Z.to_nat (next_choice s mod Z.of_nat n)) with r.
    2:{ rewrite Hc, Hu, <- Nat2Z.inj_mod, Nat2Z.id, Nat.add_comm, Nat.Div0.mod_add.
        by rewrite Nat.mod_small. }
    rewrite Ha, Hb. unfold load_tail. rewrite alone_bind, (alone_get _ _ _ s1 ea) by done.
    destruct (Z.eqb_spec (tail ea) 0) as [E0|E0]; [by apply alone_bump_ret|].
    rewrite alone_bind, (alone_get _ _ _ s1 eb) by done.
    assert (tail ea <= tail eb) as Hle by (rewrite Ta, Tb; case_decide; lia).
    destruct (Z.eqb_spec (tail eb) 0); [lia|]. rewrite (proj2 (Z.leb_le _ _) Hle).
    by apply alone_bump_ret.
  - assert (u32 (next_choice s + 1) = u32 (Z.of_nat (q * n + S r))) as Hnext.
    { rewrite Hc, Hu. f_equal. lia. }
    assert (Z.of_nat (S q) < 2 ^ 64) as Hq by nia.
    pose proof (bumped q r s a ea H Ha Ea Hq) as Hb'.
    destruct (decide (S r < n)%nat) as [Hs|Hs]; unfold rounds; fold n; (split; [lia|]);
      (split; [cbn; rewrite Hnext; f_equal; lia|]); [exact Hb'|].
    intros j t Hj. destruct (Hb' j t Hj) as (e' & E' & T'). exists e'. split; [exact E'|].
    apply lookup_lt_Some in Hj. rewrite decide_True in T' by lia. by rewrite decide_False by lia.
Qed.

Lemma choices_rounds k s :
  rounds 0 0 s -> Z.of_nat k <= 2 ^ 32 ->
  exists s', choices threads k s = Some ((fun m => threads !! (m mod length threads)%nat) <$> seq 0 k, s') /\
    rounds (k / length threads) (k mod length threads) s'.
Proof.
  intros H0. induction k as [|k IH]; intros Hk.
  - exists s. split; [done|]. by rewrite Nat.Div0.div_0_l, Nat.Div0.mod_0_l.
  - destruct IH as (s' & E & H); [lia|]. set (n := length threads) in *.
    assert (k = (k / n) * n + k mod n)%nat as Ek by (rewrite Nat.mul_comm; apply Nat.div_mod_eq).
    destruct (choice_round _ _ _ H) as (s2 & E2 & H2); [fold n; rewrite <- Ek; lia|].
    exists s2. split.
    + cbn [choices]. rewrite E, E2, seq_S, fmap_app. done.
    + fold n in H2. destruct (decide (S (k mod n) < n)%nat) as [Hs|Hs].
      * rewrite <- (Nat.div_unique (S k) n (k / n) (S (k mod n))), 
          <- (Nat.mod_unique (S k) n (k / n) (S (k mod n))) by lia. done.
      * assert (S (k mod n) = n) as En by (pose proof (Nat.mod_upper_bound k n); lia).
        rewrite <- (Nat.div_unique (S k) n (S (k / n)) 0), 
          <- (Nat.mod_unique (S k) n (S (k / n)) 0) by lia. done.
Qed.

(** A pool whose commands are all deferred by one thread with no other in
    between hands them to its workers in turn: the counters it compares are
    never lowered, so the second worker is never the better one. *)
Theorem pool_round_robin k s :
  next_choice s = 0 ->
  (forall t, t ∈ threads -> exists e, thrs s !! t = Some e /\ tail e = 0) ->
  Z.of_nat k <= 2 ^ 32 ->
  fst <$> choices threads k s = Some ((fun m => threads !! (m mod length threads)%nat) <$> seq 0 k).
Proof.
  intros H0 Ht Hk. destruct (choices_rounds k s) as (s' & -> & _); [|done|done].
  split; [lia|]. split; [done|]. intros j t Hj. destruct (Ht t) as (e & ? & ?).
  - by eapply list_elem_of_lookup_2.
  - exists e. by rewrite decide_False by lia.
Qed.
End Choose.

(** Three workers of a new pool. *)
Definition three_workers : memory := start_memory 0 0 0 [caller true []; worker; worker; worker].
Lemma pool_round_robin_witness :
  fst <$> choices [1; 2; 3]%nat 7 three_workers =
    Some (Some <$> [1; 2; 3; 1; 2; 3; 1]%nat).
Proof.
  apply (pool_round_robin [1; 2; 3]%nat).
  - apply (bool_decide_unpack _). reflexivity.
  - cbn. lia.
  - reflexivity.
  - intros t Ht. assert (t = 1 \/ t = 2 \/ t = 3)%nat as Hc by set_solver.
    destruct Hc as [->|[->| ->]]; eexists; split; reflexivity.
  - lia.
Defined.
